(** * CAVE simulator: off-axis projection, frame loop and texture loading

    A shallow embedding of the C++ sources under [Minimal/] (main.cpp,
    Cave.cpp) together with the properties the design specification states
    about them.

    Conventions.
    - [float] values are idealised as real numbers ([R]): arithmetic is
      exact, rounding and the special values of IEEE arithmetic are not
      modelled.  Division is Rocq's total division on [R].
    - GLM vectors and matrices are records; [mat4] is column-major exactly
      as in GLM ([m[c]] is column [c], [m[c][r]] its entry in row [r]).
    - The graphics backend is a recorder: every call the render thread
      issues is appended to a trace, in program order.  *)

From Stdlib Require Import Reals Lra Psatz.
From Stdlib Require Import ZArith Lia List Bool.
From Stdlib Require Import Ascii String.
Import ListNotations.

(* ================================================================== *)
(** * GLM: the vector and matrix operations the program uses          *)
(* ================================================================== *)

Module Glm.
Local Open Scope R_scope.

Record vec3 : Type := mkVec3 { v3x : R; v3y : R; v3z : R }.
Record vec4 : Type := mkVec4 { v4x : R; v4y : R; v4z : R; v4w : R }.

(** [mat4] holds four columns, as GLM's [mat<4,4>] does. *)
Record mat4 : Type := mkMat4 { col0 : vec4; col1 : vec4; col2 : vec4; col3 : vec4 }.

Definition vadd (a b : vec3) : vec3 :=
  mkVec3 (v3x a + v3x b) (v3y a + v3y b) (v3z a + v3z b).
Definition vsub (a b : vec3) : vec3 :=
  mkVec3 (v3x a - v3x b) (v3y a - v3y b) (v3z a - v3z b).
Definition vscale (a : vec3) (s : R) : vec3 :=
  mkVec3 (v3x a * s) (v3y a * s) (v3z a * s).

(** [glm::dot], [glm::cross], [glm::length]. *)
Definition dot (a b : vec3) : R := v3x a * v3x b + v3y a * v3y b + v3z a * v3z b.
Definition cross (a b : vec3) : vec3 :=
  mkVec3 (v3y a * v3z b - v3y b * v3z a)
         (v3z a * v3x b - v3z b * v3x a)
         (v3x a * v3y b - v3x b * v3y a).
Definition length (a : vec3) : R := sqrt (dot a a).

(** [glm::inversesqrt] and [glm::normalize]: [v * inversesqrt(dot(v, v))]. *)
Definition inversesqrt (s : R) : R := 1 / sqrt s.
Definition normalize (a : vec3) : vec3 := vscale a (inversesqrt (dot a a)).

(** vec4 arithmetic used by the matrix product. *)
Definition add4 (a b : vec4) : vec4 :=
  mkVec4 (v4x a + v4x b) (v4y a + v4y b) (v4z a + v4z b) (v4w a + v4w b).
Definition scale4 (a : vec4) (s : R) : vec4 :=
  mkVec4 (v4x a * s) (v4y a * s) (v4z a * s) (v4w a * s).

(** [glm::mat4(x0, y0, z0, w0, x1, ...)]: sixteen scalars, column by column. *)
Definition mat4_of (x0 y0 z0 w0 x1 y1 z1 w1 x2 y2 z2 w2 x3 y3 z3 w3 : R) : mat4 :=
  mkMat4 (mkVec4 x0 y0 z0 w0) (mkVec4 x1 y1 z1 w1)
         (mkVec4 x2 y2 z2 w2) (mkVec4 x3 y3 z3 w3).

(** [glm::mat4(s)]: [s] on the diagonal. *)
Definition mat4_diag (s : R) : mat4 :=
  mat4_of s 0 0 0  0 s 0 0  0 0 s 0  0 0 0 s.

(** [glm::transpose]. *)
Definition transpose (m : mat4) : mat4 :=
  mat4_of (v4x (col0 m)) (v4x (col1 m)) (v4x (col2 m)) (v4x (col3 m))
          (v4y (col0 m)) (v4y (col1 m)) (v4y (col2 m)) (v4y (col3 m))
          (v4z (col0 m)) (v4z (col1 m)) (v4z (col2 m)) (v4z (col3 m))
          (v4w (col0 m)) (v4w (col1 m)) (v4w (col2 m)) (v4w (col3 m)).

(** [m * v]: the linear combination of the columns of [m]. *)
Definition mul_vec (m : mat4) (v : vec4) : vec4 :=
  add4 (add4 (add4 (scale4 (col0 m) (v4x v)) (scale4 (col1 m) (v4y v)))
             (scale4 (col2 m) (v4z v)))
       (scale4 (col3 m) (v4w v)).

(** [m1 * m2]: column [j] of the product is [m1] applied to column [j] of [m2]. *)
Definition mul (m1 m2 : mat4) : mat4 :=
  mkMat4 (mul_vec m1 (col0 m2)) (mul_vec m1 (col1 m2))
         (mul_vec m1 (col2 m2)) (mul_vec m1 (col3 m2)).

(** [glm::translate(m, v)]: [Result = m; Result[3] = m[0]*v[0] + m[1]*v[1] + m[2]*v[2] + m[3]],
    and the one-argument [glm::translate(v)] of gtx/transform, which starts
    from the identity. *)
Definition translate_m (m : mat4) (v : vec3) : mat4 :=
  mkMat4 (col0 m) (col1 m) (col2 m)
         (add4 (add4 (add4 (scale4 (col0 m) (v3x v)) (scale4 (col1 m) (v3y v)))
                     (scale4 (col2 m) (v3z v)))
               (col3 m)).
Definition translate (v : vec3) : mat4 := translate_m (mat4_diag 1) v.

(** [glm::frustum(left, right, bottom, top, near, far)] (right-handed,
    depth range -1..1, GLM's default): a zero matrix with seven entries set. *)
Definition frustum (left right bottom top nearVal farVal : R) : mat4 :=
  mkMat4
    (mkVec4 ((2 * nearVal) / (right - left)) 0 0 0)
    (mkVec4 0 ((2 * nearVal) / (top - bottom)) 0 0)
    (mkVec4 ((right + left) / (right - left))
            ((top + bottom) / (top - bottom))
            (- (farVal + nearVal) / (farVal - nearVal))
            (-1))
    (mkVec4 0 0 (- (2 * farVal * nearVal) / (farVal - nearVal)) 0).

(** [glm::scale(m, v)]: the first three columns scaled. *)
Definition scale_m (m : mat4) (v : vec3) : mat4 :=
  mkMat4 (scale4 (col0 m) (v3x v)) (scale4 (col1 m) (v3y v))
         (scale4 (col2 m) (v3z v)) (col3 m).

(** Component-wise product and difference of [vec4], used by [glm::inverse]. *)
Definition mul4 (a b : vec4) : vec4 :=
  mkVec4 (v4x a * v4x b) (v4y a * v4y b) (v4z a * v4z b) (v4w a * v4w b).
Definition sub4 (a b : vec4) : vec4 :=
  mkVec4 (v4x a - v4x b) (v4y a - v4y b) (v4z a - v4z b) (v4w a - v4w b).

(** [glm::inverse] on [mat4].  The body first builds the signed cofactor
    columns and the determinant [Dot1] ([cofactors]), then scales by
    [1 / Dot1]. *)
Definition cofactors (m : mat4) : mat4 * R :=
  let m00 := v4x (col0 m) in let m01 := v4y (col0 m) in
  let m02 := v4z (col0 m) in let m03 := v4w (col0 m) in
  let m10 := v4x (col1 m) in let m11 := v4y (col1 m) in
  let m12 := v4z (col1 m) in let m13 := v4w (col1 m) in
  let m20 := v4x (col2 m) in let m21 := v4y (col2 m) in
  let m22 := v4z (col2 m) in let m23 := v4w (col2 m) in
  let m30 := v4x (col3 m) in let m31 := v4y (col3 m) in
  let m32 := v4z (col3 m) in let m33 := v4w (col3 m) in
  let Coef00 := m22 * m33 - m32 * m23 in
  let Coef02 := m12 * m33 - m32 * m13 in
  let Coef03 := m12 * m23 - m22 * m13 in
  let Coef04 := m21 * m33 - m31 * m23 in
  let Coef06 := m11 * m33 - m31 * m13 in
  let Coef07 := m11 * m23 - m21 * m13 in
  let Coef08 := m21 * m32 - m31 * m22 in
  let Coef10 := m11 * m32 - m31 * m12 in
  let Coef11 := m11 * m22 - m21 * m12 in
  let Coef12 := m20 * m33 - m30 * m23 in
  let Coef14 := m10 * m33 - m30 * m13 in
  let Coef15 := m10 * m23 - m20 * m13 in
  let Coef16 := m20 * m32 - m30 * m22 in
  let Coef18 := m10 * m32 - m30 * m12 in
  let Coef19 := m10 * m22 - m20 * m12 in
  let Coef20 := m20 * m31 - m30 * m21 in
  let Coef22 := m10 * m31 - m30 * m11 in
  let Coef23 := m10 * m21 - m20 * m11 in
  let Fac0 := mkVec4 Coef00 Coef00 Coef02 Coef03 in
  let Fac1 := mkVec4 Coef04 Coef04 Coef06 Coef07 in
  let Fac2 := mkVec4 Coef08 Coef08 Coef10 Coef11 in
  let Fac3 := mkVec4 Coef12 Coef12 Coef14 Coef15 in
  let Fac4 := mkVec4 Coef16 Coef16 Coef18 Coef19 in
  let Fac5 := mkVec4 Coef20 Coef20 Coef22 Coef23 in
  let Vec0 := mkVec4 m10 m00 m00 m00 in
  let Vec1 := mkVec4 m11 m01 m01 m01 in
  let Vec2 := mkVec4 m12 m02 m02 m02 in
  let Vec3 := mkVec4 m13 m03 m03 m03 in
  let Inv0 := add4 (sub4 (mul4 Vec1 Fac0) (mul4 Vec2 Fac1)) (mul4 Vec3 Fac2) in
  let Inv1 := add4 (sub4 (mul4 Vec0 Fac0) (mul4 Vec2 Fac3)) (mul4 Vec3 Fac4) in
  let Inv2 := add4 (sub4 (mul4 Vec0 Fac1) (mul4 Vec1 Fac3)) (mul4 Vec3 Fac5) in
  let Inv3 := add4 (sub4 (mul4 Vec0 Fac2) (mul4 Vec1 Fac4)) (mul4 Vec2 Fac5) in
  let SignA := mkVec4 1 (-1) 1 (-1) in
  let SignB := mkVec4 (-1) 1 (-1) 1 in
  let I0 := mul4 Inv0 SignA in
  let I1 := mul4 Inv1 SignB in
  let I2 := mul4 Inv2 SignA in
  let I3 := mul4 Inv3 SignB in
  let Row0 := mkVec4 (v4x I0) (v4x I1) (v4x I2) (v4x I3) in
  let Dot0 := mul4 (col0 m) Row0 in
  let Dot1 := (v4x Dot0 + v4y Dot0) + (v4z Dot0 + v4w Dot0) in
  (mkMat4 I0 I1 I2 I3, Dot1).

Definition inverse (m : mat4) : mat4 :=
  let Inverse := fst (cofactors m) in
  let OneOverDeterminant := 1 / snd (cofactors m) in
  mkMat4 (scale4 (col0 Inverse) OneOverDeterminant)
         (scale4 (col1 Inverse) OneOverDeterminant)
         (scale4 (col2 Inverse) OneOverDeterminant)
         (scale4 (col3 Inverse) OneOverDeterminant).

(** Row [i], column [j] of a [mat4] (zero outside the 4x4 range). *)
Definition comp4 (v : vec4) (i : nat) : R :=
  match i with
  | 0%nat => v4x v | 1%nat => v4y v | 2%nat => v4z v | 3%nat => v4w v
  | _ => 0
  end.
Definition column (m : mat4) (j : nat) : vec4 :=
  match j with
  | 0%nat => col0 m | 1%nat => col1 m | 2%nat => col2 m | 3%nat => col3 m
  | _ => mkVec4 0 0 0 0
  end.
Definition entry (m : mat4) (i j : nat) : R := comp4 (column m j) i.

End Glm.

(* ================================================================== *)
(** * SimScene::getProjection (main.cpp)                              *)
(* ================================================================== *)

Module OffAxis.
Import Glm.
Local Open Scope R_scope.

(** The three basis vectors computed at the top of [getProjection]. *)
Record Basis : Type := mkBasis { vr : vec3; vu : vec3; vn : vec3 }.

Definition planeBasis (pa pb pc : vec3) : Basis :=
  let vr := normalize (vsub pb pa) in
  let vu := normalize (vsub pc pa) in
  let vn := normalize (cross vr vu) in
  mkBasis vr vu vn.

(** The locals [d], [l], [r], [b], [t] of [getProjection]. *)
Record Bounds : Type := mkBounds { fd : R; fl : R; fr : R; fb : R; ft : R }.

Definition frustumBounds (eyePos pa pb pc : vec3) (n : R) : Bounds :=
  let B := planeBasis pa pb pc in
  let va := vsub pa eyePos in
  let vb := vsub pb eyePos in
  let vc := vsub pc eyePos in
  let d := - dot (vn B) va in
  let l := dot (vr B) va * n / d in
  let r := dot (vr B) vb * n / d in
  let b := dot (vu B) va * n / d in
  let t := dot (vu B) vc * n / d in
  mkBounds d l r b t.

(** The matrix literal first stored in [P]; the next statement overwrites it
    with [glm::frustum], so it never reaches the result. *)
Definition P_literal (l r b t n f : R) : mat4 :=
  mat4_of (2 * n / (r - l)) 0 0 0
          0 (2 * n / (t - b)) 0 0
          ((r + l) / (r - l)) ((t + b) / (t - b)) (- (f + n) / (f - n)) (-1)
          0 0 (-2 * f * n / (f - n)) 0.

Definition getProjection (eyePos pa pb pc : vec3) (n f : R) : mat4 :=
  let B := planeBasis pa pb pc in
  let F := frustumBounds eyePos pa pb pc n in
  let P := P_literal (fl F) (fr F) (fb F) (ft F) n f in
  let P := frustum (fl F) (fr F) (fb F) (ft F) n f in
  let M := mat4_of (v3x (vr B)) (v3y (vr B)) (v3z (vr B)) 0
                   (v3x (vu B)) (v3y (vu B)) (v3z (vu B)) 0
                   (v3x (vn B)) (v3y (vn B)) (v3z (vn B)) 0
                   0 0 0 1 in
  let T := translate (mkVec3 (- v3x eyePos) (- v3y eyePos) (- v3z eyePos)) in
  mul (mul P (transpose M)) T.

(** ** The specification's vocabulary

    Matrices as the specification writes them: a table of entries indexed by
    row and column, with the usual row-by-column product. *)

Definition smat : Type := nat -> nat -> R.

Definition sprod (A B : smat) : smat :=
  fun i j => A i 0%nat * B 0%nat j + A i 1%nat * B 1%nat j
           + A i 2%nat * B 2%nat j + A i 3%nat * B 3%nat j.

Definition stranspose (A : smat) : smat := fun i j => A j i.

Definition rows (r0 r1 r2 r3 : nat -> R) : smat :=
  fun i => match i with
           | 0%nat => r0 | 1%nat => r1 | 2%nat => r2 | 3%nat => r3
           | _ => fun _ => 0
           end.
Definition row (a b c d : R) : nat -> R :=
  fun j => match j with
           | 0%nat => a | 1%nat => b | 2%nat => c | 3%nat => d
           | _ => 0
           end.

(** The standard asymmetric-frustum perspective matrix of (l, r, b, t, n, f). *)
Definition frustum_std (l r b t n f : R) : smat :=
  rows (row (2 * n / (r - l)) 0 ((r + l) / (r - l)) 0)
       (row 0 (2 * n / (t - b)) ((t + b) / (t - b)) 0)
       (row 0 0 (- (f + n) / (f - n)) (- (2 * f * n) / (f - n)))
       (row 0 0 (-1) 0).

(** The basis matrix M of {vr, vu, vn}: the three vectors are its columns. *)
Definition basis_std (B : Basis) : smat :=
  rows (row (v3x (vr B)) (v3x (vu B)) (v3x (vn B)) 0)
       (row (v3y (vr B)) (v3y (vu B)) (v3y (vn B)) 0)
       (row (v3z (vr B)) (v3z (vu B)) (v3z (vn B)) 0)
       (row 0 0 0 1).

(** The translation by a vector [v]. *)
Definition translation_std (v : vec3) : smat :=
  rows (row 1 0 0 (v3x v))
       (row 0 1 0 (v3y v))
       (row 0 0 1 (v3z v))
       (row 0 0 0 1).

Definition vneg (v : vec3) : vec3 := mkVec3 (- v3x v) (- v3y v) (- v3z v).

(** P * transpose(M) * T, as the specification states it. *)
Definition projection_spec (e pa pb pc : vec3) (n f : R) : smat :=
  let B := planeBasis pa pb pc in
  let va := vsub pa e in
  let vb := vsub pb e in
  let vc := vsub pc e in
  let d := - dot (vn B) va in
  let l := dot (vr B) va * n / d in
  let r := dot (vr B) vb * n / d in
  let b := dot (vu B) va * n / d in
  let t := dot (vu B) vc * n / d in
  sprod (sprod (frustum_std l r b t n f) (stranspose (basis_std B)))
        (translation_std (vneg e)).

(** A face: the corners are distinct from [pa] and the edges meet at a right
    angle there. *)
Definition right_angle_at (pa pb pc : vec3) : Prop :=
  pb <> pa /\ pc <> pa /\ dot (vsub pb pa) (vsub pc pa) = 0.

(** The eye lies strictly on the side of the face plane its normal points to. *)
Definition in_front (e pa pb pc : vec3) : Prop :=
  0 < - dot (vn (planeBasis pa pb pc)) (vsub pa e).

(** Orthonormality of a basis up to a tolerance [tol]. *)
Definition orthonormal_within (tol : R) (B : Basis) : Prop :=
  Rabs (length (vr B) - 1) <= tol /\
  Rabs (length (vu B) - 1) <= tol /\
  Rabs (length (vn B) - 1) <= tol /\
  Rabs (dot (vr B) (vu B)) <= tol /\
  Rabs (dot (vr B) (vn B)) <= tol /\
  Rabs (dot (vu B) (vn B)) <= tol.

Definition orthonormal (B : Basis) : Prop :=
  length (vr B) = 1 /\ length (vu B) = 1 /\ length (vn B) = 1 /\
  dot (vr B) (vu B) = 0 /\ dot (vr B) (vn B) = 0 /\ dot (vu B) (vn B) = 0.

(** A displacement parallel to the face plane: no component along the normal. *)
Definition parallel_to_face (pa pb pc w : vec3) : Prop :=
  dot (vn (planeBasis pa pb pc)) w = 0.

End OffAxis.

(* ================================================================== *)
(** * The tracking runtime's data and the recorded calls              *)
(* ================================================================== *)

Module Ovr.
Import Glm.
Local Open Scope R_scope.

Record ovrVector3f : Type := mkOvrVector3f { ovx : R; ovy : R; ovz : R }.
Record ovrVector2f : Type := mkOvrVector2f { o2x : R; o2y : R }.
Record ovrQuatf : Type := mkOvrQuatf { oqx : R; oqy : R; oqz : R; oqw : R }.
Record ovrPosef : Type := mkOvrPosef { Orientation : ovrQuatf; Position : ovrVector3f }.
Record ovrRecti : Type := mkOvrRecti { Pos_x : Z; Pos_y : Z; Size_w : Z; Size_h : Z }.

Inductive ovrEyeType : Type := ovrEye_Left | ovrEye_Right.

Definition eye_eqb (a b : ovrEyeType) : bool :=
  match a, b with
  | ovrEye_Left, ovrEye_Left | ovrEye_Right, ovrEye_Right => true
  | _, _ => false
  end.

(** A two-element array indexed by the eye ([T x[2]] in the source). *)
Record PerEye (A : Type) : Type := mkPerEye { atLeft : A; atRight : A }.
Arguments mkPerEye {A}.
Arguments atLeft {A}.
Arguments atRight {A}.

Definition at_eye {A} (p : PerEye A) (eye : ovrEyeType) : A :=
  match eye with ovrEye_Left => atLeft p | ovrEye_Right => atRight p end.
Definition set_eye {A} (p : PerEye A) (eye : ovrEyeType) (a : A) : PerEye A :=
  match eye with
  | ovrEye_Left => mkPerEye a (atRight p)
  | ovrEye_Right => mkPerEye (atLeft p) a
  end.

(** [ovrInputState], the fields the program reads. *)
Record ovrInputState : Type := mkInputState {
  Buttons : Z;
  HandTrigger : PerEye R;        (* indexed by hand: left, right *)
  Thumbstick : PerEye ovrVector2f
}.

(** Button masks of the tracking runtime's header. *)
Definition ovrButton_A : Z := 1.
Definition ovrButton_B : Z := 2.
Definition ovrButton_RThumb : Z := 4.
Definition ovrButton_X : Z := 256.
Definition ovrButton_LThumb : Z := 1024.

(** [inputState.Buttons & mask], as a C condition. *)
Definition button_down (i : ovrInputState) (mask : Z) : bool :=
  negb (Z.land (Buttons i) mask =? 0)%Z.

(** [glm::mat4_cast]: the rotation matrix of a quaternion. *)
Definition mat4_cast (q : ovrQuatf) : mat4 :=
  let qxx := oqx q * oqx q in
  let qyy := oqy q * oqy q in
  let qzz := oqz q * oqz q in
  let qxz := oqx q * oqz q in
  let qxy := oqx q * oqy q in
  let qyz := oqy q * oqz q in
  let qwx := oqw q * oqx q in
  let qwy := oqw q * oqy q in
  let qwz := oqw q * oqz q in
  mat4_of (1 - 2 * (qyy + qzz)) (2 * (qxy + qwz)) (2 * (qxz - qwy)) 0
          (2 * (qxy - qwz)) (1 - 2 * (qxx + qzz)) (2 * (qyz + qwx)) 0
          (2 * (qxz + qwy)) (2 * (qyz - qwx)) (1 - 2 * (qxx + qyy)) 0
          0 0 0 1.

(** [ovr::toGlm] on a vector and on a pose: [translation * orientation]
    ([mat4()] is the identity in the GLM release the program is written for). *)
Definition toGlm_vec (v : ovrVector3f) : vec3 := mkVec3 (ovx v) (ovy v) (ovz v).
Definition toGlm (op : ovrPosef) : mat4 :=
  let orientation := mat4_cast (Orientation op) in
  let translation := translate_m (mat4_diag 1) (toGlm_vec (Position op)) in
  mul translation orientation.

End Ovr.

Module Gl.
Import Glm Ovr.
Local Open Scope R_scope.

Inductive fbTarget : Type := GL_FRAMEBUFFER | GL_DRAW_FRAMEBUFFER | GL_READ_FRAMEBUFFER.
Inductive drawMode : Type := GL_TRIANGLES | GL_LINES.
Inductive skyboxId : Type := the_skybox | the_riftskybox.

(** One entry of the recorder: a graphics call, a call into the tracking
    runtime, a call of one of the scene objects whose source is not part of
    the program text at hand ([Skybox], [Cube]), or the entry of one of the
    application's own pass functions with its arguments. *)
Inductive event : Type :=
| glBindFramebuffer (target : fbTarget) (fbo : Z)
| glFramebufferTexture2D (target : fbTarget) (tex : Z)
| glBlitFramebuffer
| glViewport (x y w h : Z)
| glClearColor (r g b a : R)
| glClear
| glUseProgram (prog : Z)
| glUniformMatrix4fv (prog : Z) (name : string) (m : mat4)
| glUniform1i (prog : Z) (name : string) (v : Z)
| glUniform3f (prog : Z) (name : string) (r g b : R)
| glActiveTexture0
| glBindTexture (tex : Z)
| glBindVertexArray (vao : Z)
| glBindBuffer (buf : Z)
| glBufferData (p1 p2 : vec3)
| glEnableVertexAttribArray (idx : Z)
| glVertexAttribPointer (idx : Z)
| glLineWidth (w : R)
| glDrawArrays (mode : drawMode) (first count : Z)
| Skybox_draw (s : skyboxId) (prog : Z) (P V : mat4)
| Skybox_useCubemap (s : skyboxId) (eyeIdx : Z)
| Cube_draw (prog : Z) (P V : mat4)
| ovr_GetEyePoses (offsets : PerEye ovrVector3f)
| ovr_CommitTextureSwapChain
| ovr_SubmitFrame
| call_currentEye (eye : ovrEyeType)
| call_offscreenRender (projection headPose : mat4) (fbo : Z) (vp : ovrRecti) (eyePos : vec3)
| call_preRender (projection modelview : mat4) (fbo : Z) (vp : ovrRecti) (eyePos : vec3)
| call_renderScene (projection headPose : mat4) (eyePos : vec3)
| call_render (projection modelview : mat4) (eyePos : vec3).

(** ** A state-and-recorder monad

    [Act S A] is a computation over a mutable object of type [S] that
    returns an [A] and appends its calls to the recorder. *)
Definition Act (S A : Type) : Type := S -> A * S * list event.

Definition ret {S A} (a : A) : Act S A := fun s => (a, s, []).
Definition bind {S A B} (m : Act S A) (k : A -> Act S B) : Act S B :=
  fun s => let '(a, s1, t1) := m s in
           let '(b, s2, t2) := k a s1 in
           (b, s2, t1 ++ t2).
Definition get {S} : Act S S := fun s => (s, s, []).
Definition modify {S} (f : S -> S) : Act S unit := fun s => (tt, f s, []).
Definition emit {S} (e : event) : Act S unit := fun s => (tt, s, [e]).
Definition when {S} (c : bool) (m : Act S unit) : Act S unit :=
  if c then m else ret tt.

(** Run an action of a member object inside its owner. *)
Definition zoom {S T A} (proj : T -> S) (inj : S -> T -> T) (m : Act S A) : Act T A :=
  fun t => let '(a, s, tr) := m (proj t) in (a, inj s t, tr).

Definition result_of {S A} (r : A * S * list event) : A := fst (fst r).
Definition state_of {S A} (r : A * S * list event) : S := snd (fst r).
Definition trace_of {S A} (r : A * S * list event) : list event := snd r.

End Gl.

Declare Scope act_scope.
Delimit Scope act_scope with act.
Notation "x <- m ;; k" := (Gl.bind m (fun x => k))
  (at level 61, m at next level, right associativity) : act_scope.
Notation "m ;; k" := (Gl.bind m (fun _ => k))
  (at level 61, right associativity) : act_scope.

(* ================================================================== *)
(** * The scene objects: Line, Cave, SimScene                         *)
(* ================================================================== *)

Module Scene.
Import Glm Ovr Gl OffAxis.
Local Open Scope Z_scope.
Local Open Scope R_scope.
Local Open Scope string_scope.
Local Open Scope act_scope.

(** ** Line (Line.cpp) *)

Record Line : Type := mkLine { VAO : Z; VBO : Z; pressed : bool; Line_toWorld : mat4 }.

Definition Line_draw (shaderProgram : Z) (P V : mat4) : Act Line unit :=
  l <- get ;;
  emit (glLineWidth 10) ;;
  (if negb (pressed l) then emit (glUniform3f shaderProgram "material.ambient" 0 1 0)
   else emit (glUniform3f shaderProgram "material.ambient" 1 0 0)) ;;
  (if negb (pressed l) then emit (glUniform3f shaderProgram "material.diffuse" 0 1 0)
   else emit (glUniform3f shaderProgram "material.diffuse" 1 0 0)) ;;
  emit (glUniformMatrix4fv shaderProgram "projection" P) ;;
  emit (glUniformMatrix4fv shaderProgram "model" V) ;;
  emit (glUniformMatrix4fv shaderProgram "view" (Line_toWorld l)) ;;
  emit (glBindVertexArray (VAO l)) ;;
  emit (glDrawArrays GL_LINES 0 2) ;;
  emit (glBindVertexArray 0%Z).

Definition Line_update (p1 p2 : vec3) (p : bool) : Act Line unit :=
  modify (fun l => mkLine (VAO l) (VBO l) p (Line_toWorld l)) ;;
  l <- get ;;
  emit (glBindVertexArray (VAO l)) ;;
  emit (glBindBuffer (VBO l)) ;;
  emit (glBufferData p1 p2) ;;
  emit (glEnableVertexAttribArray 0%Z) ;;
  emit (glVertexAttribPointer 0%Z) ;;
  emit (glBindBuffer 0%Z) ;;
  emit (glBindVertexArray 0%Z).

(** ** Cave (Cave.cpp) *)

Record Cave : Type := mkCave {
  toWorld : mat4;
  lVAO : Z; luv_ID : Z;
  rVAO : Z; ruv_ID : Z;
  bVAO : Z; buv_ID : Z
}.

Definition set_toWorld (m : mat4) (c : Cave) : Cave :=
  mkCave m (lVAO c) (luv_ID c) (rVAO c) (ruv_ID c) (bVAO c) (buv_ID c).

Definition Cave_draw (shaderProgram : Z) (P V : mat4) (left right bottom : Z)
  : Act Cave unit :=
  c <- get ;;
  emit (glUniformMatrix4fv shaderProgram "projection" P) ;;
  emit (glUniformMatrix4fv shaderProgram "model" V) ;;
  emit (glUniformMatrix4fv shaderProgram "view" (toWorld c)) ;;
  emit (glUniform1i shaderProgram "myTextureSampler" 0%Z) ;;
  emit glActiveTexture0 ;;
  emit (glBindTexture left) ;;
  emit (glBindVertexArray (lVAO c)) ;;
  emit (glBindBuffer (luv_ID c)) ;;
  emit (glDrawArrays GL_TRIANGLES 0 (2 * 3)) ;;
  emit glActiveTexture0 ;;
  emit (glBindTexture right) ;;
  emit (glBindVertexArray (rVAO c)) ;;
  emit (glBindBuffer (ruv_ID c)) ;;
  emit (glDrawArrays GL_TRIANGLES 0 (2 * 3)) ;;
  emit glActiveTexture0 ;;
  emit (glBindTexture bottom) ;;
  emit (glBindVertexArray (bVAO c)) ;;
  emit (glBindBuffer (buv_ID c)) ;;
  emit (glDrawArrays GL_TRIANGLES 0 (2 * 3)) ;;
  emit (glBindVertexArray 0%Z).

(** ** SimScene (main.cpp) *)

Inductive lineId : Type :=
| linel1 | linel2 | linel3 | linel4 | linel5 | linel6 | linel7
| liner1 | liner2 | liner3 | liner4 | liner5 | liner6 | liner7.

Definition lineId_eqb (a b : lineId) : bool :=
  match a, b with
  | linel1, linel1 | linel2, linel2 | linel3, linel3 | linel4, linel4
  | linel5, linel5 | linel6, linel6 | linel7, linel7
  | liner1, liner1 | liner2, liner2 | liner3, liner3 | liner4, liner4
  | liner5, liner5 | liner6, liner6 | liner7, liner7 => true
  | _, _ => false
  end.

(** The scene.  [rand_stream] and [rand_calls] stand for the C library's
    generator, which only the scene draws from: the [k]-th call of [rand()]
    returns [rand_stream k]. *)
Record SimScene : Type := mkSimScene {
  cave : Cave;
  cube_toWorld : mat4;
  lines : lineId -> Line;
  cubeShaderProgram : Z;
  skyboxShaderProgram : Z;
  lineShaderProgram : Z;
  buttonAPressed : bool;
  buttonBPressed : bool;
  buttonXPressed : bool;
  rightHandTriggerPressed : bool;
  buttonA : Z;
  buttonB : Z;
  buttonX : Z;
  IOD : R;
  cubeSize : R;
  cubeX : R;
  cubeZ : R;
  random_num : Z;
  randomGened : bool;
  curEyeIdx : Z;
  lFBO : Z;
  lrenderedTexture : Z;
  rFBO : Z;
  rrenderedTexture : Z;
  bFBO : Z;
  brenderedTexture : Z;
  rand_stream : nat -> Z;
  rand_calls : nat
}.

Definition set_cave (v : Cave) (s : SimScene) : SimScene :=
  mkSimScene v (cube_toWorld s) (lines s) (cubeShaderProgram s) (skyboxShaderProgram s) (lineShaderProgram s) (buttonAPressed s) (buttonBPressed s) (buttonXPressed s) (rightHandTriggerPressed s) (buttonA s) (buttonB s) (buttonX s) (IOD s) (cubeSize s) (cubeX s) (cubeZ s) (random_num s) (randomGened s) (curEyeIdx s) (lFBO s) (lrenderedTexture s) (rFBO s) (rrenderedTexture s) (bFBO s) (brenderedTexture s) (rand_stream s) (rand_calls s).
Definition set_cube_toWorld (v : mat4) (s : SimScene) : SimScene :=
  mkSimScene (cave s) v (lines s) (cubeShaderProgram s) (skyboxShaderProgram s) (lineShaderProgram s) (buttonAPressed s) (buttonBPressed s) (buttonXPressed s) (rightHandTriggerPressed s) (buttonA s) (buttonB s) (buttonX s) (IOD s) (cubeSize s) (cubeX s) (cubeZ s) (random_num s) (randomGened s) (curEyeIdx s) (lFBO s) (lrenderedTexture s) (rFBO s) (rrenderedTexture s) (bFBO s) (brenderedTexture s) (rand_stream s) (rand_calls s).
Definition set_lines (v : lineId -> Line) (s : SimScene) : SimScene :=
  mkSimScene (cave s) (cube_toWorld s) v (cubeShaderProgram s) (skyboxShaderProgram s) (lineShaderProgram s) (buttonAPressed s) (buttonBPressed s) (buttonXPressed s) (rightHandTriggerPressed s) (buttonA s) (buttonB s) (buttonX s) (IOD s) (cubeSize s) (cubeX s) (cubeZ s) (random_num s) (randomGened s) (curEyeIdx s) (lFBO s) (lrenderedTexture s) (rFBO s) (rrenderedTexture s) (bFBO s) (brenderedTexture s) (rand_stream s) (rand_calls s).
Definition set_buttonAPressed (v : bool) (s : SimScene) : SimScene :=
  mkSimScene (cave s) (cube_toWorld s) (lines s) (cubeShaderProgram s) (skyboxShaderProgram s) (lineShaderProgram s) v (buttonBPressed s) (buttonXPressed s) (rightHandTriggerPressed s) (buttonA s) (buttonB s) (buttonX s) (IOD s) (cubeSize s) (cubeX s) (cubeZ s) (random_num s) (randomGened s) (curEyeIdx s) (lFBO s) (lrenderedTexture s) (rFBO s) (rrenderedTexture s) (bFBO s) (brenderedTexture s) (rand_stream s) (rand_calls s).
Definition set_buttonBPressed (v : bool) (s : SimScene) : SimScene :=
  mkSimScene (cave s) (cube_toWorld s) (lines s) (cubeShaderProgram s) (skyboxShaderProgram s) (lineShaderProgram s) (buttonAPressed s) v (buttonXPressed s) (rightHandTriggerPressed s) (buttonA s) (buttonB s) (buttonX s) (IOD s) (cubeSize s) (cubeX s) (cubeZ s) (random_num s) (randomGened s) (curEyeIdx s) (lFBO s) (lrenderedTexture s) (rFBO s) (rrenderedTexture s) (bFBO s) (brenderedTexture s) (rand_stream s) (rand_calls s).
Definition set_buttonXPressed (v : bool) (s : SimScene) : SimScene :=
  mkSimScene (cave s) (cube_toWorld s) (lines s) (cubeShaderProgram s) (skyboxShaderProgram s) (lineShaderProgram s) (buttonAPressed s) (buttonBPressed s) v (rightHandTriggerPressed s) (buttonA s) (buttonB s) (buttonX s) (IOD s) (cubeSize s) (cubeX s) (cubeZ s) (random_num s) (randomGened s) (curEyeIdx s) (lFBO s) (lrenderedTexture s) (rFBO s) (rrenderedTexture s) (bFBO s) (brenderedTexture s) (rand_stream s) (rand_calls s).
Definition set_rightHandTriggerPressed (v : bool) (s : SimScene) : SimScene :=
  mkSimScene (cave s) (cube_toWorld s) (lines s) (cubeShaderProgram s) (skyboxShaderProgram s) (lineShaderProgram s) (buttonAPressed s) (buttonBPressed s) (buttonXPressed s) v (buttonA s) (buttonB s) (buttonX s) (IOD s) (cubeSize s) (cubeX s) (cubeZ s) (random_num s) (randomGened s) (curEyeIdx s) (lFBO s) (lrenderedTexture s) (rFBO s) (rrenderedTexture s) (bFBO s) (brenderedTexture s) (rand_stream s) (rand_calls s).
Definition set_buttonA (v : Z) (s : SimScene) : SimScene :=
  mkSimScene (cave s) (cube_toWorld s) (lines s) (cubeShaderProgram s) (skyboxShaderProgram s) (lineShaderProgram s) (buttonAPressed s) (buttonBPressed s) (buttonXPressed s) (rightHandTriggerPressed s) v (buttonB s) (buttonX s) (IOD s) (cubeSize s) (cubeX s) (cubeZ s) (random_num s) (randomGened s) (curEyeIdx s) (lFBO s) (lrenderedTexture s) (rFBO s) (rrenderedTexture s) (bFBO s) (brenderedTexture s) (rand_stream s) (rand_calls s).
Definition set_buttonB (v : Z) (s : SimScene) : SimScene :=
  mkSimScene (cave s) (cube_toWorld s) (lines s) (cubeShaderProgram s) (skyboxShaderProgram s) (lineShaderProgram s) (buttonAPressed s) (buttonBPressed s) (buttonXPressed s) (rightHandTriggerPressed s) (buttonA s) v (buttonX s) (IOD s) (cubeSize s) (cubeX s) (cubeZ s) (random_num s) (randomGened s) (curEyeIdx s) (lFBO s) (lrenderedTexture s) (rFBO s) (rrenderedTexture s) (bFBO s) (brenderedTexture s) (rand_stream s) (rand_calls s).
Definition set_buttonX (v : Z) (s : SimScene) : SimScene :=
  mkSimScene (cave s) (cube_toWorld s) (lines s) (cubeShaderProgram s) (skyboxShaderProgram s) (lineShaderProgram s) (buttonAPressed s) (buttonBPressed s) (buttonXPressed s) (rightHandTriggerPressed s) (buttonA s) (buttonB s) v (IOD s) (cubeSize s) (cubeX s) (cubeZ s) (random_num s) (randomGened s) (curEyeIdx s) (lFBO s) (lrenderedTexture s) (rFBO s) (rrenderedTexture s) (bFBO s) (brenderedTexture s) (rand_stream s) (rand_calls s).
Definition set_cubeSize (v : R) (s : SimScene) : SimScene :=
  mkSimScene (cave s) (cube_toWorld s) (lines s) (cubeShaderProgram s) (skyboxShaderProgram s) (lineShaderProgram s) (buttonAPressed s) (buttonBPressed s) (buttonXPressed s) (rightHandTriggerPressed s) (buttonA s) (buttonB s) (buttonX s) (IOD s) v (cubeX s) (cubeZ s) (random_num s) (randomGened s) (curEyeIdx s) (lFBO s) (lrenderedTexture s) (rFBO s) (rrenderedTexture s) (bFBO s) (brenderedTexture s) (rand_stream s) (rand_calls s).
Definition set_cubeX (v : R) (s : SimScene) : SimScene :=
  mkSimScene (cave s) (cube_toWorld s) (lines s) (cubeShaderProgram s) (skyboxShaderProgram s) (lineShaderProgram s) (buttonAPressed s) (buttonBPressed s) (buttonXPressed s) (rightHandTriggerPressed s) (buttonA s) (buttonB s) (buttonX s) (IOD s) (cubeSize s) v (cubeZ s) (random_num s) (randomGened s) (curEyeIdx s) (lFBO s) (lrenderedTexture s) (rFBO s) (rrenderedTexture s) (bFBO s) (brenderedTexture s) (rand_stream s) (rand_calls s).
Definition set_cubeZ (v : R) (s : SimScene) : SimScene :=
  mkSimScene (cave s) (cube_toWorld s) (lines s) (cubeShaderProgram s) (skyboxShaderProgram s) (lineShaderProgram s) (buttonAPressed s) (buttonBPressed s) (buttonXPressed s) (rightHandTriggerPressed s) (buttonA s) (buttonB s) (buttonX s) (IOD s) (cubeSize s) (cubeX s) v (random_num s) (randomGened s) (curEyeIdx s) (lFBO s) (lrenderedTexture s) (rFBO s) (rrenderedTexture s) (bFBO s) (brenderedTexture s) (rand_stream s) (rand_calls s).
Definition set_random_num (v : Z) (s : SimScene) : SimScene :=
  mkSimScene (cave s) (cube_toWorld s) (lines s) (cubeShaderProgram s) (skyboxShaderProgram s) (lineShaderProgram s) (buttonAPressed s) (buttonBPressed s) (buttonXPressed s) (rightHandTriggerPressed s) (buttonA s) (buttonB s) (buttonX s) (IOD s) (cubeSize s) (cubeX s) (cubeZ s) v (randomGened s) (curEyeIdx s) (lFBO s) (lrenderedTexture s) (rFBO s) (rrenderedTexture s) (bFBO s) (brenderedTexture s) (rand_stream s) (rand_calls s).
Definition set_randomGened (v : bool) (s : SimScene) : SimScene :=
  mkSimScene (cave s) (cube_toWorld s) (lines s) (cubeShaderProgram s) (skyboxShaderProgram s) (lineShaderProgram s) (buttonAPressed s) (buttonBPressed s) (buttonXPressed s) (rightHandTriggerPressed s) (buttonA s) (buttonB s) (buttonX s) (IOD s) (cubeSize s) (cubeX s) (cubeZ s) (random_num s) v (curEyeIdx s) (lFBO s) (lrenderedTexture s) (rFBO s) (rrenderedTexture s) (bFBO s) (brenderedTexture s) (rand_stream s) (rand_calls s).
Definition set_curEyeIdx (v : Z) (s : SimScene) : SimScene :=
  mkSimScene (cave s) (cube_toWorld s) (lines s) (cubeShaderProgram s) (skyboxShaderProgram s) (lineShaderProgram s) (buttonAPressed s) (buttonBPressed s) (buttonXPressed s) (rightHandTriggerPressed s) (buttonA s) (buttonB s) (buttonX s) (IOD s) (cubeSize s) (cubeX s) (cubeZ s) (random_num s) (randomGened s) v (lFBO s) (lrenderedTexture s) (rFBO s) (rrenderedTexture s) (bFBO s) (brenderedTexture s) (rand_stream s) (rand_calls s).
Definition set_rand_calls (v : nat) (s : SimScene) : SimScene :=
  mkSimScene (cave s) (cube_toWorld s) (lines s) (cubeShaderProgram s) (skyboxShaderProgram s) (lineShaderProgram s) (buttonAPressed s) (buttonBPressed s) (buttonXPressed s) (rightHandTriggerPressed s) (buttonA s) (buttonB s) (buttonX s) (IOD s) (cubeSize s) (cubeX s) (cubeZ s) (random_num s) (randomGened s) (curEyeIdx s) (lFBO s) (lrenderedTexture s) (rFBO s) (rrenderedTexture s) (bFBO s) (brenderedTexture s) (rand_stream s) v.

Definition on_cave {A} (m : Act Cave A) : Act SimScene A :=
  zoom cave set_cave m.

Definition on_line {A} (id : lineId) (m : Act Line A) : Act SimScene A :=
  zoom (fun s => lines s id)
       (fun l s => set_lines (fun j => if lineId_eqb j id then l else lines s j) s)
       m.

(** [rand()]. *)
Definition c_rand : Act SimScene Z :=
  s <- get ;;
  modify (set_rand_calls (S (rand_calls s))) ;;
  ret (rand_stream s (rand_calls s)).

(** [glm::vec3(m * vec4(x, y, z, 1.0f))]. *)
Definition to_world (m : mat4) (x y z : R) : vec3 :=
  let v := mul_vec m (mkVec4 x y z 1) in mkVec3 (v4x v) (v4y v) (v4z v).

Definition nearPlane : R := 1 / 100.
Definition farPlane : R := 1000.

(** [SimScene::update]. *)
Definition SimScene_update : Act SimScene unit :=
  modify (fun s =>
    set_cube_toWorld
      (mul (translate_m (mat4_diag 1) (mkVec3 (cubeX s) 0 (cubeZ s)))
           (scale_m (mat4_diag 1) (mkVec3 (cubeSize s) (cubeSize s) (cubeSize s))))
      s).

(** The two draw calls each face block of [preRender] guards. *)
Definition draw_scene_into_face (modelview : mat4) (eyePos pa pb pc : vec3)
  : Act SimScene unit :=
  s <- get ;;
  emit (glUseProgram (skyboxShaderProgram s)) ;;
  emit (Skybox_draw the_skybox (skyboxShaderProgram s)
          (getProjection eyePos pa pb pc nearPlane farPlane) modelview) ;;
  emit (glUseProgram (cubeShaderProgram s)) ;;
  emit (Cube_draw (cubeShaderProgram s)
          (getProjection eyePos pa pb pc nearPlane farPlane) modelview).

(** [SimScene::preRender]. *)
Definition preRender (projection modelview : mat4) (_fbo : Z) (vp : ovrRecti)
    (eyePos : vec3) : Act SimScene unit :=
  emit (call_preRender projection modelview _fbo vp eyePos) ;;
  (* ---- left *)
  s <- get ;;
  emit (glBindFramebuffer GL_FRAMEBUFFER (lFBO s)) ;;
  emit (glViewport 0 0 2048 2048) ;;
  emit (glClearColor 0 0 0 1) ;;
  emit glClear ;;
  when ((buttonX s =? 1)%Z && negb (randomGened s))
       (r <- c_rand ;;
        modify (set_random_num (Z.rem r 6)) ;;
        modify (set_randomGened true)) ;;
  s <- get ;;
  let pa := to_world (toWorld (cave s)) (-2) (-2) 2 in
  let pb := to_world (toWorld (cave s)) (-2) (-2) (-2) in
  let pc := to_world (toWorld (cave s)) (-2) 2 2 in
  when ((buttonX s =? 0)%Z || negb (curEyeIdx s * 3 =? random_num s)%Z)
       (draw_scene_into_face modelview eyePos pa pb pc) ;;
  (if (curEyeIdx s =? 0)%Z then
     on_line linel1 (Line_update pc eyePos false) ;;
     on_line linel2 (Line_update pa eyePos false)
   else
     on_line liner1 (Line_update pc eyePos true) ;;
     on_line liner2 (Line_update pa eyePos true)) ;;
  (* ---- right *)
  emit (glBindFramebuffer GL_FRAMEBUFFER (rFBO s)) ;;
  emit (glViewport 0 0 2048 2048) ;;
  emit glClear ;;
  let pa := to_world (toWorld (cave s)) (-2) (-2) (-2) in
  let pb := to_world (toWorld (cave s)) 2 (-2) (-2) in
  let pc := to_world (toWorld (cave s)) (-2) 2 (-2) in
  when ((buttonX s =? 0)%Z || negb (curEyeIdx s * 3 + 1 =? random_num s)%Z)
       (draw_scene_into_face modelview eyePos pa pb pc) ;;
  (if (curEyeIdx s =? 0)%Z then
     on_line linel3 (Line_update pc eyePos false) ;;
     on_line linel4 (Line_update pa eyePos false) ;;
     on_line linel5 (Line_update (vadd pb (vsub pc pa)) eyePos false) ;;
     on_line linel6 (Line_update pb eyePos false)
   else
     on_line liner3 (Line_update pc eyePos true) ;;
     on_line liner4 (Line_update pa eyePos true) ;;
     on_line liner5 (Line_update (vadd pb (vsub pc pa)) eyePos true) ;;
     on_line liner6 (Line_update pb eyePos true)) ;;
  (* ---- bottom *)
  emit (glBindFramebuffer GL_FRAMEBUFFER (bFBO s)) ;;
  emit (glViewport 0 0 2048 2048) ;;
  emit glClear ;;
  let pa := to_world (toWorld (cave s)) (-2) (-2) 2 in
  let pb := to_world (toWorld (cave s)) 2 (-2) 2 in
  let pc := to_world (toWorld (cave s)) (-2) (-2) (-2) in
  when ((buttonX s =? 0)%Z || negb (curEyeIdx s * 3 + 2 =? random_num s)%Z)
       (draw_scene_into_face modelview eyePos pa pb pc) ;;
  (if (curEyeIdx s =? 0)%Z then
     on_line linel7 (Line_update pb eyePos false)
   else
     on_line liner7 (Line_update pb eyePos true)) ;;
  (* ---- restore fbo *)
  emit (glBindFramebuffer GL_DRAW_FRAMEBUFFER 0%Z) ;;
  emit (glClearColor (1 / 10) (1 / 10) (1 / 10) 1) ;;
  emit glClear ;;
  emit (glBindFramebuffer GL_DRAW_FRAMEBUFFER _fbo) ;;
  emit (glViewport (Pos_x vp) (Pos_y vp) (Size_w vp) (Size_h vp)).

(** [SimScene::render]. *)
Definition render (projection modelview : mat4) (eyePos : vec3) : Act SimScene unit :=
  emit (call_render projection modelview eyePos) ;;
  s <- get ;;
  emit (glUseProgram (skyboxShaderProgram s)) ;;
  emit (Skybox_draw the_riftskybox (skyboxShaderProgram s) projection modelview) ;;
  emit (glUseProgram (cubeShaderProgram s)) ;;
  on_cave (Cave_draw (cubeShaderProgram s) projection modelview
             (lrenderedTexture s) (rrenderedTexture s) (brenderedTexture s)) ;;
  emit (glUseProgram (lineShaderProgram s)) ;;
  on_line linel1 (Line_draw (lineShaderProgram s) projection modelview) ;;
  on_line linel2 (Line_draw (lineShaderProgram s) projection modelview) ;;
  on_line linel3 (Line_draw (lineShaderProgram s) projection modelview) ;;
  on_line linel4 (Line_draw (lineShaderProgram s) projection modelview) ;;
  on_line linel5 (Line_draw (lineShaderProgram s) projection modelview) ;;
  on_line linel6 (Line_draw (lineShaderProgram s) projection modelview) ;;
  on_line linel7 (Line_draw (lineShaderProgram s) projection modelview) ;;
  on_line liner1 (Line_draw (lineShaderProgram s) projection modelview) ;;
  on_line liner2 (Line_draw (lineShaderProgram s) projection modelview) ;;
  on_line liner3 (Line_draw (lineShaderProgram s) projection modelview) ;;
  on_line liner4 (Line_draw (lineShaderProgram s) projection modelview) ;;
  on_line liner5 (Line_draw (lineShaderProgram s) projection modelview) ;;
  on_line liner6 (Line_draw (lineShaderProgram s) projection modelview) ;;
  on_line liner7 (Line_draw (lineShaderProgram s) projection modelview).

(** [SimScene::currentEye]. *)
Definition SimScene_currentEye (eyeIdx : Z) : Act SimScene unit :=
  modify (set_curEyeIdx eyeIdx) ;;
  s <- get ;;
  emit (Skybox_useCubemap the_skybox (curEyeIdx s)).

End Scene.

(* ================================================================== *)
(** * The application: RiftApp::draw and SimApp (main.cpp)            *)
(* ================================================================== *)

Module App.
Import Glm Ovr Gl OffAxis Scene.
Local Open Scope Z_scope.
Local Open Scope R_scope.
Local Open Scope act_scope.

(** [SimApp] with the members it inherits from [RiftApp].  The scene is
    owned through [simScene]. *)
Record SimApp : Type := mkSimApp {
  _fbo : Z;
  _mirrorFbo : Z;
  _eyeProjections : PerEye mat4;
  Viewport : PerEye ovrRecti;
  RenderPose : PerEye ovrPosef;
  HmdToEyeOffset : PerEye ovrVector3f;
  defaultHmdToEyeOffset : PerEye R;
  lastEye : PerEye ovrPosef;
  renderEye : PerEye ovrPosef;
  initLastEye : PerEye bool;
  rightHandPose : mat4;
  triggerPose : vec3;
  lastRightHand : mat4;
  simScene : SimScene
}.

Definition set_RenderPose (v : PerEye ovrPosef) (s : SimApp) : SimApp :=
  mkSimApp (_fbo s) (_mirrorFbo s) (_eyeProjections s) (Viewport s) v (HmdToEyeOffset s) (defaultHmdToEyeOffset s) (lastEye s) (renderEye s) (initLastEye s) (rightHandPose s) (triggerPose s) (lastRightHand s) (simScene s).
Definition set_lastEye (v : PerEye ovrPosef) (s : SimApp) : SimApp :=
  mkSimApp (_fbo s) (_mirrorFbo s) (_eyeProjections s) (Viewport s) (RenderPose s) (HmdToEyeOffset s) (defaultHmdToEyeOffset s) v (renderEye s) (initLastEye s) (rightHandPose s) (triggerPose s) (lastRightHand s) (simScene s).
Definition set_renderEye (v : PerEye ovrPosef) (s : SimApp) : SimApp :=
  mkSimApp (_fbo s) (_mirrorFbo s) (_eyeProjections s) (Viewport s) (RenderPose s) (HmdToEyeOffset s) (defaultHmdToEyeOffset s) (lastEye s) v (initLastEye s) (rightHandPose s) (triggerPose s) (lastRightHand s) (simScene s).
Definition set_initLastEye (v : PerEye bool) (s : SimApp) : SimApp :=
  mkSimApp (_fbo s) (_mirrorFbo s) (_eyeProjections s) (Viewport s) (RenderPose s) (HmdToEyeOffset s) (defaultHmdToEyeOffset s) (lastEye s) (renderEye s) v (rightHandPose s) (triggerPose s) (lastRightHand s) (simScene s).
Definition set_rightHandPose (v : mat4) (s : SimApp) : SimApp :=
  mkSimApp (_fbo s) (_mirrorFbo s) (_eyeProjections s) (Viewport s) (RenderPose s) (HmdToEyeOffset s) (defaultHmdToEyeOffset s) (lastEye s) (renderEye s) (initLastEye s) v (triggerPose s) (lastRightHand s) (simScene s).
Definition set_triggerPose (v : vec3) (s : SimApp) : SimApp :=
  mkSimApp (_fbo s) (_mirrorFbo s) (_eyeProjections s) (Viewport s) (RenderPose s) (HmdToEyeOffset s) (defaultHmdToEyeOffset s) (lastEye s) (renderEye s) (initLastEye s) (rightHandPose s) v (lastRightHand s) (simScene s).
Definition set_lastRightHand (v : mat4) (s : SimApp) : SimApp :=
  mkSimApp (_fbo s) (_mirrorFbo s) (_eyeProjections s) (Viewport s) (RenderPose s) (HmdToEyeOffset s) (defaultHmdToEyeOffset s) (lastEye s) (renderEye s) (initLastEye s) (rightHandPose s) (triggerPose s) v (simScene s).
Definition set_simScene (v : SimScene) (s : SimApp) : SimApp :=
  mkSimApp (_fbo s) (_mirrorFbo s) (_eyeProjections s) (Viewport s) (RenderPose s) (HmdToEyeOffset s) (defaultHmdToEyeOffset s) (lastEye s) (renderEye s) (initLastEye s) (rightHandPose s) (triggerPose s) (lastRightHand s) v.

Definition on_scene {A} (m : Act SimScene A) : Act SimApp A :=
  zoom simScene set_simScene m.

(** What one iteration of the frame loop receives from outside: the
    controller state ([None] when [ovr_GetInputState] fails), the tracked
    pose of the right hand, the eye poses [ovr_GetEyePoses] fills in, and the
    texture names handed out by the swap chain and the mirror texture. *)
Record FrameInput : Type := mkFrameInput {
  inputState : option ovrInputState;
  rightPose : ovrPosef;
  eyePoses : PerEye ovrPosef;
  curTexId : Z;
  mirrorTextureId : Z
}.

(** [a > b] on floats. *)
Definition Rgtb (a b : R) : bool := if Rlt_dec b a then true else false.
Definition Rltb (a b : R) : bool := if Rlt_dec a b then true else false.

(** ** The accessors [SimApp] overrides *)

Definition getViewState (a : SimApp) : Z := buttonA (simScene a).
Definition getTrackingState (a : SimApp) : Z := buttonB (simScene a).
Definition getIOD (a : SimApp) : R := IOD (simScene a).
Definition getCubeSize (a : SimApp) : R := cubeSize (simScene a).

(** [RiftApp::getDefaultIOD(int idx)]: [defaultHmdToEyeOffset[idx]].  The
    array has two elements; an index outside it is not given a meaning by
    the language and reads as 0 here. *)
Definition getDefaultIOD (a : SimApp) (idx : Z) : R :=
  if (idx =? 0)%Z then atLeft (defaultHmdToEyeOffset a)
  else if (idx =? 1)%Z then atRight (defaultHmdToEyeOffset a)
  else 0.

(** ** SimApp::update *)

Definition update_buttons (i : ovrInputState) (s : SimScene) : SimScene :=
  let s :=
    if button_down i ovrButton_A then set_buttonAPressed true s
    else if buttonAPressed s then
      set_buttonAPressed false (set_buttonA (Z.rem (buttonA s + 1) 4) s)
    else s in
  let s :=
    if button_down i ovrButton_B then set_buttonBPressed true s
    else if buttonBPressed s then
      set_buttonBPressed false (set_buttonB (Z.rem (buttonB s + 1) 2) s)
    else s in
  let s :=
    if button_down i ovrButton_X then set_buttonXPressed true s
    else if buttonXPressed s then
      set_randomGened false
        (set_buttonXPressed false (set_buttonX (Z.rem (buttonX s + 1) 2) s))
    else s in
  if Rgtb (atRight (HandTrigger i)) (1 / 2) then set_rightHandTriggerPressed true s
  else set_rightHandTriggerPressed false s.

Definition update_cube (i : ovrInputState) (s : SimScene) : SimScene :=
  let s :=
    if button_down i ovrButton_RThumb then set_cubeZ (- (1 / 2)) (set_cubeX 0 s)
    else
      let s :=
        if Rgtb (o2x (atRight (Thumbstick i))) (1 / 2)
        then set_cubeX (cubeX s + 1 / 1000) s
        else if Rltb (o2x (atRight (Thumbstick i))) (- (1 / 2))
        then set_cubeX (cubeX s - 1 / 1000) s
        else s in
      if Rgtb (o2y (atRight (Thumbstick i))) (1 / 2)
      then set_cubeZ (cubeZ s - 1 / 1000) s
      else if Rltb (o2y (atRight (Thumbstick i))) (- (1 / 2))
      then set_cubeZ (cubeZ s + 1 / 1000) s
      else s in
  if button_down i ovrButton_LThumb then set_cubeSize (3 / 100) s
  else
    if Rgtb (o2x (atLeft (Thumbstick i))) (1 / 2)
    then set_cubeSize (Rmin (cubeSize s + 1 / 1000) (1 / 10)) s
    else if Rltb (o2x (atLeft (Thumbstick i))) (- (1 / 2))
    then set_cubeSize (Rmax (cubeSize s - 1 / 1000) (1 / 1000)) s
    else s.

Definition update (inp : FrameInput) : Act SimApp unit :=
  match inputState inp with
  | Some i =>
      on_scene (modify (update_buttons i)) ;;
      modify (set_rightHandPose (toGlm (rightPose inp))) ;;
      modify (set_triggerPose (toGlm_vec (Position (rightPose inp)))) ;;
      on_scene (modify (update_cube i))
  | None => ret tt
  end ;;
  on_scene SimScene_update.

(** ** SimApp::offscreenRender, renderScene, currentEye *)

Definition set_col3 (m : mat4) (c : vec4) : mat4 :=
  mkMat4 (col0 m) (col1 m) (col2 m) c.

Definition offscreenRender (projection headPose : mat4) (_fbo : Z) (vp : ovrRecti)
    (eyePos : vec3) : Act SimApp unit :=
  emit (call_offscreenRender projection headPose _fbo vp eyePos) ;;
  a <- get ;;
  if rightHandTriggerPressed (simScene a) then
    let no_rot := mat4_diag 1 in
    no_rot <-
      (if (getTrackingState a =? 0)%Z then
         modify (set_lastRightHand (rightHandPose a)) ;;
         ret (set_col3 no_rot (col3 (rightHandPose a)))
       else
         ret (set_col3 no_rot (col3 (lastRightHand a)))) ;;
    let adjustedEyePose :=
      mkVec3 (v4x (col3 no_rot)) (v4y (col3 no_rot)) (v4z (col3 no_rot)) in
    let adjustedEyePose :=
      mkVec3 (v3x adjustedEyePose + getDefaultIOD a (curEyeIdx (simScene a)))
             (v3y adjustedEyePose) (v3z adjustedEyePose) in
    on_scene (preRender projection (inverse no_rot) _fbo vp adjustedEyePose)
  else
    on_scene (preRender projection (inverse headPose) _fbo vp eyePos).

Definition renderScene (projection headPose : mat4) (eyePos : vec3) : Act SimApp unit :=
  emit (call_renderScene projection headPose eyePos) ;;
  on_scene (render projection (inverse headPose) eyePos).

Definition currentEye (eye : ovrEyeType) : Act SimApp unit :=
  emit (call_currentEye eye) ;;
  match eye with
  | ovrEye_Left => on_scene (SimScene_currentEye 0%Z)
  | ovrEye_Right => on_scene (SimScene_currentEye 1%Z)
  end.

(** ** RiftApp::draw *)

(** The eye offsets passed to [ovr_GetEyePoses]: the runtime's offsets with
    the x components replaced by the clamped, IOD-adjusted values. *)
Definition renderEyeOffset (a : SimApp) : PerEye ovrVector3f :=
  let o0 := atLeft (HmdToEyeOffset a) in
  let o1 := atRight (HmdToEyeOffset a) in
  mkPerEye
    (mkOvrVector3f
       (Rmin (Rmax (atLeft (defaultHmdToEyeOffset a) - getIOD a / 2) (- (3 / 10))) 0)
       (ovy o0) (ovz o0))
    (mkOvrVector3f
       (Rmin (Rmax (atRight (defaultHmdToEyeOffset a) + getIOD a / 2) 0) (3 / 10))
       (ovy o1) (ovz o1)).

Definition set_Position (p : ovrPosef) (v : ovrVector3f) : ovrPosef :=
  mkOvrPosef (Orientation p) v.

(** The pose bookkeeping that opens the body of the [for_each_eye] lambda:
    the assignments to [lastEye], [initLastEye] and [renderEye]. *)
Definition resolve_eye (eyePoses : PerEye ovrPosef) (eye : ovrEyeType) (a : SimApp)
  : SimApp :=
  let a :=
    if negb (at_eye (initLastEye a) eye) then
      set_initLastEye (set_eye (initLastEye a) eye true)
        (set_lastEye (set_eye (lastEye a) eye (at_eye eyePoses eye)) a)
    else a in
  let a := set_renderEye (set_eye (renderEye a) eye (at_eye (lastEye a) eye)) a in
  let a :=
    if (getTrackingState a =? 0)%Z then
      set_renderEye
        (set_eye (renderEye a) eye
           (set_Position (at_eye (renderEye a) eye) (Position (at_eye eyePoses eye))))
        a
    else a in
  set_lastEye (set_eye (lastEye a) eye (at_eye (renderEye a) eye)) a.

(** The body of the [for_each_eye] lambda. *)
Definition draw_eye (eyePoses : PerEye ovrPosef) (eye : ovrEyeType) : Act SimApp unit :=
  modify (resolve_eye eyePoses eye) ;;
  currentEye eye ;;
  a <- get ;;
  let vp := at_eye (Viewport a) eye in
  emit (glViewport (Pos_x vp) (Pos_y vp) (Size_w vp) (Size_h vp)) ;;
  modify (fun a => set_RenderPose (set_eye (RenderPose a) eye (at_eye eyePoses eye)) a) ;;
  a <- get ;;
  let eyePos := toGlm_vec (Position (at_eye (renderEye a) eye)) in
  offscreenRender (at_eye (_eyeProjections a) eye) (toGlm (at_eye (renderEye a) eye))
                  (_fbo a) vp eyePos ;;
  let origEyePos := toGlm_vec (Position (at_eye eyePoses eye)) in
  renderScene (at_eye (_eyeProjections a) eye) (toGlm (at_eye eyePoses eye)) origEyePos.

Definition draw (inp : FrameInput) : Act SimApp unit :=
  a <- get ;;
  emit (ovr_GetEyePoses (renderEyeOffset a)) ;;
  emit (glBindFramebuffer GL_DRAW_FRAMEBUFFER (_fbo a)) ;;
  emit (glFramebufferTexture2D GL_DRAW_FRAMEBUFFER (curTexId inp)) ;;
  emit glClear ;;
  draw_eye (eyePoses inp) ovrEye_Left ;;
  draw_eye (eyePoses inp) ovrEye_Right ;;
  emit (glFramebufferTexture2D GL_DRAW_FRAMEBUFFER 0%Z) ;;
  emit (glBindFramebuffer GL_DRAW_FRAMEBUFFER 0%Z) ;;
  emit ovr_CommitTextureSwapChain ;;
  emit ovr_SubmitFrame ;;
  emit (glBindFramebuffer GL_READ_FRAMEBUFFER (_mirrorFbo a)) ;;
  emit (glFramebufferTexture2D GL_READ_FRAMEBUFFER (mirrorTextureId inp)) ;;
  emit glBlitFramebuffer ;;
  emit (glBindFramebuffer GL_READ_FRAMEBUFFER 0%Z).

(** ** GlfwApp::run: one iteration of the loop, and a run of iterations *)

Definition frame (inp : FrameInput) : Act SimApp unit :=
  update inp ;; draw inp.

(** The states after each frame and the calls each frame recorded. *)
Fixpoint run (inps : list FrameInput) (a : SimApp) : list (SimApp * list event) :=
  match inps with
  | [] => []
  | inp :: rest =>
      let r := frame inp a in
      (state_of r, trace_of r) :: run rest (state_of r)
  end.

End App.
(* ================================================================== *)
(** * Cave::loadPPM                                                   *)
(* ================================================================== *)

(** The C library calls of [loadPPM] over a file given as the list of its
    bytes.  A [char] buffer is either indeterminate (declared and never
    written) or holds the bytes some call stored in it.  [int] is 32 bits
    wide; an operation the language leaves undefined is reported as such
    rather than given a value. *)
Module Ppm.
Local Open Scope Z_scope.

Definition BUFSIZE : nat := 128.
Definition INT_MAX : Z := 2147483647.
Definition INT_MIN : Z := -2147483648.

(** What is outside the program: the files [fopen] finds, by name, and the
    number of bytes [new] can still provide. *)
Record Env : Type := mkEnv {
  files : string -> option (list ascii);
  heap : Z
}.

(** How a call of [loadPPM] ends. *)
Inductive Outcome : Type :=
| Returned (rawData : option (list ascii)) (width height : Z) (log : list string)
| Throws
| Hangs
| Undefined.

Definition fopen (env : Env) (filename : string) : option (list ascii) :=
  files env filename.

Definition newline : ascii := "010"%char.
Definition NUL : ascii := "000"%char.

(** [fgets]: at most [n] bytes, stopping after a newline. *)
Fixpoint fgets_chars (n : nat) (fp : list ascii) : list ascii * list ascii :=
  match n, fp with
  | O, _ => ([], fp)
  | _, [] => ([], [])
  | S n', c :: fp' =>
      if Ascii.eqb c newline then ([c], fp')
      else let (l, r) := fgets_chars n' fp' in (c :: l, r)
  end.

(** [fgets(buf, size, fp)]: at end of file nothing is stored and the buffer
    keeps what it held; otherwise up to [size - 1] bytes are stored.  The
    result is the buffer and the rest of the file. *)
Definition fgets (buf : option (list ascii)) (size : nat) (fp : list ascii)
  : option (list ascii) * list ascii :=
  match fp with
  | [] => (buf, [])
  | _ => let (l, r) := fgets_chars (size - 1) fp in (Some l, r)
  end.

(** [buf[0]]: the first byte stored, the terminator for an empty line. *)
Definition first_char (buf : list ascii) : ascii :=
  match buf with
  | c :: _ => c
  | [] => NUL
  end.

(** The string a buffer holds for the string functions: up to the first
    zero byte. *)
Fixpoint cstr (buf : list ascii) : list ascii :=
  match buf with
  | [] => []
  | c :: l => if Ascii.eqb c NUL then [] else c :: cstr l
  end.

Inductive Loop : Type :=
| LoopDone (buf : list ascii) (fp : list ascii)
| LoopHangs
| LoopUndefined.

(** [do { fgets(buf[0], BUFSIZE, fp); } while (buf[0][0] == '#');]
    Every turn that is not at the end of the file consumes a byte, so
    [fuel] beyond the length of the file is never used up.  At the end of
    the file the buffer no longer changes: the loop is left, or never. *)
Fixpoint skip_comments (fuel : nat) (buf : option (list ascii)) (fp : list ascii)
  : Loop :=
  match fp with
  | [] =>
      match buf with
      | None => LoopUndefined
      | Some b => if Ascii.eqb (first_char b) "#"%char then LoopHangs else LoopDone b []
      end
  | _ =>
      match fgets buf BUFSIZE fp with
      | (Some b, fp') =>
          if Ascii.eqb (first_char b) "#"%char then
            match fuel with
            | O => LoopHangs
            | S fuel' => skip_comments fuel' (Some b) fp'
            end
          else LoopDone b fp'
      | (None, _) => LoopUndefined
      end
  end.

Definition do_fgets_while_comment (buf : option (list ascii)) (fp : list ascii) : Loop :=
  skip_comments (Datatypes.length fp) buf fp.

(** [isspace] in the "C" locale. *)
Definition isspace (c : ascii) : bool :=
  let n := Z.of_nat (nat_of_ascii c) in
  (n =? 32) || ((9 <=? n) && (n <=? 13)).

Fixpoint skip_space (l : list ascii) : list ascii :=
  match l with
  | c :: l' => if isspace c then skip_space l' else l
  | [] => []
  end.

Fixpoint take_word (l : list ascii) : list ascii * list ascii :=
  match l with
  | c :: l' =>
      if isspace c then ([], l)
      else let (w, r) := take_word l' in (c :: w, r)
  | [] => ([], [])
  end.

(** One [%s] conversion: nothing is stored when the input ends first. *)
Definition scan_word (l : list ascii) : option (list ascii) * list ascii :=
  match skip_space l with
  | [] => (None, [])
  | l' => let (w, r) := take_word l' in (Some w, r)
  end.

(** [sscanf(s, "%s %s", a, b)]: the buffers [a] and [b] afterwards, both
    indeterminate before the call. *)
Definition sscanf_s_s (s : list ascii) : option (list ascii) * option (list ascii) :=
  match scan_word s with
  | (None, _) => (None, None)
  | (Some a, r) => (Some a, fst (scan_word r))
  end.

Definition isdigit (c : ascii) : bool :=
  let n := Z.of_nat (nat_of_ascii c) in (48 <=? n) && (n <=? 57).

Fixpoint digits_value (acc : Z) (l : list ascii) : Z :=
  match l with
  | c :: l' =>
      if isdigit c then digits_value (acc * 10 + (Z.of_nat (nat_of_ascii c) - 48)) l'
      else acc
  | [] => acc
  end.

Definition in_int (v : Z) : bool := (INT_MIN <=? v) && (v <=? INT_MAX).

(** [atoi]: white space, an optional sign, decimal digits.  A value that
    does not fit an [int], and a buffer that was never written, have no
    defined result. *)
Definition atoi (buf : option (list ascii)) : option Z :=
  match buf with
  | None => None
  | Some s =>
      let v := match skip_space s with
               | c :: l =>
                   if Ascii.eqb c "-"%char then - digits_value 0 l
                   else if Ascii.eqb c "+"%char then digits_value 0 l
                   else digits_value 0 (c :: l)
               | [] => 0
               end in
      if in_int v then Some v else None
  end.

(** Multiplication of two [int]s. *)
Definition int_mul (a b : Z) : option Z :=
  if in_int (a * b) then Some (a * b) else None.

(** [fread(p, size, 1, fp)]: the number of whole elements read, and the
    bytes stored. *)
Definition fread (size : Z) (fp : list ascii) : Z * list ascii :=
  if size =? 0 then (0, [])
  else if size <=? Z.of_nat (Datatypes.length fp) then (1, firstn (Z.to_nat size) fp)
  else (0, fp).

Definition msg_locate : string := "error reading ppm file, could not locate ".
Definition msg_incomplete : string := "error parsing ppm file, incomplete data".

(** The header as [loadPPM] reads it: the magic number line, the line of
    the two dimensions and the line of the maximal value, each of the last
    two after the lines that begin with [#]. *)
Inductive Header : Type :=
| HeaderRead (width height : Z) (fp : list ascii)
| HeaderHangs
| HeaderUndefined.

Definition read_header (fp : list ascii) : Header :=
  let (buf0, fp) := fgets None BUFSIZE fp in
  match do_fgets_while_comment buf0 fp with
  | LoopHangs => HeaderHangs
  | LoopUndefined => HeaderUndefined
  | LoopDone b fp =>
      let (buf1, buf2) := sscanf_s_s (cstr b) in
      match atoi buf1, atoi buf2 with
      | Some width, Some height =>
          match do_fgets_while_comment (Some b) fp with
          | LoopHangs => HeaderHangs
          | LoopUndefined => HeaderUndefined
          | LoopDone _ fp => HeaderRead width height fp
          end
      | _, _ => HeaderUndefined
      end
  end.

(** [new unsigned char[width * height * 3]] and [fread], then the test of
    what [fread] returned. *)
Definition read_data (env : Env) (width height : Z) (fp : list ascii) : Outcome :=
  match int_mul width height with
  | None => Undefined
  | Some wh =>
      match int_mul wh 3 with
      | None => Undefined
      | Some n =>
          if n <? 0 then Throws
          else if heap env <? n then Throws
          else
            let (read, rawData) := fread n fp in
            if negb (read =? 1) then Returned None 0 0 [msg_incomplete]
            else Returned (Some rawData) width height []
      end
  end.

Definition loadPPM (env : Env) (filename : string) : Outcome :=
  match fopen env filename with
  | None => Returned None 0 0 [String.append msg_locate filename]
  | Some fp =>
      match read_header fp with
      | HeaderHangs => Hangs
      | HeaderUndefined => Undefined
      | HeaderRead width height fp => read_data env width height fp
      end
  end.

(** ** Files with the header the format prescribes *)

(** A line as [fgets] takes it in one call: short of the buffer size and
    without a newline inside. *)
Definition is_line (l : list ascii) : Prop :=
  (Datatypes.length l < BUFSIZE - 1)%nat /\ ~ In newline l.

Definition comment_line (l : list ascii) : Prop :=
  is_line l /\ first_char l = "#"%char.

(** A word for [%s]: not empty, no white space and no zero byte in it. *)
Definition is_word (w : list ascii) : Prop :=
  w <> [] /\ Forall (fun c => isspace c = false /\ c <> NUL) w.

Definition terminated (l : list ascii) : list ascii := l ++ [newline].

(** The bytes of a file: magic number line, comment lines, the line with
    the two dimensions, comment lines, the line of the maximal value, and
    the data. *)
Definition ppm_file (magic : list ascii) (comments1 : list (list ascii))
    (wtok htok : list ascii) (comments2 : list (list ascii))
    (maxval data : list ascii) : list ascii :=
  terminated magic ++ List.concat (map terminated comments1)
  ++ terminated (wtok ++ " "%char :: htok)
  ++ List.concat (map terminated comments2)
  ++ terminated maxval ++ data.

End Ppm.

(* ================================================================== *)
(** * Reading the recorder                                            *)
(* ================================================================== *)

Module Recorder.
Import Glm Ovr Gl OffAxis Scene App.
Local Open Scope Z_scope.

(** What an observer of the recorded calls keeps track of: the framebuffer
    bound for drawing, the 2D texture bound for sampling ([None] once a call
    whose body is not visible may have rebound it), and the eye announced by
    the last [currentEye]. *)
Record recState : Type := mkRecState {
  draw_fbo : Z;
  texture_2d : option Z;
  cur_eye : option ovrEyeType
}.

Definition rec_step (g : recState) (e : event) : recState :=
  match e with
  | glBindFramebuffer GL_FRAMEBUFFER f
  | glBindFramebuffer GL_DRAW_FRAMEBUFFER f => mkRecState f (texture_2d g) (cur_eye g)
  | glBindTexture t => mkRecState (draw_fbo g) (Some t) (cur_eye g)
  | Skybox_draw _ _ _ _
  | Cube_draw _ _ _ => mkRecState (draw_fbo g) None (cur_eye g)
  | call_currentEye eye => mkRecState (draw_fbo g) (texture_2d g) (Some eye)
  | _ => g
  end.

(** Each call paired with the observer's state just before it. *)
Fixpoint annotate (g : recState) (tr : list event) : list (recState * event) :=
  match tr with
  | [] => []
  | e :: rest => (g, e) :: annotate (rec_step g e) rest
  end.

Definition final (g : recState) (tr : list event) : recState :=
  fold_left rec_step tr g.

Definition is_eye (o : option ovrEyeType) (eye : ovrEyeType) : bool :=
  match o with Some e => eye_eqb e eye | None => false end.

(** The three faces of the CAVE and their render targets. *)
Inductive face : Type := face_left | face_right | face_bottom.

Definition face_fbo (s : SimScene) (f : face) : Z :=
  match f with face_left => lFBO s | face_right => rFBO s | face_bottom => bFBO s end.
Definition face_texture (s : SimScene) (f : face) : Z :=
  match f with
  | face_left => lrenderedTexture s
  | face_right => rrenderedTexture s
  | face_bottom => brenderedTexture s
  end.

Definition is_face_fbo (s : SimScene) (f : Z) : bool :=
  (f =? lFBO s) || (f =? rFBO s) || (f =? bFBO s).
Definition is_face_texture (s : SimScene) (t : Z) : bool :=
  (t =? lrenderedTexture s) || (t =? rrenderedTexture s) || (t =? brenderedTexture s).

(** Calls that write pixels into the framebuffer bound for drawing. *)
Definition is_draw_or_clear (e : event) : bool :=
  match e with
  | glClear | glDrawArrays _ _ _ | Skybox_draw _ _ _ _ | Cube_draw _ _ _ => true
  | _ => false
  end.

(** A draw or clear into one of the three face render targets, during [eye]. *)
Definition writes_face_target (s : SimScene) (eye : ovrEyeType)
    (x : recState * event) : bool :=
  is_draw_or_clear (snd x) && is_eye (cur_eye (fst x)) eye
  && is_face_fbo s (draw_fbo (fst x)).

(** A vertex-array draw issued while one of the three face textures is the
    bound 2D texture, during [eye]: the composite pass's reads. *)
Definition samples_face_texture (s : SimScene) (eye : ovrEyeType)
    (x : recState * event) : bool :=
  match snd x with
  | glDrawArrays _ _ _ =>
      is_eye (cur_eye (fst x)) eye &&
      match texture_2d (fst x) with
      | Some t => is_face_texture s t
      | None => false
      end
  | _ => false
  end.

(** The scene's skybox, respectively its cube, is drawn into the render
    target of [f] during [eye]. *)
Definition is_skybox_draw_at (s : SimScene) (eye : ovrEyeType) (f : face)
    (x : recState * event) : bool :=
  match snd x with
  | Skybox_draw the_skybox _ _ _ =>
      is_eye (cur_eye (fst x)) eye && (draw_fbo (fst x) =? face_fbo s f)
  | _ => false
  end.
Definition is_cube_draw_at (s : SimScene) (eye : ovrEyeType) (f : face)
    (x : recState * event) : bool :=
  match snd x with
  | Cube_draw _ _ _ =>
      is_eye (cur_eye (fst x)) eye && (draw_fbo (fst x) =? face_fbo s f)
  | _ => false
  end.

Definition skybox_drawn (s : SimScene) (ann : list (recState * event))
    (eye : ovrEyeType) (f : face) : bool :=
  existsb (is_skybox_draw_at s eye f) ann.
Definition cube_drawn (s : SimScene) (ann : list (recState * event))
    (eye : ovrEyeType) (f : face) : bool :=
  existsb (is_cube_draw_at s eye f) ann.

(** The index [curEyeIdx * 3 + faceIdx] of a face/eye combination. *)
Definition eye_index (eye : ovrEyeType) : Z :=
  match eye with ovrEye_Left => 0 | ovrEye_Right => 1 end.
Definition face_index (f : face) : Z :=
  match f with face_left => 0 | face_right => 1 | face_bottom => 2 end.
Definition combo_index (eye : ovrEyeType) (f : face) : Z :=
  eye_index eye * 3 + face_index f.

(** The arguments of the calls of [offscreenRender] and of [renderScene]
    recorded in a trace: head pose and eye position. *)
Definition offscreen_args (e : event) : option (mat4 * vec3) :=
  match e with
  | call_offscreenRender _ headPose _ _ eyePos => Some (headPose, eyePos)
  | _ => None
  end.
Definition renderScene_args (e : event) : option (mat4 * mat4 * vec3) :=
  match e with
  | call_renderScene projection headPose eyePos => Some (projection, headPose, eyePos)
  | _ => None
  end.
Definition render_args (e : event) : option (mat4 * mat4 * vec3) :=
  match e with
  | call_render projection modelview eyePos => Some (projection, modelview, eyePos)
  | _ => None
  end.
Definition preRender_eyePos (e : event) : option vec3 :=
  match e with
  | call_preRender _ _ _ _ eyePos => Some eyePos
  | _ => None
  end.

Fixpoint collect {A} (f : event -> option A) (tr : list event) : list A :=
  match tr with
  | [] => []
  | e :: rest =>
      match f e with
      | Some a => a :: collect f rest
      | None => collect f rest
      end
  end.

(** The names handed out by the graphics library are pairwise distinct and
    none of the render targets is the default framebuffer 0. *)
Definition handles_distinct (a : SimApp) : Prop :=
  let s := simScene a in
  NoDup [0; _fbo a; lFBO s; rFBO s; bFBO s] /\
  NoDup [lrenderedTexture s; rrenderedTexture s; brenderedTexture s].

(** What every state of the scene satisfies once constructed: the toggle
    [buttonX] is 0 or 1 and [random_num] names one of the six combinations. *)
Definition scene_inv (s : SimScene) : Prop :=
  (buttonX s = 0 \/ buttonX s = 1) /\ 0 <= random_num s < 6 /\
  (forall k, 0 <= rand_stream s k).

End Recorder.

(* ================================================================== *)
(** * Auxiliary vocabulary for the statements below                   *)
(* ================================================================== *)

Module Aux.
Import Glm Ovr Gl OffAxis Scene App Recorder.
Local Open Scope Z_scope.

(** The effect on the scene of the guarded re-roll at the top of
    [preRender]. *)
Definition reroll (s : SimScene) : SimScene :=
  if (buttonX s =? 1) && negb (randomGened s) then
    set_randomGened true
      (set_random_num (Z.rem (rand_stream s (rand_calls s)) 6)
         (set_rand_calls (S (rand_calls s)) s))
  else s.

(** The guard of the two draw calls of a face block of [preRender]. *)
Definition face_guard (s : SimScene) (f : face) : bool :=
  (buttonX s =? 0) || negb (curEyeIdx s * 3 + face_index f =? random_num s).

(** The state in which [draw_eye] calls [offscreenRender]. *)
Definition before_offscreen (ep : PerEye ovrPosef) (eye : ovrEyeType) (a : SimApp)
  : SimApp :=
  let a1 := resolve_eye ep eye a in
  let a2 := set_simScene (set_curEyeIdx (eye_index eye) (simScene a1)) a1 in
  set_RenderPose (set_eye (RenderPose a2) eye (at_eye ep eye)) a2.

(** The hand position [offscreenRender] substitutes for the eye: the fourth
    column of the live right-hand pose in LIVE mode, of [lastRightHand]
    otherwise. *)
Definition hand_column (a : SimApp) : vec4 :=
  if (getTrackingState a =? 0) then col3 (rightHandPose a) else col3 (lastRightHand a).

(** The view matrix and the eye position [offscreenRender] hands to
    [preRender]. *)
Definition offscreen_view (headPose : mat4) (eyePos : vec3) (a : SimApp) : mat4 * vec3 :=
  if rightHandTriggerPressed (simScene a) then
    (inverse (set_col3 (mat4_diag 1) (hand_column a)),
     mkVec3 (v4x (hand_column a) + getDefaultIOD a (curEyeIdx (simScene a)))%R
            (v4y (hand_column a)) (v4z (hand_column a)))
  else (inverse headPose, eyePos).

(** The application state [offscreenRender] leaves, the scene apart. *)
Definition offscreen_app (a : SimApp) : SimApp :=
  if rightHandTriggerPressed (simScene a) && (getTrackingState a =? 0)
  then set_lastRightHand (rightHandPose a) a
  else a.

(** The pose [resolve_eye] stores in [renderEye[eye]]. *)
Definition resolved_pose (ep : PerEye ovrPosef) (eye : ovrEyeType) (a : SimApp)
  : ovrPosef :=
  let held := if at_eye (initLastEye a) eye then at_eye (lastEye a) eye
              else at_eye ep eye in
  if (getTrackingState a =? 0) then set_Position held (Position (at_eye ep eye))
  else held.

(** Calls that leave the draw framebuffer and the current eye alone. *)
Definition keeps_target (e : event) : bool :=
  match e with
  | glBindFramebuffer GL_FRAMEBUFFER _
  | glBindFramebuffer GL_DRAW_FRAMEBUFFER _
  | call_currentEye _ => false
  | _ => true
  end.

Definition is_drawArrays (e : event) : bool :=
  match e with glDrawArrays _ _ _ => true | _ => false end.

(** Two scenes that differ at most in the state of their lines. *)
Definition same_but_lines (s1 s2 : SimScene) : Prop :=
  exists L, s1 = set_lines L s2.

(** The three face render targets are pairwise distinct, and distinct from
    the framebuffer [fbo] of the composite pass. *)
Definition targets_distinct (s : SimScene) (fbo : Z) : Prop :=
  lFBO s <> rFBO s /\ lFBO s <> bFBO s /\ rFBO s <> bFBO s /\
  fbo <> lFBO s /\ fbo <> rFBO s /\ fbo <> bFBO s.

(** The state [update] leaves. *)
Definition updated (inp : FrameInput) (a : SimApp) : SimApp :=
  state_of (update inp a).

(** [update] in two parts: what it does to the scene and what it does to the
    application's own members. *)
Definition updated_scene (inp : FrameInput) (s : SimScene) : SimScene :=
  let s1 := match inputState inp with
            | Some i => update_cube i (update_buttons i s)
            | None => s
            end in
  set_cube_toWorld
    (mul (translate_m (mat4_diag 1) (mkVec3 (cubeX s1) 0 (cubeZ s1)))
         (scale_m (mat4_diag 1) (mkVec3 (cubeSize s1) (cubeSize s1) (cubeSize s1))))
    s1.
Definition updated_hand (inp : FrameInput) (a : SimApp) : SimApp :=
  match inputState inp with
  | Some _ =>
      set_triggerPose (toGlm_vec (Position (rightPose inp)))
        (set_rightHandPose (toGlm (rightPose inp)) a)
  | None => a
  end.

(** The calls one iteration of the eye loop records, given the view matrix
    and eye position its offscreen pass works with. *)
Definition eye_trace (ep : PerEye ovrPosef) (eye : ovrEyeType) (a : SimApp)
  : list event :=
  let a1 := before_offscreen ep eye a in
  let re := resolved_pose ep eye a in
  let P := at_eye (_eyeProjections a) eye in
  let vp := at_eye (Viewport a) eye in
  let v := offscreen_view (toGlm re) (toGlm_vec (Position re)) a1 in
  let r1 := preRender P (fst v) (_fbo a) vp (snd v)
                      (set_curEyeIdx (eye_index eye) (simScene a)) in
  let orig := toGlm_vec (Position (at_eye ep eye)) in
  [call_currentEye eye; Skybox_useCubemap the_skybox (eye_index eye);
   glViewport (Pos_x vp) (Pos_y vp) (Size_w vp) (Size_h vp);
   call_offscreenRender P (toGlm re) (_fbo a) vp (toGlm_vec (Position re))]
  ++ trace_of r1
  ++ [call_renderScene P (toGlm (at_eye ep eye)) orig]
  ++ trace_of (render P (inverse (toGlm (at_eye ep eye))) orig (state_of r1)).

(** The pose an eye holds when a frame begins: the stored one, or, before
    the eye's first frame, the one the frame observes first. *)
Definition held_pose (ep : PerEye ovrPosef) (eye : ovrEyeType) (a : SimApp) : ovrPosef :=
  if at_eye (initLastEye a) eye then at_eye (lastEye a) eye else at_eye ep eye.

(** The tracking mode each frame of a run is drawn in (0 is LIVE). *)
Fixpoint tracking_modes (inps : list FrameInput) (a : SimApp) : list Z :=
  match inps with
  | [] => []
  | inp :: rest =>
      getTrackingState (updated inp a) :: tracking_modes rest (state_of (frame inp a))
  end.

(** The arguments [offscreenRender] receives for a pose. *)
Definition pose_args (p : ovrPosef) : mat4 * vec3 :=
  (toGlm p, toGlm_vec (Position p)).

(** The eye position the offscreen pass works with while the hand is
    substituted: the x component of the hand column shifted by the eye's
    [defaultHmdToEyeOffset]. *)
Definition substituted_eyePos (h : vec4) (a : SimApp) (eye : ovrEyeType) : vec3 :=
  mkVec3 (v4x h + at_eye (defaultHmdToEyeOffset a) eye)%R (v4y h) (v4z h).

(** What [preRender] receives when the offscreen pass renders with the pose
    [p]: the inverse of the pose's matrix as the view, and the pose's
    position as the eye. *)
Definition view_args (p : ovrPosef) : mat4 * vec3 :=
  (inverse (toGlm p), toGlm_vec (Position p)).

(** What [preRender] receives while the hand is substituted: the inverse of
    [no_rot], the identity matrix with the hand column as its last column,
    and the substituted eye position.  No pose of the head enters. *)
Definition hand_args (a : SimApp) (eye : ovrEyeType) : mat4 * vec3 :=
  (inverse (set_col3 (mat4_diag 1) (hand_column a)),
   substituted_eyePos (hand_column a) a eye).

(** The claim's wording for the same position: a hand position with the
    clamped, IOD-adjusted offset of [renderEyeOffset] applied. *)
Definition claimed_eyePos (hand : ovrVector3f) (a : SimApp) (eye : ovrEyeType) : vec3 :=
  mkVec3 (ovx hand + ovx (at_eye (renderEyeOffset a) eye))%R (ovy hand) (ovz hand).

(** In a list, every element satisfying [P] comes strictly before every
    element satisfying [Q]. *)
Definition Before {A} (P Q : A -> bool) (l : list A) : Prop :=
  forall i j x y,
    nth_error l i = Some x -> nth_error l j = Some y ->
    P x = true -> Q y = true -> (i < j)%nat.

(** An annotated call that neither writes a face target nor samples a face
    texture for [eye]. *)
Definition nothing_for (S : SimScene) (eye : ovrEyeType) (x : recState * event) : Prop :=
  writes_face_target S eye x = false /\ samples_face_texture S eye x = false.

(** Two scenes with the same render targets and textures. *)
Definition same_targets (s1 s2 : SimScene) : Prop :=
  lFBO s1 = lFBO s2 /\ rFBO s1 = rFBO s2 /\ bFBO s1 = bFBO s2 /\
  lrenderedTexture s1 = lrenderedTexture s2 /\
  rrenderedTexture s1 = rrenderedTexture s2 /\
  brenderedTexture s1 = brenderedTexture s2.

(** The members no frame ever assigns: of the application, and of the scene. *)
Definition config (a : SimApp) :=
  (_fbo a, _mirrorFbo a, _eyeProjections a, Viewport a, HmdToEyeOffset a,
   defaultHmdToEyeOffset a).
Definition scene_config (s : SimScene) :=
  (lFBO s, rFBO s, bFBO s, lrenderedTexture s, rrenderedTexture s, brenderedTexture s,
   (cubeShaderProgram s, skyboxShaderProgram s, lineShaderProgram s),
   rand_stream s, IOD s, toWorld (cave s)).

(** The input flags a draw reads and never writes. *)
Definition scene_flags (s : SimScene) :=
  (buttonA s, buttonB s, buttonX s, rightHandTriggerPressed s,
   (buttonAPressed s, buttonBPressed s, buttonXPressed s)).

(** The calls [draw] records before and after the eye loop. *)
Definition draw_head (inp : FrameInput) (a : SimApp) : list event :=
  [ovr_GetEyePoses (renderEyeOffset a);
   glBindFramebuffer GL_DRAW_FRAMEBUFFER (_fbo a);
   glFramebufferTexture2D GL_DRAW_FRAMEBUFFER (curTexId inp);
   glClear].
Definition draw_tail (inp : FrameInput) (a : SimApp) : list event :=
  [glFramebufferTexture2D GL_DRAW_FRAMEBUFFER 0;
   glBindFramebuffer GL_DRAW_FRAMEBUFFER 0;
   ovr_CommitTextureSwapChain;
   ovr_SubmitFrame;
   glBindFramebuffer GL_READ_FRAMEBUFFER (_mirrorFbo a);
   glFramebufferTexture2D GL_READ_FRAMEBUFFER (mirrorTextureId inp);
   glBlitFramebuffer;
   glBindFramebuffer GL_READ_FRAMEBUFFER 0].

(** Every call a computation records satisfies [Q], whatever the state it
    starts from; and the state it leaves is related by [R] to that state. *)
Definition emits_only {S A} (Q : event -> Prop) (m : Act S A) : Prop :=
  forall s, Forall Q (trace_of (m s)).
Definition maintains {S A} (R : S -> S -> Prop) (m : Act S A) : Prop :=
  forall s, R (state_of (m s)) s.

End Aux.

(* ================================================================== *)
(** * A concrete application state and concrete frames                *)
(* ================================================================== *)

Module Examples.
Import Glm Ovr Gl OffAxis Scene App Recorder Aux.
Local Open Scope Z_scope.
Local Open Scope R_scope.

(** The face and the eye of the specification's worked example: corners
    (-1,-1,0), (1,-1,0), (-1,1,0), eye at (0,0,5). *)
Definition ex_pa : vec3 := mkVec3 (-1) (-1) 0.
Definition ex_pb : vec3 := mkVec3 1 (-1) 0.
Definition ex_pc : vec3 := mkVec3 (-1) 1 0.
Definition ex_eye : vec3 := mkVec3 0 0 5.

Definition ex_line : Line := mkLine 20 21 false (mat4_diag 1).

(** A scene as its constructor leaves it: no button seen yet, the
    occlusion mode off, [random_num] the first value of the generator
    modulo 6. *)
Definition ex_scene : SimScene :=
  {| cave := mkCave (mat4_diag 1) 30 31 32 33 34 35;
     cube_toWorld := mat4_diag 1;
     lines := fun _ => ex_line;
     cubeShaderProgram := 7; skyboxShaderProgram := 8; lineShaderProgram := 9;
     buttonAPressed := false; buttonBPressed := false; buttonXPressed := false;
     rightHandTriggerPressed := false;
     buttonA := 0; buttonB := 0; buttonX := 0;
     IOD := 0; cubeSize := 3 / 100; cubeX := 0; cubeZ := - (1 / 2);
     random_num := Z.rem 41 6; randomGened := false;
     curEyeIdx := 0;
     lFBO := 2; lrenderedTexture := 12;
     rFBO := 3; rrenderedTexture := 13;
     bFBO := 4; brenderedTexture := 14;
     rand_stream := fun k => (41 + 7 * Z.of_nat k)%Z;
     rand_calls := 1 |}.

Definition ex_quat_id : ovrQuatf := mkOvrQuatf 0 0 0 1.
(** A half turn about the vertical axis. *)
Definition ex_quat_turn : ovrQuatf := mkOvrQuatf 0 1 0 0.

Definition ex_pose0 : ovrPosef := mkOvrPosef ex_quat_id (mkOvrVector3f 0 0 0).

(** An application state as initialisation leaves it; the runtime's eye
    offsets are 3 cm to either side. *)
Definition ex_app : SimApp :=
  {| _fbo := 1; _mirrorFbo := 5;
     _eyeProjections := mkPerEye (mat4_diag 1) (mat4_diag 1);
     Viewport := mkPerEye (mkOvrRecti 0 0 100 100) (mkOvrRecti 100 0 100 100);
     RenderPose := mkPerEye ex_pose0 ex_pose0;
     HmdToEyeOffset := mkPerEye (mkOvrVector3f (- (3 / 100)) 0 0)
                                (mkOvrVector3f (3 / 100) 0 0);
     defaultHmdToEyeOffset := mkPerEye (- (3 / 100)) (3 / 100);
     lastEye := mkPerEye ex_pose0 ex_pose0;
     renderEye := mkPerEye ex_pose0 ex_pose0;
     initLastEye := mkPerEye false false;
     rightHandPose := mat4_diag 1;
     triggerPose := mkVec3 0 0 0;
     lastRightHand := mat4_diag 1;
     simScene := ex_scene |}.

(** Controller states: nothing touched; button B held; the right hand
    trigger squeezed. *)
Definition ex_sticks : PerEye ovrVector2f :=
  mkPerEye (mkOvrVector2f 0 0) (mkOvrVector2f 0 0).
Definition ex_idle : ovrInputState := mkInputState 0 (mkPerEye 0 0) ex_sticks.
Definition ex_B_down : ovrInputState := mkInputState 2 (mkPerEye 0 0) ex_sticks.
Definition ex_trigger : ovrInputState := mkInputState 0 (mkPerEye 0 1) ex_sticks.

(** The head looking ahead at the origin, and turned around one metre to
    the right. *)
Definition ex_head_a : ovrPosef := mkOvrPosef ex_quat_id (mkOvrVector3f 0 0 0).
Definition ex_head_b : ovrPosef := mkOvrPosef ex_quat_turn (mkOvrVector3f 1 0 0).

Definition ex_hand (x : R) : ovrPosef := mkOvrPosef ex_quat_id (mkOvrVector3f x 1 0).

Definition ex_frame (i : ovrInputState) (hand head : ovrPosef) : FrameInput :=
  mkFrameInput (Some i) hand (mkPerEye head head) 40 41.

(** The first entry of the head-pose matrix of the first recorded call of
    [offscreenRender]: for a rotation about the vertical axis, the cosine of
    the angle. *)
Definition first_head_entry (l : list (mat4 * vec3)) : R :=
  match l with
  | (m, _) :: _ => v4x (col0 m)
  | [] => 0
  end.

(** Two frames with nothing touched: the head looks ahead, then has turned. *)
Definition ex_two_heads : list FrameInput :=
  [ex_frame ex_idle (ex_hand 0) ex_head_a; ex_frame ex_idle (ex_hand 0) ex_head_b].

(** The same application with the tracking mode FROZEN. *)
Definition ex_frozen : SimApp := set_simScene (set_buttonB 1%Z ex_scene) ex_app.

(** The same application on a headset whose runtime reports the offset noted
    beside [defaultHmdToEyeOffset] in the source, 0.0294861, for both eyes. *)
Definition ex_app_offsets : SimApp :=
  {| _fbo := 1; _mirrorFbo := 5;
     _eyeProjections := mkPerEye (mat4_diag 1) (mat4_diag 1);
     Viewport := mkPerEye (mkOvrRecti 0 0 100 100) (mkOvrRecti 100 0 100 100);
     RenderPose := mkPerEye ex_pose0 ex_pose0;
     HmdToEyeOffset := mkPerEye (mkOvrVector3f (294861 / 10000000) 0 0)
                                (mkOvrVector3f (294861 / 10000000) 0 0);
     defaultHmdToEyeOffset := mkPerEye (294861 / 10000000) (294861 / 10000000);
     lastEye := mkPerEye ex_pose0 ex_pose0;
     renderEye := mkPerEye ex_pose0 ex_pose0;
     initLastEye := mkPerEye false false;
     rightHandPose := mat4_diag 1;
     triggerPose := mkVec3 0 0 0;
     lastRightHand := mat4_diag 1;
     simScene := ex_scene |}.

(** Four frames: the trigger is squeezed with the hand at x = 2 (LIVE);
    button B is pressed with the hand at x = 3; B is released, which engages
    FROZEN, with the hand at x = 4; the trigger is squeezed again with the
    hand at x = 5. *)
Definition ex_f2 : FrameInput := ex_frame ex_trigger (ex_hand 2) ex_head_a.
Definition ex_f3 : FrameInput := ex_frame ex_B_down (ex_hand 3) ex_head_a.
Definition ex_f4 : FrameInput := ex_frame ex_idle (ex_hand 4) ex_head_a.
Definition ex_f5 : FrameInput := ex_frame ex_trigger (ex_hand 5) ex_head_a.

Definition ex_a2 : SimApp := state_of (frame ex_f2 ex_app).
Definition ex_a3 : SimApp := state_of (frame ex_f3 ex_a2).
Definition ex_a4 : SimApp := state_of (frame ex_f4 ex_a3).

(** The observer before the first frame: nothing bound, no eye announced. *)
Definition ex_rec : recState := mkRecState 0 None None.

(** The application one frame after button X was seen held down: its
    release, in a frame with nothing touched, switches the occlusion mode
    on. *)
Definition ex_x_released : SimApp :=
  set_simScene (set_buttonXPressed true ex_scene) ex_app.

Definition first_x (l : list vec3) : R :=
  match l with
  | v :: _ => v3x v
  | [] => 0
  end.

(** Files for [loadPPM]: a 2 x 2 image whose data stops after five of its
    twelve bytes; nothing at all; a header that ends in a comment line; a
    negative width; and the environment that holds them. *)
Definition bytes (s : string) : list ascii := list_ascii_of_string s.

Definition ex_truncated : list ascii :=
  Ppm.ppm_file (bytes "P6") [bytes "# made by hand"] (bytes "2") (bytes "2") []
    (bytes "255") (bytes "abcde").
Definition ex_ends_in_comment : list ascii :=
  Ppm.terminated (bytes "P6") ++ Ppm.terminated (bytes "# made by hand").
Definition ex_negative : list ascii :=
  Ppm.ppm_file (bytes "P6") [] (bytes "-1") (bytes "1") [] (bytes "255") [].
Definition ex_no_pixels : list ascii :=
  Ppm.ppm_file (bytes "P6") [] (bytes "0") (bytes "0") [] (bytes "255") [].

Definition ex_env : Ppm.Env :=
  Ppm.mkEnv
    (fun name =>
       if String.eqb name "wall.ppm" then Some ex_truncated
       else if String.eqb name "empty.ppm" then Some []
       else if String.eqb name "comment.ppm" then Some ex_ends_in_comment
       else if String.eqb name "negative.ppm" then Some ex_negative
       else if String.eqb name "nopixels.ppm" then Some ex_no_pixels
       else None)
    1000000.

End Examples.
(* ================================================================== *)
(** * Further vocabulary: clip space                                  *)
(* ================================================================== *)

Module Clip.
Import Glm OffAxis.
Local Open Scope R_scope.

(** [m * vec4(p, 1.0f)]: the clip coordinates of a world-space point under
    the matrix [m], as in [to_world] of the scene. *)
Definition clip (m : mat4) (p : vec3) : vec4 :=
  mul_vec m (mkVec4 (v3x p) (v3y p) (v3z p) 1).

(** Normalised device coordinates: the perspective division. *)
Definition ndc_x (c : vec4) : R := v4x c / v4w c.
Definition ndc_y (c : vec4) : R := v4y c / v4w c.
Definition ndc_z (c : vec4) : R := v4z c / v4w c.

(** The fourth corner of the face spanned by [pa], [pb], [pc]. *)
(** A quaternion of norm one. *)
Definition unit_quat (q : Ovr.ovrQuatf) : Prop :=
  Ovr.oqx q * Ovr.oqx q + Ovr.oqy q * Ovr.oqy q + Ovr.oqz q * Ovr.oqz q
  + Ovr.oqw q * Ovr.oqw q = 1.

Definition fourth_corner (pa pb pc : vec3) : vec3 := vadd pb (vsub pc pa).

End Clip.

(* ================================================================== *)
(** * Further vocabulary: PPM files                                   *)
(* ================================================================== *)

Module PpmSpec.
Import Ppm.
Local Open Scope Z_scope.

(** The parts of a header [loadPPM] reads line by line: every line fits the
    buffer, the comment lines begin with [#], the two dimensions are words
    on one line that does not begin with [#], and neither does the line of
    the maximal value. *)
Definition header_ok (magic : list ascii) (comments1 : list (list ascii))
    (wtok htok : list ascii) (comments2 : list (list ascii)) (maxval : list ascii)
  : Prop :=
  is_line magic /\ Forall comment_line comments1 /\
  is_word wtok /\ is_word htok /\ first_char wtok <> "#"%char /\
  is_line (wtok ++ " "%char :: htok) /\
  Forall comment_line comments2 /\
  is_line maxval /\ first_char (terminated maxval) <> "#"%char.

(** One list of bytes occurs inside another as a contiguous segment. *)
Definition segment_of (data file : list ascii) : Prop :=
  exists before after, file = before ++ data ++ after.

End PpmSpec.

(* ================================================================== *)
(** * Cave::loadCubemap (Cave.cpp)                                    *)
(* ================================================================== *)

Module Cubemap.
Import Ppm.
Local Open Scope Z_scope.

Inductive texParam : Type := GL_TEXTURE_MAG_FILTER | GL_TEXTURE_MIN_FILTER.
Inductive texFilter : Type := GL_LINEAR | GL_LINEAR_MIPMAP_LINEAR.

(** The calls [loadCubemap] makes, apart from [loadPPM]. *)
Inductive call : Type :=
| glGenTextures (name : Z)
| glBindTexture (tex : Z)
| glTexImage2D (width height : Z) (pixels : option (list ascii))
| glGenerateMipmap
| glTexParameteri (pname : texParam) (param : texFilter)
| free (p : option (list ascii)).

Definition texture_path : string :=
  "C:/Users/degu/Desktop/CSE190Project3/Minimal/vr_test_pattern.ppm".

Inductive Result : Type :=
| Done (texture_ID : Z) (calls : list call) (log : list string)
| Throws
| Hangs
| Undefined.

(** [Cave::loadCubemap].  [fresh] is the name [glGenTextures] hands out.
    The image comes from [new unsigned char[]] inside [loadPPM] and is
    released with [free]: for a null pointer [free] does nothing, for any
    other the language does not define what happens. *)
Definition loadCubemap (env : Env) (fresh : Z) : Result :=
  match loadPPM env texture_path with
  | Returned image width height log =>
      match image with
      | None =>
          Done fresh
            [glGenTextures fresh; glBindTexture fresh;
             glTexImage2D width height image; glGenerateMipmap;
             glTexParameteri GL_TEXTURE_MAG_FILTER GL_LINEAR;
             glTexParameteri GL_TEXTURE_MIN_FILTER GL_LINEAR_MIPMAP_LINEAR;
             free image; glBindTexture 0]
            log
      | Some _ => Undefined
      end
  | Ppm.Throws => Throws
  | Ppm.Hangs => Hangs
  | Ppm.Undefined => Undefined
  end.

End Cubemap.

(* ================================================================== *)
(** * Further concrete inputs                                         *)
(* ================================================================== *)

Module MoreExamples.
Import Ppm PpmSpec Examples.
Local Open Scope Z_scope.

(** A 2 x 1 image with its six bytes and two more after them; the same
    image under another magic number, without the comment and with another
    maximal value; and a file that stops after the magic number. *)
Definition ex_complete : list ascii :=
  ppm_file (bytes "P6") [bytes "# made by hand"] (bytes "2") (bytes "1") []
    (bytes "255") (bytes "abcdefgh").
Definition ex_complete_plain : list ascii :=
  ppm_file (bytes "P3") [] (bytes "2") (bytes "1") [] (bytes "65535") (bytes "abcdefgh").
Definition ex_magic_only : list ascii := terminated (bytes "P6").

Definition ex_env2 : Env :=
  mkEnv
    (fun name =>
       if String.eqb name "wall.ppm" then Some ex_complete
       else if String.eqb name "plain.ppm" then Some ex_complete_plain
       else if String.eqb name "magic.ppm" then Some ex_magic_only
       else if String.eqb name "comment.ppm" then Some ex_ends_in_comment
       else if String.eqb name "negative.ppm" then Some ex_negative
       else if String.eqb name Cubemap.texture_path then Some ex_complete
       else None)
    1000000.

(** An environment without the texture file of [loadCubemap]. *)
Definition ex_env_empty : Env := mkEnv (fun _ => None) 1000000.

End MoreExamples.

(* ================================================================== *)
(** * Further vocabulary: what a frame records and keeps              *)
(* ================================================================== *)

Module Watch.
Import Glm Ovr Gl OffAxis Scene App Recorder Aux.
Local Open Scope Z_scope.

(** The cube as the controller shapes it. *)
Definition cube_members (s : SimScene) : R * R * R * mat4 :=
  (cubeSize s, cubeX s, cubeZ s, cube_toWorld s).

(** The state after the last frame of a run ([a] itself for no frame). *)
Definition last_state (inps : list FrameInput) (a : SimApp) : SimApp :=
  fold_left (fun st inp => state_of (frame inp st)) inps a.

(** Controller states with a given button held, respectively not held. *)
Definition holds (mask : Z) (inp : FrameInput) : Prop :=
  exists i, inputState inp = Some i /\ button_down i mask = true.
Definition releases (mask : Z) (inp : FrameInput) : Prop :=
  exists i, inputState inp = Some i /\ button_down i mask = false.

(** The three buttons [update] reads, each with its counter, its
    "was down" flag and the modulus its counter is advanced by. *)
Inductive button : Type := button_A | button_B | button_X.

Definition mask_of (b : button) : Z :=
  match b with
  | button_A => ovrButton_A | button_B => ovrButton_B | button_X => ovrButton_X
  end.
Definition counter_of (b : button) (s : SimScene) : Z :=
  match b with
  | button_A => buttonA s | button_B => buttonB s | button_X => buttonX s
  end.
Definition pressed_of (b : button) (s : SimScene) : bool :=
  match b with
  | button_A => buttonAPressed s
  | button_B => buttonBPressed s
  | button_X => buttonXPressed s
  end.
Definition modulus_of (b : button) : Z :=
  match b with button_A => 4 | button_B => 2 | button_X => 2 end.

(** Arguments recorded in a trace. *)
Definition eyePoses_offsets (e : event) : option (PerEye ovrVector3f) :=
  match e with ovr_GetEyePoses o => Some o | _ => None end.
Definition preRender_args (e : event) : option (mat4 * vec3) :=
  match e with call_preRender _ modelview _ _ eyePos => Some (modelview, eyePos) | _ => None end.
Definition scene_draw_args (e : event) : option (mat4 * mat4) :=
  match e with
  | Skybox_draw the_skybox _ P V => Some (P, V)
  | Cube_draw _ P V => Some (P, V)
  | _ => None
  end.

Definition is_present (e : event) : bool :=
  match e with ovr_CommitTextureSwapChain | ovr_SubmitFrame => true | _ => false end.

(** The corners pa, pb, pc [preRender] computes for each face. *)
Definition face_corners (m : mat4) (f : face) : vec3 * vec3 * vec3 :=
  match f with
  | face_left =>
      (to_world m (-2) (-2) 2, to_world m (-2) (-2) (-2), to_world m (-2) 2 2)
  | face_right =>
      (to_world m (-2) (-2) (-2), to_world m 2 (-2) (-2), to_world m (-2) 2 (-2))
  | face_bottom =>
      (to_world m (-2) (-2) 2, to_world m 2 (-2) 2, to_world m (-2) (-2) (-2))
  end.

Definition face_projection (m : mat4) (eyePos : vec3) (f : face) : mat4 :=
  let '(pa, pb, pc) := face_corners m f in
  getProjection eyePos pa pb pc nearPlane farPlane.

(** The scene draws of one face block: none when the block's guard fails,
    else skybox and cube with the face's own projection. *)
Definition face_draws (s : SimScene) (modelview : mat4) (eyePos : vec3) (f : face)
  : list (mat4 * mat4) :=
  if face_guard s f
  then [(face_projection (toWorld (cave s)) eyePos f, modelview);
        (face_projection (toWorld (cave s)) eyePos f, modelview)]
  else [].

End Watch.

(* ================================================================== *)
(** * Further vocabulary: where a draw call lands                     *)
(* ================================================================== *)

Module Placement.
Import Glm Ovr Gl OffAxis Scene App Recorder Aux.
Local Open Scope Z_scope.

(** What decides where a draw call lands: the framebuffer bound for
    drawing, the viewport last set, and the eye announced last. *)
Record watchState : Type := mkWatch {
  w_fbo : Z;
  w_viewport : option (Z * Z * Z * Z);
  w_eye : option ovrEyeType
}.

Definition watch_step (g : watchState) (e : event) : watchState :=
  match e with
  | glBindFramebuffer GL_FRAMEBUFFER f
  | glBindFramebuffer GL_DRAW_FRAMEBUFFER f => mkWatch f (w_viewport g) (w_eye g)
  | glViewport x y w h => mkWatch (w_fbo g) (Some (x, y, w, h)) (w_eye g)
  | call_currentEye eye => mkWatch (w_fbo g) (w_viewport g) (Some eye)
  | _ => g
  end.

Fixpoint watched (g : watchState) (tr : list event) : list (watchState * event) :=
  match tr with
  | [] => []
  | e :: rest => (g, e) :: watched (watch_step g e) rest
  end.

Definition watch_final (g : watchState) (tr : list event) : watchState :=
  fold_left watch_step tr g.

Definition rect_of (vp : ovrRecti) : Z * Z * Z * Z :=
  (Pos_x vp, Pos_y vp, Size_w vp, Size_h vp).

(** Calls that change nothing of the above. *)
Definition keeps_watch (e : event) : bool :=
  match e with
  | glBindFramebuffer GL_FRAMEBUFFER _
  | glBindFramebuffer GL_DRAW_FRAMEBUFFER _
  | glViewport _ _ _ _
  | call_currentEye _ => false
  | _ => true
  end.

(** The draws of the offscreen pass (the scene's skybox and cube) land in a
    face render target with the viewport of the 2048 x 2048 texture. *)
Definition in_face_target (s : SimScene) (g : watchState) : Prop :=
  (w_fbo g = lFBO s \/ w_fbo g = rFBO s \/ w_fbo g = bFBO s) /\
  w_viewport g = Some (0, 0, 2048, 2048).

(** The draws of the composite pass land in the swap-chain framebuffer,
    within the viewport of the eye that is current. *)
Definition in_eye_viewport (a : SimApp) (g : watchState) : Prop :=
  w_fbo g = _fbo a /\
  exists eye, w_eye g = Some eye /\ w_viewport g = Some (rect_of (at_eye (Viewport a) eye)).

Definition well_placed (a : SimApp) (x : watchState * event) : Prop :=
  match snd x with
  | Skybox_draw the_skybox _ _ _ | Cube_draw _ _ _ => in_face_target (simScene a) (fst x)
  | Skybox_draw the_riftskybox _ _ _ | glDrawArrays _ _ _ => in_eye_viewport a (fst x)
  | _ => True
  end.

End Placement.

(* ================================================================== *)
(** * Further vocabulary: the lines                                   *)
(* ================================================================== *)

Module LineSpec.
Import Glm Ovr Gl OffAxis Scene App Recorder Aux Watch.
Local Open Scope Z_scope.

(** The seven lines of the right eye. *)
Definition is_right_line (id : lineId) : bool :=
  match id with
  | liner1 | liner2 | liner3 | liner4 | liner5 | liner6 | liner7 => true
  | _ => false
  end.

(** The lines in the order [render] draws them. *)
Definition all_lines : list lineId :=
  [linel1; linel2; linel3; linel4; linel5; linel6; linel7;
   liner1; liner2; liner3; liner4; liner5; liner6; liner7].

(** Two scenes with the same lines. *)
Definition same_lines (s1 s2 : SimScene) : Prop := forall id, lines s1 id = lines s2 id.

(** The ambient colours set in a trace, and the endpoints stored. *)
Definition ambient_colour (e : event) : option (R * R * R) :=
  match e with
  | glUniform3f _ name r g b =>
      if String.eqb name "material.ambient" then Some (r, g, b) else None
  | _ => None
  end.
Definition line_endpoints (e : event) : option (vec3 * vec3) :=
  match e with glBufferData p1 p2 => Some (p1, p2) | _ => None end.

Definition green : R * R * R := (0%R, 1%R, 0%R).
Definition red : R * R * R := (1%R, 0%R, 0%R).

(** Where the seven lines of an eye start, in the order [preRender] stores
    them: at the corners pc and pa of the left face, pc, pa, pb + (pc - pa)
    and pb of the right face, and pb of the bottom face. *)
Definition line_starts (m : mat4) : list vec3 :=
  let '(la, lb, lc) := face_corners m face_left in
  let '(ra, rb, rc) := face_corners m face_right in
  let '(ba, bb, bc) := face_corners m face_bottom in
  [lc; la; rc; ra; vadd rb (vsub rc ra); rb; bb].

(** The corners of the cube with edge 4 about the origin, but for
    (2, 2, 2), taken to the world by [m]. *)
Definition seven_corners (m : mat4) : list vec3 :=
  [to_world m (-2) 2 2; to_world m (-2) (-2) 2; to_world m (-2) 2 (-2);
   to_world m (-2) (-2) (-2); to_world m 2 2 (-2); to_world m 2 (-2) (-2);
   to_world m 2 (-2) 2].

(** The colour [Line::draw] picks for a flag. *)
Definition flag_colour (pressed : bool) : R * R * R := if pressed then red else green.

End LineSpec.

(* ================================================================== *)
(** * Properties of the off-axis projection solver                    *)
(* ================================================================== *)

Section OffAxisFacts.
Import Glm OffAxis Examples.
Local Open Scope R_scope.

Lemma vec3_eq (a b : vec3) :
  v3x a = v3x b -> v3y a = v3y b -> v3z a = v3z b -> a = b.
Proof. destruct a, b; simpl; intros; subst; reflexivity. Qed.

Lemma dot_self_nonneg (v : vec3) : 0 <= dot v v.
Proof. unfold dot. nra. Qed.

Lemma dot_self_pos (a b : vec3) : a <> b -> 0 < dot (vsub a b) (vsub a b).
Proof.
  intros Hne.
  destruct (Rle_lt_or_eq_dec _ _ (dot_self_nonneg (vsub a b))) as [Hlt | Heq]; [exact Hlt|].
  exfalso. apply Hne. unfold dot, vsub in Heq. simpl in Heq.
  set (dx := v3x a - v3x b) in *. set (dy := v3y a - v3y b) in *.
  set (dz := v3z a - v3z b) in *.
  pose proof (Rle_0_sqr dx) as Hx. pose proof (Rle_0_sqr dy) as Hy.
  pose proof (Rle_0_sqr dz) as Hz. unfold Rsqr in Hx, Hy, Hz.
  assert (Hx0 : dx * dx = 0) by lra.
  assert (Hy0 : dy * dy = 0) by lra.
  assert (Hz0 : dz * dz = 0) by lra.
  apply Rsqr_0_uniq in Hx0, Hy0, Hz0. unfold dx, dy, dz in *.
  apply vec3_eq; lra.
Qed.

Lemma dot_comm (a b : vec3) : dot a b = dot b a.
Proof. unfold dot. ring. Qed.

Lemma dot_vscale (a b : vec3) (s u : R) :
  dot (vscale a s) (vscale b u) = s * u * dot a b.
Proof. unfold dot, vscale. simpl. ring. Qed.

(** The scale factor of [normalize] squares to the inverse of the squared norm. *)
Lemma inversesqrt_sq (s : R) : 0 < s -> inversesqrt s * inversesqrt s * s = 1.
Proof.
  intros Hs. unfold inversesqrt.
  assert (Hq : 0 < sqrt s) by (apply sqrt_lt_R0; exact Hs).
  assert (Hsq : sqrt s * sqrt s = s) by (apply sqrt_sqrt; lra).
  rewrite <- Hsq at 3. field. lra.
Qed.

Lemma normalize_unit (v : vec3) : 0 < dot v v -> dot (normalize v) (normalize v) = 1.
Proof.
  intros Hv. unfold normalize. rewrite dot_vscale. apply inversesqrt_sq. exact Hv.
Qed.

Lemma normalize_one (v : vec3) : dot v v = 1 -> normalize v = v.
Proof.
  intros Hv. unfold normalize, inversesqrt. rewrite Hv, sqrt_1.
  apply vec3_eq; simpl; field.
Qed.

Lemma length_of_unit (v : vec3) : dot v v = 1 -> length v = 1.
Proof. intros Hv. unfold length. rewrite Hv. apply sqrt_1. Qed.

(** Lagrange's identity for the cross product. *)
Lemma cross_norm (a b : vec3) :
  dot (cross a b) (cross a b) = dot a a * dot b b - dot a b * dot a b.
Proof. unfold dot, cross. simpl. ring. Qed.

Lemma cross_orth_l (a b : vec3) : dot a (cross a b) = 0.
Proof. unfold dot, cross. simpl. ring. Qed.

Lemma cross_orth_r (a b : vec3) : dot b (cross a b) = 0.
Proof. unfold dot, cross. simpl. ring. Qed.

(** The basis of a right-angled face is exactly orthonormal. *)
Lemma planeBasis_orthonormal (pa pb pc : vec3) :
  right_angle_at pa pb pc -> orthonormal (planeBasis pa pb pc).
Proof.
  intros (Hb & Hc & Hperp).
  pose proof (dot_self_pos _ _ Hb) as Hbpos.
  pose proof (dot_self_pos _ _ Hc) as Hcpos.
  set (r := normalize (vsub pb pa)).
  set (u := normalize (vsub pc pa)).
  assert (Hr : dot r r = 1) by (apply normalize_unit; exact Hbpos).
  assert (Hu : dot u u = 1) by (apply normalize_unit; exact Hcpos).
  assert (Hru : dot r u = 0).
  { unfold r, u, normalize. rewrite dot_vscale, Hperp. ring. }
  assert (Hc1 : dot (cross r u) (cross r u) = 1).
  { rewrite cross_norm, Hr, Hu, Hru. ring. }
  unfold planeBasis, orthonormal. simpl. fold r u.
  rewrite (normalize_one _ Hc1).
  repeat split.
  - apply length_of_unit, Hr.
  - apply length_of_unit, Hu.
  - apply length_of_unit, Hc1.
  - exact Hru.
  - apply cross_orth_l.
  - apply cross_orth_r.
Qed.

Lemma orthonormal_within_of_exact (tol : R) (B : Basis) :
  0 <= tol -> orthonormal B -> orthonormal_within tol B.
Proof.
  intros Htol (H1 & H2 & H3 & H4 & H5 & H6).
  unfold orthonormal_within.
  rewrite H1, H2, H3, H4, H5, H6.
  replace (1 - 1) with 0 by ring. rewrite Rabs_R0.
  repeat split; exact Htol.
Qed.

(** The frustum bounds in closed form, as [getProjection] computes them. *)
Lemma frustumBounds_unfold (e pa pb pc : vec3) (n : R) :
  let B := planeBasis pa pb pc in
  let d := - dot (vn B) (vsub pa e) in
  frustumBounds e pa pb pc n =
  mkBounds d (dot (vr B) (vsub pa e) * n / d) (dot (vr B) (vsub pb e) * n / d)
             (dot (vu B) (vsub pa e) * n / d) (dot (vu B) (vsub pc e) * n / d).
Proof. reflexivity. Qed.

Lemma dot_vsub_vadd (v p e w : vec3) :
  dot v (vsub p (vadd e w)) = dot v (vsub p e) - dot v w.
Proof. unfold dot, vsub, vadd. simpl. ring. Qed.

Lemma ex_right_angle : right_angle_at ex_pa ex_pb ex_pc.
Proof.
  unfold right_angle_at, ex_pa, ex_pb, ex_pc. repeat split.
  - intros H. apply (f_equal v3x) in H. simpl in H. lra.
  - intros H. apply (f_equal v3y) in H. simpl in H. lra.
  - unfold dot, vsub. simpl. ring.
Qed.

Lemma sqrt_4 : sqrt 4 = 2.
Proof. replace 4 with (2 * 2) by ring. apply sqrt_square. lra. Qed.

Lemma ex_basis :
  planeBasis ex_pa ex_pb ex_pc = mkBasis (mkVec3 1 0 0) (mkVec3 0 1 0) (mkVec3 0 0 1).
Proof.
  assert (Hr : normalize (vsub ex_pb ex_pa) = mkVec3 1 0 0).
  { unfold normalize, inversesqrt, dot, vsub, vscale, ex_pa, ex_pb. simpl.
    replace (_ + _ + _) with 4 by ring. rewrite sqrt_4. apply vec3_eq; simpl; lra. }
  assert (Hu : normalize (vsub ex_pc ex_pa) = mkVec3 0 1 0).
  { unfold normalize, inversesqrt, dot, vsub, vscale, ex_pa, ex_pc. simpl.
    replace (_ + _ + _) with 4 by ring. rewrite sqrt_4. apply vec3_eq; simpl; lra. }
  unfold planeBasis. rewrite Hr, Hu.
  assert (Hn : normalize (cross (mkVec3 1 0 0) (mkVec3 0 1 0)) = mkVec3 0 0 1).
  { rewrite normalize_one; [apply vec3_eq; unfold cross; simpl; ring|].
    unfold dot, cross. simpl. ring. }
  rewrite Hn. reflexivity.
Qed.

(** The symmetric case of the specification: with the eye centred in front of
    the face and n = 0.1 the bounds are l = -0.02, r = 0.02, b = -0.02,
    t = 0.02, at distance d = 5. *)
Example frustumBounds_symmetric :
  frustumBounds ex_eye ex_pa ex_pb ex_pc (1 / 10)
  = mkBounds 5 (- (2 / 100)) (2 / 100) (- (2 / 100)) (2 / 100).
Proof.
  rewrite frustumBounds_unfold. rewrite ex_basis. simpl.
  unfold dot, vsub, ex_eye, ex_pa, ex_pb, ex_pc. simpl.
  f_equal; field.
Qed.

(** C1.  [getProjection(e, pa, pb, pc, n, f)] is the matrix product
    P * transpose(M) * T of the specification: P the standard
    asymmetric-frustum matrix of the bounds l, r, b, t (each a dot product
    with va, vb or vc scaled by n/d, d = -dot(vn, va)), M the matrix whose
    columns are vr, vu, vn, and T the translation by -e.  The equality holds
    entry by entry, for every row i and column j, and needs none of the
    side conditions on the face, the eye, n and f. *)
Theorem getProjection_is_P_Mt_T (e pa pb pc : vec3) (n f : R) (i j : nat) :
  entry (getProjection e pa pb pc n f) i j = projection_spec e pa pb pc n f i j.
Proof.
  unfold getProjection, projection_spec.
  rewrite frustumBounds_unfold.
  generalize (planeBasis pa pb pc). intros [[rx ry rz] [ux uy uz] [nx ny nz]].
  cbv zeta. cbn [fd fl fr fb ft vr vu vn].
  generalize (- dot (mkVec3 nx ny nz) (vsub pa e)). intros d.
  generalize (dot (mkVec3 rx ry rz) (vsub pa e) * n / d).
  generalize (dot (mkVec3 rx ry rz) (vsub pb e) * n / d).
  generalize (dot (mkVec3 ux uy uz) (vsub pa e) * n / d).
  generalize (dot (mkVec3 ux uy uz) (vsub pc e) * n / d).
  intros t b r l.
  destruct e as [ex ey ez].
  destruct i as [|[|[|[|i]]]]; destruct j as [|[|[|[|j]]]];
    cbv [entry column comp4 mul mul_vec add4 scale4 transpose translate
      translate_m mat4_diag mat4_of frustum sprod stranspose frustum_std
      basis_std translation_std vneg rows row
      vr vu vn v3x v3y v3z v4x v4y v4z v4w col0 col1 col2 col3];
    ring.
Qed.

(** C2.  For corners pa, pb, pc with a right angle at pa, the basis vectors
    vr, vu, vn computed inside [getProjection] are mutually orthonormal:
    each has magnitude 1 and the pairwise dot products are 0 -- exactly, and
    therefore within the tolerance 1e-5.  The basis does not depend on the
    eye, so no condition on e is needed. *)
Theorem basis_orthonormal (pa pb pc : vec3) :
  right_angle_at pa pb pc ->
  orthonormal (planeBasis pa pb pc) /\
  orthonormal_within (1 / 100000) (planeBasis pa pb pc).
Proof.
  intros H. pose proof (planeBasis_orthonormal _ _ _ H) as Ho.
  split; [exact Ho|]. apply orthonormal_within_of_exact; [lra | exact Ho].
Qed.

Lemma basis_orthonormal_witness :
  right_angle_at ex_pa ex_pb ex_pc /\
  (orthonormal (planeBasis ex_pa ex_pb ex_pc) /\
   orthonormal_within (1 / 100000) (planeBasis ex_pa ex_pb ex_pc)).
Proof.
  split; [exact ex_right_angle | exact (basis_orthonormal _ _ _ ex_right_angle)].
Defined.

(** C7.  Translating the eye e by a vector w parallel to the face plane
    keeps the distance d to the plane, shifts l and r by one common amount
    (-dot(vr,w)*n/d) and b and t by another (-dot(vu,w)*n/d), and so leaves
    the widths r - l and t - b unchanged: a pure skew of the frustum. *)
Theorem parallel_eye_shift_is_pure_skew (e pa pb pc w : vec3) (n : R) :
  parallel_to_face pa pb pc w ->
  let B := planeBasis pa pb pc in
  let F := frustumBounds e pa pb pc n in
  let F' := frustumBounds (vadd e w) pa pb pc n in
  fd F' = fd F /\
  fl F' = fl F - dot (vr B) w * n / fd F /\
  fr F' = fr F - dot (vr B) w * n / fd F /\
  fb F' = fb F - dot (vu B) w * n / fd F /\
  ft F' = ft F - dot (vu B) w * n / fd F /\
  fr F' - fl F' = fr F - fl F /\
  ft F' - fb F' = ft F - fb F.
Proof.
  unfold parallel_to_face. intros Hpar. cbv zeta.
  rewrite !frustumBounds_unfold. set (B := planeBasis pa pb pc) in *. cbv zeta.
  cbn [fd fl fr fb ft].
  rewrite !dot_vsub_vadd, Hpar.
  replace (- (dot (vn B) (vsub pa e) - 0)) with (- dot (vn B) (vsub pa e)) by ring.
  unfold Rdiv. repeat split; ring.
Qed.

Lemma parallel_eye_shift_witness :
  parallel_to_face ex_pa ex_pb ex_pc (mkVec3 1 0 0) /\
  fr (frustumBounds (vadd ex_eye (mkVec3 1 0 0)) ex_pa ex_pb ex_pc (1 / 10))
  - fl (frustumBounds (vadd ex_eye (mkVec3 1 0 0)) ex_pa ex_pb ex_pc (1 / 10))
  = fr (frustumBounds ex_eye ex_pa ex_pb ex_pc (1 / 10))
    - fl (frustumBounds ex_eye ex_pa ex_pb ex_pc (1 / 10)).
Proof.
  assert (Hpar : parallel_to_face ex_pa ex_pb ex_pc (mkVec3 1 0 0)).
  { unfold parallel_to_face. rewrite ex_basis. unfold dot. simpl. ring. }
  split; [exact Hpar|].
  exact (proj1 (proj2 (proj2 (proj2 (proj2 (proj2
    (parallel_eye_shift_is_pure_skew ex_eye ex_pa ex_pb ex_pc (mkVec3 1 0 0) (1 / 10) Hpar))))))).
Defined.

End OffAxisFacts.

Section GlmFacts.
Import Glm.
Local Open Scope R_scope.

Lemma vec4_eq (a b : vec4) :
  v4x a = v4x b -> v4y a = v4y b -> v4z a = v4z b -> v4w a = v4w b -> a = b.
Proof. destruct a, b; cbn; intros; subst; reflexivity. Qed.

Lemma mat4_eq (a b : mat4) :
  col0 a = col0 b -> col1 a = col1 b -> col2 a = col2 b -> col3 a = col3 b -> a = b.
Proof. destruct a, b; cbn; intros; subst; reflexivity. Qed.

(** [glm::inverse] is a right inverse wherever the determinant it divides
    by is not zero. *)
Lemma mul_inverse_r (m : mat4) :
  snd (cofactors m) <> 0 -> mul m (inverse m) = mat4_diag 1.
Proof.
  destruct m as [[a0 a1 a2 a3] [b0 b1 b2 b3] [c0 c1 c2 c3] [d0 d1 d2 d3]].
  cbv [cofactors inverse mul mul_vec mat4_diag mat4_of add4 sub4 mul4 scale4
       fst snd col0 col1 col2 col3 v4x v4y v4z v4w].
  intros Hdet.
  apply mat4_eq; apply vec4_eq;
    cbv [col0 col1 col2 col3 v4x v4y v4z v4w]; field;
    intros E; apply Hdet; rewrite <- E; ring.
Qed.

(** The inverse of a translation is the opposite translation: the case the
    program meets when the substituted pose has no rotation. *)
Lemma inverse_translate (v : vec3) :
  inverse (translate v) = translate (mkVec3 (- v3x v) (- v3y v) (- v3z v)).
Proof.
  destruct v as [a b c].
  apply mat4_eq; apply vec4_eq;
    cbv [inverse cofactors fst snd translate translate_m mat4_diag mat4_of add4 sub4 mul4 scale4
         col0 col1 col2 col3 v4x v4y v4z v4w v3x v3y v3z]; field.
Qed.

End GlmFacts.

(* ================================================================== *)
(** * Properties of the frame loop                                    *)
(* ================================================================== *)

Section ActFacts.
Import Gl.
Context {S A B : Type}.

Lemma trace_bind (m : Act S A) (k : A -> Act S B) (s : S) :
  trace_of (bind m k s)
  = trace_of (m s) ++ trace_of (k (result_of (m s)) (state_of (m s))).
Proof.
  unfold bind, trace_of, result_of, state_of.
  destruct (m s) as [[a s1] t1]. cbn.
  destruct (k a s1) as [[b s2] t2]. reflexivity.
Qed.

Lemma state_bind (m : Act S A) (k : A -> Act S B) (s : S) :
  state_of (bind m k s) = state_of (k (result_of (m s)) (state_of (m s))).
Proof.
  unfold bind, trace_of, result_of, state_of.
  destruct (m s) as [[a s1] t1]. cbn.
  destruct (k a s1) as [[b s2] t2]. reflexivity.
Qed.

Lemma result_bind (m : Act S A) (k : A -> Act S B) (s : S) :
  result_of (bind m k s) = result_of (k (result_of (m s)) (state_of (m s))).
Proof.
  unfold bind, trace_of, result_of, state_of.
  destruct (m s) as [[a s1] t1]. cbn.
  destruct (k a s1) as [[b s2] t2]. reflexivity.
Qed.

End ActFacts.

(** ** Calls a computation can record

    [emits_only Q m]: whatever the state, every call [m] records satisfies
    [Q].  The lemmas follow the structure of the program text. *)

Section EmitsOnly.
Import Gl Aux.

Lemma emits_ret {S A} Q (a : A) : emits_only Q (@ret S A a).
Proof. intros s. constructor. Qed.

Lemma emits_get {S} Q : emits_only Q (@get S).
Proof. intros s. constructor. Qed.

Lemma emits_modify {S} Q (f : S -> S) : emits_only Q (modify f).
Proof. intros s. constructor. Qed.

Lemma emits_emit {S} (Q : event -> Prop) (e : event) : Q e -> emits_only Q (@emit S e).
Proof. intros H s. cbn. constructor; [exact H | constructor]. Qed.

Lemma emits_bind {S A B} Q (m : Act S A) (k : A -> Act S B) :
  emits_only Q m -> (forall a, emits_only Q (k a)) -> emits_only Q (bind m k).
Proof.
  intros Hm Hk s. rewrite trace_bind. apply Forall_app. split; [apply Hm | apply Hk].
Qed.

Lemma emits_when {S} Q (c : bool) (m : Act S unit) :
  emits_only Q m -> emits_only Q (when c m).
Proof. intros Hm. destruct c; cbn; [exact Hm | apply emits_ret]. Qed.

Lemma emits_ite {S A} Q (c : bool) (m1 m2 : Act S A) :
  emits_only Q m1 -> emits_only Q m2 -> emits_only Q (if c then m1 else m2).
Proof. intros H1 H2. destruct c; assumption. Qed.

Lemma emits_zoom {S T A} Q (proj : T -> S) (inj : S -> T -> T) (m : Act S A) :
  emits_only Q m -> emits_only Q (zoom proj inj m).
Proof.
  intros Hm t. unfold zoom. specialize (Hm (proj t)).
  destruct (m (proj t)) as [[a s] tr]. exact Hm.
Qed.

End EmitsOnly.

(** Syntax-directed proof of [emits_only] for the program's functions. *)
Ltac emits_step :=
  cbv beta zeta;
  lazymatch goal with
  | |- Aux.emits_only _ (Gl.bind _ _) => apply emits_bind; [ | intros ? ]
  | |- Aux.emits_only _ (Gl.ret _) => apply emits_ret
  | |- Aux.emits_only _ Gl.get => apply emits_get
  | |- Aux.emits_only _ (Gl.modify _) => apply emits_modify
  | |- Aux.emits_only _ (Gl.emit _) =>
      apply emits_emit; cbv beta;
      first [reflexivity | intros; reflexivity | intros; split; reflexivity]
  | |- Aux.emits_only _ (Gl.when _ _) => apply emits_when
  | |- Aux.emits_only _ (Gl.zoom _ _ _) => apply emits_zoom
  | |- Aux.emits_only _ (if _ then _ else _) => apply emits_ite
  | |- Aux.emits_only _ (match ?e with _ => _ end) => destruct e
  | |- Aux.emits_only _ (Scene.on_line _ _) => unfold Scene.on_line
  | |- Aux.emits_only _ (Scene.on_cave _) => unfold Scene.on_cave
  | |- Aux.emits_only _ (App.on_scene _) => unfold App.on_scene
  | |- Aux.emits_only _ (Scene.Line_update _ _ _) => unfold Scene.Line_update
  | |- Aux.emits_only _ (Scene.Line_draw _ _ _) => unfold Scene.Line_draw
  | |- Aux.emits_only _ (Scene.Cave_draw _ _ _ _ _ _) => unfold Scene.Cave_draw
  | |- Aux.emits_only _ Scene.c_rand => unfold Scene.c_rand
  | |- Aux.emits_only _ Scene.SimScene_update => unfold Scene.SimScene_update
  | |- Aux.emits_only _ (Scene.draw_scene_into_face _ _ _ _ _) =>
      unfold Scene.draw_scene_into_face
  | |- Aux.emits_only _ (Scene.preRender _ _ _ _ _) => unfold Scene.preRender
  | |- Aux.emits_only _ (Scene.render _ _ _) => unfold Scene.render
  | |- Aux.emits_only _ (Scene.SimScene_currentEye _) => unfold Scene.SimScene_currentEye
  | |- Aux.emits_only _ (App.offscreenRender _ _ _ _ _) => unfold App.offscreenRender
  | |- Aux.emits_only _ (App.renderScene _ _ _) => unfold App.renderScene
  | |- Aux.emits_only _ (App.currentEye _) => unfold App.currentEye
  | |- Aux.emits_only _ (App.update _) => unfold App.update
  end.
Ltac emits := repeat emits_step.

Section Collect.
Import Gl Recorder.

Lemma collect_app {A} (f : event -> option A) (t1 t2 : list event) :
  collect f (t1 ++ t2) = collect f t1 ++ collect f t2.
Proof.
  induction t1 as [|e t1 IH]; cbn; [reflexivity|].
  destruct (f e); cbn; rewrite IH; reflexivity.
Qed.

Lemma collect_silent {A} (f : event -> option A) (tr : list event) :
  Forall (fun e => f e = None) tr -> collect f tr = [].
Proof.
  induction 1 as [|e tr He _ IH]; cbn; [reflexivity|]. rewrite He. exact IH.
Qed.

End Collect.

(** ** The recorder's observer *)

Section ObserverFacts.
Import Ovr Gl Recorder Aux.

Lemma annotate_app (g : recState) (t1 t2 : list event) :
  annotate g (t1 ++ t2) = annotate g t1 ++ annotate (final g t1) t2.
Proof.
  revert g. induction t1 as [|e t1 IH]; intros g; cbn; [reflexivity|].
  rewrite IH. reflexivity.
Qed.

Lemma final_app (g : recState) (t1 t2 : list event) :
  final g (t1 ++ t2) = final (final g t1) t2.
Proof. unfold final. apply fold_left_app. Qed.

Lemma rec_step_keeps (g : recState) (e : event) :
  keeps_target e = true ->
  draw_fbo (rec_step g e) = draw_fbo g /\ cur_eye (rec_step g e) = cur_eye g.
Proof.
  destruct e; cbn; try discriminate; try (intros _; split; reflexivity).
  destruct target; cbn; try discriminate. intros _. split; reflexivity.
Qed.

Lemma final_keeps (g : recState) (tr : list event) :
  Forall (fun e => keeps_target e = true) tr ->
  draw_fbo (final g tr) = draw_fbo g /\ cur_eye (final g tr) = cur_eye g.
Proof.
  intros H. revert g. induction H as [|e tr He _ IH]; intros g; cbn.
  - split; reflexivity.
  - destruct (IH (rec_step g e)) as [H1 H2].
    destruct (rec_step_keeps g e He) as [H3 H4].
    unfold final in *. split; congruence.
Qed.

Lemma annotate_keeps (g : recState) (tr : list event) :
  Forall (fun e => keeps_target e = true) tr ->
  Forall (fun x => draw_fbo (fst x) = draw_fbo g /\ cur_eye (fst x) = cur_eye g)
         (annotate g tr).
Proof.
  intros H. revert g. induction H as [|e tr He _ IH]; intros g; cbn.
  - constructor.
  - constructor; [split; reflexivity|].
    destruct (rec_step_keeps g e He) as [H3 H4].
    specialize (IH (rec_step g e)). rewrite H3, H4 in IH. exact IH.
Qed.

Lemma annotate_events (Q : event -> Prop) (g : recState) (tr : list event) :
  Forall Q tr -> Forall (fun x => Q (snd x)) (annotate g tr).
Proof.
  intros H. revert g. induction H as [|e tr He _ IH]; intros g; cbn; constructor; auto.
Qed.

Lemma existsb_false_of_Forall {A} (q : A -> bool) (l : list A) :
  Forall (fun x => q x = false) l -> existsb q l = false.
Proof.
  induction 1 as [|x l Hx _ IH]; cbn; [reflexivity|]. rewrite Hx, IH. reflexivity.
Qed.

End ObserverFacts.

(** ** State a computation maintains

    [maintains R m]: the state [m] leaves is related by [R] to the state it
    started from. *)

Section Maintains.
Import Gl Aux.

Context {S : Type} (R : S -> S -> Prop).
Hypothesis R_refl : forall s, R s s.
Hypothesis R_trans : forall s1 s2 s3, R s1 s2 -> R s2 s3 -> R s1 s3.

Lemma maintains_ret {A} (a : A) : maintains R (ret a).
Proof. intros s. apply R_refl. Qed.

Lemma maintains_get : maintains R get.
Proof. intros s. apply R_refl. Qed.

Lemma maintains_emit (e : event) : maintains R (emit e).
Proof. intros s. apply R_refl. Qed.

Lemma maintains_modify (f : S -> S) : (forall s, R (f s) s) -> maintains R (modify f).
Proof. intros H s. apply H. Qed.

Lemma maintains_bind {A B} (m : Act S A) (k : A -> Act S B) :
  maintains R m -> (forall a, maintains R (k a)) -> maintains R (bind m k).
Proof.
  intros Hm Hk s. rewrite state_bind. eapply R_trans; [apply Hk | apply Hm].
Qed.

Lemma maintains_when (c : bool) (m : Act S unit) :
  maintains R m -> maintains R (when c m).
Proof. intros Hm. destruct c; cbn; [exact Hm | apply maintains_ret]. Qed.

Lemma maintains_ite {A} (c : bool) (m1 m2 : Act S A) :
  maintains R m1 -> maintains R m2 -> maintains R (if c then m1 else m2).
Proof. intros H1 H2. destruct c; assumption. Qed.

(** A member object may change freely when [R] does not look at it. *)
Lemma maintains_zoom {T A} (proj : S -> T) (inj : T -> S -> S) (m : Act T A) :
  (forall t s, R (inj t s) s) -> maintains R (zoom proj inj m).
Proof.
  intros H s. unfold zoom, state_of.
  destruct (m (proj s)) as [[a t] tr]. cbn. apply H.
Qed.

(** A member object that is left as it was. *)
Lemma maintains_zoom_id {T A} (proj : S -> T) (inj : T -> S -> S) (m : Act T A) :
  maintains eq m -> (forall s, R (inj (proj s) s) s) -> maintains R (zoom proj inj m).
Proof.
  intros Hm H s. unfold zoom, state_of. specialize (Hm (proj s)).
  unfold state_of in Hm.
  destruct (m (proj s)) as [[a t] tr]. cbn in *. subst t. apply H.
Qed.

End Maintains.

(** ** The two passes of the scene *)

Ltac run_scene :=
  cbn -[OffAxis.getProjection Scene.to_world Glm.inverse Ovr.toGlm
        Z.eqb Z.mul Z.add Z.rem].
Ltac split_conds :=
  repeat (match goal with
          | |- context [ Gl.when ?c _ ] => destruct c eqn:?
          | |- context [ if ?c then _ else _ ] => destruct c eqn:?
          end; run_scene).

Ltac maintains_step Rrefl Rtrans :=
  cbv beta zeta;
  lazymatch goal with
  | |- Aux.maintains _ (Gl.bind _ _) => apply (maintains_bind _ Rtrans); [ | intros ? ]
  | |- Aux.maintains _ (Gl.ret _) => apply (maintains_ret _ Rrefl)
  | |- Aux.maintains _ Gl.get => apply (maintains_get _ Rrefl)
  | |- Aux.maintains _ (Gl.emit _) => apply (maintains_emit _ Rrefl)
  | |- Aux.maintains _ (Gl.when _ _) => apply (maintains_when _ Rrefl)
  | |- Aux.maintains _ (if _ then _ else _) => apply maintains_ite
  | |- Aux.maintains _ (Scene.on_line _ _) => unfold Scene.on_line
  | |- Aux.maintains _ (Scene.on_cave _) => unfold Scene.on_cave
  | |- Aux.maintains _ (Scene.render _ _ _) => unfold Scene.render
  | |- Aux.maintains _ (Scene.Cave_draw _ _ _ _ _ _) => unfold Scene.Cave_draw
  end.

Section SceneFacts.
Import Glm Ovr Gl OffAxis Scene App Recorder Aux.
Local Open Scope Z_scope.

Lemma same_but_lines_refl (s : SimScene) : same_but_lines s s.
Proof. exists (lines s). destruct s; reflexivity. Qed.

Lemma same_but_lines_trans (s1 s2 s3 : SimScene) :
  same_but_lines s1 s2 -> same_but_lines s2 s3 -> same_but_lines s1 s3.
Proof. intros [L1 ->] [L2 ->]. exists L1. reflexivity. Qed.

Lemma Cave_draw_state (prog : Z) (P V : mat4) (l r b : Z) :
  maintains eq (Cave_draw prog P V l r b).
Proof.
  repeat maintains_step (@eq_refl Cave) (@eq_trans Cave).
Qed.

(** [render] changes nothing in the scene but (the bookkeeping of) its lines. *)
Lemma render_state (P mv : mat4) (e : vec3) (s : SimScene) :
  same_but_lines (state_of (render P mv e s)) s.
Proof.
  revert s. change (maintains same_but_lines (render P mv e)).
  repeat maintains_step same_but_lines_refl same_but_lines_trans.
  - apply maintains_zoom_id; [apply Cave_draw_state|].
    intros s. exists (lines s). destruct s; reflexivity.
  - apply maintains_zoom; intros t s; eexists; reflexivity.
  - apply maintains_zoom; intros t s; eexists; reflexivity.
  - apply maintains_zoom; intros t s; eexists; reflexivity.
  - apply maintains_zoom; intros t s; eexists; reflexivity.
  - apply maintains_zoom; intros t s; eexists; reflexivity.
  - apply maintains_zoom; intros t s; eexists; reflexivity.
  - apply maintains_zoom; intros t s; eexists; reflexivity.
  - apply maintains_zoom; intros t s; eexists; reflexivity.
  - apply maintains_zoom; intros t s; eexists; reflexivity.
  - apply maintains_zoom; intros t s; eexists; reflexivity.
  - apply maintains_zoom; intros t s; eexists; reflexivity.
  - apply maintains_zoom; intros t s; eexists; reflexivity.
  - apply maintains_zoom; intros t s; eexists; reflexivity.
  - apply maintains_zoom; intros t s; eexists; reflexivity.
Qed.

Lemma render_keeps_target (P mv : mat4) (e : vec3) :
  emits_only (fun ev => keeps_target ev = true) (render P mv e).
Proof. emits. Qed.

Lemma render_no_scene_draw (P mv : mat4) (e : vec3) (s0 : SimScene)
    (eye : ovrEyeType) (fc : face) :
  emits_only (fun ev => forall g, is_skybox_draw_at s0 eye fc (g, ev) = false
                                  /\ is_cube_draw_at s0 eye fc (g, ev) = false)
             (render P mv e).
Proof. emits. Qed.

(** [preRender] leaves the scene as the re-roll leaves it, the lines apart. *)
Lemma preRender_state (P mv : mat4) (f : Z) (vp : ovrRecti) (e : vec3) (s : SimScene) :
  same_but_lines (state_of (preRender P mv f vp e s)) (reroll s).
Proof.
  destruct s. unfold preRender, reroll, same_but_lines. run_scene. split_conds;
    eexists; reflexivity.
Qed.

Lemma preRender_no_drawArrays (P mv : mat4) (f : Z) (vp : ovrRecti) (e : vec3) :
  emits_only (fun ev => is_drawArrays ev = false) (preRender P mv f vp e).
Proof. emits. Qed.

Lemma preRender_no_currentEye (P mv : mat4) (f : Z) (vp : ovrRecti) (e : vec3) :
  emits_only (fun ev => match ev with call_currentEye _ => false | _ => true end = true)
             (preRender P mv f vp e).
Proof. emits. Qed.

(** After [preRender] the framebuffer it was given is bound again, and the
    current eye is the one it started with. *)
Lemma preRender_final (P mv : mat4) (f : Z) (vp : ovrRecti) (e : vec3)
    (s : SimScene) (g : recState) :
  draw_fbo (final g (trace_of (preRender P mv f vp e s))) = f /\
  cur_eye (final g (trace_of (preRender P mv f vp e s))) = cur_eye g.
Proof.
  destruct s. unfold preRender, final. run_scene. split_conds; split; reflexivity.
Qed.

End SceneFacts.

Section SceneFacts2.
Import Glm Ovr Gl OffAxis Scene App Recorder Aux.
Local Open Scope Z_scope.

Lemma eqb_false_of_neq (x y : Z) : x <> y -> (x =? y) = false.
Proof. intros H. apply Z.eqb_neq. exact H. Qed.

Lemma eqb_false_of_neq' (x y : Z) : x <> y -> (y =? x) = false.
Proof. intros H. apply Z.eqb_neq. intros E. apply H. symmetry. exact E. Qed.

(** Which faces [preRender] draws the scene's skybox into. *)
Lemma preRender_skybox (P mv : mat4) (f : Z) (vp : ovrRecti) (e : vec3)
    (s : SimScene) (g : recState) (eye : ovrEyeType) (fc : face) :
  targets_distinct s f ->
  existsb (is_skybox_draw_at s eye fc) (annotate g (trace_of (preRender P mv f vp e s)))
  = is_eye (cur_eye g) eye && face_guard (reroll s) fc.
Proof.
  intros (H1 & H2 & H3 & _).
  destruct s. unfold preRender, reroll, face_guard, skybox_drawn.
  cbn [lFBO rFBO bFBO] in H1, H2, H3.
  pose proof (eqb_false_of_neq _ _ H1). pose proof (eqb_false_of_neq' _ _ H1).
  pose proof (eqb_false_of_neq _ _ H2). pose proof (eqb_false_of_neq' _ _ H2).
  pose proof (eqb_false_of_neq _ _ H3). pose proof (eqb_false_of_neq' _ _ H3).
  run_scene. split_conds.
  all: destruct fc; cbn -[Z.eqb Z.mul Z.add Z.rem];
    rewrite ?Z.eqb_refl, ?Z.add_0_r;
    repeat match goal with H : (_ =? _) = false |- _ => rewrite H end;
    repeat match goal with H : _ = true |- _ => rewrite H end;
    repeat match goal with H : _ = false |- _ => rewrite H end;
    rewrite ?andb_true_r, ?andb_false_r, ?orb_false_r, ?orb_true_r; try reflexivity.
Qed.

Lemma preRender_cube (P mv : mat4) (f : Z) (vp : ovrRecti) (e : vec3)
    (s : SimScene) (g : recState) (eye : ovrEyeType) (fc : face) :
  targets_distinct s f ->
  existsb (is_cube_draw_at s eye fc) (annotate g (trace_of (preRender P mv f vp e s)))
  = is_eye (cur_eye g) eye && face_guard (reroll s) fc.
Proof.
  intros (H1 & H2 & H3 & _).
  destruct s. unfold preRender, reroll, face_guard, skybox_drawn.
  cbn [lFBO rFBO bFBO] in H1, H2, H3.
  pose proof (eqb_false_of_neq _ _ H1). pose proof (eqb_false_of_neq' _ _ H1).
  pose proof (eqb_false_of_neq _ _ H2). pose proof (eqb_false_of_neq' _ _ H2).
  pose proof (eqb_false_of_neq _ _ H3). pose proof (eqb_false_of_neq' _ _ H3).
  run_scene. split_conds.
  all: destruct fc; cbn -[Z.eqb Z.mul Z.add Z.rem];
    rewrite ?Z.eqb_refl, ?Z.add_0_r;
    repeat match goal with H : (_ =? _) = false |- _ => rewrite H end;
    repeat match goal with H : _ = true |- _ => rewrite H end;
    repeat match goal with H : _ = false |- _ => rewrite H end;
    rewrite ?andb_true_r, ?andb_false_r, ?orb_false_r, ?orb_true_r; try reflexivity.
Qed.

(** Every clear and draw of [preRender] goes to a face target or to the
    default framebuffer 0: here, the calls that write into face targets. *)

End SceneFacts2.

Section AppFacts.
Import Glm Ovr Gl OffAxis Scene App Recorder Aux.
Local Open Scope Z_scope.

Lemma offscreenRender_run (P H : mat4) (f : Z) (vp : ovrRecti) (e : vec3) (a : SimApp) :
  let v := offscreen_view H e a in
  let r := preRender P (fst v) f vp (snd v) (simScene a) in
  offscreenRender P H f vp e a
  = (tt, set_simScene (state_of r) (offscreen_app a),
     call_offscreenRender P H f vp e :: trace_of r).
Proof.
  unfold offscreenRender, offscreen_view, offscreen_app, hand_column.
  cbn -[preRender inverse getDefaultIOD mat4_diag].
  destruct (rightHandTriggerPressed (simScene a)); cbn [andb];
    [destruct (getTrackingState a =? 0)|];
    unfold on_scene, zoom;
    cbn -[preRender inverse getDefaultIOD mat4_diag];
    match goal with |- context [preRender ?p ?m ?f ?v ?e ?s] =>
      destruct (preRender p m f v e s) as [[[] s'] tr] end; reflexivity.
Qed.

Lemma renderScene_run (P H : mat4) (e : vec3) (a : SimApp) :
  let r := render P (inverse H) e (simScene a) in
  renderScene P H e a
  = (tt, set_simScene (state_of r) a, call_renderScene P H e :: trace_of r).
Proof.
  unfold renderScene.
  unfold bind, emit, get, on_scene, zoom, modify, ret, state_of, trace_of.
  cbv zeta.
  destruct (render P (inverse H) e (simScene a)) as [[[] s'] tr]. reflexivity.
Qed.


Ltac run_app :=
  cbn -[offscreenRender renderScene resolve_eye toGlm inverse getProjection
        update_buttons update_cube mat4_diag translate_m scale_m mul
        Z.eqb Z.mul Z.add Z.rem].

Lemma draw_eye_run (ep : PerEye ovrPosef) (eye : ovrEyeType) (a : SimApp) :
  let a1 := before_offscreen ep eye a in
  let re := at_eye (renderEye a1) eye in
  let P := at_eye (_eyeProjections a1) eye in
  let vp := at_eye (Viewport a1) eye in
  let r1 := offscreenRender P (toGlm re) (_fbo a1) vp (toGlm_vec (Position re)) a1 in
  let r2 := renderScene P (toGlm (at_eye ep eye)) (toGlm_vec (Position (at_eye ep eye)))
                        (state_of r1) in
  draw_eye ep eye a
  = (tt, state_of r2,
     [call_currentEye eye; Skybox_useCubemap the_skybox (eye_index eye);
      glViewport (Pos_x vp) (Pos_y vp) (Size_w vp) (Size_h vp)]
     ++ trace_of r1 ++ trace_of r2).
Proof.
  unfold draw_eye, before_offscreen. destruct eye; run_app; unfold bind.
  all: match goal with |- context [offscreenRender ?p ?h ?f ?v ?e ?s] =>
         destruct (offscreenRender p h f v e s) as [[[] s1] t1] end; run_app;
       match goal with |- context [renderScene ?p ?h ?e ?s] =>
         destruct (renderScene p h e s) as [[[] s2] t2] end; run_app;
       rewrite ?app_nil_r; reflexivity.
Qed.


(** [resolve_eye] in closed form: it stores [resolved_pose] in
    [renderEye[eye]] and [lastEye[eye]] and marks the eye as initialised. *)
Lemma resolve_eye_closed (ep : PerEye ovrPosef) (eye : ovrEyeType) (a : SimApp) :
  resolve_eye ep eye a
  = set_lastEye (set_eye (lastEye a) eye (resolved_pose ep eye a))
      (set_renderEye (set_eye (renderEye a) eye (resolved_pose ep eye a))
         (set_initLastEye (set_eye (initLastEye a) eye true) a)).
Proof.
  unfold resolve_eye, resolved_pose, getTrackingState.
  destruct a as [f mf pr vpt rp h2e dflt [lL lR] [rL rR] [iL iR] rh tp lrh sc].
  destruct eye; cbn -[Z.eqb].
  - destruct iL; cbn -[Z.eqb]; destruct (buttonB sc =? 0); reflexivity.
  - destruct iR; cbn -[Z.eqb]; destruct (buttonB sc =? 0); reflexivity.
Qed.

Lemma simScene_before_offscreen (ep : PerEye ovrPosef) (eye : ovrEyeType) (a : SimApp) :
  simScene (before_offscreen ep eye a) = set_curEyeIdx (eye_index eye) (simScene a).
Proof. unfold before_offscreen. rewrite resolve_eye_closed. reflexivity. Qed.

Lemma simScene_offscreen_app (a : SimApp) : simScene (offscreen_app a) = simScene a.
Proof.
  unfold offscreen_app.
  destruct (rightHandTriggerPressed (simScene a) && (getTrackingState a =? 0));
    reflexivity.
Qed.

Lemma reroll_idem_lines (L : lineId -> Line) (s : SimScene) :
  reroll (set_lines L s) = set_lines L (reroll s).
Proof.
  unfold reroll. cbn -[Z.eqb Z.rem].
  destruct ((buttonX s =? 1) && negb (randomGened s)); reflexivity.
Qed.

End AppFacts.


Section AppFacts2.
Import Glm Ovr Gl OffAxis Scene App Recorder Aux.
Local Open Scope Z_scope.

Lemma update_trace (inp : FrameInput) (a : SimApp) : trace_of (update inp a) = [].
Proof.
  unfold update. destruct (inputState inp); reflexivity.
Qed.

Lemma draw_run (inp : FrameInput) (a : SimApp) :
  let rL := draw_eye (eyePoses inp) ovrEye_Left a in
  let rR := draw_eye (eyePoses inp) ovrEye_Right (state_of rL) in
  draw inp a
  = (tt, state_of rR,
     draw_head inp a ++ trace_of rL ++ trace_of rR ++ draw_tail inp a).
Proof.
  unfold draw, draw_head, draw_tail. cbv zeta.
  unfold bind, get, emit, state_of, trace_of.
  destruct (draw_eye (eyePoses inp) ovrEye_Left a) as [[[] s1] t1]. cbn [fst snd].
  destruct (draw_eye (eyePoses inp) ovrEye_Right s1) as [[[] s2] t2]. cbn [fst snd].
  cbn [app]. reflexivity.
Qed.

Lemma frame_run (inp : FrameInput) (a : SimApp) :
  frame inp a
  = (tt, state_of (draw inp (updated inp a)), trace_of (draw inp (updated inp a))).
Proof.
  unfold frame, updated. pose proof (update_trace inp a) as Ht.
  unfold bind, state_of, trace_of in *.
  destruct (update inp a) as [[[] s1] t1]. cbn [fst snd] in *. subst t1.
  destruct (draw inp s1) as [[[] s2] t2]. reflexivity.
Qed.


Lemma set_lines_set_lines (L1 L2 : lineId -> Line) (s : SimScene) :
  set_lines L1 (set_lines L2 s) = set_lines L1 s.
Proof. reflexivity. Qed.

Lemma set_simScene_twice (s1 s2 : SimScene) (a : SimApp) :
  set_simScene s1 (set_simScene s2 a) = set_simScene s1 a.
Proof. reflexivity. Qed.

(** The state one iteration of the eye loop leaves. *)
Lemma draw_eye_state (ep : PerEye ovrPosef) (eye : ovrEyeType) (a : SimApp) :
  exists L,
    state_of (draw_eye ep eye a)
    = set_simScene (set_lines L (reroll (set_curEyeIdx (eye_index eye) (simScene a))))
        (offscreen_app (before_offscreen ep eye a)).
Proof.
  rewrite draw_eye_run. cbv zeta. unfold state_of at 1. cbn [fst snd].
  rewrite renderScene_run. cbv zeta. unfold state_of at 1. cbn [fst snd].
  rewrite offscreenRender_run. cbv zeta. unfold state_of at 2 4. cbn [fst snd].
  cbn [simScene set_simScene].
  rewrite ?simScene_offscreen_app, ?simScene_before_offscreen.
  match goal with |- context [state_of (render ?p ?m ?e ?s)] =>
    destruct (render_state p m e s) as [L1 HL1] end.
  match goal with |- context [state_of (preRender ?p ?m ?f ?v ?e ?s)] =>
    destruct (preRender_state p m f v e s) as [L2 HL2] end.
  exists L1.
  rewrite HL1. rewrite HL2. rewrite set_lines_set_lines. apply set_simScene_twice.
Qed.

End AppFacts2.



Section FrameFacts.
Import Glm Ovr Gl OffAxis Scene App Recorder Aux.
Local Open Scope Z_scope.

Lemma updated_closed (inp : FrameInput) (a : SimApp) :
  updated inp a = set_simScene (updated_scene inp (simScene a)) (updated_hand inp a).
Proof.
  unfold updated, update, updated_scene, updated_hand.
  destruct (inputState inp); reflexivity.
Qed.

Lemma before_offscreen_fields (ep : PerEye ovrPosef) (eye : ovrEyeType) (a : SimApp) :
  let a1 := before_offscreen ep eye a in
  at_eye (renderEye a1) eye = resolved_pose ep eye a /\
  _eyeProjections a1 = _eyeProjections a /\
  Viewport a1 = Viewport a /\
  _fbo a1 = _fbo a.
Proof.
  unfold before_offscreen. rewrite resolve_eye_closed.
  destruct eye; repeat apply conj; reflexivity.
Qed.

Lemma draw_eye_trace (ep : PerEye ovrPosef) (eye : ovrEyeType) (a : SimApp) :
  trace_of (draw_eye ep eye a) = eye_trace ep eye a.
Proof.
  rewrite draw_eye_run. cbv zeta. unfold trace_of at 1. cbn [snd].
  rewrite renderScene_run. cbv zeta. unfold trace_of at 2. cbn [snd].
  rewrite offscreenRender_run. cbv zeta. unfold trace_of at 1, state_of at 1.
  cbn [fst snd]. cbn [simScene set_simScene].
  rewrite ?simScene_offscreen_app, ?simScene_before_offscreen.
  destruct (before_offscreen_fields ep eye a) as (-> & -> & -> & ->).
  unfold eye_trace. cbn [app]. rewrite <- ?app_assoc. reflexivity.
Qed.


Lemma collect_emit_bind {S A} (f : event -> option A) (e : event)
    (k : unit -> Act S unit) (s : S) :
  collect f (trace_of (bind (emit e) k s)) = collect f [e] ++ collect f (trace_of (k tt s)).
Proof. rewrite trace_bind, collect_app. reflexivity. Qed.

Lemma collect_of_emits {S A B} (f : event -> option B) (m : Act S A) (s : S) :
  emits_only (fun e => f e = None) m -> collect f (trace_of (m s)) = [].
Proof. intros H. apply collect_silent, H. Qed.

Lemma preRender_silent_renderScene P mv f vp e s :
  collect renderScene_args (trace_of (preRender P mv f vp e s)) = [].
Proof. apply collect_of_emits. emits. Qed.

Lemma preRender_silent_render P mv f vp e s :
  collect render_args (trace_of (preRender P mv f vp e s)) = [].
Proof. apply collect_of_emits. emits. Qed.

Lemma preRender_silent_offscreen P mv f vp e s :
  collect offscreen_args (trace_of (preRender P mv f vp e s)) = [].
Proof. apply collect_of_emits. emits. Qed.

Lemma render_silent_renderScene P mv e s :
  collect renderScene_args (trace_of (render P mv e s)) = [].
Proof. apply collect_of_emits. emits. Qed.

Lemma render_silent_offscreen P mv e s :
  collect offscreen_args (trace_of (render P mv e s)) = [].
Proof. apply collect_of_emits. emits. Qed.

Lemma render_silent_preRender P mv e s :
  collect preRender_eyePos (trace_of (render P mv e s)) = [].
Proof. apply collect_of_emits. emits. Qed.

Lemma render_collect_render P mv e s :
  collect render_args (trace_of (render P mv e s)) = [(P, mv, e)].
Proof.
  unfold render. rewrite collect_emit_bind. cbn [collect render_args app].
  f_equal. apply collect_of_emits. emits.
Qed.

Lemma preRender_collect_eyePos P mv f vp e s :
  collect preRender_eyePos (trace_of (preRender P mv f vp e s)) = [e].
Proof.
  unfold preRender. rewrite collect_emit_bind. cbn [collect preRender_eyePos app].
  f_equal. apply collect_of_emits. emits.
Qed.

(** What each iteration of the eye loop hands to the two passes. *)
Lemma eye_trace_renderScene ep eye a :
  collect renderScene_args (eye_trace ep eye a)
  = [(at_eye (_eyeProjections a) eye, toGlm (at_eye ep eye),
      toGlm_vec (Position (at_eye ep eye)))].
Proof.
  unfold eye_trace. cbv zeta. rewrite !collect_app.
  rewrite preRender_silent_renderScene, render_silent_renderScene. reflexivity.
Qed.

Lemma eye_trace_render ep eye a :
  collect render_args (eye_trace ep eye a)
  = [(at_eye (_eyeProjections a) eye, inverse (toGlm (at_eye ep eye)),
      toGlm_vec (Position (at_eye ep eye)))].
Proof.
  unfold eye_trace. cbv zeta. rewrite !collect_app.
  rewrite preRender_silent_render, render_collect_render. reflexivity.
Qed.

Lemma eye_trace_offscreen ep eye a :
  collect offscreen_args (eye_trace ep eye a)
  = [(toGlm (resolved_pose ep eye a), toGlm_vec (Position (resolved_pose ep eye a)))].
Proof.
  unfold eye_trace. cbv zeta. rewrite !collect_app.
  rewrite preRender_silent_offscreen, render_silent_offscreen. reflexivity.
Qed.

Lemma eye_trace_preRender ep eye a :
  collect preRender_eyePos (eye_trace ep eye a)
  = [snd (offscreen_view (toGlm (resolved_pose ep eye a))
            (toGlm_vec (Position (resolved_pose ep eye a)))
            (before_offscreen ep eye a))].
Proof.
  unfold eye_trace. cbv zeta. rewrite !collect_app.
  rewrite preRender_collect_eyePos, render_silent_preRender. reflexivity.
Qed.

(** The trace of a frame. *)
Lemma frame_trace (inp : FrameInput) (a : SimApp) :
  let a0 := updated inp a in
  let aL := state_of (draw_eye (eyePoses inp) ovrEye_Left a0) in
  trace_of (frame inp a)
  = draw_head inp a0 ++ eye_trace (eyePoses inp) ovrEye_Left a0
    ++ eye_trace (eyePoses inp) ovrEye_Right aL ++ draw_tail inp a0.
Proof.
  cbv zeta. rewrite frame_run. unfold trace_of at 1. cbn [snd].
  rewrite draw_run. cbv zeta. unfold trace_of at 1. cbn [snd].
  rewrite !draw_eye_trace. reflexivity.
Qed.

Lemma frame_state (inp : FrameInput) (a : SimApp) :
  let a0 := updated inp a in
  let aL := state_of (draw_eye (eyePoses inp) ovrEye_Left a0) in
  state_of (frame inp a) = state_of (draw_eye (eyePoses inp) ovrEye_Right aL).
Proof.
  cbv zeta. rewrite frame_run. unfold state_of at 1. cbn [fst snd].
  rewrite draw_run. cbv zeta. unfold state_of at 1. cbn [fst snd]. reflexivity.
Qed.

(** Members that survive the passes. *)
Lemma offscreen_app_config (a : SimApp) :
  config (offscreen_app a) = config a /\
  lastEye (offscreen_app a) = lastEye a /\
  renderEye (offscreen_app a) = renderEye a /\
  initLastEye (offscreen_app a) = initLastEye a /\
  rightHandPose (offscreen_app a) = rightHandPose a.
Proof.
  unfold offscreen_app.
  destruct (rightHandTriggerPressed (simScene a) && (getTrackingState a =? 0));
    repeat apply conj; reflexivity.
Qed.

Lemma reroll_config (s : SimScene) :
  scene_config (reroll s) = scene_config s /\ scene_flags (reroll s) = scene_flags s /\
  curEyeIdx (reroll s) = curEyeIdx s.
Proof.
  unfold reroll. destruct ((buttonX s =? 1) && negb (randomGened s));
    repeat apply conj; reflexivity.
Qed.

Lemma set_simScene_fields (s : SimScene) (a : SimApp) :
  config (set_simScene s a) = config a /\
  lastEye (set_simScene s a) = lastEye a /\
  renderEye (set_simScene s a) = renderEye a /\
  initLastEye (set_simScene s a) = initLastEye a /\
  rightHandPose (set_simScene s a) = rightHandPose a /\
  lastRightHand (set_simScene s a) = lastRightHand a /\
  simScene (set_simScene s a) = s.
Proof. repeat apply conj; reflexivity. Qed.

Lemma set_lines_fields (L : lineId -> Line) (s : SimScene) :
  scene_config (set_lines L s) = scene_config s /\
  scene_flags (set_lines L s) = scene_flags s /\
  curEyeIdx (set_lines L s) = curEyeIdx s /\
  random_num (set_lines L s) = random_num s /\
  randomGened (set_lines L s) = randomGened s /\
  rand_calls (set_lines L s) = rand_calls s.
Proof. repeat apply conj; reflexivity. Qed.

Lemma before_offscreen_config (ep : PerEye ovrPosef) (eye : ovrEyeType) (a : SimApp) :
  config (before_offscreen ep eye a) = config a /\
  rightHandPose (before_offscreen ep eye a) = rightHandPose a /\
  lastRightHand (before_offscreen ep eye a) = lastRightHand a /\
  lastEye (before_offscreen ep eye a) = set_eye (lastEye a) eye (resolved_pose ep eye a) /\
  renderEye (before_offscreen ep eye a)
    = set_eye (renderEye a) eye (resolved_pose ep eye a) /\
  initLastEye (before_offscreen ep eye a) = set_eye (initLastEye a) eye true.
Proof.
  unfold before_offscreen. rewrite resolve_eye_closed.
  generalize (resolved_pose ep eye a). intros rp.
  repeat apply conj; reflexivity.
Qed.

Lemma draw_eye_config (ep : PerEye ovrPosef) (eye : ovrEyeType) (a : SimApp) :
  let a' := state_of (draw_eye ep eye a) in
  config a' = config a /\
  scene_config (simScene a') = scene_config (simScene a) /\
  scene_flags (simScene a') = scene_flags (simScene a) /\
  rightHandPose a' = rightHandPose a.
Proof.
  cbv zeta. destruct (draw_eye_state ep eye a) as [L ->].
  destruct (offscreen_app_config (before_offscreen ep eye a)) as (Hc & _ & _ & _ & Hr).
  destruct (before_offscreen_config ep eye a) as (Hc' & Hr' & _).
  destruct (reroll_config (set_curEyeIdx (eye_index eye) (simScene a))) as (Hs & Hf & _).
  match goal with |- context [set_simScene ?s ?b] =>
    destruct (set_simScene_fields s b) as (E1 & _ & _ & _ & E2 & _ & E3) end.
  rewrite E1, E2, E3, Hc, Hr, Hc', Hr'.
  match goal with |- context [set_lines ?l ?s] =>
    destruct (set_lines_fields l s) as (E4 & E5 & _) end.
  rewrite E4, E5, Hs, Hf.
  repeat apply conj; reflexivity.
Qed.


Lemma config_inv (a1 a2 : SimApp) :
  config a1 = config a2 ->
  _fbo a1 = _fbo a2 /\ _mirrorFbo a1 = _mirrorFbo a2 /\
  _eyeProjections a1 = _eyeProjections a2 /\ Viewport a1 = Viewport a2 /\
  HmdToEyeOffset a1 = HmdToEyeOffset a2 /\
  defaultHmdToEyeOffset a1 = defaultHmdToEyeOffset a2.
Proof. unfold config. intros H. injection H. intros. repeat apply conj; assumption. Qed.

Lemma scene_flags_inv (s1 s2 : SimScene) :
  scene_flags s1 = scene_flags s2 ->
  buttonA s1 = buttonA s2 /\ buttonB s1 = buttonB s2 /\ buttonX s1 = buttonX s2 /\
  rightHandTriggerPressed s1 = rightHandTriggerPressed s2.
Proof. unfold scene_flags. intros H. injection H. intros. repeat apply conj; assumption. Qed.

Lemma scene_config_inv (s1 s2 : SimScene) :
  scene_config s1 = scene_config s2 ->
  lFBO s1 = lFBO s2 /\ rFBO s1 = rFBO s2 /\ bFBO s1 = bFBO s2 /\
  lrenderedTexture s1 = lrenderedTexture s2 /\
  rrenderedTexture s1 = rrenderedTexture s2 /\
  brenderedTexture s1 = brenderedTexture s2 /\
  rand_stream s1 = rand_stream s2.
Proof. unfold scene_config. intros H. injection H. intros. repeat apply conj; assumption. Qed.

Lemma updated_config (inp : FrameInput) (a : SimApp) :
  config (updated inp a) = config a /\
  lastEye (updated inp a) = lastEye a /\
  renderEye (updated inp a) = renderEye a /\
  initLastEye (updated inp a) = initLastEye a /\
  lastRightHand (updated inp a) = lastRightHand a.
Proof.
  rewrite updated_closed. unfold updated_hand.
  destruct (inputState inp); repeat apply conj; reflexivity.
Qed.

(** The poses after one iteration of the eye loop. *)
Lemma draw_eye_poses (ep : PerEye ovrPosef) (eye : ovrEyeType) (a : SimApp) :
  let a' := state_of (draw_eye ep eye a) in
  lastEye a' = set_eye (lastEye a) eye (resolved_pose ep eye a) /\
  renderEye a' = set_eye (renderEye a) eye (resolved_pose ep eye a) /\
  initLastEye a' = set_eye (initLastEye a) eye true.
Proof.
  cbv zeta. destruct (draw_eye_state ep eye a) as [L ->].
  destruct (offscreen_app_config (before_offscreen ep eye a)) as (_ & Hl & Hr & Hi & _).
  destruct (before_offscreen_config ep eye a) as (_ & _ & _ & Hl' & Hr' & Hi').
  match goal with |- context [set_simScene ?s ?b] =>
    destruct (set_simScene_fields s b) as (_ & E1 & E2 & E3 & _) end.
  rewrite E1, E2, E3, Hl, Hr, Hi, Hl', Hr', Hi'.
  repeat apply conj; reflexivity.
Qed.

Lemma resolved_pose_ext (ep : PerEye ovrPosef) (eye : ovrEyeType) (a1 a2 : SimApp) :
  at_eye (initLastEye a1) eye = at_eye (initLastEye a2) eye ->
  at_eye (lastEye a1) eye = at_eye (lastEye a2) eye ->
  getTrackingState a1 = getTrackingState a2 ->
  resolved_pose ep eye a1 = resolved_pose ep eye a2.
Proof. unfold resolved_pose. intros -> -> ->. reflexivity. Qed.

Lemma draw_eye_tracking (ep : PerEye ovrPosef) (eye : ovrEyeType) (a : SimApp) :
  getTrackingState (state_of (draw_eye ep eye a)) = getTrackingState a.
Proof.
  destruct (draw_eye_config ep eye a) as (_ & _ & Hf & _).
  apply scene_flags_inv in Hf. unfold getTrackingState. apply Hf.
Qed.

(** What a frame hands to the offscreen pass, and the poses it stores. *)
Lemma frame_poses (inp : FrameInput) (a : SimApp) :
  let a0 := updated inp a in
  let ep := eyePoses inp in
  let pL := resolved_pose ep ovrEye_Left a0 in
  let pR := resolved_pose ep ovrEye_Right a0 in
  collect offscreen_args (trace_of (frame inp a))
  = [(toGlm pL, toGlm_vec (Position pL)); (toGlm pR, toGlm_vec (Position pR))] /\
  lastEye (state_of (frame inp a)) = mkPerEye pL pR /\
  renderEye (state_of (frame inp a)) = mkPerEye pL pR /\
  initLastEye (state_of (frame inp a)) = mkPerEye true true /\
  getTrackingState (state_of (frame inp a)) = getTrackingState a0.
Proof.
  cbv zeta.
  set (a0 := updated inp a). set (ep := eyePoses inp).
  set (aL := state_of (draw_eye ep ovrEye_Left a0)).
  destruct (draw_eye_poses ep ovrEye_Left a0) as (HlL & HrL & HiL). fold aL in HlL, HrL, HiL.
  destruct (draw_eye_poses ep ovrEye_Right aL) as (HlR & HrR & HiR).
  assert (HR : resolved_pose ep ovrEye_Right aL = resolved_pose ep ovrEye_Right a0).
  { apply resolved_pose_ext.
    - rewrite HiL. reflexivity.
    - rewrite HlL. reflexivity.
    - apply draw_eye_tracking. }
  rewrite frame_trace, frame_state. cbv zeta. fold a0 ep aL.
  rewrite !collect_app, !eye_trace_offscreen.
  rewrite HlR, HrR, HiR, HlL, HrL, HiL, HR.
  unfold draw_head, draw_tail. cbn [collect offscreen_args app set_eye atLeft atRight].
  repeat apply conj; try reflexivity.
  rewrite draw_eye_tracking. apply draw_eye_tracking.
Qed.

End FrameFacts.

Section Claims.
Import Glm Ovr Gl OffAxis Scene App Recorder Aux.
Local Open Scope Z_scope.

(** C4.  In every frame, whatever the state (hand substitution active or
    not, tracking LIVE or FROZEN), [renderScene] is called once per eye with
    the head pose and the position of [eyePoses[eye]], the pose the tracking
    runtime reported for this frame, and [SimScene::render] receives the
    inverse of that same pose as its view matrix. *)
Theorem composite_pass_uses_true_pose (inp : FrameInput) (a : SimApp) :
  let ep := eyePoses inp in
  let PL := atLeft (_eyeProjections a) in
  let PR := atRight (_eyeProjections a) in
  collect renderScene_args (trace_of (frame inp a))
  = [(PL, toGlm (atLeft ep), toGlm_vec (Position (atLeft ep)));
     (PR, toGlm (atRight ep), toGlm_vec (Position (atRight ep)))]
  /\
  collect render_args (trace_of (frame inp a))
  = [(PL, inverse (toGlm (atLeft ep)), toGlm_vec (Position (atLeft ep)));
     (PR, inverse (toGlm (atRight ep)), toGlm_vec (Position (atRight ep)))].
Proof.
  cbv zeta. rewrite frame_trace. cbv zeta.
  set (a0 := updated inp a).
  set (aL := state_of (draw_eye (eyePoses inp) ovrEye_Left a0)).
  destruct (updated_config inp a) as (H0 & _). fold a0 in H0.
  destruct (draw_eye_config (eyePoses inp) ovrEye_Left a0) as (HL & _). fold aL in HL.
  apply config_inv in H0. apply config_inv in HL.
  destruct H0 as (_ & _ & H0 & _). destruct HL as (_ & _ & HL & _).
  rewrite !collect_app, !eye_trace_renderScene, !eye_trace_render.
  rewrite HL, H0. unfold draw_head, draw_tail.
  cbn [collect renderScene_args render_args app at_eye].
  split; reflexivity.
Qed.

End Claims.

Section PoseClaims.
Import Glm Ovr Gl OffAxis Scene App Recorder Aux.
Local Open Scope Z_scope.

Lemma held_pose_updated (inp : FrameInput) (eye : ovrEyeType) (a : SimApp) :
  held_pose (eyePoses inp) eye (updated inp a) = held_pose (eyePoses inp) eye a.
Proof.
  destruct (updated_config inp a) as (_ & Hl & _ & Hi & _).
  unfold held_pose. rewrite Hl, Hi. reflexivity.
Qed.

Lemma resolved_pose_frozen (ep : PerEye ovrPosef) (eye : ovrEyeType) (a : SimApp) :
  getTrackingState a <> 0 -> resolved_pose ep eye a = held_pose ep eye a.
Proof.
  intros H. unfold resolved_pose, held_pose.
  apply Z.eqb_neq in H. rewrite H. reflexivity.
Qed.

Lemma resolved_pose_live (ep : PerEye ovrPosef) (eye : ovrEyeType) (a : SimApp) :
  getTrackingState a = 0 ->
  resolved_pose ep eye a
  = mkOvrPosef (Orientation (held_pose ep eye a)) (Position (at_eye ep eye)).
Proof.
  intros H. unfold resolved_pose, held_pose. rewrite H. reflexivity.
Qed.

Lemma resolved_pose_orientation (ep : PerEye ovrPosef) (eye : ovrEyeType) (a : SimApp) :
  Orientation (resolved_pose ep eye a) = Orientation (held_pose ep eye a).
Proof.
  unfold resolved_pose, held_pose.
  destruct (getTrackingState a =? 0); reflexivity.
Qed.

Lemma held_pose_init (ep : PerEye ovrPosef) (eye : ovrEyeType) (a : SimApp) :
  initLastEye a = mkPerEye true true -> held_pose ep eye a = at_eye (lastEye a) eye.
Proof. unfold held_pose. intros ->. destruct eye; reflexivity. Qed.

(** A frame in terms of the poses held when it begins. *)
Lemma frame_offscreen (inp : FrameInput) (a : SimApp) :
  let a0 := updated inp a in
  let ep := eyePoses inp in
  collect offscreen_args (trace_of (frame inp a))
  = [pose_args (resolved_pose ep ovrEye_Left a0);
     pose_args (resolved_pose ep ovrEye_Right a0)].
Proof. cbv zeta. apply frame_poses. Qed.

(** While the mode stays FROZEN, every frame of a run hands the offscreen
    pass the poses stored when the run began. *)
Lemma frozen_run (inps : list FrameInput) (a : SimApp) :
  initLastEye a = mkPerEye true true ->
  Forall (fun m => m <> 0) (tracking_modes inps a) ->
  Forall (fun fr => collect offscreen_args (snd fr)
                    = [pose_args (atLeft (lastEye a)); pose_args (atRight (lastEye a))])
         (run inps a).
Proof.
  revert a. induction inps as [|inp rest IH]; intros a Hi Hm; cbn [run].
  - constructor.
  - cbn [tracking_modes] in Hm. inversion Hm as [|m ms Hm0 Hrest]; subst.
    destruct (frame_poses inp a) as (Hargs & Hlast & _ & Hinit & _).
    cbv zeta in Hargs, Hlast.
    rewrite !(resolved_pose_frozen _ _ _ Hm0), !held_pose_updated in Hargs, Hlast.
    rewrite !(held_pose_init _ _ _ Hi) in Hargs, Hlast. cbn [at_eye] in Hargs, Hlast.
    constructor.
    + cbn [snd]. exact Hargs.
    + specialize (IH _ Hinit Hrest). rewrite Hlast in IH. exact IH.
Qed.

(** From its first frame on, an eye's orientation in the offscreen pass is
    the one stored then. *)
Lemma orientation_run (inps : list FrameInput) (a : SimApp) :
  initLastEye a = mkPerEye true true ->
  Forall (fun fr => exists pL pR,
            collect offscreen_args (snd fr)
            = [pose_args (mkOvrPosef (Orientation (atLeft (lastEye a))) pL);
               pose_args (mkOvrPosef (Orientation (atRight (lastEye a))) pR)] /\
            renderEye (fst fr)
            = mkPerEye (mkOvrPosef (Orientation (atLeft (lastEye a))) pL)
                       (mkOvrPosef (Orientation (atRight (lastEye a))) pR))
         (run inps a).
Proof.
  revert a. induction inps as [|inp rest IH]; intros a Hi; cbn [run].
  - constructor.
  - destruct (frame_poses inp a) as (Hargs & Hlast & Hrender & Hinit & _).
    cbv zeta in Hargs, Hlast, Hrender.
    set (a0 := updated inp a) in *. set (ep := eyePoses inp) in *.
    pose proof (resolved_pose_orientation ep ovrEye_Left a0) as HoL.
    pose proof (resolved_pose_orientation ep ovrEye_Right a0) as HoR.
    unfold a0, ep in HoL, HoR.
    rewrite held_pose_updated, (held_pose_init _ _ _ Hi) in HoL.
    rewrite held_pose_updated, (held_pose_init _ _ _ Hi) in HoR.
    cbn [at_eye] in HoL, HoR. fold a0 ep in HoL, HoR.
    constructor.
    + cbn [fst snd]. exists (Position (resolved_pose ep ovrEye_Left a0)),
                        (Position (resolved_pose ep ovrEye_Right a0)).
      rewrite Hargs, Hrender, <- HoL, <- HoR.
      destruct (resolved_pose ep ovrEye_Left a0), (resolved_pose ep ovrEye_Right a0).
      split; reflexivity.
    + specialize (IH _ Hinit). rewrite Hlast in IH. cbn [atLeft atRight] in IH.
      rewrite HoL, HoR in IH. exact IH.
Qed.

(** [update_buttons], member by member. *)
Lemma update_buttons_fields (i : ovrInputState) (s : SimScene) :
  let s' := update_buttons i s in
  buttonB s' = (if button_down i ovrButton_B then buttonB s
                else if buttonBPressed s then Z.rem (buttonB s + 1) 2 else buttonB s) /\
  buttonBPressed s' = (if button_down i ovrButton_B then true else false) /\
  buttonX s' = (if button_down i ovrButton_X then buttonX s
                else if buttonXPressed s then Z.rem (buttonX s + 1) 2 else buttonX s) /\
  buttonXPressed s' = (if button_down i ovrButton_X then true else false) /\
  randomGened s' = (if button_down i ovrButton_X then randomGened s
                    else if buttonXPressed s then false else randomGened s) /\
  rightHandTriggerPressed s' = Rgtb (atRight (HandTrigger i)) (1 / 2) /\
  scene_config s' = scene_config s /\
  random_num s' = random_num s /\ rand_calls s' = rand_calls s /\
  curEyeIdx s' = curEyeIdx s.
Proof.
  cbv zeta. unfold update_buttons. destruct s. cbn -[Z.rem Z.add Rgtb button_down].
  destruct (button_down i ovrButton_A), buttonAPressed0,
           (button_down i ovrButton_B), buttonBPressed0,
           (button_down i ovrButton_X), buttonXPressed0,
           (Rgtb (atRight (HandTrigger i)) (1 / 2));
    cbn -[Z.rem Z.add]; repeat apply conj; reflexivity.
Qed.


Lemma scene_flags_inv' (s1 s2 : SimScene) :
  scene_flags s1 = scene_flags s2 ->
  buttonB s1 = buttonB s2 /\ buttonX s1 = buttonX s2 /\
  rightHandTriggerPressed s1 = rightHandTriggerPressed s2 /\
  buttonBPressed s1 = buttonBPressed s2 /\ buttonXPressed s1 = buttonXPressed s2.
Proof. unfold scene_flags. intros H. injection H. intros. repeat apply conj; assumption. Qed.

Lemma update_cube_fields (i : ovrInputState) (s : SimScene) :
  scene_flags (update_cube i s) = scene_flags s /\
  scene_config (update_cube i s) = scene_config s /\
  random_num (update_cube i s) = random_num s /\
  randomGened (update_cube i s) = randomGened s /\
  rand_calls (update_cube i s) = rand_calls s /\
  curEyeIdx (update_cube i s) = curEyeIdx s.
Proof.
  unfold update_cube. destruct s. cbn -[Rgtb Rltb button_down].
  destruct (button_down i ovrButton_RThumb), (button_down i ovrButton_LThumb),
           (Rgtb (o2x (atRight (Thumbstick i))) (1 / 2)),
           (Rltb (o2x (atRight (Thumbstick i))) (- (1 / 2))),
           (Rgtb (o2y (atRight (Thumbstick i))) (1 / 2)),
           (Rltb (o2y (atRight (Thumbstick i))) (- (1 / 2))),
           (Rgtb (o2x (atLeft (Thumbstick i))) (1 / 2)),
           (Rltb (o2x (atLeft (Thumbstick i))) (- (1 / 2)));
    repeat apply conj; reflexivity.
Qed.

(** The scene after [update], when the controller state was read. *)
Lemma updated_scene_some (inp : FrameInput) (i : ovrInputState) (a : SimApp) :
  inputState inp = Some i ->
  let s := simScene a in
  let s' := simScene (updated inp a) in
  buttonB s' = (if button_down i ovrButton_B then buttonB s
                else if buttonBPressed s then Z.rem (buttonB s + 1) 2 else buttonB s) /\
  buttonBPressed s' = (if button_down i ovrButton_B then true else false) /\
  buttonX s' = (if button_down i ovrButton_X then buttonX s
                else if buttonXPressed s then Z.rem (buttonX s + 1) 2 else buttonX s) /\
  buttonXPressed s' = (if button_down i ovrButton_X then true else false) /\
  randomGened s' = (if button_down i ovrButton_X then randomGened s
                    else if buttonXPressed s then false else randomGened s) /\
  rightHandTriggerPressed s' = Rgtb (atRight (HandTrigger i)) (1 / 2) /\
  scene_config s' = scene_config s /\
  random_num s' = random_num s /\ rand_calls s' = rand_calls s /\
  rightHandPose (updated inp a) = toGlm (rightPose inp).
Proof.
  intros Hi. cbv zeta. rewrite updated_closed.
  unfold updated_scene, updated_hand. rewrite Hi.
  destruct (set_simScene_fields
    (set_cube_toWorld
       (mul (translate_m (mat4_diag 1)
               (mkVec3 (cubeX (update_cube i (update_buttons i (simScene a)))) 0
                       (cubeZ (update_cube i (update_buttons i (simScene a))))))
            (scale_m (mat4_diag 1)
               (mkVec3 (cubeSize (update_cube i (update_buttons i (simScene a))))
                       (cubeSize (update_cube i (update_buttons i (simScene a))))
                       (cubeSize (update_cube i (update_buttons i (simScene a)))))))
       (update_cube i (update_buttons i (simScene a))))
    (set_triggerPose (toGlm_vec (Position (rightPose inp)))
       (set_rightHandPose (toGlm (rightPose inp)) a)))
    as (_ & _ & _ & _ & E2 & _ & E1).
  rewrite E1, E2.
  destruct (update_cube_fields i (update_buttons i (simScene a)))
    as (Hf & Hc & Hn & Hg & Hk & _).
  destruct (update_buttons_fields i (simScene a))
    as (B1 & B2 & B3 & B4 & B5 & B6 & B7 & B8 & B9 & _).
  cbv zeta in B1, B2, B3, B4, B5, B6, B7, B8, B9.
  apply scene_flags_inv' in Hf. destruct Hf as (F1 & F2 & F3 & F4 & F5).
  change (buttonB (set_cube_toWorld ?m ?s)) with (buttonB s).
  change (buttonBPressed (set_cube_toWorld ?m ?s)) with (buttonBPressed s).
  change (buttonX (set_cube_toWorld ?m ?s)) with (buttonX s).
  change (buttonXPressed (set_cube_toWorld ?m ?s)) with (buttonXPressed s).
  change (randomGened (set_cube_toWorld ?m ?s)) with (randomGened s).
  change (rightHandTriggerPressed (set_cube_toWorld ?m ?s))
    with (rightHandTriggerPressed s).
  change (scene_config (set_cube_toWorld ?m ?s)) with (scene_config s).
  change (random_num (set_cube_toWorld ?m ?s)) with (random_num s).
  change (rand_calls (set_cube_toWorld ?m ?s)) with (rand_calls s).
  rewrite F1, F2, F3, F4, F5, Hg, Hc, Hn, Hk, B1, B2, B3, B4, B5, B6, B7, B8, B9.
  repeat apply conj; reflexivity.
Qed.


Lemma frame_scene (inp : FrameInput) (a : SimApp) :
  scene_flags (simScene (state_of (frame inp a)))
  = scene_flags (simScene (updated inp a)) /\
  scene_config (simScene (state_of (frame inp a))) = scene_config (simScene a) /\
  config (state_of (frame inp a)) = config a.
Proof.
  rewrite frame_state. cbv zeta.
  set (a0 := updated inp a).
  set (aL := state_of (draw_eye (eyePoses inp) ovrEye_Left a0)).
  destruct (draw_eye_config (eyePoses inp) ovrEye_Right aL) as (C2 & S2 & F2 & _).
  destruct (draw_eye_config (eyePoses inp) ovrEye_Left a0) as (C1 & S1 & F1 & _).
  fold aL in C1, S1, F1. cbv zeta in C2, S2, F2.
  destruct (updated_config inp a) as (C0 & _). fold a0 in C0.
  assert (S0 : scene_config (simScene a0) = scene_config (simScene a)).
  { unfold a0. rewrite updated_closed. unfold updated_scene.
    destruct (inputState inp) as [i|]; [|reflexivity].
    destruct (update_cube_fields i (update_buttons i (simScene a))) as (_ & Hc & _).
    destruct (update_buttons_fields i (simScene a)) as (_ & _ & _ & _ & _ & _ & B7 & _).
    cbv zeta in B7.
    change (scene_config (update_cube i (update_buttons i (simScene a)))
            = scene_config (simScene a)).
    rewrite Hc. exact B7. }
  rewrite C2, S2, F2, C1, S1, F1, C0, S0. repeat apply conj; reflexivity.
Qed.

(** The orientation an eye uses in the offscreen pass never changes: it is
    that of the pose held when the run begins. *)
Lemma orientation_held (inp1 : FrameInput) (rest : list FrameInput) (a : SimApp) :
  let ep := eyePoses inp1 in
  Forall (fun fr => exists pL pR,
            collect offscreen_args (snd fr)
            = [pose_args (mkOvrPosef (Orientation (held_pose ep ovrEye_Left a)) pL);
               pose_args (mkOvrPosef (Orientation (held_pose ep ovrEye_Right a)) pR)] /\
            renderEye (fst fr)
            = mkPerEye (mkOvrPosef (Orientation (held_pose ep ovrEye_Left a)) pL)
                       (mkOvrPosef (Orientation (held_pose ep ovrEye_Right a)) pR))
         (run (inp1 :: rest) a).
Proof.
  cbv zeta. cbn [run].
  destruct (frame_poses inp1 a) as (Hargs & Hlast & Hrender & Hinit & _).
  cbv zeta in Hargs, Hlast, Hrender.
  set (a0 := updated inp1 a) in *. set (ep := eyePoses inp1) in *.
  pose proof (resolved_pose_orientation ep ovrEye_Left a0) as HoL.
  pose proof (resolved_pose_orientation ep ovrEye_Right a0) as HoR.
  unfold a0, ep in HoL, HoR. rewrite held_pose_updated in HoL, HoR.
  fold a0 ep in HoL, HoR.
  constructor.
  - cbn [fst snd]. exists (Position (resolved_pose ep ovrEye_Left a0)),
                      (Position (resolved_pose ep ovrEye_Right a0)).
    rewrite Hargs, Hrender, <- HoL, <- HoR.
    destruct (resolved_pose ep ovrEye_Left a0), (resolved_pose ep ovrEye_Right a0).
    split; reflexivity.
  - pose proof (orientation_run rest _ Hinit) as H.
    rewrite Hlast in H. cbn [atLeft atRight] in H. rewrite HoL, HoR in H. exact H.
Qed.

End PoseClaims.

Section PoseTheorems.
Import Glm Ovr Gl OffAxis Scene App Recorder Aux Examples.
Local Open Scope Z_scope.

(** With button B untouched the tracking mode stays what it is. *)
Lemma idle_tracking (inp : FrameInput) (i : ovrInputState) (a : SimApp) :
  inputState inp = Some i ->
  button_down i ovrButton_B = false ->
  buttonBPressed (simScene a) = false ->
  getTrackingState (updated inp a) = getTrackingState a /\
  getTrackingState (state_of (frame inp a)) = getTrackingState a /\
  buttonBPressed (simScene (state_of (frame inp a))) = false.
Proof.
  intros Hi Hb Hp.
  destruct (updated_scene_some inp i a Hi) as (B1 & B2 & _). cbv zeta in B1, B2.
  rewrite Hb, Hp in B1. rewrite Hb in B2.
  destruct (frame_scene inp a) as (Hf & _). apply scene_flags_inv' in Hf.
  destruct Hf as (F1 & _ & _ & F4 & _).
  unfold getTrackingState. rewrite F1, F4, B1, B2. repeat apply conj; reflexivity.
Qed.

Lemma ex_idle_frame_B (hand head : ovrPosef) :
  inputState (ex_frame ex_idle hand head) = Some ex_idle /\
  button_down ex_idle ovrButton_B = false.
Proof. split; reflexivity. Qed.

End PoseTheorems.

Section HandFacts.
Import Glm Ovr Gl OffAxis Scene App Recorder Aux Examples.
Local Open Scope Z_scope.

Lemma toGlm_col3 (p : ovrPosef) :
  col3 (toGlm p)
  = mkVec4 (ovx (Position p)) (ovy (Position p)) (ovz (Position p)) 1.
Proof.
  destruct p as [[qx qy qz qw] [px py pz]].
  apply vec4_eq;
    cbv [toGlm mat4_cast mul mul_vec add4 scale4 translate_m mat4_diag mat4_of toGlm_vec
         Position Orientation col0 col1 col2 col3 v4x v4y v4z v4w
         oqx oqy oqz oqw ovx ovy ovz v3x v3y v3z]; ring.
Qed.

(** The eye position [offscreenRender] passes on, for the state in which an
    iteration of the eye loop starts. *)
Lemma offscreen_view_eyePos (H : mat4) (e : vec3) (ep : PerEye ovrPosef)
    (eye : ovrEyeType) (a : SimApp) :
  snd (offscreen_view H e (before_offscreen ep eye a))
  = if rightHandTriggerPressed (simScene a)
    then substituted_eyePos (hand_column a) a eye
    else e.
Proof.
  destruct (before_offscreen_config ep eye a) as (Hc & Hr & Hl & _).
  apply config_inv in Hc. destruct Hc as (_ & _ & _ & _ & _ & Hd).
  unfold offscreen_view, hand_column, getTrackingState, getDefaultIOD, substituted_eyePos.
  rewrite simScene_before_offscreen, Hr, Hl, Hd.
  change (rightHandTriggerPressed (set_curEyeIdx ?i ?s)) with (rightHandTriggerPressed s).
  change (buttonB (set_curEyeIdx ?i ?s)) with (buttonB s).
  change (curEyeIdx (set_curEyeIdx ?i ?s)) with i.
  destruct (rightHandTriggerPressed (simScene a)); [|reflexivity].
  destruct eye; reflexivity.
Qed.

(** The hand poses after a frame. *)
Lemma draw_eye_hand (ep : PerEye ovrPosef) (eye : ovrEyeType) (a : SimApp) :
  lastRightHand (state_of (draw_eye ep eye a))
  = if rightHandTriggerPressed (simScene a) && (getTrackingState a =? 0)
    then rightHandPose a else lastRightHand a.
Proof.
  destruct (draw_eye_state ep eye a) as [L ->].
  destruct (before_offscreen_config ep eye a) as (_ & Hr & Hl & _).
  match goal with |- context [set_simScene ?s ?b] =>
    destruct (set_simScene_fields s b) as (_ & _ & _ & _ & _ & E & _) end.
  rewrite E. unfold offscreen_app, getTrackingState.
  rewrite simScene_before_offscreen.
  change (rightHandTriggerPressed (set_curEyeIdx ?i ?s)) with (rightHandTriggerPressed s).
  change (buttonB (set_curEyeIdx ?i ?s)) with (buttonB s).
  destruct (rightHandTriggerPressed (simScene a) && (buttonB (simScene a) =? 0)).
  - change (lastRightHand (set_lastRightHand ?m ?b)) with m. exact Hr.
  - exact Hl.
Qed.

Lemma hand_column_ext (a1 a2 : SimApp) :
  getTrackingState a1 = getTrackingState a2 ->
  rightHandPose a1 = rightHandPose a2 ->
  (getTrackingState a2 <> 0 -> lastRightHand a1 = lastRightHand a2) ->
  hand_column a1 = hand_column a2.
Proof.
  intros Ht Hr Hl. unfold hand_column. rewrite Ht, Hr.
  destruct (getTrackingState a2 =? 0) eqn:E; [reflexivity|].
  rewrite Hl; [reflexivity|]. apply Z.eqb_neq. exact E.
Qed.

Lemma frame_hand (inp : FrameInput) (a : SimApp) :
  let a0 := updated inp a in
  collect preRender_eyePos (trace_of (frame inp a))
  = (if rightHandTriggerPressed (simScene a0)
     then [substituted_eyePos (hand_column a0) a ovrEye_Left;
           substituted_eyePos (hand_column a0) a ovrEye_Right]
     else [toGlm_vec (Position (resolved_pose (eyePoses inp) ovrEye_Left a0));
           toGlm_vec (Position (resolved_pose (eyePoses inp) ovrEye_Right a0))]) /\
  lastRightHand (state_of (frame inp a))
  = (if rightHandTriggerPressed (simScene a0) && (getTrackingState a0 =? 0)
     then rightHandPose a0 else lastRightHand a) /\
  rightHandPose (state_of (frame inp a)) = rightHandPose a0.
Proof.
  cbv zeta. rewrite frame_trace, frame_state. cbv zeta.
  set (a0 := updated inp a). set (ep := eyePoses inp).
  set (aL := state_of (draw_eye ep ovrEye_Left a0)).
  destruct (draw_eye_config ep ovrEye_Left a0) as (CL & _ & FL & RL).
  fold aL in CL, FL, RL.
  destruct (draw_eye_config ep ovrEye_Right aL) as (_ & _ & _ & RR). cbv zeta in RR.
  apply config_inv in CL. destruct CL as (_ & _ & _ & _ & _ & DL).
  apply scene_flags_inv in FL. destruct FL as (_ & FB & _ & FT).
  destruct (updated_config inp a) as (C0 & _ & _ & _ & L0). fold a0 in C0, L0.
  apply config_inv in C0. destruct C0 as (_ & _ & _ & _ & _ & D0).
  pose proof (draw_eye_hand ep ovrEye_Left a0) as HL. fold aL in HL.
  pose proof (draw_eye_hand ep ovrEye_Right aL) as HR.
  assert (Ht : getTrackingState aL = getTrackingState a0) by (unfold getTrackingState; exact FB).
  assert (Hcol : hand_column aL = hand_column a0).
  { apply hand_column_ext; [exact Ht | exact RL |].
    intros Hne. rewrite HL. apply Z.eqb_neq in Hne. rewrite Hne, andb_false_r. reflexivity. }
  rewrite !collect_app, !eye_trace_preRender, !offscreen_view_eyePos.
  unfold draw_head, draw_tail. cbn [collect preRender_eyePos app].
  assert (HRP : resolved_pose ep ovrEye_Right aL = resolved_pose ep ovrEye_Right a0).
  { destruct (draw_eye_poses ep ovrEye_Left a0) as (Hl & _ & Hi). fold aL in Hl, Hi.
    apply resolved_pose_ext; [rewrite Hi | rewrite Hl | exact Ht]; reflexivity. }
  rewrite FT, Hcol, HRP, HR, HL, Ht, FT, RR, RL.
  unfold substituted_eyePos. rewrite DL, D0, L0.
  repeat apply conj; try reflexivity.
  - destruct (rightHandTriggerPressed (simScene a0)); reflexivity.
  - destruct (rightHandTriggerPressed (simScene a0)), (getTrackingState a0 =? 0);
      reflexivity.
Qed.

End HandFacts.

Section HandTheorems.
Import Glm Ovr Gl OffAxis Scene App Recorder Aux Examples.
Local Open Scope Z_scope.

Lemma Rgtb_true (x y : R) : (y < x)%R -> Rgtb x y = true.
Proof. intros H. unfold Rgtb. destruct (Rlt_dec y x); [reflexivity | contradiction]. Qed.

Lemma Rgtb_false (x y : R) : (x <= y)%R -> Rgtb x y = false.
Proof. intros H. unfold Rgtb. destruct (Rlt_dec y x); [lra | reflexivity]. Qed.

(** A frame whose controller state was read, in terms of the state before. *)
Lemma frame_summary (inp : FrameInput) (i : ovrInputState) (a : SimApp) :
  inputState inp = Some i ->
  let s := simScene a in
  let a0 := updated inp a in
  let a' := state_of (frame inp a) in
  getTrackingState a0
  = (if button_down i ovrButton_B then buttonB s
     else if buttonBPressed s then Z.rem (buttonB s + 1) 2 else buttonB s) /\
  rightHandTriggerPressed (simScene a0) = Rgtb (atRight (HandTrigger i)) (1 / 2) /\
  rightHandPose a0 = toGlm (rightPose inp) /\
  buttonB (simScene a') = getTrackingState a0 /\
  buttonBPressed (simScene a') = (if button_down i ovrButton_B then true else false) /\
  lastRightHand a'
  = (if rightHandTriggerPressed (simScene a0) && (getTrackingState a0 =? 0)
     then toGlm (rightPose inp) else lastRightHand a) /\
  config a' = config a.
Proof.
  intros Hi. cbv zeta.
  destruct (updated_scene_some inp i a Hi)
    as (B1 & B2 & _ & _ & _ & B6 & _ & _ & _ & B10).
  cbv zeta in B1, B2, B6.
  destruct (frame_scene inp a) as (Hf & _ & Hc). apply scene_flags_inv' in Hf.
  destruct Hf as (F1 & _ & _ & F4 & _).
  destruct (frame_hand inp a) as (_ & HL & _). cbv zeta in HL.
  unfold getTrackingState in *. rewrite F1, F4, HL, B10, B1, B2, B6, Hc.
  repeat apply conj; reflexivity.
Qed.

(** The clamp of [renderEyeOffset] changes nothing when the IOD is 0 and
    the runtime's offsets lie on their own side within 0.3: then the offset
    [offscreenRender] adds is also the clamped, IOD-adjusted one. *)
Lemma default_offset_is_clamped (a : SimApp) (eye : ovrEyeType) :
  getIOD a = 0%R ->
  (- (3 / 10) <= atLeft (defaultHmdToEyeOffset a) <= 0)%R ->
  (0 <= atRight (defaultHmdToEyeOffset a) <= 3 / 10)%R ->
  ovx (at_eye (renderEyeOffset a) eye) = at_eye (defaultHmdToEyeOffset a) eye.
Proof.
  intros HI HL HR. unfold renderEyeOffset. rewrite HI.
  destruct eye; cbn [at_eye atLeft atRight ovx];
    rewrite Rmax_left by lra; rewrite Rmin_left by lra; lra.
Qed.

(** C8 (amended).  In a frame in which the right-hand trigger is pressed,
    the eye position handed to the offscreen pass is, for each eye, the hand
    position -- the live one in LIVE mode, the translation column of
    [lastRightHand] otherwise -- with that eye's [defaultHmdToEyeOffset]
    added to its x component; the default offset, not the clamped,
    IOD-adjusted one passed to the tracking runtime.  [lastRightHand] is
    assigned the live hand pose in exactly the frames drawn with the trigger
    pressed in LIVE mode, so in FROZEN mode the position used is the hand
    position of the last such frame. *)
Theorem substituted_eye_position (inp : FrameInput) (a : SimApp) :
  let a0 := updated inp a in
  let h := if getTrackingState a0 =? 0 then col3 (rightHandPose a0)
           else col3 (lastRightHand a) in
  (rightHandTriggerPressed (simScene a0) = true ->
   collect preRender_eyePos (trace_of (frame inp a))
   = [substituted_eyePos h a ovrEye_Left; substituted_eyePos h a ovrEye_Right])
  /\
  (forall i, inputState inp = Some i ->
     col3 (rightHandPose a0)
     = mkVec4 (ovx (Position (rightPose inp))) (ovy (Position (rightPose inp)))
              (ovz (Position (rightPose inp))) 1)
  /\
  lastRightHand (state_of (frame inp a))
  = (if rightHandTriggerPressed (simScene a0) && (getTrackingState a0 =? 0)
     then rightHandPose a0 else lastRightHand a).
Proof.
  cbv zeta. destruct (frame_hand inp a) as (He & Hl & _). cbv zeta in He, Hl.
  destruct (updated_config inp a) as (_ & _ & _ & _ & L0).
  repeat apply conj.
  - intros Ht. rewrite Ht in He. rewrite He. unfold hand_column. rewrite L0. reflexivity.
  - intros i Hi.
    destruct (updated_scene_some inp i a Hi) as (_ & _ & _ & _ & _ & _ & _ & _ & _ & B10).
    rewrite B10. apply toGlm_col3.
  - exact Hl.
Qed.

Lemma substituted_eye_position_witness :
  rightHandTriggerPressed (simScene (updated ex_f2 ex_app)) = true /\
  collect preRender_eyePos (trace_of (frame ex_f2 ex_app))
  = [substituted_eyePos (col3 (toGlm (ex_hand 2))) ex_app ovrEye_Left;
     substituted_eyePos (col3 (toGlm (ex_hand 2))) ex_app ovrEye_Right].
Proof.
  destruct (frame_summary ex_f2 ex_trigger ex_app eq_refl) as (E1 & E2 & E3 & _).
  cbv zeta in E1, E2, E3.
  assert (Ht : rightHandTriggerPressed (simScene (updated ex_f2 ex_app)) = true).
  { rewrite E2. apply Rgtb_true. cbn [ex_trigger HandTrigger atRight]. lra. }
  split; [exact Ht|].
  pose proof (proj1 (substituted_eye_position ex_f2 ex_app) Ht) as H.
  cbv zeta in H. rewrite E1, E3 in H. exact H.
Defined.


Lemma renderEyeOffset_ext (a1 a2 : SimApp) :
  config a1 = config a2 -> scene_config (simScene a1) = scene_config (simScene a2) ->
  renderEyeOffset a1 = renderEyeOffset a2.
Proof.
  intros Hc Hs. apply config_inv in Hc. destruct Hc as (_ & _ & _ & _ & H1 & H2).
  unfold scene_config in Hs. injection Hs. intros _ HI _ _ _ _ _ _ _.
  unfold renderEyeOffset, getIOD. rewrite H1, H2, HI. reflexivity.
Qed.

Lemma renderEyeOffset_updated (inp : FrameInput) (a : SimApp) :
  renderEyeOffset (updated inp a) = renderEyeOffset a.
Proof.
  apply renderEyeOffset_ext; [apply updated_config|].
  rewrite updated_closed. unfold updated_scene.
  destruct (inputState inp) as [i|]; [|reflexivity].
  destruct (update_cube_fields i (update_buttons i (simScene a))) as (_ & Hc & _).
  destruct (update_buttons_fields i (simScene a)) as (_ & _ & _ & _ & _ & _ & B7 & _).
  cbv zeta in B7.
  change (scene_config (update_cube i (update_buttons i (simScene a)))
          = scene_config (simScene a)).
  rewrite Hc. exact B7.
Qed.

Lemma cex_offset :
  (let a0 := updated ex_f2 ex_app_offsets in
   rightHandTriggerPressed (simScene a0) = true /\
   collect preRender_eyePos (trace_of (frame ex_f2 ex_app_offsets))
   <> [claimed_eyePos (Position (rightPose ex_f2)) a0 ovrEye_Left;
       claimed_eyePos (Position (rightPose ex_f2)) a0 ovrEye_Right]).
Proof.
  assert (Hsq : Rgtb 1 (1 / 2) = true) by (apply Rgtb_true; lra).
  assert (Hno : Rgtb 0 (1 / 2) = false) by (apply Rgtb_false; lra).
  cbv zeta.
    destruct (frame_summary ex_f2 ex_trigger ex_app_offsets eq_refl)
      as (E1 & E2 & E3 & _). cbv zeta in E1, E2, E3.
    cbn [ex_trigger HandTrigger atRight] in E2. rewrite Hsq in E2.
    change (getTrackingState (updated ex_f2 ex_app_offsets) = 0) in E1.
    split; [exact E2|].
    destruct (frame_hand ex_f2 ex_app_offsets) as (He & _). cbv zeta in He.
    rewrite E2 in He. rewrite He. unfold hand_column. rewrite E1, E3. cbn [Z.eqb].
    intros H. apply (f_equal first_x) in H.
    unfold first_x, substituted_eyePos, claimed_eyePos in H.
    rewrite renderEyeOffset_updated, toGlm_col3 in H.
    cbv [v3x v4x ovx at_eye atLeft atRight renderEyeOffset getIOD IOD simScene
         defaultHmdToEyeOffset HmdToEyeOffset ex_app_offsets ex_scene ex_f2 ex_frame
         rightPose ex_hand Position] in H.
    rewrite Rmax_left in H by lra. rewrite Rmin_right in H by lra. lra.
Qed.

(** What a frame with a given controller state does to the members the
    substitution reads. *)
Lemma frame_step (inp : FrameInput) (i : ovrInputState) (a : SimApp)
    (b : Z) (bp : bool) (lrh : mat4) (m : Z) (t : bool) (bd : bool) :
  inputState inp = Some i ->
  buttonB (simScene a) = b -> buttonBPressed (simScene a) = bp ->
  lastRightHand a = lrh ->
  button_down i ovrButton_B = bd ->
  (if bd then b else if bp then Z.rem (b + 1) 2 else b) = m ->
  Rgtb (atRight (HandTrigger i)) (1 / 2) = t ->
  getTrackingState (updated inp a) = m /\
  rightHandTriggerPressed (simScene (updated inp a)) = t /\
  buttonB (simScene (state_of (frame inp a))) = m /\
  buttonBPressed (simScene (state_of (frame inp a))) = bd /\
  lastRightHand (state_of (frame inp a))
  = (if t && (m =? 0) then toGlm (rightPose inp) else lrh) /\
  config (state_of (frame inp a)) = config a /\
  scene_config (simScene (state_of (frame inp a))) = scene_config (simScene a).
Proof.
  intros Hi Hb Hbp Hl Hbd Hm Ht.
  destruct (frame_summary inp i a Hi) as (E1 & E2 & _ & E4 & E5 & E6 & E7).
  cbv zeta in E1, E2, E4, E5, E6, E7.
  destruct (frame_scene inp a) as (_ & S1 & _).
  rewrite Hb, Hbp, Hbd, Hm in E1. rewrite Ht in E2. rewrite E1 in E4.
  rewrite Hbd in E5. rewrite E2, E1, Hl in E6.
  repeat apply conj; try assumption.
  destruct bd; exact E5.
Qed.

Lemma ex_a2_facts :
  buttonB (simScene ex_a2) = 0 /\ buttonBPressed (simScene ex_a2) = false /\
  lastRightHand ex_a2 = toGlm (ex_hand 2) /\
  config ex_a2 = config ex_app /\
  scene_config (simScene ex_a2) = scene_config (simScene ex_app).
Proof.
  destruct (frame_step ex_f2 ex_trigger ex_app 0 false (mat4_diag 1) 0 true false
              eq_refl eq_refl eq_refl eq_refl eq_refl eq_refl)
    as (_ & _ & H3 & H4 & H5 & H6 & H7).
  { apply Rgtb_true. cbn [ex_trigger HandTrigger atRight]. lra. }
  unfold ex_a2. repeat apply conj; assumption.
Qed.

Lemma ex_a3_facts :
  buttonB (simScene ex_a3) = 0 /\ buttonBPressed (simScene ex_a3) = true /\
  lastRightHand ex_a3 = toGlm (ex_hand 2) /\
  config ex_a3 = config ex_app /\
  scene_config (simScene ex_a3) = scene_config (simScene ex_app).
Proof.
  destruct ex_a2_facts as (A1 & A2 & A3 & A4 & A5).
  destruct (frame_step ex_f3 ex_B_down ex_a2 0 false (toGlm (ex_hand 2)) 0 false true
              eq_refl A1 A2 A3 eq_refl eq_refl)
    as (_ & _ & H3 & H4 & H5 & H6 & H7).
  { apply Rgtb_false. cbn [ex_B_down HandTrigger atRight]. lra. }
  unfold ex_a3. rewrite H6, H7, A4, A5. repeat apply conj; try assumption; reflexivity.
Qed.

Lemma ex_a4_facts :
  getTrackingState (updated ex_f4 ex_a3) = 1 /\
  buttonB (simScene ex_a4) = 1 /\ buttonBPressed (simScene ex_a4) = false /\
  lastRightHand ex_a4 = toGlm (ex_hand 2) /\
  config ex_a4 = config ex_app /\
  scene_config (simScene ex_a4) = scene_config (simScene ex_app).
Proof.
  destruct ex_a3_facts as (A1 & A2 & A3 & A4 & A5).
  destruct (frame_step ex_f4 ex_idle ex_a3 0 true (toGlm (ex_hand 2)) 1 false false
              eq_refl A1 A2 A3 eq_refl eq_refl)
    as (H1 & _ & H3 & H4 & H5 & H6 & H7).
  { apply Rgtb_false. cbn [ex_idle HandTrigger atRight]. lra. }
  unfold ex_a4. rewrite H6, H7, A4, A5. repeat apply conj; try assumption; reflexivity.
Qed.

Lemma cex_frozen_hand :
  let a0 := updated ex_f5 ex_a4 in
  rightHandTriggerPressed (simScene a0) = true /\
  getTrackingState (updated ex_f4 ex_a3) = 1 /\
  getTrackingState a0 = 1 /\
  collect preRender_eyePos (trace_of (frame ex_f5 ex_a4))
  = [substituted_eyePos (col3 (toGlm (ex_hand 2))) ex_app ovrEye_Left;
     substituted_eyePos (col3 (toGlm (ex_hand 2))) ex_app ovrEye_Right] /\
  collect preRender_eyePos (trace_of (frame ex_f5 ex_a4))
  <> [claimed_eyePos (Position (ex_hand 4)) a0 ovrEye_Left;
      claimed_eyePos (Position (ex_hand 4)) a0 ovrEye_Right] /\
  collect preRender_eyePos (trace_of (frame ex_f5 ex_a4))
  <> [claimed_eyePos (Position (ex_hand 5)) a0 ovrEye_Left;
      claimed_eyePos (Position (ex_hand 5)) a0 ovrEye_Right].
Proof.
  cbv zeta.
  destruct ex_a4_facts as (A0 & A1 & A2 & A3 & A4 & A5).
  destruct (frame_step ex_f5 ex_trigger ex_a4 1 false (toGlm (ex_hand 2)) 1 true false
              eq_refl A1 A2 A3 eq_refl eq_refl)
    as (D1 & D2 & _).
  { apply Rgtb_true. cbn [ex_trigger HandTrigger atRight]. lra. }
  destruct (frame_hand ex_f5 ex_a4) as (He & _). cbv zeta in He. rewrite D2 in He.
  destruct (updated_config ex_f5 ex_a4) as (_ & _ & _ & _ & L0).
  unfold hand_column in He. rewrite D1, L0, A3 in He.
  assert (Hd : defaultHmdToEyeOffset ex_a4 = defaultHmdToEyeOffset ex_app).
  { apply config_inv in A4. apply A4. }
  assert (He' : collect preRender_eyePos (trace_of (frame ex_f5 ex_a4))
                = [substituted_eyePos (col3 (toGlm (ex_hand 2))) ex_app ovrEye_Left;
                   substituted_eyePos (col3 (toGlm (ex_hand 2))) ex_app ovrEye_Right]).
  { rewrite He. unfold substituted_eyePos. rewrite Hd. reflexivity. }
  assert (Hoff : renderEyeOffset (updated ex_f5 ex_a4) = renderEyeOffset ex_app).
  { rewrite renderEyeOffset_updated. apply renderEyeOffset_ext; assumption. }
  assert (Hclamp : forall x : R,
            first_x [claimed_eyePos (Position (ex_hand x)) ex_app ovrEye_Left;
                     claimed_eyePos (Position (ex_hand x)) ex_app ovrEye_Right]
            = (x + - (3 / 100))%R).
  { intros x. unfold first_x, claimed_eyePos.
    cbv [v3x ovx at_eye atLeft atRight renderEyeOffset getIOD IOD simScene
         defaultHmdToEyeOffset HmdToEyeOffset ex_app ex_scene ex_hand Position].
    rewrite Rmax_left by lra. rewrite Rmin_left by lra. lra. }
  assert (Hcode : first_x [substituted_eyePos (col3 (toGlm (ex_hand 2))) ex_app ovrEye_Left;
                           substituted_eyePos (col3 (toGlm (ex_hand 2))) ex_app ovrEye_Right]
                  = (2 + - (3 / 100))%R).
  { unfold first_x, substituted_eyePos. rewrite toGlm_col3. reflexivity. }
  repeat apply conj.
  - exact D2.
  - exact A0.
  - exact D1.
  - exact He'.
  - rewrite He'. unfold claimed_eyePos. rewrite Hoff. intros H.
    apply (f_equal first_x) in H. rewrite Hcode in H.
    change (first_x [claimed_eyePos (Position (ex_hand 4)) ex_app ovrEye_Left;
                     claimed_eyePos (Position (ex_hand 4)) ex_app ovrEye_Right]) in H
      || (fold (claimed_eyePos (Position (ex_hand 4)) ex_app ovrEye_Left) in H;
          fold (claimed_eyePos (Position (ex_hand 4)) ex_app ovrEye_Right) in H).
    rewrite Hclamp in H. lra.
  - rewrite He'. unfold claimed_eyePos. rewrite Hoff. intros H.
    apply (f_equal first_x) in H. rewrite Hcode in H.
    fold (claimed_eyePos (Position (ex_hand 5)) ex_app ovrEye_Left) in H.
    fold (claimed_eyePos (Position (ex_hand 5)) ex_app ovrEye_Right) in H.
    rewrite Hclamp in H. lra.
Qed.

(** C8, as stated, fails on both counts.

    (a) The offset.  On a headset whose runtime reports 0.0294861 for the
    left eye, the clamp of [renderEyeOffset] gives 0 while the offscreen
    pass adds 0.0294861 to the hand's x = 2.

    (b) The frozen hand.  The trigger is squeezed with the hand at x = 2 in
    LIVE mode; FROZEN is engaged two frames later with the hand at x = 4; the
    trigger is squeezed again with the hand at x = 5.  The offscreen pass of
    that last frame works from x = 2: neither the hand position when FROZEN
    was engaged nor the one when the substitution was activated. *)
Lemma substituted_position_differs :
  (let a0 := updated ex_f2 ex_app_offsets in
   rightHandTriggerPressed (simScene a0) = true /\
   collect preRender_eyePos (trace_of (frame ex_f2 ex_app_offsets))
   <> [claimed_eyePos (Position (rightPose ex_f2)) a0 ovrEye_Left;
       claimed_eyePos (Position (rightPose ex_f2)) a0 ovrEye_Right])
  /\
  (let a0 := updated ex_f5 ex_a4 in
   rightHandTriggerPressed (simScene a0) = true /\
   getTrackingState (updated ex_f4 ex_a3) = 1 /\
   getTrackingState a0 = 1 /\
   collect preRender_eyePos (trace_of (frame ex_f5 ex_a4))
   = [substituted_eyePos (col3 (toGlm (ex_hand 2))) ex_app ovrEye_Left;
      substituted_eyePos (col3 (toGlm (ex_hand 2))) ex_app ovrEye_Right] /\
   collect preRender_eyePos (trace_of (frame ex_f5 ex_a4))
   <> [claimed_eyePos (Position (ex_hand 4)) a0 ovrEye_Left;
       claimed_eyePos (Position (ex_hand 4)) a0 ovrEye_Right] /\
   collect preRender_eyePos (trace_of (frame ex_f5 ex_a4))
   <> [claimed_eyePos (Position (ex_hand 5)) a0 ovrEye_Left;
       claimed_eyePos (Position (ex_hand 5)) a0 ovrEye_Right]).
Proof. split; [exact cex_offset | exact cex_frozen_hand]. Qed.

End HandTheorems.

Section OrderFacts.
Import Glm Ovr Gl OffAxis Scene App Recorder Aux.
Local Open Scope Z_scope.

Lemma before_none_P {A} (P Q : A -> bool) (l : list A) :
  Forall (fun x => P x = false) l -> Before P Q l.
Proof.
  intros H i j x y Hi _ HP _. exfalso.
  rewrite Forall_forall in H. apply nth_error_In in Hi. rewrite (H _ Hi) in HP.
  discriminate.
Qed.

Lemma before_none_Q {A} (P Q : A -> bool) (l : list A) :
  Forall (fun x => Q x = false) l -> Before P Q l.
Proof.
  intros H i j x y _ Hj _ HQ. exfalso.
  rewrite Forall_forall in H. apply nth_error_In in Hj. rewrite (H _ Hj) in HQ.
  discriminate.
Qed.

Lemma before_app_l {A} (P Q : A -> bool) (l1 l2 : list A) :
  Forall (fun x => Q x = false) l1 -> Before P Q l2 -> Before P Q (l1 ++ l2).
Proof.
  intros H1 H2 i j x y Hi Hj HP HQ.
  destruct (Nat.lt_ge_cases j (List.length l1)) as [Hlt | Hge].
  - exfalso. rewrite nth_error_app1 in Hj by exact Hlt.
    rewrite Forall_forall in H1. apply nth_error_In in Hj.
    rewrite (H1 _ Hj) in HQ. discriminate.
  - rewrite nth_error_app2 in Hj by exact Hge.
    destruct (Nat.lt_ge_cases i (List.length l1)) as [Hlt' | Hge']; [lia|].
    rewrite nth_error_app2 in Hi by exact Hge'.
    specialize (H2 _ _ _ _ Hi Hj HP HQ). lia.
Qed.

Lemma before_app_r {A} (P Q : A -> bool) (l1 l2 : list A) :
  Before P Q l1 -> Forall (fun x => P x = false) l2 -> Before P Q (l1 ++ l2).
Proof.
  intros H1 H2 i j x y Hi Hj HP HQ.
  destruct (Nat.lt_ge_cases i (List.length l1)) as [Hlt | Hge].
  - rewrite nth_error_app1 in Hi by exact Hlt.
    destruct (Nat.lt_ge_cases j (List.length l1)) as [Hlt' | Hge']; [|lia].
    rewrite nth_error_app1 in Hj by exact Hlt'.
    exact (H1 _ _ _ _ Hi Hj HP HQ).
  - exfalso. rewrite nth_error_app2 in Hi by exact Hge.
    rewrite Forall_forall in H2. apply nth_error_In in Hi.
    rewrite (H2 _ Hi) in HP. discriminate.
Qed.

Lemma Forall_annotate (R : recState -> Prop) (Q : recState * event -> Prop)
    (step_ok : forall g e, R g -> R (rec_step g e))
    (g : recState) (tr : list event) :
  R g ->
  (forall g' e, R g' -> In e tr -> Q (g', e)) ->
  Forall Q (annotate g tr).
Proof.
  revert g. induction tr as [|e tr IH]; intros g Hg HQ; cbn; constructor.
  - apply HQ; [exact Hg | left; reflexivity].
  - apply IH; [apply step_ok; exact Hg|]. intros g' e' Hg' Hin.
    apply HQ; [exact Hg' | right; exact Hin].
Qed.

(** No call that is not a vertex-array draw samples anything. *)
Lemma no_drawArrays_no_sample (S : SimScene) (eye : ovrEyeType) (g : recState)
    (tr : list event) :
  Forall (fun e => is_drawArrays e = false) tr ->
  Forall (fun x => samples_face_texture S eye x = false) (annotate g tr).
Proof.
  intros H. revert g. induction H as [|e tr He _ IH]; intros g; cbn; constructor.
  - unfold samples_face_texture. cbn [snd]. destruct e; try reflexivity. discriminate.
  - apply IH.
Qed.

(** While the framebuffer bound for drawing is not a face target, nothing
    is written into one. *)
Lemma keeps_target_no_write (S : SimScene) (eye : ovrEyeType) (g : recState)
    (tr : list event) :
  is_face_fbo S (draw_fbo g) = false ->
  Forall (fun e => keeps_target e = true) tr ->
  Forall (fun x => writes_face_target S eye x = false) (annotate g tr).
Proof.
  intros Hg H. pose proof (annotate_keeps g tr H) as Hk.
  rewrite Forall_forall in Hk |- *. intros x Hx.
  destruct (Hk x Hx) as [Hd _]. unfold writes_face_target.
  rewrite Hd, Hg. apply andb_false_r.
Qed.

(** While another eye is current, nothing is written or sampled for [eye]. *)
Lemma other_eye_nothing (S : SimScene) (eye : ovrEyeType) (g : recState)
    (tr : list event) :
  is_eye (cur_eye g) eye = false ->
  Forall (fun e => match e with call_currentEye _ => false | _ => true end = true) tr ->
  Forall (fun x => writes_face_target S eye x = false
                   /\ samples_face_texture S eye x = false) (annotate g tr).
Proof.
  intros Hg H. revert g Hg. induction H as [|e tr He _ IH]; intros g Hg; cbn; constructor.
  - unfold writes_face_target, samples_face_texture. cbn [fst snd]. rewrite Hg.
    split; [rewrite andb_false_r; reflexivity | destruct e; reflexivity].
  - apply IH. destruct e; try exact Hg; try discriminate.
    destruct target; exact Hg.
Qed.

End OrderFacts.

Section OrderTheorem.
Import Glm Ovr Gl OffAxis Scene App Recorder Aux.
Local Open Scope Z_scope.

Lemma nothing_no_write S eye l :
  Forall (nothing_for S eye) l -> Forall (fun x => writes_face_target S eye x = false) l.
Proof. apply Forall_impl. intros x [H _]. exact H. Qed.

Lemma nothing_no_sample S eye l :
  Forall (nothing_for S eye) l -> Forall (fun x => samples_face_texture S eye x = false) l.
Proof. apply Forall_impl. intros x [_ H]. exact H. Qed.

Lemma no_draw_nothing (S : SimScene) (eye : ovrEyeType) (g : recState) (tr : list event) :
  Forall (fun e => is_draw_or_clear e = false) tr ->
  Forall (nothing_for S eye) (annotate g tr).
Proof.
  intros H. revert g. induction H as [|e tr He _ IH]; intros g; cbn; constructor.
  - unfold nothing_for, writes_face_target, samples_face_texture. cbn [fst snd].
    rewrite He. split; [reflexivity|]. destruct e; try reflexivity. discriminate.
  - apply IH.
Qed.

Lemma face_fbo_not_target (S s : SimScene) (fbo : Z) :
  same_targets S s -> targets_distinct s fbo -> is_face_fbo S fbo = false.
Proof.
  intros (E1 & E2 & E3 & _) (_ & _ & _ & N1 & N2 & N3).
  unfold is_face_fbo. rewrite E1, E2, E3.
  apply Z.eqb_neq in N1, N2, N3. rewrite N1, N2, N3. reflexivity.
Qed.

Lemma keeps_target_not_currentEye (tr : list event) :
  Forall (fun e => keeps_target e = true) tr ->
  Forall (fun e => match e with call_currentEye _ => false | _ => true end = true) tr.
Proof. apply Forall_impl. intros e. destruct e; try reflexivity. intros H; exact H. Qed.

(** One iteration of the eye loop, as the observer sees it. *)
Lemma eye_trace_order (S : SimScene) (ep : PerEye ovrPosef) (eye : ovrEyeType)
    (a : SimApp) (g : recState) :
  same_targets S (simScene a) -> targets_distinct (simScene a) (_fbo a) ->
  draw_fbo g = _fbo a ->
  Before (writes_face_target S eye) (samples_face_texture S eye)
         (annotate g (eye_trace ep eye a)) /\
  (forall eye', eye_eqb eye eye' = false ->
     Forall (nothing_for S eye') (annotate g (eye_trace ep eye a))) /\
  draw_fbo (final g (eye_trace ep eye a)) = _fbo a /\
  cur_eye (final g (eye_trace ep eye a)) = Some eye.
Proof.
  intros Hsame Hdist Hg.
  pose proof (face_fbo_not_target _ _ _ Hsame Hdist) as Hnot.
  unfold eye_trace. cbv zeta.
  set (P := at_eye (_eyeProjections a) eye).
  set (vp := at_eye (Viewport a) eye).
  set (re := resolved_pose ep eye a).
  set (v := offscreen_view (toGlm re) (toGlm_vec (Position re)) (before_offscreen ep eye a)).
  set (s1 := set_curEyeIdx (eye_index eye) (simScene a)).
  set (pre := trace_of (preRender P (fst v) (_fbo a) vp (snd v) s1)).
  set (orig := toGlm_vec (Position (at_eye ep eye))).
  set (rend := trace_of (render P (inverse (toGlm (at_eye ep eye))) orig
                           (state_of (preRender P (fst v) (_fbo a) vp (snd v) s1)))).
  set (c1 := call_currentEye eye).
  set (c2 := Skybox_useCubemap the_skybox (eye_index eye)).
  set (c3 := glViewport (Pos_x vp) (Pos_y vp) (Size_w vp) (Size_h vp)).
  set (c4 := call_offscreenRender P (toGlm re) (_fbo a) vp (toGlm_vec (Position re))).
  set (crs := call_renderScene P (toGlm (at_eye ep eye)) orig).
  assert (Hpre_d : Forall (fun e => is_drawArrays e = false) pre)
    by apply preRender_no_drawArrays.
  assert (Hpre_e : Forall (fun e => match e with call_currentEye _ => false | _ => true end
                                    = true) pre)
    by apply preRender_no_currentEye.
  assert (Hrend : Forall (fun e => keeps_target e = true) rend)
    by apply render_keeps_target.
  assert (Hrest : Forall (fun e => keeps_target e = true) ([crs] ++ rend)).
  { apply Forall_app. split; [repeat constructor | exact Hrend]. }
  set (g1 := final g [c1; c2; c3; c4]).
  assert (Hg1 : draw_fbo g1 = _fbo a /\ cur_eye g1 = Some eye).
  { unfold g1, final. cbn. split; [exact Hg | reflexivity]. }
  set (g2 := final g1 pre).
  assert (Hg2 : draw_fbo g2 = _fbo a /\ cur_eye g2 = Some eye).
  { destruct (preRender_final P (fst v) (_fbo a) vp (snd v) s1 g1) as [H1 H2].
    fold pre in H1, H2. fold g2 in H1, H2. split; [exact H1|].
    rewrite H2. apply Hg1. }
  repeat apply conj.
  - rewrite !annotate_app. fold g1 g2.
    apply before_app_l.
    { apply no_drawArrays_no_sample. repeat constructor. }
    apply before_app_l.
    { apply no_drawArrays_no_sample. exact Hpre_d. }
    apply before_none_P. rewrite <- annotate_app.
    apply keeps_target_no_write; [|exact Hrest].
    destruct Hg2 as [-> _]. exact Hnot.
  - intros eye' Hne.
    change ([c1; c2; c3; c4] ++ pre ++ [crs] ++ rend)
      with (c1 :: ([c2; c3; c4] ++ pre ++ [crs] ++ rend)).
    change (annotate g (c1 :: ?t)) with ((g, c1) :: annotate (rec_step g c1) t).
    constructor.
    + unfold nothing_for, writes_face_target, samples_face_texture. cbn.
      split; reflexivity.
    + apply Forall_impl with
        (P := fun x => writes_face_target S eye' x = false
                       /\ samples_face_texture S eye' x = false); [intros x H; exact H|].
      apply other_eye_nothing.
      * cbn. exact Hne.
      * apply Forall_app. split; [repeat constructor|].
        apply Forall_app. split; [exact Hpre_e|].
        apply keeps_target_not_currentEye. exact Hrest.
  - rewrite (final_app g [c1; c2; c3; c4]). fold g1. rewrite (final_app g1 pre). fold g2.
    destruct (final_keeps g2 _ Hrest) as [H1 _]. rewrite H1. apply Hg2.
  - rewrite (final_app g [c1; c2; c3; c4]). fold g1. rewrite (final_app g1 pre). fold g2.
    destruct (final_keeps g2 _ Hrest) as [_ H2]. rewrite H2. apply Hg2.
Qed.

Lemma trace_zoom {S T A} (proj : T -> S) (inj : S -> T -> T) (m : Act S A) (t : T) :
  trace_of (zoom proj inj m t) = trace_of (m (proj t)).
Proof. unfold zoom, trace_of. destruct (m (proj t)) as [[a s] tr]. reflexivity. Qed.

Lemma render_trace_split P mv e s :
  exists rest,
    trace_of (render P mv e s)
    = [call_render P mv e; glUseProgram (skyboxShaderProgram s);
       Skybox_draw the_riftskybox (skyboxShaderProgram s) P mv;
       glUseProgram (cubeShaderProgram s)]
      ++ trace_of (Cave_draw (cubeShaderProgram s) P mv (lrenderedTexture s)
                     (rrenderedTexture s) (brenderedTexture s) (cave s))
      ++ rest.
Proof.
  unfold render.
  do 6 (rewrite trace_bind; cbv beta).
  cbn [trace_of state_of result_of emit get fst snd app].
  unfold on_cave. rewrite trace_zoom.
  eexists. reflexivity.
Qed.

Lemma cave_draw_samples (S : SimScene) (eye : ovrEyeType) (g : recState)
    (prog : Z) (P V : mat4) (l r b : Z) (c : Cave) :
  cur_eye g = Some eye -> is_face_texture S l = true ->
  existsb (samples_face_texture S eye) (annotate g (trace_of (Cave_draw prog P V l r b c)))
  = true.
Proof.
  intros Hg Hl. cbn -[is_face_texture]. unfold samples_face_texture. cbn -[is_face_texture].
  rewrite Hg, Hl. destruct eye; reflexivity.
Qed.


Lemma preRender_writes (S : SimScene) (eye : ovrEyeType) (g : recState)
    (P mv : mat4) (f : Z) (vp : ovrRecti) (e : vec3) (s : SimScene) :
  cur_eye g = Some eye -> same_targets S s ->
  existsb (writes_face_target S eye) (annotate g (trace_of (preRender P mv f vp e s)))
  = true.
Proof.
  intros Hg (E1 & _). unfold preRender.
  do 6 (rewrite trace_bind; cbv beta).
  cbn [trace_of state_of result_of emit get fst snd app].
  cbn [annotate existsb]. unfold writes_face_target at 5.
  cbn [fst snd is_draw_or_clear rec_step draw_fbo cur_eye andb].
  rewrite Hg. unfold is_face_fbo. rewrite E1, Z.eqb_refl.
  destruct eye; cbn; rewrite ?orb_true_r; reflexivity.
Qed.

Lemma existsb_annotate_app (q : recState * event -> bool) (g : recState)
    (t1 t2 : list event) :
  existsb q (annotate g (t1 ++ t2))
  = existsb q (annotate g t1) || existsb q (annotate (final g t1) t2).
Proof. rewrite annotate_app. apply existsb_app. Qed.

(** One iteration of the eye loop writes into a face target and samples a
    face texture. *)
Lemma eye_trace_nonempty (S : SimScene) (ep : PerEye ovrPosef) (eye : ovrEyeType)
    (a : SimApp) (g : recState) :
  same_targets S (simScene a) ->
  existsb (writes_face_target S eye) (annotate g (eye_trace ep eye a)) = true /\
  existsb (samples_face_texture S eye) (annotate g (eye_trace ep eye a)) = true.
Proof.
  intros Hsame. unfold eye_trace. cbv zeta.
  set (P := at_eye (_eyeProjections a) eye).
  set (vp := at_eye (Viewport a) eye).
  set (re := resolved_pose ep eye a).
  set (v := offscreen_view (toGlm re) (toGlm_vec (Position re)) (before_offscreen ep eye a)).
  set (s1 := set_curEyeIdx (eye_index eye) (simScene a)).
  set (r1 := preRender P (fst v) (_fbo a) vp (snd v) s1).
  set (orig := toGlm_vec (Position (at_eye ep eye))).
  set (four := [call_currentEye eye; Skybox_useCubemap the_skybox (eye_index eye);
                glViewport (Pos_x vp) (Pos_y vp) (Size_w vp) (Size_h vp);
                call_offscreenRender P (toGlm re) (_fbo a) vp (toGlm_vec (Position re))]).
  assert (Hg1 : cur_eye (final g four) = Some eye) by reflexivity.
  assert (Hg2 : cur_eye (final (final g four) (trace_of r1)) = Some eye).
  { destruct (preRender_final P (fst v) (_fbo a) vp (snd v) s1 (final g four)) as [_ H].
    fold r1 in H. rewrite H. exact Hg1. }
  split.
  - rewrite existsb_annotate_app, existsb_annotate_app.
    pose proof (preRender_writes S eye (final g four) P (fst v) (_fbo a) vp (snd v) s1
                  Hg1 Hsame) as Hw.
    fold r1 in Hw. rewrite Hw.
    rewrite orb_true_l, orb_true_r. reflexivity.
  - rewrite existsb_annotate_app, existsb_annotate_app, existsb_annotate_app.
    destruct (render_trace_split P (inverse (toGlm (at_eye ep eye))) orig (state_of r1))
      as [rest ->].
    rewrite existsb_annotate_app, existsb_annotate_app.
    set (g3 := final (final (final (final g four) (trace_of r1))
                  [call_renderScene P (toGlm (at_eye ep eye)) orig]) _).
    assert (Hg3 : cur_eye g3 = Some eye) by (unfold g3, final; cbn; exact Hg2).
    rewrite (cave_draw_samples S eye g3 _ _ _ _ _ _ _ Hg3).
    + rewrite orb_true_l, !orb_true_r. reflexivity.
    + destruct (preRender_state P (fst v) (_fbo a) vp (snd v) s1) as [L HL].
      fold r1 in HL. rewrite HL.
      destruct (reroll_config s1) as (Hc & _). apply scene_config_inv in Hc.
      destruct Hc as (_ & _ & _ & Ht & _).
      destruct Hsame as (_ & _ & _ & E4 & _).
      change (lrenderedTexture (set_lines L (reroll s1))) with (lrenderedTexture (reroll s1)).
      rewrite Ht. unfold is_face_texture. rewrite E4.
      change (lrenderedTexture s1) with (lrenderedTexture (simScene a)).
      rewrite Z.eqb_refl. reflexivity.
Qed.


Lemma updated_scene_config (inp : FrameInput) (a : SimApp) :
  scene_config (simScene (updated inp a)) = scene_config (simScene a).
Proof.
  rewrite updated_closed. unfold updated_scene.
  destruct (inputState inp) as [i|]; [|reflexivity].
  destruct (update_cube_fields i (update_buttons i (simScene a))) as (_ & Hc & _).
  destruct (update_buttons_fields i (simScene a)) as (_ & _ & _ & _ & _ & _ & B7 & _).
  cbv zeta in B7.
  change (scene_config (update_cube i (update_buttons i (simScene a)))
          = scene_config (simScene a)).
  rewrite Hc. exact B7.
Qed.

Lemma targets_preserved (a1 a2 : SimApp) :
  config a1 = config a2 -> scene_config (simScene a1) = scene_config (simScene a2) ->
  targets_distinct (simScene a2) (_fbo a2) ->
  same_targets (simScene a2) (simScene a1) /\ targets_distinct (simScene a1) (_fbo a1)
  /\ _fbo a1 = _fbo a2.
Proof.
  intros Hc Hs Hd. apply config_inv in Hc. destruct Hc as (Hf & _).
  apply scene_config_inv in Hs. destruct Hs as (E1 & E2 & E3 & E4 & E5 & E6 & _).
  unfold same_targets, targets_distinct in *. rewrite Hf, E1, E2, E3, E4, E5, E6.
  repeat apply conj; try reflexivity; apply Hd.
Qed.

Lemma draw_head_nothing (S : SimScene) (eye : ovrEyeType) (inp : FrameInput)
    (a : SimApp) (g : recState) :
  is_face_fbo S (_fbo a) = false ->
  Forall (nothing_for S eye) (annotate g (draw_head inp a)) /\
  draw_fbo (final g (draw_head inp a)) = _fbo a.
Proof.
  intros Hnot. unfold draw_head, final. cbn [annotate fold_left rec_step draw_fbo].
  split; [|reflexivity].
  repeat constructor; unfold writes_face_target, samples_face_texture;
    cbn [fst snd is_draw_or_clear andb draw_fbo]; try reflexivity.
  rewrite Hnot. apply andb_false_r.
Qed.

Lemma draw_tail_nothing (S : SimScene) (eye : ovrEyeType) (inp : FrameInput)
    (a : SimApp) (g : recState) :
  Forall (nothing_for S eye) (annotate g (draw_tail inp a)).
Proof. apply no_draw_nothing. unfold draw_tail. repeat constructor. Qed.

(** The annotated trace of a frame, segment by segment. *)
Lemma frame_order (inp : FrameInput) (a : SimApp) (g0 : recState) (eye : ovrEyeType) :
  targets_distinct (simScene a) (_fbo a) ->
  let S := simScene a in
  let ann := annotate g0 (trace_of (frame inp a)) in
  Before (writes_face_target S eye) (samples_face_texture S eye) ann /\
  existsb (writes_face_target S eye) ann = true /\
  existsb (samples_face_texture S eye) ann = true.
Proof.
  intros Hd. cbv zeta. rewrite frame_trace. cbv zeta.
  set (S := simScene a). set (a0 := updated inp a). set (ep := eyePoses inp).
  set (aL := state_of (draw_eye ep ovrEye_Left a0)).
  destruct (updated_config inp a) as (C0 & _). fold a0 in C0.
  pose proof (updated_scene_config inp a) as S0. fold a0 in S0.
  destruct (targets_preserved a0 a C0 S0 Hd) as (T0 & D0 & F0). fold S in T0.
  destruct (draw_eye_config ep ovrEye_Left a0) as (CL & SL & _). fold aL in CL, SL.
  assert (CL' : config aL = config a) by (rewrite CL; exact C0).
  assert (SL' : scene_config (simScene aL) = scene_config (simScene a))
    by (rewrite SL; exact S0).
  destruct (targets_preserved aL a CL' SL' Hd) as (TL & DL & FL). fold S in TL.
  assert (Hnot : is_face_fbo S (_fbo a0) = false)
    by (apply (face_fbo_not_target S (simScene a0)); assumption).
  set (head := draw_head inp a0). set (tail := draw_tail inp a0).
  set (tL := eye_trace ep ovrEye_Left a0). set (tR := eye_trace ep ovrEye_Right aL).
  rewrite (annotate_app g0 head). set (gh := final g0 head).
  rewrite (annotate_app gh tL). set (gL := final gh tL).
  rewrite (annotate_app gL tR). set (gR := final gL tR).
  assert (Hgh : draw_fbo gh = _fbo a0) by apply (draw_head_nothing S eye inp a0 g0 Hnot).
  destruct (eye_trace_order S ep ovrEye_Left a0 gh T0 D0 Hgh) as (BL & NL & FgL & _).
  fold tL in BL, NL, FgL. fold gL in FgL.
  assert (HgL : draw_fbo gL = _fbo aL) by (rewrite FgL, FL, F0; reflexivity).
  destruct (eye_trace_order S ep ovrEye_Right aL gL TL DL HgL) as (BR & NR & _).
  fold tR in BR, NR.
  destruct (eye_trace_nonempty S ep ovrEye_Left a0 gh T0) as (WL & XL). fold tL in WL, XL.
  destruct (eye_trace_nonempty S ep ovrEye_Right aL gL TL) as (WR & XR). fold tR in WR, XR.
  pose proof (proj1 (draw_head_nothing S eye inp a0 g0 Hnot)) as Hhead. fold head in Hhead.
  pose proof (draw_tail_nothing S eye inp a0 gR) as Htail. fold tail in Htail.
  destruct eye.
  - repeat apply conj.
    + apply before_app_l; [apply nothing_no_sample; exact Hhead|].
      apply before_app_r; [exact BL|].
      apply Forall_app. split; apply nothing_no_write; [apply NR; reflexivity | exact Htail].
    + rewrite !existsb_app, WL, orb_true_l, orb_true_r. reflexivity.
    + rewrite !existsb_app, XL, orb_true_l, orb_true_r. reflexivity.
  - repeat apply conj.
    + apply before_app_l; [apply nothing_no_sample; exact Hhead|].
      apply before_app_l; [apply nothing_no_sample; apply NL; reflexivity|].
      apply before_app_r; [exact BR|].
      apply nothing_no_write; exact Htail.
    + rewrite !existsb_app, WR, orb_true_l, !orb_true_r. reflexivity.
    + rewrite !existsb_app, XR, orb_true_l, !orb_true_r. reflexivity.
Qed.


Lemma existsb_nth {A} (q : A -> bool) (l : list A) :
  existsb q l = true -> exists i x, nth_error l i = Some x /\ q x = true.
Proof.
  intros H. apply existsb_exists in H. destruct H as (x & Hin & Hq).
  apply In_nth_error in Hin. destruct Hin as [i Hi]. exists i, x. split; assumption.
Qed.

(** C6.  In the sequence of calls a frame records, for each eye, every clear
    and draw that writes into one of the three face render targets while
    that eye is current comes strictly before every vertex-array draw that
    samples one of the three face textures while that eye is current; and
    both kinds of call occur. *)
Theorem render_targets_written_before_sampled
    (inp : FrameInput) (a : SimApp) (g0 : recState) (eye : ovrEyeType) :
  targets_distinct (simScene a) (_fbo a) ->
  let S := simScene a in
  let ann := annotate g0 (trace_of (frame inp a)) in
  (forall i j x y,
     nth_error ann i = Some x -> nth_error ann j = Some y ->
     writes_face_target S eye x = true -> samples_face_texture S eye y = true ->
     (i < j)%nat) /\
  (exists i x, nth_error ann i = Some x /\ writes_face_target S eye x = true) /\
  (exists j y, nth_error ann j = Some y /\ samples_face_texture S eye y = true).
Proof.
  intros Hd. destruct (frame_order inp a g0 eye Hd) as (HB & HW & HS).
  cbv zeta in *. repeat apply conj.
  - exact HB.
  - apply existsb_nth. exact HW.
  - apply existsb_nth. exact HS.
Qed.


Lemma ex_targets_distinct : targets_distinct (simScene Examples.ex_app) (_fbo Examples.ex_app).
Proof. unfold targets_distinct. cbn. repeat apply conj; discriminate. Qed.

Lemma render_targets_order_witness :
  targets_distinct (simScene Examples.ex_app) (_fbo Examples.ex_app) /\
  (forall i j x y,
     nth_error (annotate Examples.ex_rec (trace_of (frame Examples.ex_f2 Examples.ex_app))) i
       = Some x ->
     nth_error (annotate Examples.ex_rec (trace_of (frame Examples.ex_f2 Examples.ex_app))) j
       = Some y ->
     writes_face_target (simScene Examples.ex_app) ovrEye_Left x = true ->
     samples_face_texture (simScene Examples.ex_app) ovrEye_Left y = true ->
     (i < j)%nat).
Proof.
  split; [exact ex_targets_distinct|].
  exact (proj1 (render_targets_written_before_sampled Examples.ex_f2 Examples.ex_app
                  Examples.ex_rec ovrEye_Left ex_targets_distinct)).
Defined.

End OrderTheorem.

Section ComboFacts.
Import Glm Ovr Gl OffAxis Scene App Recorder Aux.
Local Open Scope Z_scope.

Lemma existsb_pointwise {A} (q1 q2 : A -> bool) (l : list A) :
  (forall x, q1 x = q2 x) -> existsb q1 l = existsb q2 l.
Proof. intros H. induction l as [|x l IH]; cbn; [reflexivity|]. rewrite H, IH. reflexivity. Qed.

Lemma face_fbo_same (S1 S2 : SimScene) (fc : face) :
  same_targets S1 S2 -> face_fbo S1 fc = face_fbo S2 fc.
Proof. intros (E1 & E2 & E3 & _). destruct fc; assumption. Qed.

Lemma skybox_at_same (S1 S2 : SimScene) (eye : ovrEyeType) (fc : face) x :
  same_targets S1 S2 -> is_skybox_draw_at S1 eye fc x = is_skybox_draw_at S2 eye fc x.
Proof.
  intros H. unfold is_skybox_draw_at. rewrite (face_fbo_same _ _ fc H). reflexivity.
Qed.

Lemma cube_at_same (S1 S2 : SimScene) (eye : ovrEyeType) (fc : face) x :
  same_targets S1 S2 -> is_cube_draw_at S1 eye fc x = is_cube_draw_at S2 eye fc x.
Proof.
  intros H. unfold is_cube_draw_at. rewrite (face_fbo_same _ _ fc H). reflexivity.
Qed.

Lemma render_no_scene_draws (S : SimScene) (eye : ovrEyeType) (fc : face)
    (P mv : mat4) (e : vec3) (s : SimScene) (g : recState) :
  existsb (is_skybox_draw_at S eye fc) (annotate g (trace_of (render P mv e s))) = false /\
  existsb (is_cube_draw_at S eye fc) (annotate g (trace_of (render P mv e s))) = false.
Proof.
  pose proof (render_no_scene_draw P mv e S eye fc s) as H.
  split; apply existsb_false_of_Forall.
  - revert g. induction H as [|ev tr He _ IH]; intros g; cbn; constructor;
      [apply He | apply IH].
  - revert g. induction H as [|ev tr He _ IH]; intros g; cbn; constructor;
      [apply He | apply IH].
Qed.

(** Which faces one iteration of the eye loop draws the scene into. *)
Lemma eye_trace_draws (S : SimScene) (ep : PerEye ovrPosef) (eye eye' : ovrEyeType)
    (fc : face) (a : SimApp) (g : recState) :
  same_targets S (simScene a) -> targets_distinct (simScene a) (_fbo a) ->
  let s1 := set_curEyeIdx (eye_index eye) (simScene a) in
  existsb (is_skybox_draw_at S eye' fc) (annotate g (eye_trace ep eye a))
  = eye_eqb eye eye' && face_guard (reroll s1) fc /\
  existsb (is_cube_draw_at S eye' fc) (annotate g (eye_trace ep eye a))
  = eye_eqb eye eye' && face_guard (reroll s1) fc.
Proof.
  intros Hsame Hdist. cbv zeta. unfold eye_trace. cbv zeta.
  set (P := at_eye (_eyeProjections a) eye).
  set (vp := at_eye (Viewport a) eye).
  set (re := resolved_pose ep eye a).
  set (v := offscreen_view (toGlm re) (toGlm_vec (Position re)) (before_offscreen ep eye a)).
  set (s1 := set_curEyeIdx (eye_index eye) (simScene a)).
  set (orig := toGlm_vec (Position (at_eye ep eye))).
  set (four := [call_currentEye eye; Skybox_useCubemap the_skybox (eye_index eye);
                glViewport (Pos_x vp) (Pos_y vp) (Size_w vp) (Size_h vp);
                call_offscreenRender P (toGlm re) (_fbo a) vp (toGlm_vec (Position re))]).
  assert (Hg1 : cur_eye (final g four) = Some eye) by reflexivity.
  assert (Hsame1 : same_targets S s1) by exact Hsame.
  assert (Hdist1 : targets_distinct s1 (_fbo a)) by exact Hdist.
  pose proof (preRender_skybox P (fst v) (_fbo a) vp (snd v) s1 (final g four) eye' fc Hdist1)
    as Hsky.
  pose proof (preRender_cube P (fst v) (_fbo a) vp (snd v) s1 (final g four) eye' fc Hdist1)
    as Hcube.
  rewrite Hg1 in Hsky, Hcube. cbn [is_eye] in Hsky, Hcube.
  split.
  - rewrite !existsb_annotate_app.
    rewrite <- (existsb_pointwise _ _ _ (fun x => skybox_at_same S s1 eye' fc x Hsame1)) in Hsky.
    rewrite Hsky.
    rewrite (proj1 (render_no_scene_draws S eye' fc _ _ _ _ _)).
    cbn. rewrite !orb_false_r. reflexivity.
  - rewrite !existsb_annotate_app.
    rewrite <- (existsb_pointwise _ _ _ (fun x => cube_at_same S s1 eye' fc x Hsame1)) in Hcube.
    rewrite Hcube.
    rewrite (proj2 (render_no_scene_draws S eye' fc _ _ _ _ _)).
    cbn. rewrite !orb_false_r. reflexivity.
Qed.


(** The re-roll of [preRender], member by member. *)
Lemma reroll_fields (s : SimScene) :
  buttonX (reroll s) = buttonX s /\
  random_num (reroll s)
  = (if (buttonX s =? 1) && negb (randomGened s)
     then Z.rem (rand_stream s (rand_calls s)) 6 else random_num s) /\
  rand_calls (reroll s)
  = (if (buttonX s =? 1) && negb (randomGened s)
     then Datatypes.S (rand_calls s) else rand_calls s) /\
  randomGened (reroll s) = ((buttonX s =? 1) || randomGened s)%bool.
Proof.
  destruct s. unfold reroll. cbn [buttonX randomGened].
  destruct (buttonX0 =? 1), randomGened0; repeat apply conj; reflexivity.
Qed.

(** The second eye's [preRender] never draws a number again: the first one
    has left [randomGened] set whenever the mode is on. *)
Lemma reroll_second (i j : Z) (L : lineId -> Line) (s : SimScene) :
  reroll (set_curEyeIdx i (set_lines L (reroll (set_curEyeIdx j s))))
  = set_curEyeIdx i (set_lines L (reroll (set_curEyeIdx j s))).
Proof.
  destruct s. unfold reroll.
  cbn [buttonX randomGened set_curEyeIdx set_lines].
  destruct (buttonX0 =? 1) eqn:E, randomGened0; cbn [andb negb];
    cbn [buttonX randomGened set_curEyeIdx set_lines set_randomGened set_random_num
         set_rand_calls]; rewrite ?E; reflexivity.
Qed.

Lemma reroll_curEyeIdx (j : Z) (s : SimScene) :
  buttonX (reroll (set_curEyeIdx j s)) = buttonX s /\
  random_num (reroll (set_curEyeIdx j s)) = random_num (reroll s) /\
  rand_calls (reroll (set_curEyeIdx j s)) = rand_calls (reroll s) /\
  randomGened (reroll (set_curEyeIdx j s)) = randomGened (reroll s) /\
  curEyeIdx (reroll (set_curEyeIdx j s)) = j.
Proof.
  destruct s. unfold reroll. cbn [buttonX randomGened set_curEyeIdx].
  destruct ((buttonX0 =? 1) && negb randomGened0); repeat apply conj; reflexivity.
Qed.

Lemma face_guard_first (eye : ovrEyeType) (fc : face) (s : SimScene) :
  face_guard (reroll (set_curEyeIdx (eye_index eye) s)) fc
  = (buttonX s =? 0) || negb (combo_index eye fc =? random_num (reroll s)).
Proof.
  unfold face_guard, combo_index.
  destruct (reroll_curEyeIdx (eye_index eye) s) as (E1 & E2 & _ & _ & E5).
  rewrite E1, E2, E5. reflexivity.
Qed.

Lemma face_guard_second (eye : ovrEyeType) (fc : face) (j : Z) (L : lineId -> Line)
    (s : SimScene) :
  face_guard
    (reroll (set_curEyeIdx (eye_index eye) (set_lines L (reroll (set_curEyeIdx j s))))) fc
  = (buttonX s =? 0) || negb (combo_index eye fc =? random_num (reroll s)).
Proof.
  rewrite reroll_second. unfold face_guard, combo_index.
  destruct (reroll_curEyeIdx j s) as (E1 & E2 & _).
  change (buttonX (set_curEyeIdx ?i (set_lines ?l ?t))) with (buttonX t).
  change (random_num (set_curEyeIdx ?i (set_lines ?l ?t))) with (random_num t).
  change (curEyeIdx (set_curEyeIdx ?i ?t)) with i.
  rewrite E1, E2. reflexivity.
Qed.

Lemma eye_eqb_cases (eye : ovrEyeType) (b : bool) :
  (eye_eqb ovrEye_Left eye && b) || (eye_eqb ovrEye_Right eye && b) = b.
Proof. destruct eye, b; reflexivity. Qed.

End ComboFacts.

Section ComboFrame.
Import Glm Ovr Gl OffAxis Scene App Recorder Aux.
Local Open Scope Z_scope.

Lemma simScene_after_eye (ep : PerEye ovrPosef) (eye : ovrEyeType) (a : SimApp) :
  exists L,
    simScene (state_of (draw_eye ep eye a))
    = set_lines L (reroll (set_curEyeIdx (eye_index eye) (simScene a))).
Proof.
  destruct (draw_eye_state ep eye a) as [L HL]. exists L. rewrite HL.
  apply set_simScene_fields.
Qed.

(** The scene a frame leaves, as far as the occlusion mode goes. *)
Lemma frame_random (inp : FrameInput) (a : SimApp) :
  let s0 := simScene (updated inp a) in
  let s' := simScene (state_of (frame inp a)) in
  buttonX s' = buttonX s0 /\ random_num s' = random_num (reroll s0) /\
  rand_calls s' = rand_calls (reroll s0) /\ randomGened s' = randomGened (reroll s0).
Proof.
  cbv zeta. rewrite frame_state. cbv zeta.
  set (a0 := updated inp a). set (ep := eyePoses inp).
  set (aL := state_of (draw_eye ep ovrEye_Left a0)).
  destruct (simScene_after_eye ep ovrEye_Right aL) as [LR HR]. rewrite HR.
  destruct (simScene_after_eye ep ovrEye_Left a0) as [LL HL]. fold aL in HL. rewrite HL.
  rewrite reroll_second.
  destruct (reroll_curEyeIdx (eye_index ovrEye_Left) (simScene a0)) as (E1 & E2 & E3 & E4 & _).
  change (buttonX (set_lines ?l (set_curEyeIdx ?i (set_lines ?l' ?t)))) with (buttonX t).
  change (random_num (set_lines ?l (set_curEyeIdx ?i (set_lines ?l' ?t))))
    with (random_num t).
  change (rand_calls (set_lines ?l (set_curEyeIdx ?i (set_lines ?l' ?t))))
    with (rand_calls t).
  change (randomGened (set_lines ?l (set_curEyeIdx ?i (set_lines ?l' ?t))))
    with (randomGened t).
  rewrite E1, E2, E3, E4. repeat apply conj; reflexivity.
Qed.

(** Which face/eye combinations a frame draws its scene into. *)
Lemma frame_draws (inp : FrameInput) (a : SimApp) (g0 : recState)
    (eye : ovrEyeType) (fc : face) :
  targets_distinct (simScene a) (_fbo a) ->
  let S := simScene a in
  let s0 := simScene (updated inp a) in
  let ann := annotate g0 (trace_of (frame inp a)) in
  skybox_drawn S ann eye fc
  = (buttonX s0 =? 0) || negb (combo_index eye fc =? random_num (reroll s0)) /\
  cube_drawn S ann eye fc
  = (buttonX s0 =? 0) || negb (combo_index eye fc =? random_num (reroll s0)).
Proof.
  intros Hd. cbv zeta. unfold skybox_drawn, cube_drawn. rewrite frame_trace. cbv zeta.
  set (S := simScene a). set (a0 := updated inp a). set (ep := eyePoses inp).
  set (aL := state_of (draw_eye ep ovrEye_Left a0)).
  destruct (updated_config inp a) as (C0 & _). fold a0 in C0.
  pose proof (updated_scene_config inp a) as S0. fold a0 in S0.
  destruct (targets_preserved a0 a C0 S0 Hd) as (T0 & D0 & F0). fold S in T0.
  destruct (draw_eye_config ep ovrEye_Left a0) as (CL & SL & _). fold aL in CL, SL.
  assert (CL' : config aL = config a) by (rewrite CL; exact C0).
  assert (SL' : scene_config (simScene aL) = scene_config (simScene a))
    by (rewrite SL; exact S0).
  destruct (targets_preserved aL a CL' SL' Hd) as (TL & DL & FL). fold S in TL.
  set (head := draw_head inp a0). set (tail := draw_tail inp a0).
  rewrite (annotate_app g0 head). set (gh := final g0 head).
  rewrite (annotate_app gh (eye_trace ep ovrEye_Left a0)).
  set (gL := final gh (eye_trace ep ovrEye_Left a0)).
  rewrite (annotate_app gL (eye_trace ep ovrEye_Right aL)).
  set (gR := final gL (eye_trace ep ovrEye_Right aL)).
  rewrite !existsb_app.
  destruct (eye_trace_draws S ep ovrEye_Left eye fc a0 gh T0 D0) as (KL & CLb).
  destruct (eye_trace_draws S ep ovrEye_Right eye fc aL gL TL DL) as (KR & CRb).
  cbv zeta in KL, CLb, KR, CRb.
  destruct (simScene_after_eye ep ovrEye_Left a0) as [LL HL]. fold aL in HL.
  rewrite HL in KR, CRb.
  rewrite face_guard_first in KL, CLb. rewrite face_guard_second in KR, CRb.
  rewrite KL, CLb, KR, CRb.
  assert (Hh1 : existsb (is_skybox_draw_at S eye fc) (annotate g0 head) = false)
    by reflexivity.
  assert (Hh2 : existsb (is_cube_draw_at S eye fc) (annotate g0 head) = false)
    by reflexivity.
  assert (Ht1 : existsb (is_skybox_draw_at S eye fc) (annotate gR tail) = false)
    by reflexivity.
  assert (Ht2 : existsb (is_cube_draw_at S eye fc) (annotate gR tail) = false)
    by reflexivity.
  rewrite Hh1, Hh2, Ht1, Ht2. cbn [orb].
  set (b := (buttonX (simScene a0) =? 0)
            || negb (combo_index eye fc =? random_num (reroll (simScene a0)))).
  rewrite orb_false_r.
  destruct eye; cbn [eye_eqb andb orb]; rewrite ?orb_false_r; split; reflexivity.
Qed.

End ComboFrame.

Section ComboTheorem.
Import Glm Ovr Gl OffAxis Scene App Recorder Aux.
Local Open Scope Z_scope.

(** What [update] does to the members of the occlusion mode. *)
Lemma updated_mode (inp : FrameInput) (a : SimApp) :
  let s := simScene a in
  let s0 := simScene (updated inp a) in
  random_num s0 = random_num s /\ rand_calls s0 = rand_calls s /\
  rand_stream s0 = rand_stream s /\
  buttonX s0 = match inputState inp with
               | Some i => if button_down i ovrButton_X then buttonX s
                           else if buttonXPressed s then Z.rem (buttonX s + 1) 2
                           else buttonX s
               | None => buttonX s
               end /\
  randomGened s0 = match inputState inp with
                   | Some i => if button_down i ovrButton_X then randomGened s
                               else if buttonXPressed s then false else randomGened s
                   | None => randomGened s
                   end.
Proof.
  cbv zeta. pose proof (updated_scene_config inp a) as Hc.
  apply scene_config_inv in Hc. destruct Hc as (_ & _ & _ & _ & _ & _ & Hr).
  destruct (inputState inp) as [i|] eqn:Hi.
  - destruct (updated_scene_some inp i a Hi) as (_ & _ & B3 & _ & B5 & _ & _ & B8 & B9 & _).
    cbv zeta in B3, B5, B8, B9. repeat apply conj; assumption.
  - rewrite updated_closed in *. unfold updated_scene in *. rewrite Hi in *.
    repeat apply conj; first [reflexivity | exact Hr].
Qed.

Lemma rem2_toggle (x : Z) : x = 0 \/ x = 1 -> Z.rem (x + 1) 2 = 0 \/ Z.rem (x + 1) 2 = 1.
Proof. intros [-> | ->]; [right | left]; reflexivity. Qed.

Lemma rem6_range (x : Z) : 0 <= x -> 0 <= Z.rem x 6 < 6.
Proof. intros H. apply Z.rem_bound_pos; lia. Qed.

(** The invariant of the scene survives a frame. *)
Lemma frame_scene_inv (inp : FrameInput) (a : SimApp) :
  scene_inv (simScene a) -> scene_inv (simScene (state_of (frame inp a))).
Proof.
  intros (Hx & Hk & Hr).
  destruct (frame_random inp a) as (E1 & E2 & _). cbv zeta in E1, E2.
  destruct (updated_mode inp a) as (M1 & M2 & M3 & M4 & _). cbv zeta in M1, M2, M3, M4.
  destruct (frame_scene inp a) as (_ & Hc & _).
  apply scene_config_inv in Hc. destruct Hc as (_ & _ & _ & _ & _ & _ & Hs).
  unfold scene_inv. rewrite E1, E2, Hs.
  destruct (reroll_fields (simScene (updated inp a))) as (_ & R2 & _).
  rewrite R2, M1, M2, M3, M4. repeat apply conj.
  - destruct (inputState inp) as [i|]; [|exact Hx].
    destruct (button_down i ovrButton_X); [exact Hx|].
    destruct (buttonXPressed (simScene a)); [apply rem2_toggle|]; exact Hx.
  - match goal with |- context [if ?c then _ else _] => destruct c end;
      [apply rem6_range; apply Hr | apply Hk].
  - match goal with |- context [if ?c then _ else _] => destruct c end;
      [apply rem6_range; apply Hr | apply Hk].
  - exact Hr.
Qed.

Lemma combo_of_index (k : Z) :
  0 <= k < 6 -> exists eye f, combo_index eye f = k.
Proof.
  intros Hk.
  assert (C : k = 0 \/ k = 1 \/ k = 2 \/ k = 3 \/ k = 4 \/ k = 5) by lia.
  destruct C as [-> | [-> | [-> | [-> | [-> | ->]]]]].
  - exists ovrEye_Left, face_left. reflexivity.
  - exists ovrEye_Left, face_right. reflexivity.
  - exists ovrEye_Left, face_bottom. reflexivity.
  - exists ovrEye_Right, face_left. reflexivity.
  - exists ovrEye_Right, face_right. reflexivity.
  - exists ovrEye_Right, face_bottom. reflexivity.
Qed.

Lemma combo_index_inj (e1 e2 : ovrEyeType) (f1 f2 : face) :
  combo_index e1 f1 = combo_index e2 f2 -> (e1, f1) = (e2, f2).
Proof. destruct e1, e2, f1, f2; cbn; intros H; try reflexivity; discriminate H. Qed.

(** C5.  In the calls a frame records, with the occlusion mode as the frame
    leaves it (the value its draws were guarded by): when [buttonX] is 1,
    exactly one of the six face/eye combinations, the one whose index
    [curEyeIdx * 3 + faceIdx] is [random_num], a number among 0..5, has
    neither its skybox nor its cube drawn into its render target, and the
    other five have both; when [buttonX] is 0 all six have both.  A frame in
    which the release of X switches the mode on takes [random_num] from the
    next call of the generator, modulo 6; while the mode stays on the number
    is kept. *)
Theorem occlusion_challenge (inp : FrameInput) (a : SimApp) (g0 : recState) :
  targets_distinct (simScene a) (_fbo a) -> scene_inv (simScene a) ->
  let S := simScene a in
  let ann := annotate g0 (trace_of (frame inp a)) in
  let s' := simScene (state_of (frame inp a)) in
  let drawn eye f := skybox_drawn S ann eye f && cube_drawn S ann eye f in
  let skipped eye f := negb (skybox_drawn S ann eye f) && negb (cube_drawn S ann eye f) in
  buttonX s' = buttonX (simScene (updated inp a)) /\
  0 <= random_num s' < 6 /\
  (buttonX s' = 1 ->
   randomGened s' = true /\
   exists eye f,
     combo_index eye f = random_num s' /\ skipped eye f = true /\
     forall eye' f', (eye', f') <> (eye, f) -> drawn eye' f' = true) /\
  (buttonX s' = 0 -> forall eye f, drawn eye f = true) /\
  (forall i, inputState inp = Some i -> button_down i ovrButton_X = false ->
     buttonXPressed S = true -> buttonX S = 0 ->
     buttonX s' = 1 /\
     random_num s' = Z.rem (rand_stream S (rand_calls S)) 6 /\
     rand_calls s' = Datatypes.S (rand_calls S)) /\
  (buttonX S = 1 -> randomGened S = true -> buttonX s' = 1 ->
     random_num s' = random_num S /\ rand_calls s' = rand_calls S).
Proof.
  intros Hd Hinv. cbv zeta.
  pose proof (frame_scene_inv inp a Hinv) as (_ & Hk' & _).
  destruct (frame_random inp a) as (E1 & E2 & E3 & E4). cbv zeta in E1, E2, E3, E4.
  destruct (updated_mode inp a) as (M1 & M2 & M3 & M4 & M5).
  cbv zeta in M1, M2, M3, M4, M5.
  destruct (reroll_fields (simScene (updated inp a))) as (_ & R2 & R3 & R4).
  set (s0 := simScene (updated inp a)) in *.
  set (s' := simScene (state_of (frame inp a))) in *.
  assert (Hdraw : forall eye f,
            skybox_drawn (simScene a) (annotate g0 (trace_of (frame inp a))) eye f
            = (buttonX s' =? 0) || negb (combo_index eye f =? random_num s') /\
            cube_drawn (simScene a) (annotate g0 (trace_of (frame inp a))) eye f
            = (buttonX s' =? 0) || negb (combo_index eye f =? random_num s')).
  { intros eye f. rewrite E1, E2. exact (frame_draws inp a g0 eye f Hd). }
  repeat apply conj.
  - exact E1.
  - apply Hk'.
  - apply Hk'.
  - intros Hx. split.
    + rewrite E4, R4, <- E1, Hx. reflexivity.
    + destruct (combo_of_index (random_num s') Hk') as (eye & f & Hc).
      exists eye, f. split; [exact Hc|]. split.
      * destruct (Hdraw eye f) as (-> & ->). rewrite Hx, Hc, Z.eqb_refl. reflexivity.
      * intros eye' f' Hne. destruct (Hdraw eye' f') as (-> & ->).
        assert (Hn : (combo_index eye' f' =? random_num s') = false).
        { apply Z.eqb_neq. intros E. apply Hne. apply combo_index_inj.
          rewrite E, Hc. reflexivity. }
        rewrite Hn, Hx. reflexivity.
  - intros Hx eye f. destruct (Hdraw eye f) as (-> & ->). rewrite Hx. reflexivity.
  - intros i Hi Hdown Hp Hx0.
    rewrite Hi, Hdown, Hp, Hx0 in M4. rewrite Hi, Hdown, Hp in M5.
    change (Z.rem (0 + 1) 2) with 1 in M4.
    rewrite E1, E2, E3, R2, R3, M4, M5, M2, M3. cbn [Z.eqb Pos.eqb andb negb].
    repeat apply conj; reflexivity.
  - intros Hx Hg Hx'. rewrite E1 in Hx'.
    assert (Hg0 : randomGened s0 = true).
    { rewrite M5. destruct (inputState inp) as [i|]; [|exact Hg].
      destruct (button_down i ovrButton_X); [exact Hg|].
      destruct (buttonXPressed (simScene a)); [|exact Hg].
      rewrite M4, Hx in Hx'. discriminate Hx'. }
    rewrite E2, E3, R2, R3, Hg0, Hx', M1, M2. split; reflexivity.
Qed.


Lemma ex_scene_inv : scene_inv (simScene Examples.ex_x_released).
Proof.
  unfold scene_inv. cbn [Examples.ex_x_released simScene set_simScene Examples.ex_app
    Examples.ex_scene set_buttonXPressed buttonX random_num rand_stream].
  repeat apply conj.
  - left. reflexivity.
  - discriminate.
  - reflexivity.
  - intros k. lia.
Qed.

Lemma ex_x_targets :
  targets_distinct (simScene Examples.ex_x_released) (_fbo Examples.ex_x_released).
Proof. unfold targets_distinct. cbn. repeat apply conj; discriminate. Qed.

Lemma occlusion_challenge_witness :
  targets_distinct (simScene Examples.ex_x_released) (_fbo Examples.ex_x_released) /\
  scene_inv (simScene Examples.ex_x_released) /\
  buttonX (simScene (state_of (frame Examples.ex_f4 Examples.ex_x_released))) = 1 /\
  random_num (simScene (state_of (frame Examples.ex_f4 Examples.ex_x_released)))
  = Z.rem (rand_stream (simScene Examples.ex_x_released)
             (rand_calls (simScene Examples.ex_x_released))) 6 /\
  rand_calls (simScene (state_of (frame Examples.ex_f4 Examples.ex_x_released)))
  = Datatypes.S (rand_calls (simScene Examples.ex_x_released)).
Proof.
  split; [exact ex_x_targets|]. split; [exact ex_scene_inv|].
  exact (proj1 (proj2 (proj2 (proj2 (proj2
           (occlusion_challenge Examples.ex_f4 Examples.ex_x_released Examples.ex_rec
              ex_x_targets ex_scene_inv)))))
           Examples.ex_idle eq_refl eq_refl eq_refl eq_refl).
Defined.

End ComboTheorem.

Section PpmFacts.
Import Ppm.
Local Open Scope Z_scope.

Lemma fgets_chars_line (n : nat) (l rest : list ascii) :
  (Datatypes.length l < n)%nat -> ~ In newline l ->
  fgets_chars n (l ++ newline :: rest) = (l ++ [newline], rest).
Proof.
  revert n. induction l as [|c l IH]; intros n Hn Hnl.
  - destruct n as [|n]; [inversion Hn|]. cbn. reflexivity.
  - destruct n as [|n]; [inversion Hn|].
    cbn [app fgets_chars].
    destruct (Ascii.eqb c newline) eqn:E.
    + apply Ascii.eqb_eq in E. exfalso. apply Hnl. left. exact E.
    + rewrite IH; [reflexivity | cbn in Hn; lia | intros H; apply Hnl; right; exact H].
Qed.

(** One call of [fgets] takes exactly one line. *)
Lemma fgets_line (buf : option (list ascii)) (l rest : list ascii) :
  is_line l ->
  fgets buf BUFSIZE (terminated l ++ rest) = (Some (terminated l), rest).
Proof.
  intros (Hlen & Hnl). unfold fgets, terminated. rewrite <- app_assoc. cbn [app].
  rewrite fgets_chars_line; [|exact Hlen|exact Hnl].
  destruct l; reflexivity.
Qed.

Lemma terminated_nonempty (l rest : list ascii) :
  exists c t, terminated l ++ rest = c :: t.
Proof. destruct l as [|c l]; cbn; eauto. Qed.

Lemma first_char_terminated (l : list ascii) :
  l <> [] -> first_char (terminated l) = first_char l.
Proof. destruct l; [congruence | reflexivity]. Qed.

Lemma length_terminated (l rest : list ascii) :
  Datatypes.length (terminated l ++ rest) = Datatypes.S (Datatypes.length l + Datatypes.length rest).
Proof. unfold terminated. rewrite !length_app. cbn. lia. Qed.

(** The loop over the comment lines stops at the first line that does not
    begin with [#], with that line in the buffer. *)
Lemma skip_comments_lines (comments : list (list ascii)) (l rest : list ascii)
    (buf : option (list ascii)) (fuel : nat) :
  Forall comment_line comments -> is_line l ->
  first_char (terminated l) <> "#"%char ->
  (Datatypes.length (List.concat (map terminated comments) ++ terminated l ++ rest) <= fuel)%nat ->
  skip_comments fuel buf (List.concat (map terminated comments) ++ terminated l ++ rest)
  = LoopDone (terminated l) rest.
Proof.
  intros Hc Hl Hf. revert buf fuel.
  induction Hc as [|c comments (Hcl & Hch) _ IH]; intros buf fuel Hfuel.
  - cbn [map List.concat app] in *.
    destruct (terminated_nonempty l rest) as (x & t & E).
    destruct fuel as [|fuel]; unfold skip_comments; fold skip_comments;
      rewrite E; rewrite <- E; rewrite (fgets_line buf l rest Hl);
      apply Ascii.eqb_neq in Hf; rewrite Hf; reflexivity.
  - cbn [map List.concat] in *. rewrite <- app_assoc in *.
    set (tl := List.concat (map terminated comments) ++ terminated l ++ rest) in *.
    destruct (terminated_nonempty c tl) as (x & t & E).
    rewrite length_terminated in Hfuel.
    destruct fuel as [|fuel]; [lia|].
    unfold skip_comments; fold skip_comments.
    rewrite E; rewrite <- E. rewrite (fgets_line buf c tl Hcl).
    assert (Hne : c <> []) by (intros ->; cbn in Hch; discriminate Hch).
    rewrite (first_char_terminated c Hne), Hch. cbn [Ascii.eqb Bool.eqb andb].
    apply IH. lia.
Qed.


Lemma cstr_no_NUL (l : list ascii) : Forall (fun c => c <> NUL) l -> cstr l = l.
Proof.
  induction 1 as [|c l Hc _ IH]; cbn; [reflexivity|].
  apply Ascii.eqb_neq in Hc. rewrite Hc, IH. reflexivity.
Qed.

Lemma take_word_word (w rest : list ascii) (c : ascii) :
  Forall (fun c => isspace c = false /\ c <> NUL) w -> isspace c = true ->
  take_word (w ++ c :: rest) = (w, c :: rest).
Proof.
  intros Hw Hc. induction Hw as [|x w (Hx & _) _ IH]; cbn [app take_word].
  - rewrite Hc. reflexivity.
  - rewrite Hx, IH. reflexivity.
Qed.

Lemma scan_word_word (w rest : list ascii) (c : ascii) :
  is_word w -> isspace c = true ->
  scan_word (w ++ c :: rest) = (Some w, c :: rest).
Proof.
  intros (Hne & Hw) Hc. unfold scan_word.
  destruct w as [|x w]; [congruence|].
  pose proof (Forall_inv Hw) as (Hx & _).
  cbn [app skip_space]. rewrite Hx.
  change (x :: w ++ c :: rest) with ((x :: w) ++ c :: rest).
  rewrite (take_word_word (x :: w) rest c Hw Hc). reflexivity.
Qed.

Lemma skip_space_space (c : ascii) (l : list ascii) :
  isspace c = true -> skip_space (c :: l) = skip_space l.
Proof. intros H. cbn. rewrite H. reflexivity. Qed.

(** [sscanf] on the line of the dimensions stores the two words. *)
Lemma sscanf_dimensions (wtok htok : list ascii) :
  is_word wtok -> is_word htok ->
  sscanf_s_s (cstr (terminated (wtok ++ " "%char :: htok))) = (Some wtok, Some htok).
Proof.
  intros Hw Hh.
  assert (Hnl : isspace newline = true) by reflexivity.
  assert (Hsp : isspace " "%char = true) by reflexivity.
  rewrite cstr_no_NUL.
  - unfold sscanf_s_s, terminated. rewrite <- app_assoc. cbn [app].
    rewrite (scan_word_word wtok (htok ++ [newline]) " "%char Hw Hsp).
    unfold scan_word at 1. rewrite (skip_space_space _ _ Hsp).
    fold (scan_word (htok ++ [newline])).
    rewrite (scan_word_word htok [] newline Hh Hnl). reflexivity.
  - unfold terminated. rewrite Forall_app. split.
    + rewrite Forall_app. split.
      * eapply Forall_impl; [|apply Hw]. intros a (_ & H). exact H.
      * constructor; [discriminate|].
        eapply Forall_impl; [|apply Hh]. intros a (_ & H). exact H.
    + constructor; [discriminate | constructor].
Qed.

(** A file with the header the format prescribes: [loadPPM] reads the two
    dimensions and stands at the first byte of the data. *)
Lemma read_header_ppm_file (magic : list ascii) (comments1 : list (list ascii))
    (wtok htok : list ascii) (comments2 : list (list ascii))
    (maxval data : list ascii) (w h : Z) :
  is_line magic -> Forall comment_line comments1 ->
  is_word wtok -> is_word htok -> first_char wtok <> "#"%char ->
  is_line (wtok ++ " "%char :: htok) ->
  Forall comment_line comments2 ->
  is_line maxval -> first_char (terminated maxval) <> "#"%char ->
  atoi (Some wtok) = Some w -> atoi (Some htok) = Some h ->
  read_header (ppm_file magic comments1 wtok htok comments2 maxval data)
  = HeaderRead w h data.
Proof.
  intros Hm Hc1 Hw Hh Hw1 Hdl Hc2 Hmv Hmv1 Haw Hah.
  unfold read_header, ppm_file.
  rewrite (fgets_line None magic _ Hm).
  unfold do_fgets_while_comment.
  assert (Hd1 : first_char (terminated (wtok ++ " "%char :: htok)) <> "#"%char).
  { destruct Hw as (Hne & _). destruct wtok; [congruence|]. exact Hw1. }
  rewrite (skip_comments_lines comments1 (wtok ++ " "%char :: htok) _ _ _ Hc1 Hdl Hd1)
    by apply Nat.le_refl.
  rewrite (sscanf_dimensions wtok htok Hw Hh). rewrite Haw, Hah.
  rewrite (skip_comments_lines comments2 maxval data _ _ Hc2 Hmv Hmv1)
    by apply Nat.le_refl.
  reflexivity.
Qed.

(** The test after [fread]: fewer bytes left than the image needs. *)
Lemma read_data_short (env : Env) (w h : Z) (fp : list ascii) :
  0 <= w * h * 3 <= INT_MAX -> w * h * 3 <= heap env ->
  Z.of_nat (Datatypes.length fp) < w * h * 3 ->
  read_data env w h fp = Returned None 0 0 [msg_incomplete].
Proof.
  intros Hr Hheap Hshort. unfold read_data, int_mul, in_int, INT_MIN, INT_MAX in *.
  assert (H1 : ((-2147483648 <=? w * h) && (w * h <=? 2147483647)) = true).
  { apply andb_true_intro. split; apply Z.leb_le; lia. }
  assert (H2 : ((-2147483648 <=? w * h * 3) && (w * h * 3 <=? 2147483647)) = true).
  { apply andb_true_intro. split; apply Z.leb_le; lia. }
  rewrite H1, H2.
  assert (H3 : (w * h * 3 <? 0) = false) by (apply Z.ltb_ge; lia).
  assert (H4 : (heap env <? w * h * 3) = false) by (apply Z.ltb_ge; lia).
  rewrite H3, H4. unfold fread.
  assert (H5 : (w * h * 3 =? 0) = false) by (apply Z.eqb_neq; lia).
  assert (H6 : (w * h * 3 <=? Z.of_nat (Datatypes.length fp)) = false)
    by (apply Z.leb_gt; lia).
  rewrite H5, H6. reflexivity.
Qed.

(** With all its bytes there, the image is returned with its dimensions
    and nothing is logged. *)
Lemma read_data_complete (env : Env) (w h : Z) (fp : list ascii) :
  0 < w * h * 3 <= INT_MAX -> w * h * 3 <= heap env ->
  w * h * 3 <= Z.of_nat (Datatypes.length fp) ->
  read_data env w h fp = Returned (Some (firstn (Z.to_nat (w * h * 3)) fp)) w h [].
Proof.
  intros Hr Hheap Hlong. unfold read_data, int_mul, in_int, INT_MIN, INT_MAX in *.
  assert (H1 : ((-2147483648 <=? w * h) && (w * h <=? 2147483647)) = true).
  { apply andb_true_intro. split; apply Z.leb_le; lia. }
  assert (H2 : ((-2147483648 <=? w * h * 3) && (w * h * 3 <=? 2147483647)) = true).
  { apply andb_true_intro. split; apply Z.leb_le; lia. }
  rewrite H1, H2.
  assert (H3 : (w * h * 3 <? 0) = false) by (apply Z.ltb_ge; lia).
  assert (H4 : (heap env <? w * h * 3) = false) by (apply Z.ltb_ge; lia).
  rewrite H3, H4. unfold fread.
  assert (H5 : (w * h * 3 =? 0) = false) by (apply Z.eqb_neq; lia).
  assert (H6 : (w * h * 3 <=? Z.of_nat (Datatypes.length fp)) = true)
    by (apply Z.leb_le; lia).
  rewrite H5, H6. reflexivity.
Qed.



Lemma fgets_chars_rest (n : nat) (fp : list ascii) :
  (Datatypes.length (snd (fgets_chars n fp)) <= Datatypes.length fp)%nat.
Proof.
  revert fp. induction n as [|n IH]; intros fp; [cbn; lia|].
  destruct fp as [|c fp]; [cbn; lia|]. cbn [fgets_chars].
  destruct (Ascii.eqb c newline); [cbn; lia|].
  specialize (IH fp). destruct (fgets_chars n fp) as [l r]. cbn in *. lia.
Qed.

Lemma fgets_chars_S (n : nat) (c : ascii) (fp : list ascii) :
  fgets_chars (Datatypes.S n) (c :: fp)
  = if Ascii.eqb c newline then ([c], fp)
    else let (l, r) := fgets_chars n fp in (c :: l, r).
Proof. reflexivity. Qed.

(** A call of [fgets] that is not at the end of the file stores a line and
    moves on. *)
Lemma fgets_progress (buf : option (list ascii)) (c : ascii) (fp : list ascii) :
  exists l r, fgets buf BUFSIZE (c :: fp) = (Some l, r) /\
              (Datatypes.length r <= Datatypes.length fp)%nat.
Proof.
  unfold fgets. change (BUFSIZE - 1)%nat with (Datatypes.S 126).
  rewrite fgets_chars_S. destruct (Ascii.eqb c newline).
  - exists [c], fp. split; [reflexivity | lia].
  - pose proof (fgets_chars_rest 126 fp) as H.
    destruct (fgets_chars 126 fp) as [l r]. exists (c :: l), r.
    split; [reflexivity | exact H].
Qed.

(** The loop never runs out of turns: any bound from the length of the
    file on gives the same result. *)
Lemma skip_comments_fuel (fuel1 fuel2 : nat) (buf : option (list ascii))
    (fp : list ascii) :
  (Datatypes.length fp <= fuel1)%nat -> (Datatypes.length fp <= fuel2)%nat ->
  skip_comments fuel1 buf fp = skip_comments fuel2 buf fp.
Proof.
  revert fuel2 buf fp. induction fuel1 as [|f1 IH]; intros fuel2 buf fp H1 H2.
  - destruct fp; [|cbn in H1; lia]. destruct fuel2; reflexivity.
  - destruct fp as [|c fp]; [destruct fuel2; reflexivity|].
    destruct fuel2 as [|f2]; [cbn in H2; lia|].
    destruct (fgets_progress buf c fp) as (l & r & E & Hr).
    unfold skip_comments; fold skip_comments. rewrite E.
    destruct (Ascii.eqb (first_char l) "#"%char); [|reflexivity].
    cbn in H1, H2. apply IH; lia.
Qed.

End PpmFacts.

Section PpmTheorem.
Import Ppm.
Local Open Scope Z_scope.

(** C9.  [loadPPM] on a name [fopen] finds no file for writes one line to
    the error stream, sets both dimensions to 0 and returns the null
    pointer.  It does the same, with its other message, whenever the header
    has been read and fewer bytes are left in the file than the
    [width * height * 3] the image needs (a number that fits an [int] and
    that [new] can provide); a file with the header the format prescribes
    and too little data after it is such a case. *)
Theorem loadPPM_degrades (env : Env) (filename : string) :
  (fopen env filename = None ->
   loadPPM env filename = Returned None 0 0 [String.append msg_locate filename]) /\
  (forall fp w h rest,
     fopen env filename = Some fp -> read_header fp = HeaderRead w h rest ->
     0 <= w * h * 3 <= INT_MAX -> w * h * 3 <= heap env ->
     Z.of_nat (Datatypes.length rest) < w * h * 3 ->
     loadPPM env filename = Returned None 0 0 [msg_incomplete]) /\
  (forall magic comments1 wtok htok comments2 maxval data w h,
     fopen env filename = Some (ppm_file magic comments1 wtok htok comments2 maxval data) ->
     is_line magic -> Forall comment_line comments1 ->
     is_word wtok -> is_word htok -> first_char wtok <> "#"%char ->
     is_line (wtok ++ " "%char :: htok) ->
     Forall comment_line comments2 ->
     is_line maxval -> first_char (terminated maxval) <> "#"%char ->
     atoi (Some wtok) = Some w -> atoi (Some htok) = Some h ->
     0 <= w * h * 3 <= INT_MAX -> w * h * 3 <= heap env ->
     Z.of_nat (Datatypes.length data) < w * h * 3 ->
     loadPPM env filename = Returned None 0 0 [msg_incomplete]).
Proof.
  repeat apply conj.
  - intros Hopen. unfold loadPPM. rewrite Hopen. reflexivity.
  - intros fp w h rest Hopen Hhead Hr Hheap Hshort.
    unfold loadPPM. rewrite Hopen, Hhead. apply read_data_short; assumption.
  - intros magic comments1 wtok htok comments2 maxval data w h Hopen
           Hm Hc1 Hw Hh Hw1 Hdl Hc2 Hmv Hmv1 Haw Hah Hr Hheap Hshort.
    unfold loadPPM. rewrite Hopen.
    rewrite (read_header_ppm_file magic comments1 wtok htok comments2 maxval data w h);
      try assumption.
    apply read_data_short; assumption.
Qed.


Ltac ppm_side :=
  match goal with
  | |- is_line _ => split; [unfold BUFSIZE; cbn; lia | cbn; intuition discriminate]
  | |- is_word _ => split; [discriminate | repeat constructor; discriminate]
  | |- Forall comment_line _ =>
      repeat constructor; first [unfold BUFSIZE; cbn; lia | cbn; intuition discriminate]
  | |- _ <> _ => discriminate
  | |- _ = _ => reflexivity
  | |- _ => unfold INT_MAX; cbn; lia
  end.

Lemma loadPPM_degrades_witness :
  loadPPM Examples.ex_env "missing.ppm"
  = Returned None 0 0 ["error reading ppm file, could not locate missing.ppm"%string] /\
  loadPPM Examples.ex_env "wall.ppm"
  = Returned None 0 0 ["error parsing ppm file, incomplete data"%string].
Proof.
  split.
  - exact (proj1 (loadPPM_degrades Examples.ex_env "missing.ppm") eq_refl).
  - apply (proj2 (proj2 (loadPPM_degrades Examples.ex_env "wall.ppm"))
             (Examples.bytes "P6") [Examples.bytes "# made by hand"]
             (Examples.bytes "2") (Examples.bytes "2") []
             (Examples.bytes "255") (Examples.bytes "abcde") 2 2); ppm_side.
Defined.

(** Where the degradation ends.  A file of no bytes leaves the line buffer
    unwritten when it is tested; a header that ends in a comment line keeps
    the loop turning; a negative size makes [new] throw.  An image of no
    pixels is reported as incomplete. *)
Example loadPPM_empty_file : loadPPM Examples.ex_env "empty.ppm" = Undefined.
Proof. reflexivity. Qed.

Example loadPPM_header_ends_in_comment : loadPPM Examples.ex_env "comment.ppm" = Hangs.
Proof. vm_compute. reflexivity. Qed.

Example loadPPM_negative_width : loadPPM Examples.ex_env "negative.ppm" = Throws.
Proof. vm_compute. reflexivity. Qed.

Example loadPPM_no_pixels :
  loadPPM Examples.ex_env "nopixels.ppm"
  = Returned None 0 0 ["error parsing ppm file, incomplete data"%string].
Proof. vm_compute. reflexivity. Qed.

End PpmTheorem.

(* ================================================================== *)
(** * The off-axis projection in clip space                           *)
(* ================================================================== *)

Section ClipFacts.
Import Glm OffAxis Clip Examples.
Local Open Scope R_scope.

(** The clip coordinates [getProjection]'s matrix gives a point: the view
    coordinates along vr, vu, vn pushed through the frustum matrix. *)
Lemma clip_getProjection (e pa pb pc p : vec3) (n f : R) :
  let B := planeBasis pa pb pc in
  let F := frustumBounds e pa pb pc n in
  let X := dot (vr B) (vsub p e) in
  let Y := dot (vu B) (vsub p e) in
  let Z := dot (vn B) (vsub p e) in
  clip (getProjection e pa pb pc n f) p
  = mkVec4 (2 * n / (fr F - fl F) * X + (fr F + fl F) / (fr F - fl F) * Z)
           (2 * n / (ft F - fb F) * Y + (ft F + fb F) / (ft F - fb F) * Z)
           (- (f + n) / (f - n) * Z + - (2 * f * n) / (f - n))
           (- Z).
Proof.
  cbv zeta. unfold getProjection.
  generalize (frustumBounds e pa pb pc n). intros [d l r b t].
  generalize (planeBasis pa pb pc). intros [[rx ry rz] [ux uy uz] [nx ny nz]].
  destruct e as [ex ey ez]. destruct p as [px py pz].
  cbv [clip mul mul_vec add4 scale4 transpose translate translate_m mat4_diag mat4_of
       frustum dot vsub fd fl fr fb ft vr vu vn
       v3x v3y v3z v4x v4y v4z v4w col0 col1 col2 col3].
  f_equal; ring.
Qed.

Lemma dot_vsub_split (v p q e : vec3) :
  dot v (vsub p e) = dot v (vsub q e) + dot v (vsub p q).
Proof. unfold dot, vsub. simpl. ring. Qed.

Lemma dot_normalize_self (v : vec3) :
  0 < dot v v -> dot (normalize v) v = sqrt (dot v v).
Proof.
  intros Hv. unfold normalize, inversesqrt.
  assert (Hq : 0 < sqrt (dot v v)) by (apply sqrt_lt_R0; exact Hv).
  assert (Hsq : sqrt (dot v v) * sqrt (dot v v) = dot v v) by (apply sqrt_sqrt; lra).
  transitivity (dot v v * (1 / sqrt (dot v v))).
  - unfold dot, vscale. simpl. ring.
  - rewrite <- Hsq at 1. field. lra.
Qed.

Lemma dot_normalize_orth (v w : vec3) : dot v w = 0 -> dot (normalize v) w = 0.
Proof.
  intros H. unfold normalize.
  transitivity (inversesqrt (dot v v) * dot v w).
  - unfold dot, vscale. simpl. ring.
  - rewrite H. ring.
Qed.

Lemma dot_cross_normalize_l (v u : vec3) : dot (cross (normalize v) u) v = 0.
Proof. unfold normalize, dot, cross, vscale. simpl. ring. Qed.

Lemma dot_cross_normalize_r (v u : vec3) : dot (cross v (normalize u)) u = 0.
Proof. unfold normalize, dot, cross, vscale. simpl. ring. Qed.

(** How the basis of [getProjection] sees the two edges of the face. *)
Lemma basis_edges (pa pb pc : vec3) :
  right_angle_at pa pb pc ->
  let B := planeBasis pa pb pc in
  let W := sqrt (dot (vsub pb pa) (vsub pb pa)) in
  let H := sqrt (dot (vsub pc pa) (vsub pc pa)) in
  0 < W /\ 0 < H /\
  dot (vr B) (vsub pb pa) = W /\ dot (vu B) (vsub pb pa) = 0 /\
  dot (vn B) (vsub pb pa) = 0 /\
  dot (vr B) (vsub pc pa) = 0 /\ dot (vu B) (vsub pc pa) = H /\
  dot (vn B) (vsub pc pa) = 0.
Proof.
  intros (Hb & Hc & Hperp). cbv zeta.
  pose proof (dot_self_pos _ _ Hb) as Hbpos.
  pose proof (dot_self_pos _ _ Hc) as Hcpos.
  unfold planeBasis. cbn [vr vu vn].
  repeat apply conj.
  - apply sqrt_lt_R0. exact Hbpos.
  - apply sqrt_lt_R0. exact Hcpos.
  - apply dot_normalize_self. exact Hbpos.
  - apply dot_normalize_orth. rewrite dot_comm. exact Hperp.
  - apply dot_normalize_orth. apply dot_cross_normalize_l.
  - apply dot_normalize_orth. exact Hperp.
  - apply dot_normalize_self. exact Hcpos.
  - apply dot_normalize_orth. apply dot_cross_normalize_r.
Qed.


(** The view coordinates of the four corners of a right-angled face. *)
Lemma corner_view_coordinates (e pa pb pc : vec3) :
  right_angle_at pa pb pc ->
  let B := planeBasis pa pb pc in
  let W := sqrt (dot (vsub pb pa) (vsub pb pa)) in
  let H := sqrt (dot (vsub pc pa) (vsub pc pa)) in
  let pd := fourth_corner pa pb pc in
  (dot (vr B) (vsub pb e) = dot (vr B) (vsub pa e) + W /\
   dot (vu B) (vsub pb e) = dot (vu B) (vsub pa e) /\
   dot (vn B) (vsub pb e) = dot (vn B) (vsub pa e)) /\
  (dot (vr B) (vsub pc e) = dot (vr B) (vsub pa e) /\
   dot (vu B) (vsub pc e) = dot (vu B) (vsub pa e) + H /\
   dot (vn B) (vsub pc e) = dot (vn B) (vsub pa e)) /\
  (dot (vr B) (vsub pd e) = dot (vr B) (vsub pa e) + W /\
   dot (vu B) (vsub pd e) = dot (vu B) (vsub pa e) + H /\
   dot (vn B) (vsub pd e) = dot (vn B) (vsub pa e)).
Proof.
  intros Hra. cbv zeta.
  destruct (basis_edges pa pb pc Hra) as (_ & _ & E1 & E2 & E3 & E4 & E5 & E6).
  cbv zeta in E1, E2, E3, E4, E5, E6.
  set (B := planeBasis pa pb pc) in *.
  assert (Hd : forall v, dot v (vsub (fourth_corner pa pb pc) e)
                         = dot v (vsub pa e) + dot v (vsub pb pa) + dot v (vsub pc pa)).
  { intros v. unfold fourth_corner, dot, vsub, vadd. simpl. ring. }
  repeat apply conj.
  - rewrite (dot_vsub_split _ pb pa e), E1. reflexivity.
  - rewrite (dot_vsub_split _ pb pa e), E2. ring.
  - rewrite (dot_vsub_split _ pb pa e), E3. ring.
  - rewrite (dot_vsub_split _ pc pa e), E4. ring.
  - rewrite (dot_vsub_split _ pc pa e), E5. reflexivity.
  - rewrite (dot_vsub_split _ pc pa e), E6. ring.
  - rewrite Hd, E1, E4. ring.
  - rewrite Hd, E2, E5. ring.
  - rewrite Hd, E3, E6. ring.
Qed.

(** The clip coordinates of a point of the face plane whose view
    coordinates are [A + a] along vr and [Bv + b] along vu: with the bounds
    of [getProjection] it lands at [2a/W - 1], [2b/H - 1] after the
    perspective division. *)
Lemma ndc_of_face_point (A Bv d W H n a b : R) :
  0 < d -> 0 < W -> 0 < H -> n <> 0 ->
  let l := A * n / d in
  let r := (A + W) * n / d in
  let bo := Bv * n / d in
  let t := (Bv + H) * n / d in
  (2 * n / (r - l) * (A + a) + (r + l) / (r - l) * - d) / d = 2 * a / W - 1 /\
  (2 * n / (t - bo) * (Bv + b) + (t + bo) / (t - bo) * - d) / d = 2 * b / H - 1.
Proof.
  intros Hd HW HH Hn. cbv zeta.
  assert (HWn : (A + W) * n - A * n <> 0).
  { replace ((A + W) * n - A * n) with (W * n) by ring.
    apply Rmult_integral_contrapositive_currified; lra. }
  assert (HHn : (Bv + H) * n - Bv * n <> 0).
  { replace ((Bv + H) * n - Bv * n) with (H * n) by ring.
    apply Rmult_integral_contrapositive_currified; lra. }
  split; field; repeat split; first [lra | assumption].
Qed.

End ClipFacts.

Section ClipTheorems.
Import Glm OffAxis Clip Examples.
Local Open Scope R_scope.

(** The matrix [getProjection] returns for a right-angled face and an eye in
    front of it sends the corners pa, pb, pc and the fourth corner
    pb + (pc - pa) to the corners (-1,-1), (1,-1), (-1,1), (1,1) of the
    normalised device square, each with clip coordinate w equal to the
    distance d of the eye from the face plane: the face fills the render
    target exactly, wherever the eye is. *)
Theorem getProjection_maps_face_to_ndc_square (e pa pb pc : vec3) (n f : R) :
  right_angle_at pa pb pc -> in_front e pa pb pc -> n <> 0 ->
  let m := getProjection e pa pb pc n f in
  let d := fd (frustumBounds e pa pb pc n) in
  let pd := fourth_corner pa pb pc in
  0 < d /\
  (v4w (clip m pa) = d /\ ndc_x (clip m pa) = -1 /\ ndc_y (clip m pa) = -1) /\
  (v4w (clip m pb) = d /\ ndc_x (clip m pb) = 1 /\ ndc_y (clip m pb) = -1) /\
  (v4w (clip m pc) = d /\ ndc_x (clip m pc) = -1 /\ ndc_y (clip m pc) = 1) /\
  (v4w (clip m pd) = d /\ ndc_x (clip m pd) = 1 /\ ndc_y (clip m pd) = 1).
Proof.
  intros Hra Hfront Hn. cbv zeta.
  destruct (basis_edges pa pb pc Hra) as (HW & HH & _). cbv zeta in HW, HH.
  destruct (corner_view_coordinates e pa pb pc Hra)
    as ((B1 & B2 & B3) & (C1 & C2 & C3) & (D1 & D2 & D3)).
  cbv zeta in B1, B2, B3, C1, C2, C3, D1, D2, D3.
  unfold in_front in Hfront.
  rewrite !clip_getProjection. cbv zeta.
  rewrite frustumBounds_unfold. cbv zeta. cbn [fd fl fr fb ft].
  unfold ndc_x, ndc_y. cbn [v4x v4y v4w].
  rewrite B1, B2, B3, C1, C2, C3, D1, D2, D3.
  set (B := planeBasis pa pb pc) in *.
  set (A := dot (vr B) (vsub pa e)). set (Bv := dot (vu B) (vsub pa e)).
  set (d := - dot (vn B) (vsub pa e)) in *.
  set (W := sqrt (dot (vsub pb pa) (vsub pb pa))) in *.
  set (H := sqrt (dot (vsub pc pa) (vsub pc pa))) in *.
  replace (dot (vn B) (vsub pa e)) with (- d) by (unfold d; ring).
  pose proof (ndc_of_face_point A Bv d W H n 0 0 Hfront HW HH Hn) as (Pa1 & Pa2).
  pose proof (ndc_of_face_point A Bv d W H n W 0 Hfront HW HH Hn) as (Pb1 & Pb2).
  pose proof (ndc_of_face_point A Bv d W H n 0 H Hfront HW HH Hn) as (Pc1 & Pc2).
  pose proof (ndc_of_face_point A Bv d W H n W H Hfront HW HH Hn) as (Pd1 & Pd2).
  cbv zeta in Pa1, Pa2, Pb1, Pb2, Pc1, Pc2, Pd1, Pd2.
  rewrite !Rplus_0_r in Pa1, Pa2, Pb2, Pc1.
  repeat apply conj; try exact Hfront; try reflexivity.
  - rewrite Pa1. field. lra.
  - rewrite Pa2. field. lra.
  - rewrite Pb1. field. lra.
  - rewrite Pb2. field. lra.
  - rewrite Pc1. field. lra.
  - rewrite Pc2. field. lra.
  - rewrite Pd1. field. lra.
  - rewrite Pd2. field. lra.
Qed.


Lemma ex_in_front : in_front ex_eye ex_pa ex_pb ex_pc.
Proof.
  unfold in_front. rewrite ex_basis. unfold dot, vsub, ex_pa, ex_eye. simpl. lra.
Qed.

Lemma tenth_nonzero : 1 / 10 <> 0.
Proof. lra. Qed.

Lemma getProjection_maps_face_witness :
  right_angle_at ex_pa ex_pb ex_pc /\ in_front ex_eye ex_pa ex_pb ex_pc /\ 1 / 10 <> 0 /\
  ndc_x (clip (getProjection ex_eye ex_pa ex_pb ex_pc (1 / 10) 1000) ex_pb) = 1 /\
  ndc_y (clip (getProjection ex_eye ex_pa ex_pb ex_pc (1 / 10) 1000) ex_pb) = -1.
Proof.
  split; [exact ex_right_angle|]. split; [exact ex_in_front|].
  split; [exact tenth_nonzero|].
  exact (proj2 (proj1 (proj2 (proj2
    (getProjection_maps_face_to_ndc_square ex_eye ex_pa ex_pb ex_pc (1 / 10) 1000
       ex_right_angle ex_in_front tenth_nonzero))))).
Defined.

(** Depth under [getProjection]'s matrix, for any face and any eye: a
    point at distance [dist] in front of the eye, measured along the face
    normal, gets the depth (f + n - 2fn/dist) / (f - n) after the
    perspective division; it lies in the depth range -1..1 exactly when
    n <= dist <= f. *)
Theorem getProjection_depth_range (e pa pb pc p : vec3) (n f dist : R) :
  0 < n -> n < f -> 0 < dist ->
  - dot (vn (planeBasis pa pb pc)) (vsub p e) = dist ->
  let m := getProjection e pa pb pc n f in
  v4w (clip m p) = dist /\
  ndc_z (clip m p) = (f + n - 2 * f * n / dist) / (f - n) /\
  (-1 <= ndc_z (clip m p) <= 1 <-> n <= dist <= f).
Proof.
  intros Hn Hf Hd HZ. cbv zeta. rewrite clip_getProjection. cbv zeta.
  unfold ndc_z. cbn [v4z v4w]. rewrite HZ.
  replace (dot (vn (planeBasis pa pb pc)) (vsub p e)) with (- dist) by (rewrite <- HZ; ring).
  assert (Hz : (- (f + n) / (f - n) * - dist + - (2 * f * n) / (f - n)) / dist
               = (f + n - 2 * f * n / dist) / (f - n)) by (field; lra).
  rewrite Hz. split; [reflexivity|]. split; [reflexivity|].
  assert (Hq : (f + n - 2 * f * n / dist) / (f - n) + 1 = 2 * f * (dist - n) / (dist * (f - n)))
    by (field; lra).
  assert (Hq' : 1 - (f + n - 2 * f * n / dist) / (f - n) = 2 * n * (f - dist) / (dist * (f - n)))
    by (field; lra).
  assert (Hden : 0 < dist * (f - n)) by (apply Rmult_lt_0_compat; lra).
  assert (Hden' : 0 < / (dist * (f - n))) by (apply Rinv_0_lt_compat; exact Hden).
  split.
  - intros (H1 & H2). split.
    + destruct (Rle_or_lt n dist) as [Hle | Hlt]; [exact Hle|]. exfalso.
      assert (Hneg : 2 * f * (dist - n) / (dist * (f - n)) < 0).
      { assert (Hpos : 0 < (2 * f * (n - dist)) * / (dist * (f - n)))
          by (apply Rmult_lt_0_compat; [nra | exact Hden']).
        unfold Rdiv. lra. }
      lra.
    + destruct (Rle_or_lt dist f) as [Hle | Hlt]; [exact Hle|]. exfalso.
      assert (Hneg : 2 * n * (f - dist) / (dist * (f - n)) < 0).
      { assert (Hpos : 0 < (2 * n * (dist - f)) * / (dist * (f - n)))
          by (apply Rmult_lt_0_compat; [nra | exact Hden']).
        unfold Rdiv. lra. }
      lra.
  - intros (H1 & H2).
    assert (Hp1 : 0 <= 2 * f * (dist - n) / (dist * (f - n))).
    { unfold Rdiv. apply Rmult_le_pos; [nra | lra]. }
    assert (Hp2 : 0 <= 2 * n * (f - dist) / (dist * (f - n))).
    { unfold Rdiv. apply Rmult_le_pos; [nra | lra]. }
    lra.
Qed.

Lemma ex_face_distance : - dot (vn (planeBasis ex_pa ex_pb ex_pc)) (vsub ex_pa ex_eye) = 5.
Proof. rewrite ex_basis. unfold dot, vsub, ex_pa, ex_eye. simpl. ring. Qed.

Lemma getProjection_depth_witness :
  0 < 1 / 10 /\ 1 / 10 < 1000 /\ 0 < 5 /\
  - dot (vn (planeBasis ex_pa ex_pb ex_pc)) (vsub ex_pa ex_eye) = 5 /\
  v4w (clip (getProjection ex_eye ex_pa ex_pb ex_pc (1 / 10) 1000) ex_pa) = 5.
Proof.
  assert (H1 : 0 < 1 / 10) by lra. assert (H2 : 1 / 10 < 1000) by lra.
  assert (H3 : 0 < 5) by lra.
  split; [exact H1|]. split; [exact H2|]. split; [exact H3|].
  split; [exact ex_face_distance|].
  exact (proj1 (getProjection_depth_range ex_eye ex_pa ex_pb ex_pc ex_pa (1 / 10) 1000 5
                  H1 H2 H3 ex_face_distance)).
Defined.

(** The extent of the frustum [getProjection] computes is the extent of the
    face scaled by n/d: r - l = |pb - pa| n/d and t - b = |pc - pa| n/d,
    whatever the lateral position of the eye. *)
Theorem frustum_extent_is_face_extent (e pa pb pc : vec3) (n : R) :
  right_angle_at pa pb pc ->
  let F := frustumBounds e pa pb pc n in
  fr F - fl F = length (vsub pb pa) * n / fd F /\
  ft F - fb F = length (vsub pc pa) * n / fd F.
Proof.
  intros Hra. cbv zeta.
  destruct (corner_view_coordinates e pa pb pc Hra) as ((B1 & _) & (_ & C2 & _) & _).
  cbv zeta in B1, C2.
  rewrite frustumBounds_unfold. cbv zeta. cbn [fd fl fr fb ft].
  rewrite B1, C2. unfold length, Rdiv.
  generalize (/ - dot (vn (planeBasis pa pb pc)) (vsub pa e)). intros q.
  generalize (sqrt (dot (vsub pb pa) (vsub pb pa))) (sqrt (dot (vsub pc pa) (vsub pc pa))).
  intros W H. split; ring.
Qed.

Lemma frustum_extent_witness :
  right_angle_at ex_pa ex_pb ex_pc /\
  fr (frustumBounds ex_eye ex_pa ex_pb ex_pc (1 / 10))
  - fl (frustumBounds ex_eye ex_pa ex_pb ex_pc (1 / 10))
  = length (vsub ex_pb ex_pa) * (1 / 10) / fd (frustumBounds ex_eye ex_pa ex_pb ex_pc (1 / 10)).
Proof.
  split; [exact ex_right_angle|].
  exact (proj1 (frustum_extent_is_face_extent ex_eye ex_pa ex_pb ex_pc (1 / 10) ex_right_angle)).
Defined.

(** With the eye on the axis through the centre of the face the frustum is
    symmetric: l = -r and b = -t. *)
Theorem centred_eye_gives_symmetric_frustum (e pa pb pc : vec3) (n : R) :
  right_angle_at pa pb pc ->
  let B := planeBasis pa pb pc in
  let centre := vadd pa (vscale (vadd (vsub pb pa) (vsub pc pa)) (1 / 2)) in
  dot (vr B) (vsub centre e) = 0 -> dot (vu B) (vsub centre e) = 0 ->
  let F := frustumBounds e pa pb pc n in
  fl F = - fr F /\ fb F = - ft F.
Proof.
  intros Hra. cbv zeta. intros Hr Hu.
  destruct (basis_edges pa pb pc Hra) as (_ & _ & E1 & E2 & _ & E4 & E5 & _).
  cbv zeta in E1, E2, E4, E5.
  destruct (corner_view_coordinates e pa pb pc Hra) as ((B1 & _) & (_ & C2 & _) & _).
  cbv zeta in B1, C2.
  set (B := planeBasis pa pb pc) in *.
  assert (Hc : forall v,
             dot v (vsub (vadd pa (vscale (vadd (vsub pb pa) (vsub pc pa)) (1 / 2))) e)
             = dot v (vsub pa e) + (dot v (vsub pb pa) + dot v (vsub pc pa)) / 2).
  { intros v. unfold dot, vsub, vadd, vscale. simpl. field. }
  rewrite Hc, E1, E4 in Hr. rewrite Hc, E2, E5 in Hu.
  rewrite frustumBounds_unfold. cbv zeta. cbn [fd fl fr fb ft]. fold B.
  rewrite B1, C2.
  set (W := sqrt (dot (vsub pb pa) (vsub pb pa))) in *.
  set (H := sqrt (dot (vsub pc pa) (vsub pc pa))) in *.
  assert (HA : dot (vr B) (vsub pa e) = - W / 2) by lra.
  assert (HB : dot (vu B) (vsub pa e) = - H / 2) by lra.
  rewrite HA, HB. unfold Rdiv.
  generalize (/ - dot (vn B) (vsub pa e)). intros q. split; field.
Qed.

Lemma ex_centred :
  dot (vr (planeBasis ex_pa ex_pb ex_pc))
      (vsub (vadd ex_pa (vscale (vadd (vsub ex_pb ex_pa) (vsub ex_pc ex_pa)) (1 / 2))) ex_eye)
  = 0 /\
  dot (vu (planeBasis ex_pa ex_pb ex_pc))
      (vsub (vadd ex_pa (vscale (vadd (vsub ex_pb ex_pa) (vsub ex_pc ex_pa)) (1 / 2))) ex_eye)
  = 0.
Proof.
  rewrite ex_basis. unfold dot, vsub, vadd, vscale, ex_pa, ex_pb, ex_pc, ex_eye. simpl.
  split; field.
Qed.

Lemma centred_eye_witness :
  right_angle_at ex_pa ex_pb ex_pc /\
  fl (frustumBounds ex_eye ex_pa ex_pb ex_pc (1 / 10))
  = - fr (frustumBounds ex_eye ex_pa ex_pb ex_pc (1 / 10)).
Proof.
  split; [exact ex_right_angle|].
  exact (proj1 (centred_eye_gives_symmetric_frustum ex_eye ex_pa ex_pb ex_pc (1 / 10)
                  ex_right_angle (proj1 ex_centred) (proj2 ex_centred))).
Defined.

End ClipTheorems.

(* ================================================================== *)
(** * More about Cave::loadPPM                                        *)
(* ================================================================== *)

Section PpmMore.
Import Ppm.
Local Open Scope Z_scope.

Lemma in_int_bounds (v : Z) : in_int v = true <-> INT_MIN <= v <= INT_MAX.
Proof.
  unfold in_int. rewrite andb_true_iff, !Z.leb_le. reflexivity.
Qed.

Lemma atoi_in_int (buf : option (list ascii)) (v : Z) :
  atoi buf = Some v -> INT_MIN <= v <= INT_MAX.
Proof.
  unfold atoi. destruct buf as [s|]; [|discriminate].
  match goal with |- context [in_int ?x] => destruct (in_int x) eqn:E end;
    [|discriminate].
  intros H. injection H as <-. apply in_int_bounds. exact E.
Qed.

(** What [read_data] can return. *)
Lemma read_data_returned (env : Env) (w h : Z) (fp : list ascii)
    (d : option (list ascii)) (w' h' : Z) (log : list string) :
  read_data env w h fp = Returned d w' h' log ->
  (d = None /\ w' = 0 /\ h' = 0 /\ log = [msg_incomplete]) \/
  (exists data, d = Some data /\ w' = w /\ h' = h /\ log = [] /\
     data = firstn (Z.to_nat (w * h * 3)) fp /\
     Z.of_nat (Datatypes.length data) = w * h * 3 /\ 0 < w * h * 3 <= INT_MAX).
Proof.
  unfold read_data, int_mul.
  destruct (in_int (w * h)) eqn:E1; [|discriminate].
  destruct (in_int (w * h * 3)) eqn:E2; [|discriminate].
  destruct (w * h * 3 <? 0) eqn:E3; [discriminate|].
  destruct (heap env <? w * h * 3) eqn:E4; [discriminate|].
  unfold fread.
  destruct (w * h * 3 =? 0) eqn:E5.
  - cbn. intros H. injection H as <- <- <- <-. left. repeat apply conj; reflexivity.
  - destruct (w * h * 3 <=? Z.of_nat (Datatypes.length fp)) eqn:E6.
    + cbn. intros H. injection H as <- <- <- <-. right.
      apply in_int_bounds in E2. apply Z.ltb_ge in E3. apply Z.eqb_neq in E5.
      apply Z.leb_le in E6.
      exists (firstn (Z.to_nat (w * h * 3)) fp). repeat apply conj; try reflexivity.
      * rewrite length_firstn. lia.
      * lia.
      * apply E2.
    + cbn. intros H. injection H as <- <- <- <-. left. repeat apply conj; reflexivity.
Qed.


Lemma fgets_chars_split (n : nat) (fp : list ascii) :
  fp = fst (fgets_chars n fp) ++ snd (fgets_chars n fp).
Proof.
  revert fp. induction n as [|n IH]; intros fp; [reflexivity|].
  destruct fp as [|c fp]; [reflexivity|]. cbn [fgets_chars].
  destruct (Ascii.eqb c newline); [reflexivity|].
  specialize (IH fp). destruct (fgets_chars n fp) as [l r]. cbn in *.
  rewrite IH at 1. reflexivity.
Qed.

(** [fgets] leaves a suffix of what it was given. *)
Lemma fgets_suffix (buf : option (list ascii)) (fp : list ascii) :
  exists pre, fp = pre ++ snd (fgets buf BUFSIZE fp).
Proof.
  unfold fgets. destruct fp as [|c fp]; [exists []; reflexivity|].
  pose proof (fgets_chars_split (BUFSIZE - 1) (c :: fp)) as H.
  destruct (fgets_chars (BUFSIZE - 1) (c :: fp)) as [l r]. cbn [fst snd] in *.
  exists l. exact H.
Qed.

Lemma skip_comments_suffix (fuel : nat) (buf : option (list ascii)) (fp : list ascii)
    (b r : list ascii) :
  skip_comments fuel buf fp = LoopDone b r -> exists pre, fp = pre ++ r.
Proof.
  revert buf fp. induction fuel as [|fuel IH]; intros buf fp.
  - destruct fp as [|c fp].
    + cbn. destruct buf as [b0|]; [|discriminate].
      destruct (Ascii.eqb (first_char b0) "#"%char); [discriminate|].
      intros H. injection H as _ <-. exists []. reflexivity.
    + unfold skip_comments.
      destruct (fgets_suffix buf (c :: fp)) as [pre Hpre].
      destruct (fgets buf BUFSIZE (c :: fp)) as [[b0|] r0]; [|discriminate].
      destruct (Ascii.eqb (first_char b0) "#"%char); [discriminate|].
      intros H. injection H as _ <-. exists pre. exact Hpre.
  - destruct fp as [|c fp].
    + cbn. destruct buf as [b0|]; [|discriminate].
      destruct (Ascii.eqb (first_char b0) "#"%char); [discriminate|].
      intros H. injection H as _ <-. exists []. reflexivity.
    + unfold skip_comments; fold skip_comments.
      destruct (fgets_suffix buf (c :: fp)) as [pre Hpre].
      destruct (fgets buf BUFSIZE (c :: fp)) as [[b0|] r0]; [|discriminate].
      cbn [snd] in Hpre.
      destruct (Ascii.eqb (first_char b0) "#"%char).
      * intros H. apply IH in H. destruct H as [pre' Hpre'].
        exists (pre ++ pre'). rewrite <- app_assoc, <- Hpre'. exact Hpre.
      * intros H. injection H as _ <-. exists pre. exact Hpre.
Qed.

(** What [read_header] delivers: two [int]s and a suffix of the file. *)
Lemma read_header_read (fp : list ascii) (w h : Z) (r : list ascii) :
  read_header fp = HeaderRead w h r ->
  INT_MIN <= w <= INT_MAX /\ INT_MIN <= h <= INT_MAX /\ exists pre, fp = pre ++ r.
Proof.
  unfold read_header, do_fgets_while_comment.
  destruct (fgets_suffix None fp) as [pre0 Hpre0].
  destruct (fgets None BUFSIZE fp) as [buf0 fp1]. cbn [snd] in Hpre0.
  destruct (skip_comments (Datatypes.length fp1) buf0 fp1) as [b fp2| |] eqn:E1;
    [|discriminate|discriminate].
  destruct (sscanf_s_s (cstr b)) as [buf1 buf2].
  destruct (atoi buf1) as [w0|] eqn:Ew; [|discriminate].
  destruct (atoi buf2) as [h0|] eqn:Eh; [|discriminate].
  destruct (skip_comments (Datatypes.length fp2) (Some b) fp2) as [b' fp3| |] eqn:E2;
    [|discriminate|discriminate].
  intros H. injection H as <- <- <-.
  apply skip_comments_suffix in E1, E2.
  destruct E1 as [pre1 H1]. destruct E2 as [pre2 H2].
  repeat apply conj.
  - apply (atoi_in_int _ _ Ew).
  - apply (atoi_in_int _ _ Ew).
  - apply (atoi_in_int _ _ Eh).
  - apply (atoi_in_int _ _ Eh).
  - exists (pre0 ++ pre1 ++ pre2). rewrite <- !app_assoc, <- H2, <- H1. exact Hpre0.
Qed.


(** The header of a well-formed file, whatever [atoi] makes of the two
    words. *)
Lemma read_header_ok (magic : list ascii) (comments1 : list (list ascii))
    (wtok htok : list ascii) (comments2 : list (list ascii))
    (maxval data : list ascii) :
  PpmSpec.header_ok magic comments1 wtok htok comments2 maxval ->
  read_header (ppm_file magic comments1 wtok htok comments2 maxval data)
  = match atoi (Some wtok), atoi (Some htok) with
    | Some w, Some h => HeaderRead w h data
    | _, _ => HeaderUndefined
    end.
Proof.
  intros (Hm & Hc1 & Hw & Hh & Hw1 & Hdl & Hc2 & Hmv & Hmv1).
  destruct (atoi (Some wtok)) as [w|] eqn:Ew; destruct (atoi (Some htok)) as [h|] eqn:Eh.
  - apply read_header_ppm_file; assumption.
  - unfold read_header, ppm_file. rewrite (fgets_line None magic _ Hm).
    unfold do_fgets_while_comment.
    assert (Hd1 : first_char (terminated (wtok ++ " "%char :: htok)) <> "#"%char).
    { destruct Hw as (Hne & _). destruct wtok; [congruence|]. exact Hw1. }
    rewrite (skip_comments_lines comments1 (wtok ++ " "%char :: htok) _ _ _ Hc1 Hdl Hd1)
      by apply Nat.le_refl.
    rewrite (sscanf_dimensions wtok htok Hw Hh). rewrite Ew, Eh. reflexivity.
  - unfold read_header, ppm_file. rewrite (fgets_line None magic _ Hm).
    unfold do_fgets_while_comment.
    assert (Hd1 : first_char (terminated (wtok ++ " "%char :: htok)) <> "#"%char).
    { destruct Hw as (Hne & _). destruct wtok; [congruence|]. exact Hw1. }
    rewrite (skip_comments_lines comments1 (wtok ++ " "%char :: htok) _ _ _ Hc1 Hdl Hd1)
      by apply Nat.le_refl.
    rewrite (sscanf_dimensions wtok htok Hw Hh). rewrite Ew. reflexivity.
  - unfold read_header, ppm_file. rewrite (fgets_line None magic _ Hm).
    unfold do_fgets_while_comment.
    assert (Hd1 : first_char (terminated (wtok ++ " "%char :: htok)) <> "#"%char).
    { destruct Hw as (Hne & _). destruct wtok; [congruence|]. exact Hw1. }
    rewrite (skip_comments_lines comments1 (wtok ++ " "%char :: htok) _ _ _ Hc1 Hdl Hd1)
      by apply Nat.le_refl.
    rewrite (sscanf_dimensions wtok htok Hw Hh). rewrite Ew. reflexivity.
Qed.

(** At the end of the file, with a comment line in the buffer or comment
    lines still to come, the loop over the comment lines never ends. *)
Lemma skip_comments_hangs (comments : list (list ascii)) (buf : option (list ascii))
    (fuel : nat) :
  Forall comment_line comments ->
  (comments = [] -> exists b, buf = Some b /\ first_char b = "#"%char) ->
  (Datatypes.length (List.concat (map terminated comments)) <= fuel)%nat ->
  skip_comments fuel buf (List.concat (map terminated comments)) = LoopHangs.
Proof.
  intros Hc. revert buf fuel.
  induction Hc as [|c comments (Hcl & Hch) _ IH]; intros buf fuel Hbuf Hfuel.
  - destruct (Hbuf eq_refl) as (b & -> & Hb). cbn [map List.concat].
    destruct fuel; cbn; rewrite Hb; reflexivity.
  - cbn [map List.concat] in *.
    set (tl := List.concat (map terminated comments)) in *.
    destruct (terminated_nonempty c tl) as (x & t & E).
    rewrite length_terminated in Hfuel.
    destruct fuel as [|fuel]; [lia|].
    unfold skip_comments; fold skip_comments.
    rewrite E; rewrite <- E. rewrite (fgets_line buf c tl Hcl).
    assert (Hne : c <> []) by (intros ->; cbn in Hch; discriminate Hch).
    rewrite (first_char_terminated c Hne), Hch. cbn [Ascii.eqb Bool.eqb andb].
    apply IH; [|lia].
    intros _. exists (terminated c). split; [reflexivity|].
    rewrite (first_char_terminated c Hne). exact Hch.
Qed.

End PpmMore.

Section PpmMoreTheorems.
Import Ppm PpmSpec.
Local Open Scope Z_scope.

(** Whatever the file system holds, a call of [loadPPM] that returns does
    one of two things.  Either it returns the null pointer with both
    dimensions 0 and exactly one line logged; or it returns a buffer, logs
    nothing, and then the two dimensions are [int]s whose product times 3
    is positive and is the number of bytes in the buffer, and the buffer is
    a contiguous segment of the file. *)
Theorem loadPPM_returns_all_or_nothing (env : Env) (filename : string)
    (d : option (list ascii)) (w h : Z) (log : list string) :
  loadPPM env filename = Returned d w h log ->
  (d = None /\ w = 0 /\ h = 0 /\
   (log = [String.append msg_locate filename] \/ log = [msg_incomplete])) \/
  (exists data file,
     d = Some data /\ log = [] /\ fopen env filename = Some file /\
     segment_of data file /\
     Z.of_nat (Datatypes.length data) = w * h * 3 /\ 0 < w * h * 3 <= INT_MAX /\
     INT_MIN <= w <= INT_MAX /\ INT_MIN <= h <= INT_MAX).
Proof.
  unfold loadPPM. destruct (fopen env filename) as [fp|] eqn:Hopen.
  - destruct (read_header fp) as [w0 h0 r| |] eqn:Hh; [|discriminate|discriminate].
    intros H. apply read_data_returned in H.
    destruct (read_header_read fp w0 h0 r Hh) as (Hw & Hh0 & pre & Hpre).
    destruct H as [(-> & -> & -> & ->) | (data & -> & Ew & Eh & -> & Hd & Hlen & Hn)].
    + left. repeat apply conj; try reflexivity. right. reflexivity.
    + subst w h. right. exists data, fp.
      repeat apply conj; try reflexivity; try assumption;
        try apply Hn; try apply Hw; try apply Hh0.
      exists pre, (skipn (Z.to_nat (w0 * h0 * 3)) r).
      rewrite Hd, firstn_skipn. exact Hpre.
  - intros H. injection H as <- <- <- <-. left.
    repeat apply conj; try reflexivity. left. reflexivity.
Qed.


Lemma loadPPM_all_or_nothing_witness :
  loadPPM MoreExamples.ex_env2 "wall.ppm"
  = Returned (Some (Examples.bytes "abcdef")) 2 1 [] /\
  exists data file,
    Some (Examples.bytes "abcdef") = Some data /\ fopen MoreExamples.ex_env2 "wall.ppm" = Some file /\
    segment_of data file.
Proof.
  assert (H : loadPPM MoreExamples.ex_env2 "wall.ppm"
              = Returned (Some (Examples.bytes "abcdef")) 2 1 []) by reflexivity.
  split; [exact H|].
  destruct (loadPPM_returns_all_or_nothing MoreExamples.ex_env2 "wall.ppm" _ _ _ _ H)
    as [(Hd & _) | (data & file & Hd & _ & Hf & Hs & _)].
  - discriminate Hd.
  - exists data, file. repeat apply conj; assumption.
Defined.

(** A file with a well-formed header and at least [width * height * 3]
    bytes after it: [loadPPM] returns exactly the first that many bytes of
    the data, with the two dimensions of the header, and logs nothing.
    What follows those bytes in the file is ignored. *)
Theorem loadPPM_reads_complete_file (env : Env) (filename : string)
    (magic : list ascii) (comments1 : list (list ascii)) (wtok htok : list ascii)
    (comments2 : list (list ascii)) (maxval data : list ascii) (w h : Z) :
  fopen env filename = Some (ppm_file magic comments1 wtok htok comments2 maxval data) ->
  header_ok magic comments1 wtok htok comments2 maxval ->
  atoi (Some wtok) = Some w -> atoi (Some htok) = Some h ->
  0 < w * h * 3 <= INT_MAX -> w * h * 3 <= heap env ->
  w * h * 3 <= Z.of_nat (Datatypes.length data) ->
  loadPPM env filename
  = Returned (Some (firstn (Z.to_nat (w * h * 3)) data)) w h [].
Proof.
  intros Hopen Hok Hw Hh Hr Hheap Hlen.
  unfold loadPPM. rewrite Hopen, (read_header_ok _ _ _ _ _ _ _ Hok), Hw, Hh.
  apply read_data_complete; assumption.
Qed.


Ltac header_side :=
  match goal with
  | |- is_line _ => split; [unfold BUFSIZE; cbn; lia | cbn; intuition discriminate]
  | |- is_word _ => split; [discriminate | repeat constructor; discriminate]
  | |- Forall comment_line _ =>
      repeat constructor; first [unfold BUFSIZE; cbn; lia | cbn; intuition discriminate]
  | |- _ <> _ => discriminate
  | |- _ = _ => reflexivity
  | |- _ => first [ unfold INT_MAX; cbn; lia
                  | vm_compute; repeat split; first [reflexivity | discriminate] ]
  end.

Ltac split_all := repeat match goal with |- _ /\ _ => split end.

Lemma ex_header_ok :
  header_ok (Examples.bytes "P6") [Examples.bytes "# made by hand"]
            (Examples.bytes "2") (Examples.bytes "1") [] (Examples.bytes "255").
Proof. unfold header_ok. split_all; header_side. Qed.

Lemma ex_header_plain_ok :
  header_ok (Examples.bytes "P3") [] (Examples.bytes "2") (Examples.bytes "1") []
            (Examples.bytes "65535").
Proof. unfold header_ok. split_all; header_side. Qed.

Lemma loadPPM_reads_complete_witness :
  header_ok (Examples.bytes "P6") [Examples.bytes "# made by hand"]
            (Examples.bytes "2") (Examples.bytes "1") [] (Examples.bytes "255") /\
  loadPPM MoreExamples.ex_env2 "wall.ppm" = Returned (Some (Examples.bytes "abcdef")) 2 1 [].
Proof.
  split; [exact ex_header_ok|].
  apply (loadPPM_reads_complete_file MoreExamples.ex_env2 "wall.ppm"
           (Examples.bytes "P6") [Examples.bytes "# made by hand"]
           (Examples.bytes "2") (Examples.bytes "1") [] (Examples.bytes "255")
           (Examples.bytes "abcdefgh") 2 1);
    first [exact ex_header_ok | header_side].
Defined.

(** A header that ends in comment lines keeps [loadPPM] in one of its two
    loops for ever: at the end of the file [fgets] stores nothing, the
    buffer still begins with [#], and the loop tests it again.  This holds
    for comment lines right after the magic number, and for comment lines
    after the line of the dimensions. *)
Theorem loadPPM_hangs_on_trailing_comments (env : Env) (filename : string)
    (magic : list ascii) (comments : list (list ascii)) :
  is_line magic -> comments <> [] -> Forall comment_line comments ->
  (fopen env filename
   = Some (terminated magic ++ List.concat (map terminated comments)) ->
   loadPPM env filename = Hangs) /\
  (forall comments1 wtok htok w h,
     Forall comment_line comments1 ->
     is_word wtok -> is_word htok -> first_char wtok <> "#"%char ->
     is_line (wtok ++ " "%char :: htok) ->
     atoi (Some wtok) = Some w -> atoi (Some htok) = Some h ->
     fopen env filename
     = Some (terminated magic ++ List.concat (map terminated comments1)
             ++ terminated (wtok ++ " "%char :: htok)
             ++ List.concat (map terminated comments)) ->
     loadPPM env filename = Hangs).
Proof.
  intros Hm Hne Hc. split.
  - intros Hopen. unfold loadPPM. rewrite Hopen. unfold read_header.
    rewrite (fgets_line None magic _ Hm). unfold do_fgets_while_comment.
    rewrite (skip_comments_hangs comments _ _ Hc); [reflexivity| |apply Nat.le_refl].
    intros E. contradiction.
  - intros comments1 wtok htok w h Hc1 Hw Hh Hw1 Hdl Haw Hah Hopen.
    unfold loadPPM. rewrite Hopen. unfold read_header.
    rewrite (fgets_line None magic _ Hm). unfold do_fgets_while_comment.
    assert (Hd1 : first_char (terminated (wtok ++ " "%char :: htok)) <> "#"%char).
    { destruct Hw as (Hn0 & _). destruct wtok; [congruence|]. exact Hw1. }
    rewrite (skip_comments_lines comments1 (wtok ++ " "%char :: htok) _ _ _ Hc1 Hdl Hd1)
      by apply Nat.le_refl.
    rewrite (sscanf_dimensions wtok htok Hw Hh). rewrite Haw, Hah.
    rewrite (skip_comments_hangs comments _ _ Hc); [reflexivity| |apply Nat.le_refl].
    intros E. contradiction.
Qed.

Lemma ex_comment_lines :
  is_line (Examples.bytes "P6") /\ [Examples.bytes "# made by hand"] <> [] /\
  Forall comment_line [Examples.bytes "# made by hand"].
Proof. split_all; header_side. Qed.

Lemma loadPPM_hangs_witness :
  is_line (Examples.bytes "P6") /\ [Examples.bytes "# made by hand"] <> [] /\
  Forall comment_line [Examples.bytes "# made by hand"] /\
  loadPPM MoreExamples.ex_env2 "comment.ppm" = Hangs.
Proof.
  destruct ex_comment_lines as (H1 & H2 & H3).
  split; [exact H1|]. split; [exact H2|]. split; [exact H3|].
  exact (proj1 (loadPPM_hangs_on_trailing_comments MoreExamples.ex_env2 "comment.ppm"
                  (Examples.bytes "P6") [Examples.bytes "# made by hand"] H1 H2 H3)
               eq_refl).
Defined.


(** Once the header has been read, a size [width * height * 3] that is
    negative, or larger than what the heap can provide, makes
    [new unsigned char[]] throw; [loadPPM] has no handler, so the exception
    leaves it: nothing is logged and nothing is returned. *)
Theorem loadPPM_lets_allocation_failure_escape (env : Env) (filename : string)
    (fp rest : list ascii) (w h : Z) :
  fopen env filename = Some fp -> read_header fp = HeaderRead w h rest ->
  INT_MIN <= w * h <= INT_MAX -> INT_MIN <= w * h * 3 <= INT_MAX ->
  w * h * 3 < 0 \/ heap env < w * h * 3 ->
  loadPPM env filename = Throws.
Proof.
  intros Hopen Hhead H1 H2 Hbad.
  unfold loadPPM. rewrite Hopen, Hhead. unfold read_data, int_mul.
  apply in_int_bounds in H1, H2. rewrite H1, H2.
  destruct (w * h * 3 <? 0) eqn:E3; [reflexivity|].
  destruct (heap env <? w * h * 3) eqn:E4; [reflexivity|].
  apply Z.ltb_ge in E3, E4. lia.
Qed.

Lemma loadPPM_allocation_witness :
  loadPPM MoreExamples.ex_env2 "negative.ppm" = Throws.
Proof.
  apply (loadPPM_lets_allocation_failure_escape MoreExamples.ex_env2 "negative.ppm"
           Examples.ex_negative [] (-1) 1).
  - reflexivity.
  - vm_compute. reflexivity.
  - unfold INT_MIN, INT_MAX. lia.
  - unfold INT_MIN, INT_MAX. lia.
  - left. lia.
Defined.

(** [loadPPM] looks at nothing in a well-formed header but the two words
    of the dimensions: two files that agree on those and on the data give
    the same outcome, whatever their magic numbers, comment lines and
    maximal values are. *)
Theorem loadPPM_reads_only_dimensions_and_data (env : Env) (name1 name2 : string)
    (magic1 magic2 : list ascii) (c1 c1' c2 c2' : list (list ascii))
    (wtok htok maxval1 maxval2 data : list ascii) :
  fopen env name1 = Some (ppm_file magic1 c1 wtok htok c2 maxval1 data) ->
  fopen env name2 = Some (ppm_file magic2 c1' wtok htok c2' maxval2 data) ->
  header_ok magic1 c1 wtok htok c2 maxval1 ->
  header_ok magic2 c1' wtok htok c2' maxval2 ->
  loadPPM env name1 = loadPPM env name2.
Proof.
  intros Ho1 Ho2 Hk1 Hk2. unfold loadPPM.
  rewrite Ho1, Ho2, (read_header_ok _ _ _ _ _ _ _ Hk1), (read_header_ok _ _ _ _ _ _ _ Hk2).
  reflexivity.
Qed.

Lemma loadPPM_reads_only_witness :
  loadPPM MoreExamples.ex_env2 "wall.ppm" = loadPPM MoreExamples.ex_env2 "plain.ppm".
Proof.
  exact (loadPPM_reads_only_dimensions_and_data MoreExamples.ex_env2 "wall.ppm" "plain.ppm"
           (Examples.bytes "P6") (Examples.bytes "P3") [Examples.bytes "# made by hand"] []
           [] [] (Examples.bytes "2") (Examples.bytes "1") (Examples.bytes "255")
           (Examples.bytes "65535") (Examples.bytes "abcdefgh")
           eq_refl eq_refl ex_header_ok ex_header_plain_ok).
Defined.

(** A file that stops before the line of the dimensions leaves [loadPPM]
    without a defined outcome: with no byte at all the line buffer is
    tested before anything was stored in it, and with the magic number
    line alone [sscanf] stores one word at most, so [atoi] reads a buffer
    that was never written. *)
Theorem loadPPM_undefined_on_truncated_header (env : Env) (filename : string)
    (magic : list ascii) :
  is_line magic -> is_word magic -> first_char magic <> "#"%char ->
  (fopen env filename = Some [] -> loadPPM env filename = Undefined) /\
  (fopen env filename = Some (terminated magic) -> loadPPM env filename = Undefined).
Proof.
  intros Hl Hw Hc. split; intros Hopen; unfold loadPPM; rewrite Hopen.
  - reflexivity.
  - unfold read_header.
    pose proof (fgets_line None magic [] Hl) as Hg. rewrite app_nil_r in Hg. rewrite Hg.
    unfold do_fgets_while_comment. cbn [Datatypes.length skip_comments].
    destruct Hw as (Hne & Hall).
    rewrite (first_char_terminated magic Hne).
    apply Ascii.eqb_neq in Hc. rewrite Hc.
    assert (Hs : sscanf_s_s (cstr (terminated magic)) = (Some magic, None)).
    { rewrite cstr_no_NUL.
      - unfold sscanf_s_s, terminated.
        rewrite (scan_word_word magic [] newline (conj Hne Hall) eq_refl).
        reflexivity.
      - unfold terminated. rewrite Forall_app. split.
        + eapply Forall_impl; [|apply Hall]. intros a (_ & H). exact H.
        + constructor; [discriminate | constructor]. }
    rewrite Hs. destruct (atoi (Some magic)); reflexivity.
Qed.

Lemma ex_magic_word :
  is_line (Examples.bytes "P6") /\ is_word (Examples.bytes "P6") /\
  first_char (Examples.bytes "P6") <> "#"%char.
Proof. split_all; header_side. Qed.

Lemma loadPPM_truncated_header_witness :
  is_line (Examples.bytes "P6") /\ is_word (Examples.bytes "P6") /\
  first_char (Examples.bytes "P6") <> "#"%char /\
  loadPPM MoreExamples.ex_env2 "magic.ppm" = Undefined.
Proof.
  destruct ex_magic_word as (H1 & H2 & H3).
  split; [exact H1|]. split; [exact H2|]. split; [exact H3|].
  exact (proj2 (loadPPM_undefined_on_truncated_header MoreExamples.ex_env2 "magic.ppm"
                  (Examples.bytes "P6") H1 H2 H3) eq_refl).
Defined.

End PpmMoreTheorems.

Section CubemapTheorems.
Import Ppm PpmSpec Cubemap.
Local Open Scope Z_scope.

(** When the texture file cannot be opened, or its data is incomplete,
    [loadCubemap] still runs to its end: it logs the one line of [loadPPM],
    uploads an image of 0 x 0 pixels from the null pointer, releases the
    null pointer and unbinds the texture. *)
Theorem loadCubemap_degrades_to_empty_texture (env : Env) (fresh : Z) :
  fopen env texture_path = None \/
  (exists fp w h rest,
     fopen env texture_path = Some fp /\ read_header fp = HeaderRead w h rest /\
     0 <= w * h * 3 <= INT_MAX /\ w * h * 3 <= heap env /\
     Z.of_nat (Datatypes.length rest) < w * h * 3) ->
  exists line,
    loadCubemap env fresh
    = Done fresh
        [glGenTextures fresh; glBindTexture fresh; glTexImage2D 0 0 None;
         glGenerateMipmap;
         glTexParameteri GL_TEXTURE_MAG_FILTER GL_LINEAR;
         glTexParameteri GL_TEXTURE_MIN_FILTER GL_LINEAR_MIPMAP_LINEAR;
         free None; glBindTexture 0]
        [line].
Proof.
  intros [Hopen | (fp & w & h & rest & Hopen & Hhead & Hr & Hheap & Hshort)].
  - exists (String.append msg_locate texture_path).
    unfold loadCubemap, loadPPM. rewrite Hopen. reflexivity.
  - exists msg_incomplete.
    unfold loadCubemap, loadPPM. rewrite Hopen, Hhead.
    rewrite (read_data_short env w h rest Hr Hheap Hshort). reflexivity.
Qed.

Lemma loadCubemap_degrades_witness :
  exists line,
    loadCubemap MoreExamples.ex_env_empty 7
    = Done 7
        [glGenTextures 7; glBindTexture 7; glTexImage2D 0 0 None;
         glGenerateMipmap;
         glTexParameteri GL_TEXTURE_MAG_FILTER GL_LINEAR;
         glTexParameteri GL_TEXTURE_MIN_FILTER GL_LINEAR_MIPMAP_LINEAR;
         free None; glBindTexture 0]
        [line].
Proof.
  exact (loadCubemap_degrades_to_empty_texture MoreExamples.ex_env_empty 7
           (or_introl eq_refl)).
Defined.

(** With a complete texture file [loadCubemap] hands [free] the buffer that
    [loadPPM] obtained from [new unsigned char[]]; the language gives that
    no meaning, so the call has no defined outcome. *)
Theorem loadCubemap_frees_what_new_allocated (env : Env) (fresh : Z)
    (magic : list ascii) (comments1 : list (list ascii)) (wtok htok : list ascii)
    (comments2 : list (list ascii)) (maxval data : list ascii) (w h : Z) :
  fopen env texture_path
  = Some (ppm_file magic comments1 wtok htok comments2 maxval data) ->
  header_ok magic comments1 wtok htok comments2 maxval ->
  atoi (Some wtok) = Some w -> atoi (Some htok) = Some h ->
  0 < w * h * 3 <= INT_MAX -> w * h * 3 <= heap env ->
  w * h * 3 <= Z.of_nat (Datatypes.length data) ->
  loadCubemap env fresh = Undefined.
Proof.
  intros Hopen Hok Hw Hh Hr Hheap Hlen.
  unfold loadCubemap, loadPPM. rewrite Hopen, (read_header_ok _ _ _ _ _ _ _ Hok), Hw, Hh.
  rewrite (read_data_complete env w h data Hr Hheap Hlen). reflexivity.
Qed.


Lemma loadCubemap_frees_witness :
  header_ok (Examples.bytes "P6") [Examples.bytes "# made by hand"]
            (Examples.bytes "2") (Examples.bytes "1") [] (Examples.bytes "255") /\
  loadCubemap MoreExamples.ex_env2 7 = Undefined.
Proof.
  split; [exact ex_header_ok|].
  apply (loadCubemap_frees_what_new_allocated MoreExamples.ex_env2 7
           (Examples.bytes "P6") [Examples.bytes "# made by hand"]
           (Examples.bytes "2") (Examples.bytes "1") [] (Examples.bytes "255")
           (Examples.bytes "abcdefgh") 2 1).
  - reflexivity.
  - exact ex_header_ok.
  - reflexivity.
  - reflexivity.
  - unfold INT_MAX. lia.
  - vm_compute. discriminate.
  - vm_compute. discriminate.
Defined.

End CubemapTheorems.

(* ================================================================== *)
(** * The controller: SimApp::update over runs of frames              *)
(* ================================================================== *)

Section ControlFacts.
Import Glm Ovr Gl OffAxis Scene App Recorder Aux Watch.
Local Open Scope Z_scope.

(** The scene a frame leaves: the scene [update] leaves, with the current
    eye set and the re-roll applied, up to the lines. *)
Lemma frame_simScene (inp : FrameInput) (a : SimApp) :
  exists L1 L2,
    simScene (state_of (frame inp a))
    = set_lines L2 (reroll (set_curEyeIdx 1
        (set_lines L1 (reroll (set_curEyeIdx 0 (simScene (updated inp a))))))).
Proof.
  rewrite frame_state. cbv zeta.
  set (a0 := updated inp a). set (ep := eyePoses inp).
  set (aL := state_of (draw_eye ep ovrEye_Left a0)).
  destruct (simScene_after_eye ep ovrEye_Right aL) as [LR HR].
  destruct (simScene_after_eye ep ovrEye_Left a0) as [LL HL]. fold aL in HL.
  exists LL, LR. rewrite HR, HL. reflexivity.
Qed.

Lemma reroll_cube (s : SimScene) : cube_members (reroll s) = cube_members s.
Proof.
  unfold reroll. destruct ((buttonX s =? 1) && negb (randomGened s)); reflexivity.
Qed.

Lemma cube_set_lines (L : lineId -> Line) (s : SimScene) :
  cube_members (set_lines L s) = cube_members s.
Proof. reflexivity. Qed.

Lemma cube_set_curEyeIdx (i : Z) (s : SimScene) :
  cube_members (set_curEyeIdx i s) = cube_members s.
Proof. reflexivity. Qed.

(** Drawing leaves the cube where [update] put it. *)
Lemma frame_cube (inp : FrameInput) (a : SimApp) :
  cube_members (simScene (state_of (frame inp a)))
  = cube_members (simScene (updated inp a)).
Proof.
  destruct (frame_simScene inp a) as (L1 & L2 & ->).
  rewrite cube_set_lines, reroll_cube, cube_set_curEyeIdx, cube_set_lines, reroll_cube.
  apply cube_set_curEyeIdx.
Qed.


Lemma update_buttons_cube (i : ovrInputState) (s : SimScene) :
  cube_members (update_buttons i s) = cube_members s.
Proof.
  unfold update_buttons. destruct s. cbn -[Z.rem Z.add Rgtb button_down].
  destruct (button_down i ovrButton_A), buttonAPressed0,
           (button_down i ovrButton_B), buttonBPressed0,
           (button_down i ovrButton_X), buttonXPressed0,
           (Rgtb (atRight (HandTrigger i)) (1 / 2)); reflexivity.
Qed.

(** [update]'s assignments to [cubeSize], [cubeX] and [cubeZ]. *)
Lemma update_cube_members (i : ovrInputState) (s : SimScene) :
  cubeSize (update_cube i s)
  = (if button_down i ovrButton_LThumb then 3 / 100
     else if Rgtb (o2x (atLeft (Thumbstick i))) (1 / 2)
          then Rmin (cubeSize s + 1 / 1000) (1 / 10)
     else if Rltb (o2x (atLeft (Thumbstick i))) (- (1 / 2))
          then Rmax (cubeSize s - 1 / 1000) (1 / 1000)
     else cubeSize s)%R /\
  cubeX (update_cube i s)
  = (if button_down i ovrButton_RThumb then 0
     else if Rgtb (o2x (atRight (Thumbstick i))) (1 / 2) then cubeX s + 1 / 1000
     else if Rltb (o2x (atRight (Thumbstick i))) (- (1 / 2)) then cubeX s - 1 / 1000
     else cubeX s)%R /\
  cubeZ (update_cube i s)
  = (if button_down i ovrButton_RThumb then - (1 / 2)
     else if Rgtb (o2y (atRight (Thumbstick i))) (1 / 2) then cubeZ s - 1 / 1000
     else if Rltb (o2y (atRight (Thumbstick i))) (- (1 / 2)) then cubeZ s + 1 / 1000
     else cubeZ s)%R.
Proof.
  unfold update_cube. destruct s. cbn -[Rgtb Rltb button_down Rmin Rmax].
  destruct (button_down i ovrButton_RThumb), (button_down i ovrButton_LThumb),
           (Rgtb (o2x (atRight (Thumbstick i))) (1 / 2)),
           (Rltb (o2x (atRight (Thumbstick i))) (- (1 / 2))),
           (Rgtb (o2y (atRight (Thumbstick i))) (1 / 2)),
           (Rltb (o2y (atRight (Thumbstick i))) (- (1 / 2))),
           (Rgtb (o2x (atLeft (Thumbstick i))) (1 / 2)),
           (Rltb (o2x (atLeft (Thumbstick i))) (- (1 / 2)));
    repeat apply conj; reflexivity.
Qed.

Lemma simScene_updated (inp : FrameInput) (a : SimApp) :
  simScene (updated inp a) = updated_scene inp (simScene a).
Proof. rewrite updated_closed. apply set_simScene_fields. Qed.

(** The cube after [update], member by member. *)
Lemma updated_cube (inp : FrameInput) (a : SimApp) :
  let s := simScene a in
  let s0 := simScene (updated inp a) in
  match inputState inp with
  | Some i =>
      cubeSize s0 = cubeSize (update_cube i s) /\
      cubeX s0 = cubeX (update_cube i s) /\ cubeZ s0 = cubeZ (update_cube i s)
  | None => cubeSize s0 = cubeSize s /\ cubeX s0 = cubeX s /\ cubeZ s0 = cubeZ s
  end /\
  cube_toWorld s0
  = mul (translate_m (mat4_diag 1) (mkVec3 (cubeX s0) 0 (cubeZ s0)))
        (scale_m (mat4_diag 1) (mkVec3 (cubeSize s0) (cubeSize s0) (cubeSize s0))).
Proof.
  cbv zeta. rewrite simScene_updated. unfold updated_scene.
  destruct (inputState inp) as [i|].
  - pose proof (update_buttons_cube i (simScene a)) as Hb.
    destruct (update_cube_members i (update_buttons i (simScene a))) as (E1 & E2 & E3).
    destruct (update_cube_members i (simScene a)) as (F1 & F2 & F3).
    unfold cube_members in Hb. injection Hb as Hb1 Hb2 Hb3 _.
    cbn [cubeSize cubeX cubeZ cube_toWorld set_cube_toWorld].
    rewrite E1, E2, E3, F1, F2, F3, Hb1, Hb2, Hb3.
    repeat apply conj; reflexivity.
  - repeat apply conj; reflexivity.
Qed.


Lemma update_buttons_counters (i : ovrInputState) (s : SimScene) (b : button) :
  counter_of b (update_buttons i s)
  = (if button_down i (mask_of b) then counter_of b s
     else if pressed_of b s then Z.rem (counter_of b s + 1) (modulus_of b)
     else counter_of b s) /\
  pressed_of b (update_buttons i s) = button_down i (mask_of b).
Proof.
  unfold update_buttons. destruct s.
  destruct b; cbn -[Z.rem Z.add Rgtb button_down];
    destruct (button_down i ovrButton_A), buttonAPressed0,
             (button_down i ovrButton_B), buttonBPressed0,
             (button_down i ovrButton_X), buttonXPressed0,
             (Rgtb (atRight (HandTrigger i)) (1 / 2));
    split; reflexivity.
Qed.

Lemma update_cube_counters (i : ovrInputState) (s : SimScene) (b : button) :
  counter_of b (update_cube i s) = counter_of b s /\
  pressed_of b (update_cube i s) = pressed_of b s.
Proof.
  unfold update_cube. destruct s. destruct b; cbn -[Rgtb Rltb button_down];
  destruct (button_down i ovrButton_RThumb), (button_down i ovrButton_LThumb),
           (Rgtb (o2x (atRight (Thumbstick i))) (1 / 2)),
           (Rltb (o2x (atRight (Thumbstick i))) (- (1 / 2))),
           (Rgtb (o2y (atRight (Thumbstick i))) (1 / 2)),
           (Rltb (o2y (atRight (Thumbstick i))) (- (1 / 2))),
           (Rgtb (o2x (atLeft (Thumbstick i))) (1 / 2)),
           (Rltb (o2x (atLeft (Thumbstick i))) (- (1 / 2)));
    split; reflexivity.
Qed.

Lemma counters_of_flags (s1 s2 : SimScene) (b : button) :
  scene_flags s1 = scene_flags s2 ->
  buttonA s1 = buttonA s2 -> buttonAPressed s1 = buttonAPressed s2 ->
  counter_of b s1 = counter_of b s2 /\ pressed_of b s1 = pressed_of b s2.
Proof.
  intros Hf HA HAp. apply scene_flags_inv' in Hf.
  destruct Hf as (F1 & F2 & _ & F4 & F5).
  destruct b; split; assumption.
Qed.

Lemma scene_flags_A (s1 s2 : SimScene) :
  scene_flags s1 = scene_flags s2 ->
  buttonA s1 = buttonA s2 /\ buttonAPressed s1 = buttonAPressed s2.
Proof. unfold scene_flags. intros H. injection H. intros. split; assumption. Qed.

(** What one frame does to a button's counter and flag. *)
Lemma frame_button (inp : FrameInput) (a : SimApp) (b : button) :
  let s := simScene a in
  let s' := simScene (state_of (frame inp a)) in
  match inputState inp with
  | Some i =>
      counter_of b s'
      = (if button_down i (mask_of b) then counter_of b s
         else if pressed_of b s then Z.rem (counter_of b s + 1) (modulus_of b)
         else counter_of b s) /\
      pressed_of b s' = button_down i (mask_of b)
  | None => counter_of b s' = counter_of b s /\ pressed_of b s' = pressed_of b s
  end.
Proof.
  cbv zeta.
  destruct (frame_scene inp a) as (Hf & _).
  destruct (scene_flags_A _ _ Hf) as (HA & HAp).
  destruct (counters_of_flags _ _ b Hf HA HAp) as (-> & ->).
  rewrite simScene_updated. unfold updated_scene.
  destruct (inputState inp) as [i|].
  - destruct (update_cube_counters i (update_buttons i (simScene a)) b) as (E1 & E2).
    destruct (update_buttons_counters i (simScene a) b) as (E3 & E4).
    destruct b; cbn [counter_of pressed_of set_cube_toWorld buttonA buttonB buttonX
                     buttonAPressed buttonBPressed buttonXPressed] in *;
      rewrite E1, E2, E3, E4; split; reflexivity.
  - destruct b; split; reflexivity.
Qed.

End ControlFacts.

Section ControlTheorems.
Import Glm Ovr Gl OffAxis Scene App Recorder Aux Watch.
Local Open Scope Z_scope.

Lemma cubeSize_step (inp : FrameInput) (a : SimApp) :
  (1 / 1000 <= cubeSize (simScene a) <= 1 / 10)%R ->
  (1 / 1000 <= cubeSize (simScene (state_of (frame inp a))) <= 1 / 10)%R.
Proof.
  intros Hr.
  pose proof (frame_cube inp a) as Hc. unfold cube_members in Hc.
  injection Hc as Hs _ _ _. rewrite Hs.
  destruct (updated_cube inp a) as (Hu & _). cbv zeta in Hu.
  destruct (inputState inp) as [i|].
  - destruct Hu as (-> & _).
    destruct (update_cube_members i (simScene a)) as (-> & _).
    destruct (button_down i ovrButton_LThumb); [lra|].
    destruct (Rgtb (o2x (atLeft (Thumbstick i))) (1 / 2)).
    + unfold Rmin. destruct (Rle_dec _ _); lra.
    + destruct (Rltb (o2x (atLeft (Thumbstick i))) (- (1 / 2))); [|exact Hr].
      unfold Rmax. destruct (Rle_dec _ _); lra.
  - destruct Hu as (-> & _). exact Hr.
Qed.

(** Whatever the controller does, frame after frame, the size of the cube
    stays between 0.001 and 0.1 once it is there (it starts at 0.03). *)
Theorem cube_size_stays_in_range (inps : list FrameInput) (a : SimApp) :
  (1 / 1000 <= cubeSize (simScene a) <= 1 / 10)%R ->
  Forall (fun fr => (1 / 1000 <= cubeSize (simScene (fst fr)) <= 1 / 10)%R) (run inps a).
Proof.
  revert a. induction inps as [|inp rest IH]; intros a Hr; cbn [run]; constructor.
  - cbn [fst]. apply cubeSize_step. exact Hr.
  - apply IH. apply cubeSize_step. exact Hr.
Qed.

Lemma ex_cube_in_range : (1 / 1000 <= cubeSize (simScene Examples.ex_app) <= 1 / 10)%R.
Proof. cbn. lra. Qed.

Lemma cube_size_witness :
  (1 / 1000 <= cubeSize (simScene Examples.ex_app) <= 1 / 10)%R /\
  Forall (fun fr => (1 / 1000 <= cubeSize (simScene (fst fr)) <= 1 / 10)%R)
         (run [Examples.ex_f2; Examples.ex_f3] Examples.ex_app).
Proof.
  split; [exact ex_cube_in_range|].
  exact (cube_size_stays_in_range [Examples.ex_f2; Examples.ex_f3] Examples.ex_app
           ex_cube_in_range).
Defined.

(** After every frame the model matrix of the cube is the uniform scaling
    by [cubeSize] followed by the translation to (cubeX, 0, cubeZ), for the
    values of those members after that frame. *)
Theorem cube_matrix_follows_members (inp : FrameInput) (a : SimApp) :
  let s := simScene (state_of (frame inp a)) in
  cube_toWorld s
  = mat4_of (cubeSize s) 0 0 0
            0 (cubeSize s) 0 0
            0 0 (cubeSize s) 0
            (cubeX s) 0 (cubeZ s) 1.
Proof.
  cbv zeta.
  pose proof (frame_cube inp a) as Hc. unfold cube_members in Hc.
  injection Hc as Hs Hx Hz Hm. rewrite Hs, Hx, Hz, Hm.
  destruct (updated_cube inp a) as (_ & ->).
  generalize (cubeSize (simScene (updated inp a))) (cubeX (simScene (updated inp a)))
             (cubeZ (simScene (updated inp a))).
  intros c x z.
  apply mat4_eq; apply vec4_eq;
    cbv [mul mul_vec translate_m scale_m mat4_diag mat4_of add4 scale4
         col0 col1 col2 col3 v4x v4y v4z v4w v3x v3y v3z]; ring.
Qed.


Lemma hold_frame (b : button) (inp : FrameInput) (a : SimApp) :
  holds (mask_of b) inp ->
  counter_of b (simScene (state_of (frame inp a))) = counter_of b (simScene a) /\
  pressed_of b (simScene (state_of (frame inp a))) = true.
Proof.
  intros (i & Hi & Hd). pose proof (frame_button inp a b) as H. cbv zeta in H.
  rewrite Hi, Hd in H. exact H.
Qed.

Lemma release_frame (b : button) (inp : FrameInput) (a : SimApp) :
  releases (mask_of b) inp ->
  counter_of b (simScene (state_of (frame inp a)))
  = (if pressed_of b (simScene a)
     then Z.rem (counter_of b (simScene a) + 1) (modulus_of b)
     else counter_of b (simScene a)) /\
  pressed_of b (simScene (state_of (frame inp a))) = false.
Proof.
  intros (i & Hi & Hd). pose proof (frame_button inp a b) as H. cbv zeta in H.
  rewrite Hi, Hd in H. exact H.
Qed.

Lemma hold_run (b : button) (more : list FrameInput) (a : SimApp) :
  Forall (holds (mask_of b)) more -> pressed_of b (simScene a) = true ->
  Forall (fun fr => counter_of b (simScene (fst fr)) = counter_of b (simScene a))
         (run more a) /\
  counter_of b (simScene (last_state more a)) = counter_of b (simScene a) /\
  pressed_of b (simScene (last_state more a)) = true.
Proof.
  intros Hh. revert a. induction Hh as [|inp rest Hinp _ IH]; intros a Hp.
  - cbn. repeat apply conj; [constructor | reflexivity | exact Hp].
  - destruct (hold_frame b inp a Hinp) as (Hc & Hp1).
    destruct (IH _ Hp1) as (I1 & I2 & I3). rewrite Hc in I1, I2.
    cbn [run last_state fold_left]. repeat apply conj.
    + constructor; [exact Hc | exact I1].
    + exact I2.
    + exact I3.
Qed.

Lemma idle_run (b : button) (idle : list FrameInput) (a : SimApp) :
  Forall (releases (mask_of b)) idle -> pressed_of b (simScene a) = false ->
  Forall (fun fr => counter_of b (simScene (fst fr)) = counter_of b (simScene a))
         (run idle a).
Proof.
  intros Hh. revert a. induction Hh as [|inp rest Hinp _ IH]; intros a Hp.
  - constructor.
  - destruct (release_frame b inp a Hinp) as (Hc & Hp1). rewrite Hp in Hc.
    cbn [run]. constructor; [exact Hc|].
    specialize (IH _ Hp1). rewrite Hc in IH. exact IH.
Qed.

(** Each of the buttons A, B and X acts once per press, when it is let go.
    While the button is held, for however many frames, its counter (the
    view state, the tracking mode, the occlusion mode) keeps its value; the
    frame that sees it released advances the counter by one modulo 4 (A) or
    2 (B, X); and the frames after that, as long as the button stays up,
    leave the counter alone. *)
Theorem button_acts_once_per_press (b : button) (hold : FrameInput)
    (more : list FrameInput) (rel : FrameInput) (idle : list FrameInput) (a : SimApp) :
  holds (mask_of b) hold -> Forall (holds (mask_of b)) more ->
  releases (mask_of b) rel -> Forall (releases (mask_of b)) idle ->
  let n0 := counter_of b (simScene a) in
  let a1 := last_state (hold :: more) a in
  let a2 := state_of (frame rel a1) in
  Forall (fun fr => counter_of b (simScene (fst fr)) = n0) (run (hold :: more) a) /\
  counter_of b (simScene a2) = Z.rem (n0 + 1) (modulus_of b) /\
  Forall (fun fr => counter_of b (simScene (fst fr)) = Z.rem (n0 + 1) (modulus_of b))
         (run idle a2).
Proof.
  intros Hh Hm Hr Hi. cbv zeta.
  destruct (hold_frame b hold a Hh) as (Hc & Hp).
  destruct (hold_run b more _ Hm Hp) as (I1 & I2 & I3). rewrite Hc in I1, I2.
  cbn [run last_state fold_left].
  change (fold_left (fun st inp => state_of (frame inp st)) more
            (state_of (frame hold a)))
    with (last_state more (state_of (frame hold a))).
  destruct (release_frame b rel (last_state more (state_of (frame hold a))) Hr)
    as (Hc2 & Hp2).
  rewrite I3, I2 in Hc2.
  repeat apply conj.
  - constructor; [exact Hc | exact I1].
  - exact Hc2.
  - pose proof (idle_run b idle _ Hi Hp2) as H. rewrite Hc2 in H. exact H.
Qed.

Lemma ex_B_held : holds (mask_of button_B) Examples.ex_f3.
Proof. exists Examples.ex_B_down. split; reflexivity. Qed.

Lemma ex_B_released : releases (mask_of button_B) Examples.ex_f4.
Proof. exists Examples.ex_idle. split; reflexivity. Qed.

Lemma button_acts_once_witness :
  holds (mask_of button_B) Examples.ex_f3 /\ releases (mask_of button_B) Examples.ex_f4 /\
  counter_of button_B
    (simScene (state_of (frame Examples.ex_f4
                           (last_state [Examples.ex_f3; Examples.ex_f3] Examples.ex_app))))
  = Z.rem (counter_of button_B (simScene Examples.ex_app) + 1) (modulus_of button_B).
Proof.
  split; [exact ex_B_held|]. split; [exact ex_B_released|].
  exact (proj1 (proj2 (button_acts_once_per_press button_B Examples.ex_f3
                         [Examples.ex_f3] Examples.ex_f4 [Examples.ex_f4] Examples.ex_app
                         ex_B_held (Forall_cons _ ex_B_held (Forall_nil _))
                         ex_B_released (Forall_cons _ ex_B_released (Forall_nil _))))).
Defined.

Lemma rem_range (x k : Z) : 0 <= x -> 0 < k -> 0 <= Z.rem (x + 1) k < k.
Proof. intros Hx Hk. apply Z.rem_bound_pos; lia. Qed.

Lemma counter_step (b : button) (inp : FrameInput) (a : SimApp) :
  0 <= counter_of b (simScene a) < modulus_of b ->
  0 <= counter_of b (simScene (state_of (frame inp a))) < modulus_of b.
Proof.
  intros Hr. pose proof (frame_button inp a b) as H. cbv zeta in H.
  assert (Hk : 0 < modulus_of b) by (destruct b; reflexivity).
  destruct (inputState inp) as [i|]; destruct H as (-> & _); [|exact Hr].
  destruct (button_down i (mask_of b)); [exact Hr|].
  destruct (pressed_of b (simScene a)); [|exact Hr].
  apply rem_range; [apply Hr | exact Hk].
Qed.

(** The view state stays among 0..3 and the tracking mode and the occlusion
    mode among 0..1, whatever the controller reports, frame after frame. *)
Theorem counters_stay_in_range (b : button) (inps : list FrameInput) (a : SimApp) :
  0 <= counter_of b (simScene a) < modulus_of b ->
  Forall (fun fr => 0 <= counter_of b (simScene (fst fr)) < modulus_of b) (run inps a).
Proof.
  revert a. induction inps as [|inp rest IH]; intros a Hr; cbn [run]; constructor.
  - cbn [fst]. apply counter_step. exact Hr.
  - apply IH. apply counter_step. exact Hr.
Qed.

Lemma ex_counter_in_range :
  0 <= counter_of button_A (simScene Examples.ex_app) < modulus_of button_A.
Proof. cbn. lia. Qed.

Lemma counters_in_range_witness :
  0 <= counter_of button_A (simScene Examples.ex_app) < modulus_of button_A /\
  Forall (fun fr => 0 <= counter_of button_A (simScene (fst fr)) < modulus_of button_A)
         (run [Examples.ex_f2; Examples.ex_f3] Examples.ex_app).
Proof.
  split; [exact ex_counter_in_range|].
  exact (counters_stay_in_range button_A [Examples.ex_f2; Examples.ex_f3] Examples.ex_app
           ex_counter_in_range).
Defined.


(** A frame in which the controller cannot be read ([ovr_GetInputState]
    fails) works with what the last successful read left: the three
    counters and their flags, the trigger flag, the size and position of the
    cube and the pose of the right hand are all unchanged, so a hand
    substitution or a FROZEN mode in force stays in force. *)
Theorem failed_input_read_keeps_controls (inp : FrameInput) (a : SimApp) :
  inputState inp = None ->
  let s := simScene a in
  let a' := state_of (frame inp a) in
  let s' := simScene a' in
  (forall b, counter_of b s' = counter_of b s /\ pressed_of b s' = pressed_of b s) /\
  rightHandTriggerPressed s' = rightHandTriggerPressed s /\
  (cubeSize s' = cubeSize s /\ cubeX s' = cubeX s /\ cubeZ s' = cubeZ s) /\
  rightHandPose a' = rightHandPose a /\
  getTrackingState a' = getTrackingState a.
Proof.
  intros Hnone. cbv zeta. repeat apply conj.
  - intros b. pose proof (frame_button inp a b) as H. cbv zeta in H.
    rewrite Hnone in H. exact H.
  - destruct (frame_scene inp a) as (Hf & _). apply scene_flags_inv' in Hf.
    destruct Hf as (_ & _ & -> & _).
    rewrite simScene_updated. unfold updated_scene. rewrite Hnone. reflexivity.
  - pose proof (frame_cube inp a) as Hc. unfold cube_members in Hc.
    injection Hc as -> _ _ _.
    destruct (updated_cube inp a) as (Hu & _). cbv zeta in Hu. rewrite Hnone in Hu.
    apply Hu.
  - pose proof (frame_cube inp a) as Hc. unfold cube_members in Hc.
    injection Hc as _ -> _ _.
    destruct (updated_cube inp a) as (Hu & _). cbv zeta in Hu. rewrite Hnone in Hu.
    apply Hu.
  - pose proof (frame_cube inp a) as Hc. unfold cube_members in Hc.
    injection Hc as _ _ -> _.
    destruct (updated_cube inp a) as (Hu & _). cbv zeta in Hu. rewrite Hnone in Hu.
    apply Hu.
  - destruct (frame_hand inp a) as (_ & _ & ->).
    rewrite updated_closed. unfold updated_hand. rewrite Hnone. reflexivity.
  - pose proof (frame_button inp a button_B) as H. cbv zeta in H.
    rewrite Hnone in H. apply H.
Qed.

Lemma failed_input_read_witness :
  inputState (mkFrameInput None Examples.ex_pose0
                (mkPerEye Examples.ex_head_a Examples.ex_head_a) 40 41) = None /\
  rightHandPose (state_of (frame (mkFrameInput None Examples.ex_pose0
                                    (mkPerEye Examples.ex_head_a Examples.ex_head_a) 40 41)
                             Examples.ex_a2))
  = rightHandPose Examples.ex_a2.
Proof.
  split; [reflexivity|].
  exact (proj1 (proj2 (proj2 (proj2
    (failed_input_read_keeps_controls
       (mkFrameInput None Examples.ex_pose0
          (mkPerEye Examples.ex_head_a Examples.ex_head_a) 40 41)
       Examples.ex_a2 eq_refl))))).
Defined.

End ControlTheorems.

(* ================================================================== *)
(** * What RiftApp::draw hands on and records                         *)
(* ================================================================== *)

Section DrawFacts.
Import Glm Ovr Gl OffAxis Scene App Recorder Aux Watch.
Local Open Scope Z_scope.

Lemma eye_trace_no_offsets ep eye a :
  collect eyePoses_offsets (eye_trace ep eye a) = [].
Proof.
  unfold eye_trace. cbv zeta. rewrite !collect_app.
  rewrite (collect_of_emits eyePoses_offsets (preRender _ _ _ _ _)) by emits.
  rewrite (collect_of_emits eyePoses_offsets (render _ _ _)) by emits.
  reflexivity.
Qed.

Lemma frame_offsets (inp : FrameInput) (a : SimApp) :
  collect eyePoses_offsets (trace_of (frame inp a)) = [renderEyeOffset a].
Proof.
  rewrite frame_trace. cbv zeta. rewrite !collect_app, !eye_trace_no_offsets.
  unfold draw_head, draw_tail. cbn [collect eyePoses_offsets app].
  rewrite renderEyeOffset_updated. reflexivity.
Qed.

Lemma clamp_bounds (x lo hi : R) : (lo <= hi)%R -> (lo <= Rmin (Rmax x lo) hi <= hi)%R.
Proof.
  intros H. unfold Rmin, Rmax.
  destruct (Rle_dec x lo); destruct (Rle_dec _ hi); lra.
Qed.


Lemma Forall_emits {S A} (Q : event -> Prop) (m : Act S A) (s : S) :
  emits_only Q m -> Forall Q (trace_of (m s)).
Proof. intros H. apply H. Qed.

Lemma eye_trace_not_present ep eye a :
  Forall (fun e => is_present e = false) (eye_trace ep eye a).
Proof.
  unfold eye_trace. cbv zeta. rewrite !Forall_app. repeat apply conj.
  - repeat constructor.
  - apply Forall_emits. emits.
  - repeat constructor.
  - apply Forall_emits. emits.
Qed.


Lemma RenderPose_set_simScene (s : SimScene) (a : SimApp) :
  RenderPose (set_simScene s a) = RenderPose a.
Proof. reflexivity. Qed.

Lemma RenderPose_offscreen_app (a : SimApp) :
  RenderPose (offscreen_app a) = RenderPose a.
Proof.
  unfold offscreen_app.
  destruct (rightHandTriggerPressed (simScene a) && (getTrackingState a =? 0));
    reflexivity.
Qed.

Lemma RenderPose_before_offscreen ep eye a :
  RenderPose (before_offscreen ep eye a) = set_eye (RenderPose a) eye (at_eye ep eye).
Proof. unfold before_offscreen. rewrite resolve_eye_closed. reflexivity. Qed.

(** One iteration of the eye loop stores the tracked pose of its eye in the
    layer that is submitted. *)
Lemma RenderPose_after_eye ep eye a :
  RenderPose (state_of (draw_eye ep eye a)) = set_eye (RenderPose a) eye (at_eye ep eye).
Proof.
  destruct (draw_eye_state ep eye a) as [L ->].
  rewrite RenderPose_set_simScene, RenderPose_offscreen_app.
  apply RenderPose_before_offscreen.
Qed.


Lemma preRender_collect_args P mv f vp e s :
  collect preRender_args (trace_of (preRender P mv f vp e s)) = [(mv, e)].
Proof.
  unfold preRender. rewrite collect_emit_bind. cbn [collect preRender_args app].
  f_equal. apply collect_of_emits. emits.
Qed.

Lemma eye_trace_preRender_args ep eye a :
  collect preRender_args (eye_trace ep eye a)
  = [offscreen_view (toGlm (resolved_pose ep eye a))
       (toGlm_vec (Position (resolved_pose ep eye a)))
       (before_offscreen ep eye a)].
Proof.
  unfold eye_trace. cbv zeta. rewrite !collect_app.
  rewrite preRender_collect_args.
  rewrite (collect_of_emits preRender_args (render _ _ _)) by emits.
  cbn [collect preRender_args app].
  destruct (offscreen_view _ _ _). reflexivity.
Qed.

(** The view matrix and eye position [offscreenRender] passes on, for the
    state in which an iteration of the eye loop starts. *)
Lemma offscreen_view_closed (H : mat4) (e : vec3) (ep : PerEye ovrPosef)
    (eye : ovrEyeType) (a : SimApp) :
  offscreen_view H e (before_offscreen ep eye a)
  = if rightHandTriggerPressed (simScene a)
    then (inverse (set_col3 (mat4_diag 1) (hand_column a)),
          substituted_eyePos (hand_column a) a eye)
    else (inverse H, e).
Proof.
  destruct (before_offscreen_config ep eye a) as (Hc & Hr & Hl & _).
  apply config_inv in Hc. destruct Hc as (_ & _ & _ & _ & _ & Hd).
  unfold offscreen_view, hand_column, getTrackingState, getDefaultIOD, substituted_eyePos.
  rewrite simScene_before_offscreen, Hr, Hl, Hd.
  change (rightHandTriggerPressed (set_curEyeIdx ?i ?s)) with (rightHandTriggerPressed s).
  change (buttonB (set_curEyeIdx ?i ?s)) with (buttonB s).
  change (curEyeIdx (set_curEyeIdx ?i ?s)) with i.
  destruct (rightHandTriggerPressed (simScene a)); [|reflexivity].
  destruct eye; reflexivity.
Qed.

(** What a frame hands to [preRender], eye by eye. *)
Lemma frame_preRender_args (inp : FrameInput) (a : SimApp) :
  let a0 := updated inp a in
  let pL := resolved_pose (eyePoses inp) ovrEye_Left a0 in
  let pR := resolved_pose (eyePoses inp) ovrEye_Right a0 in
  collect preRender_args (trace_of (frame inp a))
  = if rightHandTriggerPressed (simScene a0)
    then [(inverse (set_col3 (mat4_diag 1) (hand_column a0)),
           substituted_eyePos (hand_column a0) a ovrEye_Left);
          (inverse (set_col3 (mat4_diag 1) (hand_column a0)),
           substituted_eyePos (hand_column a0) a ovrEye_Right)]
    else [(inverse (toGlm pL), toGlm_vec (Position pL));
          (inverse (toGlm pR), toGlm_vec (Position pR))].
Proof.
  cbv zeta. rewrite frame_trace. cbv zeta.
  set (a0 := updated inp a). set (ep := eyePoses inp).
  set (aL := state_of (draw_eye ep ovrEye_Left a0)).
  destruct (draw_eye_config ep ovrEye_Left a0) as (CL & _ & FL & RL).
  fold aL in CL, FL, RL.
  apply config_inv in CL. destruct CL as (_ & _ & _ & _ & _ & DL).
  apply scene_flags_inv in FL. destruct FL as (_ & FB & _ & FT).
  destruct (updated_config inp a) as (C0 & _ & _ & _ & L0). fold a0 in C0, L0.
  apply config_inv in C0. destruct C0 as (_ & _ & _ & _ & _ & D0).
  pose proof (draw_eye_hand ep ovrEye_Left a0) as HL. fold aL in HL.
  assert (Ht : getTrackingState aL = getTrackingState a0) by (unfold getTrackingState; exact FB).
  assert (Hcol : hand_column aL = hand_column a0).
  { apply hand_column_ext; [exact Ht | exact RL |].
    intros Hne. rewrite HL. apply Z.eqb_neq in Hne. rewrite Hne, andb_false_r. reflexivity. }
  rewrite !collect_app, !eye_trace_preRender_args, !offscreen_view_closed.
  unfold draw_head, draw_tail. cbn [collect preRender_args app].
  assert (HRP : resolved_pose ep ovrEye_Right aL = resolved_pose ep ovrEye_Right a0).
  { destruct (draw_eye_poses ep ovrEye_Left a0) as (Hl & _ & Hi). fold aL in Hl, Hi.
    apply resolved_pose_ext; [rewrite Hi | rewrite Hl | exact Ht]; reflexivity. }
  rewrite FT, Hcol, HRP.
  unfold substituted_eyePos. rewrite DL, D0.
  destruct (rightHandTriggerPressed (simScene a0)); reflexivity.
Qed.

Lemma set_col3_translate (x y z : R) :
  set_col3 (mat4_diag 1) (mkVec4 x y z 1) = translate (mkVec3 x y z).
Proof.
  apply mat4_eq; apply vec4_eq;
    cbv [set_col3 translate translate_m mat4_diag mat4_of add4 scale4
         col0 col1 col2 col3 v4x v4y v4z v4w v3x v3y v3z]; ring.
Qed.

End DrawFacts.

Section DrawTheorems.
Import Glm Ovr Gl OffAxis Scene App Recorder Aux Watch.
Local Open Scope Z_scope.

(** Every frame asks the tracking runtime for the eye poses once, and the
    offsets it passes have x within -0.3..0 for the left eye and within
    0..0.3 for the right eye, whatever the headset reported and whatever
    the IOD adjustment is; their y and z are the headset's. *)
Theorem eye_offsets_are_clamped (inp : FrameInput) (a : SimApp) :
  exists o,
    collect eyePoses_offsets (trace_of (frame inp a)) = [o] /\
    (- (3 / 10) <= ovx (atLeft o) <= 0)%R /\ (0 <= ovx (atRight o) <= 3 / 10)%R /\
    ovy (atLeft o) = ovy (atLeft (HmdToEyeOffset a)) /\
    ovz (atLeft o) = ovz (atLeft (HmdToEyeOffset a)) /\
    ovy (atRight o) = ovy (atRight (HmdToEyeOffset a)) /\
    ovz (atRight o) = ovz (atRight (HmdToEyeOffset a)).
Proof.
  exists (renderEyeOffset a). split; [apply frame_offsets|].
  unfold renderEyeOffset. cbn [atLeft atRight ovx ovy ovz].
  repeat apply conj; try reflexivity; try (apply clamp_bounds; lra).
Qed.


(** The order in which a frame ends.  All its clears and draws come first;
    then the colour attachment is taken off the framebuffer and the
    framebuffer is unbound; then the swap chain is committed and, directly
    after, the frame is submitted, each exactly once; what follows (the blit
    to the mirror window) neither draws into the frame nor commits or
    submits again. *)
Theorem frame_presents_after_all_drawing (inp : FrameInput) (a : SimApp) :
  exists body rest,
    trace_of (frame inp a)
    = body
      ++ [glFramebufferTexture2D GL_DRAW_FRAMEBUFFER 0;
          glBindFramebuffer GL_DRAW_FRAMEBUFFER 0;
          ovr_CommitTextureSwapChain; ovr_SubmitFrame]
      ++ rest /\
    Forall (fun e => is_present e = false) body /\
    Forall (fun e => is_present e = false /\ is_draw_or_clear e = false) rest.
Proof.
  rewrite frame_trace. cbv zeta.
  set (a0 := updated inp a).
  set (aL := state_of (draw_eye (eyePoses inp) ovrEye_Left a0)).
  exists (draw_head inp a0 ++ eye_trace (eyePoses inp) ovrEye_Left a0
          ++ eye_trace (eyePoses inp) ovrEye_Right aL),
         [glBindFramebuffer GL_READ_FRAMEBUFFER (_mirrorFbo a0);
          glFramebufferTexture2D GL_READ_FRAMEBUFFER (mirrorTextureId inp);
          glBlitFramebuffer;
          glBindFramebuffer GL_READ_FRAMEBUFFER 0].
  repeat apply conj.
  - unfold draw_tail. rewrite <- !app_assoc. reflexivity.
  - rewrite !Forall_app. repeat apply conj.
    + unfold draw_head. repeat constructor.
    + apply eye_trace_not_present.
    + apply eye_trace_not_present.
  - repeat constructor.
Qed.


(** The poses a frame leaves behind.  The layer submitted to the compositor
    carries the tracked pose of each eye as the runtime reported it for
    this frame, in LIVE and in FROZEN mode and with or without the hand
    substituted; and [lastEye] and [renderEye] hold one and the same pose
    for each eye, with both eyes marked as initialised. *)
Theorem frame_submits_tracked_poses (inp : FrameInput) (a : SimApp) :
  let a' := state_of (frame inp a) in
  RenderPose a' = eyePoses inp /\
  lastEye a' = renderEye a' /\
  initLastEye a' = mkPerEye true true.
Proof.
  cbv zeta. destruct (frame_poses inp a) as (_ & Hl & Hr & Hi & _).
  cbv zeta in Hl, Hr. repeat apply conj.
  - rewrite frame_state. cbv zeta. rewrite !RenderPose_after_eye.
    destruct (eyePoses inp) as [pl pr]. reflexivity.
  - rewrite Hl, Hr. reflexivity.
  - exact Hi.
Qed.


(** Without the hand substituted, the offscreen pass of each eye looks
    through the inverse of the very pose [offscreenRender] was handed, from
    the eye position it was handed. *)
Theorem offscreen_pass_views_through_given_pose (inp : FrameInput) (a : SimApp) :
  rightHandTriggerPressed (simScene (updated inp a)) = false ->
  collect preRender_args (trace_of (frame inp a))
  = map (fun x => (inverse (fst x), snd x))
        (collect offscreen_args (trace_of (frame inp a))).
Proof.
  intros Ht. rewrite frame_preRender_args. cbv zeta. rewrite Ht.
  destruct (frame_poses inp a) as (-> & _). reflexivity.
Qed.

Lemma ex_idle_no_trigger :
  rightHandTriggerPressed (simScene (updated Examples.ex_f4 Examples.ex_app)) = false.
Proof.
  destruct (updated_scene_some Examples.ex_f4 Examples.ex_idle Examples.ex_app eq_refl)
    as (_ & _ & _ & _ & _ & H & _).
  cbv zeta in H. rewrite H. unfold Rgtb. cbn [Examples.ex_idle HandTrigger atRight].
  destruct (Rlt_dec (1 / 2) 0) as [Hlt|]; [lra | reflexivity].
Qed.

Lemma offscreen_pass_views_witness :
  rightHandTriggerPressed (simScene (updated Examples.ex_f4 Examples.ex_app)) = false /\
  collect preRender_args (trace_of (frame Examples.ex_f4 Examples.ex_app))
  = map (fun x => (inverse (fst x), snd x))
        (collect offscreen_args (trace_of (frame Examples.ex_f4 Examples.ex_app))).
Proof.
  split; [exact ex_idle_no_trigger|].
  exact (offscreen_pass_views_through_given_pose Examples.ex_f4 Examples.ex_app
           ex_idle_no_trigger).
Defined.

(** With the hand substituted, the view matrix of the offscreen pass is the
    plain translation by minus the hand position, the same for both eyes:
    no rotation of the head or of the hand enters it, and neither does the
    per-eye offset, which is added to the eye position only. *)
Theorem hand_substitution_view_is_translation (inp : FrameInput) (a : SimApp) :
  let a0 := updated inp a in
  let h := hand_column a0 in
  rightHandTriggerPressed (simScene a0) = true -> v4w h = 1%R ->
  collect preRender_args (trace_of (frame inp a))
  = [(translate (mkVec3 (- v4x h) (- v4y h) (- v4z h)),
      mkVec3 (v4x h + atLeft (defaultHmdToEyeOffset a)) (v4y h) (v4z h));
     (translate (mkVec3 (- v4x h) (- v4y h) (- v4z h)),
      mkVec3 (v4x h + atRight (defaultHmdToEyeOffset a)) (v4y h) (v4z h))].
Proof.
  cbv zeta. intros Ht Hw. rewrite frame_preRender_args. cbv zeta. rewrite Ht.
  destruct (hand_column (updated inp a)) as [x y z w]. cbn [v4x v4y v4z v4w] in *.
  subst w. rewrite set_col3_translate, inverse_translate. reflexivity.
Qed.

Lemma ex_trigger_live :
  rightHandTriggerPressed (simScene (updated Examples.ex_f2 Examples.ex_app)) = true /\
  v4w (hand_column (updated Examples.ex_f2 Examples.ex_app)) = 1%R.
Proof.
  destruct (frame_summary Examples.ex_f2 Examples.ex_trigger Examples.ex_app eq_refl)
    as (Hm & Htr & Hh & _).
  cbv zeta in Hm, Htr, Hh. split.
  - rewrite Htr. unfold Rgtb. cbn [Examples.ex_trigger HandTrigger atRight].
    destruct (Rlt_dec (1 / 2) 1) as [|Hn]; [reflexivity | lra].
  - assert (H0 : getTrackingState (updated Examples.ex_f2 Examples.ex_app) = 0)
      by (rewrite Hm; reflexivity).
    unfold hand_column. rewrite H0. cbn [Z.eqb].
    rewrite Hh, toGlm_col3. reflexivity.
Qed.

Lemma hand_substitution_view_witness :
  rightHandTriggerPressed (simScene (updated Examples.ex_f2 Examples.ex_app)) = true /\
  v4w (hand_column (updated Examples.ex_f2 Examples.ex_app)) = 1%R /\
  exists m e1 e2,
    collect preRender_args (trace_of (frame Examples.ex_f2 Examples.ex_app))
    = [(m, e1); (m, e2)].
Proof.
  destruct ex_trigger_live as (H1 & H2).
  split; [exact H1|]. split; [exact H2|].
  eexists _, _, _.
  exact (hand_substitution_view_is_translation Examples.ex_f2 Examples.ex_app H1 H2).
Defined.

End DrawTheorems.

(* ================================================================== *)
(** * Where the draw calls of a frame land                            *)
(* ================================================================== *)

Section PlacementFacts.
Import Glm Ovr Gl OffAxis Scene App Recorder Aux Watch Placement.
Local Open Scope Z_scope.

Lemma watched_app (g : watchState) (t1 t2 : list event) :
  watched g (t1 ++ t2) = watched g t1 ++ watched (watch_final g t1) t2.
Proof.
  revert g. induction t1 as [|e t1 IH]; intros g; cbn; [reflexivity|].
  rewrite IH. reflexivity.
Qed.

Lemma watch_final_app (g : watchState) (t1 t2 : list event) :
  watch_final g (t1 ++ t2) = watch_final (watch_final g t1) t2.
Proof. unfold watch_final. apply fold_left_app. Qed.

Lemma watch_step_keeps (g : watchState) (e : event) :
  keeps_watch e = true -> watch_step g e = g.
Proof.
  destruct e; cbn; try discriminate; try reflexivity.
  destruct target; cbn; try discriminate. reflexivity.
Qed.

Lemma watched_keeps (g : watchState) (tr : list event) :
  Forall (fun e => keeps_watch e = true) tr ->
  Forall (fun x => fst x = g) (watched g tr) /\ watch_final g tr = g.
Proof.
  intros H. revert g. induction H as [|e tr He _ IH]; intros g; cbn.
  - split; [constructor | reflexivity].
  - unfold watch_final. cbn [fold_left]. rewrite (watch_step_keeps g e He).
    destruct (IH g) as (I1 & I2).
    split; [constructor; [reflexivity | exact I1] | exact I2].
Qed.

(** [render] rebinds no framebuffer, sets no viewport and announces no eye. *)
Lemma render_keeps_watch (P mv : mat4) (e : vec3) :
  emits_only (fun ev => keeps_watch ev = true) (render P mv e).
Proof. emits. Qed.

Lemma watched_const (Q : watchState * event -> Prop) (g : watchState) (tr : list event) :
  Forall (fun e => keeps_watch e = true) tr -> Forall (fun e => Q (g, e)) tr ->
  Forall Q (watched g tr).
Proof.
  intros Hk. induction Hk as [|e tr He _ IH]; intros HQ; cbn; [constructor|].
  inversion HQ as [|x l Hx Hl]; subst.
  rewrite (watch_step_keeps g e He). constructor; [exact Hx | apply IH; exact Hl].
Qed.

(** The composite pass draws where it finds the state. *)
Lemma render_placed (a : SimApp) (P mv : mat4) (e : vec3) (s : SimScene) (g : watchState) :
  in_eye_viewport a g ->
  Forall (well_placed a) (watched g (trace_of (render P mv e s))) /\
  watch_final g (trace_of (render P mv e s)) = g.
Proof.
  intros Hg.
  pose proof (render_keeps_watch P mv e s) as Hk.
  split; [|apply (watched_keeps g _ Hk)].
  apply watched_const; [exact Hk|].
  assert (Hev : Forall (fun ev => match ev with
                                  | Skybox_draw the_skybox _ _ _ | Cube_draw _ _ _ => False
                                  | _ => True
                                  end) (trace_of (render P mv e s))).
  { apply (Forall_emits _ (render P mv e) s). emits. }
  eapply Forall_impl; [|exact Hev].
  intros ev Hne. unfold well_placed. cbn [fst snd].
  destruct ev; try exact I; try exact Hg.
  - destruct s0; [contradiction | exact Hg].
  - contradiction.
Qed.

(** The offscreen pass binds a face target and sets the viewport of its
    texture before each of its draws, and ends with the framebuffer and the
    viewport it was given. *)
Lemma preRender_placed (a : SimApp) (P mv : mat4) (f : Z) (vp : ovrRecti) (e : vec3)
    (s : SimScene) (g : watchState) :
  same_targets (simScene a) s ->
  Forall (well_placed a) (watched g (trace_of (preRender P mv f vp e s))) /\
  watch_final g (trace_of (preRender P mv f vp e s))
  = mkWatch f (Some (rect_of vp)) (w_eye g).
Proof.
  intros (E1 & E2 & E3 & _).
  unfold well_placed, in_face_target. rewrite E1, E2, E3.
  generalize (simScene a). intros _.
  destruct s. unfold preRender, watch_final. run_scene. split_conds.
  all: split; [|reflexivity].
  all: repeat (constructor; cbn [fst snd w_fbo w_viewport];
               try exact I;
               try (split; [first [ left; reflexivity
                                  | right; left; reflexivity
                                  | right; right; reflexivity ]
                           | reflexivity ])).
Qed.


Lemma same_targets_of_config (s1 s2 : SimScene) (i : Z) :
  scene_config s2 = scene_config s1 -> same_targets s1 (set_curEyeIdx i s2).
Proof.
  intros H. apply scene_config_inv in H.
  destruct H as (E1 & E2 & E3 & E4 & E5 & E6 & _).
  unfold same_targets. cbn [lFBO rFBO bFBO lrenderedTexture rrenderedTexture
                            brenderedTexture set_curEyeIdx].
  rewrite E1, E2, E3, E4, E5, E6. repeat apply conj; reflexivity.
Qed.

(** One iteration of the eye loop. *)
Lemma eye_trace_placed (a a0 : SimApp) (ep : PerEye ovrPosef) (eye : ovrEyeType)
    (g : watchState) :
  config a0 = config a -> scene_config (simScene a0) = scene_config (simScene a) ->
  Forall (well_placed a) (watched g (eye_trace ep eye a0)).
Proof.
  intros Hc Hs. apply config_inv in Hc. destruct Hc as (Hf & _ & _ & Hv & _).
  unfold eye_trace. cbv zeta.
  set (P := at_eye (_eyeProjections a0) eye).
  set (vp := at_eye (Viewport a0) eye).
  set (re := resolved_pose ep eye a0).
  set (v := offscreen_view (toGlm re) (toGlm_vec (Position re)) (before_offscreen ep eye a0)).
  set (s1 := set_curEyeIdx (eye_index eye) (simScene a0)).
  set (orig := toGlm_vec (Position (at_eye ep eye))).
  set (four := [call_currentEye eye; Skybox_useCubemap the_skybox (eye_index eye);
                glViewport (Pos_x vp) (Pos_y vp) (Size_w vp) (Size_h vp);
                call_offscreenRender P (toGlm re) (_fbo a0) vp (toGlm_vec (Position re))]).
  set (pre := trace_of (preRender P (fst v) (_fbo a0) vp (snd v) s1)).
  assert (Hg1 : watch_final g four = mkWatch (w_fbo g) (Some (rect_of vp)) (Some eye))
    by reflexivity.
  destruct (preRender_placed a P (fst v) (_fbo a0) vp (snd v) s1 (watch_final g four)
              (same_targets_of_config _ _ _ Hs)) as (Hpre & Hfin).
  fold pre in Hpre, Hfin.
  rewrite (watched_app g four), (watched_app _ pre).
  rewrite (watched_app _ [call_renderScene P (toGlm (at_eye ep eye)) orig]).
  rewrite !Forall_app. repeat apply conj.
  - unfold four. cbn [watched]. repeat constructor.
  - exact Hpre.
  - cbn [watched]. repeat constructor.
  - change (watch_final (watch_final (watch_final g four) pre)
              [call_renderScene P (toGlm (at_eye ep eye)) orig])
      with (watch_step (watch_final (watch_final g four) pre)
              (call_renderScene P (toGlm (at_eye ep eye)) orig)).
    rewrite Hfin, Hg1. cbn [watch_step w_eye].
    apply render_placed. unfold in_eye_viewport. cbn [w_fbo w_eye w_viewport].
    split; [exact Hf|]. exists eye. split; [reflexivity|].
    unfold vp. rewrite Hv. reflexivity.
Qed.

End PlacementFacts.

Section PlacementTheorems.
Import Glm Ovr Gl OffAxis Scene App Recorder Aux Watch Placement.
Local Open Scope Z_scope.

(** Every draw call of a frame lands where it belongs, whatever was bound
    before the frame.  The scene's skybox and cube are drawn while one of
    the three face framebuffers is bound and the viewport is that of their
    2048 x 2048 textures; the composite skybox, the three cave quads and the
    lines are drawn while the swap-chain framebuffer is bound and the
    viewport is that of the current eye, although the offscreen pass has
    rebound and resized in between. *)
Theorem every_draw_lands_in_its_target (inp : FrameInput) (a : SimApp) (g0 : watchState) :
  Forall (well_placed a) (watched g0 (trace_of (frame inp a))).
Proof.
  rewrite frame_trace. cbv zeta.
  set (a0 := updated inp a). set (ep := eyePoses inp).
  set (aL := state_of (draw_eye ep ovrEye_Left a0)).
  destruct (updated_config inp a) as (C0 & _). fold a0 in C0.
  pose proof (updated_scene_config inp a) as S0. fold a0 in S0.
  destruct (draw_eye_config ep ovrEye_Left a0) as (CL & SL & _). fold aL in CL, SL.
  assert (CL' : config aL = config a) by (rewrite CL; exact C0).
  assert (SL' : scene_config (simScene aL) = scene_config (simScene a))
    by (rewrite SL; exact S0).
  rewrite (watched_app g0 (draw_head inp a0)).
  rewrite (watched_app _ (eye_trace ep ovrEye_Left a0)).
  rewrite (watched_app _ (eye_trace ep ovrEye_Right aL)).
  rewrite !Forall_app. repeat apply conj.
  - unfold draw_head. cbn [watched]. repeat constructor.
  - apply eye_trace_placed; assumption.
  - apply eye_trace_placed; assumption.
  - unfold draw_tail. cbn [watched]. repeat constructor.
Qed.

End PlacementTheorems.

(* ================================================================== *)
(** * The offscreen pass: its lines and its scene draws              *)
(* ================================================================== *)

Section LineFacts.
Import Glm Ovr Gl OffAxis Scene App Recorder Aux Watch LineSpec.
Local Open Scope Z_scope.

Lemma lineId_eqb_eq (a b : lineId) : lineId_eqb a b = true -> a = b.
Proof. destruct a, b; cbn; intros H; try reflexivity; discriminate H. Qed.

Lemma Line_draw_state (prog : Z) (P V : mat4) : maintains eq (Line_draw prog P V).
Proof.
  unfold Line_draw. repeat maintains_step (@eq_refl Line) (@eq_trans Line).
Qed.

Lemma same_lines_refl (s : SimScene) : same_lines s s.
Proof. intros id. reflexivity. Qed.

Lemma same_lines_trans (s1 s2 s3 : SimScene) :
  same_lines s1 s2 -> same_lines s2 s3 -> same_lines s1 s3.
Proof. intros H1 H2 id. rewrite H1. apply H2. Qed.

Lemma on_line_draw_lines (id : lineId) (prog : Z) (P V : mat4) :
  maintains same_lines (on_line id (Line_draw prog P V)).
Proof.
  unfold on_line. apply maintains_zoom_id; [apply Line_draw_state|].
  intros s j. cbn [lines set_lines].
  destruct (lineId_eqb j id) eqn:E; [|reflexivity].
  apply lineId_eqb_eq in E. subst j. reflexivity.
Qed.

(** [render] leaves every line as it is. *)
Lemma render_lines (P mv : mat4) (e : vec3) (s : SimScene) (id : lineId) :
  lines (state_of (render P mv e s)) id = lines s id.
Proof.
  revert s id. change (maintains same_lines (render P mv e)).
  unfold render.
  repeat first [ apply on_line_draw_lines
               | maintains_step same_lines_refl same_lines_trans ].
  apply maintains_zoom_id; [apply Cave_draw_state|].
  intros s id. reflexivity.
Qed.

(** [preRender] stores new endpoints in the seven lines of the current eye
    and sets their flag: false for eye 0, true otherwise.  The names of
    their buffers and the other lines are untouched. *)
Lemma preRender_lines (P mv : mat4) (f : Z) (vp : ovrRecti) (e : vec3) (s : SimScene)
    (id : lineId) :
  lines (state_of (preRender P mv f vp e s)) id
  = if (curEyeIdx s =? 0)
    then (if is_right_line id then lines s id
          else mkLine (VAO (lines s id)) (VBO (lines s id)) false
                      (Line_toWorld (lines s id)))
    else (if is_right_line id
          then mkLine (VAO (lines s id)) (VBO (lines s id)) true
                      (Line_toWorld (lines s id))
          else lines s id).
Proof.
  destruct s. unfold preRender, state_of.
  destruct id; run_scene; split_conds; reflexivity.
Qed.


(** The scene one iteration of the eye loop leaves: [preRender] and then
    [render], from the scene with the current eye set. *)
Lemma simScene_draw_eye (ep : PerEye ovrPosef) (eye : ovrEyeType) (a : SimApp) :
  exists P mv f vp e P' mv' e',
    simScene (state_of (draw_eye ep eye a))
    = state_of (render P' mv' e'
        (state_of (preRender P mv f vp e (set_curEyeIdx (eye_index eye) (simScene a))))).
Proof.
  rewrite draw_eye_run. cbv zeta. unfold state_of at 1. cbn [fst snd].
  rewrite renderScene_run. cbv zeta. unfold state_of at 1. cbn [fst snd].
  rewrite offscreenRender_run. cbv zeta. unfold state_of at 2 4. cbn [fst snd].
  cbn [simScene set_simScene].
  rewrite ?simScene_offscreen_app, ?simScene_before_offscreen.
  do 8 eexists. reflexivity.
Qed.

Lemma draw_eye_lines (ep : PerEye ovrPosef) (eye : ovrEyeType) (a : SimApp) (id : lineId) :
  lines (simScene (state_of (draw_eye ep eye a))) id
  = if eye_eqb eye ovrEye_Left
    then (if is_right_line id then lines (simScene a) id
          else mkLine (VAO (lines (simScene a) id)) (VBO (lines (simScene a) id)) false
                      (Line_toWorld (lines (simScene a) id)))
    else (if is_right_line id
          then mkLine (VAO (lines (simScene a) id)) (VBO (lines (simScene a) id)) true
                      (Line_toWorld (lines (simScene a) id))
          else lines (simScene a) id).
Proof.
  destruct (simScene_draw_eye ep eye a) as (P & mv & f & vp & e & P' & mv' & e' & ->).
  rewrite render_lines, preRender_lines.
  destruct eye; reflexivity.
Qed.

Lemma update_buttons_lines (i : ovrInputState) (s : SimScene) :
  lines (update_buttons i s) = lines s.
Proof.
  unfold update_buttons. destruct s. cbn -[Z.rem Z.add Rgtb button_down].
  destruct (button_down i ovrButton_A), buttonAPressed0,
           (button_down i ovrButton_B), buttonBPressed0,
           (button_down i ovrButton_X), buttonXPressed0,
           (Rgtb (atRight (HandTrigger i)) (1 / 2)); reflexivity.
Qed.

Lemma update_cube_lines (i : ovrInputState) (s : SimScene) :
  lines (update_cube i s) = lines s.
Proof.
  unfold update_cube. destruct s. cbn -[Rgtb Rltb button_down].
  destruct (button_down i ovrButton_RThumb), (button_down i ovrButton_LThumb),
           (Rgtb (o2x (atRight (Thumbstick i))) (1 / 2)),
           (Rltb (o2x (atRight (Thumbstick i))) (- (1 / 2))),
           (Rgtb (o2y (atRight (Thumbstick i))) (1 / 2)),
           (Rltb (o2y (atRight (Thumbstick i))) (- (1 / 2))),
           (Rgtb (o2x (atLeft (Thumbstick i))) (1 / 2)),
           (Rltb (o2x (atLeft (Thumbstick i))) (- (1 / 2))); reflexivity.
Qed.

Lemma updated_lines (inp : FrameInput) (a : SimApp) :
  lines (simScene (updated inp a)) = lines (simScene a).
Proof.
  rewrite updated_closed.
  destruct (set_simScene_fields (updated_scene inp (simScene a)) (updated_hand inp a))
    as (_ & _ & _ & _ & _ & _ & ->).
  unfold updated_scene. destruct (inputState inp) as [i|]; [|reflexivity].
  cbn [lines set_cube_toWorld]. rewrite update_cube_lines. apply update_buttons_lines.
Qed.


(** *** The colours [render] draws the lines in *)

Lemma on_line_colour (id : lineId) (prog : Z) (P V : mat4) (s : SimScene) :
  collect ambient_colour (trace_of (on_line id (Line_draw prog P V) s))
  = [if pressed (lines s id) then red else green].
Proof.
  unfold on_line. rewrite trace_zoom. unfold Line_draw.
  rewrite trace_bind. cbn [get trace_of state_of result_of fst snd app]. cbv beta.
  destruct (pressed (lines s id)); reflexivity.
Qed.

Lemma colour_step (id : lineId) (prog : Z) (P V : mat4) (k : unit -> Act SimScene unit)
    (s s0 : SimScene) (cs : list (R * R * R)) :
  same_lines s s0 ->
  (forall s', same_lines s' s0 -> collect ambient_colour (trace_of (k tt s')) = cs) ->
  collect ambient_colour (trace_of (bind (on_line id (Line_draw prog P V)) k s))
  = (if pressed (lines s0 id) then red else green) :: cs.
Proof.
  intros Hs Hk. rewrite trace_bind, collect_app, on_line_colour, (Hs id).
  cbn [app]. f_equal.
  destruct (result_of (on_line id (Line_draw prog P V) s)).
  apply Hk. eapply same_lines_trans; [apply on_line_draw_lines | exact Hs].
Qed.

Lemma colour_skip {A} (m : Act SimScene A) (k : A -> Act SimScene unit)
    (s s0 : SimScene) (cs : list (R * R * R)) :
  emits_only (fun e => ambient_colour e = None) m -> maintains same_lines m ->
  same_lines s s0 ->
  (forall a s', same_lines s' s0 -> collect ambient_colour (trace_of (k a s')) = cs) ->
  collect ambient_colour (trace_of (bind m k s)) = cs.
Proof.
  intros He Hm Hs Hk. rewrite trace_bind, collect_app, (collect_of_emits _ _ _ He).
  cbn [app]. apply Hk. eapply same_lines_trans; [apply Hm | exact Hs].
Qed.

Lemma render_colours (P mv : mat4) (e : vec3) (s : SimScene) :
  collect ambient_colour (trace_of (render P mv e s))
  = map (fun id => if pressed (lines s id) then red else green) all_lines.
Proof.
  unfold render, all_lines. cbn [map].
  pose proof (same_lines_refl s) as Hs. revert Hs. generalize s at 1 3 as s1.
  intros s1 Hs.
  do 7 (eapply colour_skip;
        [ emits
        | first [ unfold on_cave; apply maintains_zoom; intros ? ? ?; reflexivity
                | repeat maintains_step same_lines_refl same_lines_trans ]
        | exact Hs
        | clear s1 Hs; intros ? s1 Hs; cbv beta ]).
  do 13 (eapply colour_step; [exact Hs | clear s1 Hs; intros s1 Hs]).
  rewrite on_line_colour, (Hs _). reflexivity.
Qed.

Lemma fourth_corner_to_world (m : mat4) :
  vadd (to_world m 2 (-2) (-2))
       (vsub (to_world m (-2) 2 (-2)) (to_world m (-2) (-2) (-2)))
  = to_world m 2 2 (-2).
Proof.
  destruct m as [[] [] [] []].
  cbv [to_world mul_vec vadd vsub add4 scale4 col0 col1 col2 col3
       v4x v4y v4z v4w v3x v3y v3z].
  f_equal; ring.
Qed.

Lemma preRender_endpoints (P mv : mat4) (f : Z) (vp : ovrRecti) (e : vec3) (s : SimScene) :
  collect line_endpoints (trace_of (preRender P mv f vp e s))
  = map (fun c => (c, e)) (line_starts (toWorld (cave s))).
Proof.
  destruct s. unfold preRender, trace_of, line_starts.
  run_scene; split_conds; reflexivity.
Qed.

Lemma reroll_cave (s : SimScene) : cave (reroll s) = cave s.
Proof.
  unfold reroll. destruct ((buttonX s =? 1) && negb (randomGened s)); [|reflexivity].
  destruct s. reflexivity.
Qed.

Lemma preRender_scene_draws (P mv : mat4) (f : Z) (vp : ovrRecti) (e : vec3) (s : SimScene) :
  collect scene_draw_args (trace_of (preRender P mv f vp e s))
  = face_draws (reroll s) mv e face_left ++ face_draws (reroll s) mv e face_right
    ++ face_draws (reroll s) mv e face_bottom.
Proof.
  unfold face_draws. rewrite reroll_cave.
  destruct s. unfold preRender, reroll, face_guard, face_projection, face_corners, trace_of.
  run_scene. rewrite ?Z.add_0_r. split_conds; reflexivity.
Qed.

Lemma preRender_silent_colour P mv f vp e s :
  collect ambient_colour (trace_of (preRender P mv f vp e s)) = [].
Proof. apply collect_of_emits. emits. Qed.

Lemma eye_trace_colours (ep : PerEye ovrPosef) (eye : ovrEyeType) (a : SimApp) :
  collect ambient_colour (eye_trace ep eye a)
  = map (fun id =>
           if eye_eqb eye ovrEye_Left
           then (if is_right_line id
                 then (if pressed (lines (simScene a) id) then red else green)
                 else green)
           else (if is_right_line id then red
                 else (if pressed (lines (simScene a) id) then red else green)))
        all_lines.
Proof.
  unfold eye_trace. cbv zeta.
  rewrite !collect_app, preRender_silent_colour, render_colours.
  cbn [collect ambient_colour app].
  apply map_ext. intros id. rewrite preRender_lines.
  cbn [curEyeIdx set_curEyeIdx].
  destruct eye; cbn [eye_index eye_eqb Z.eqb]; destruct (is_right_line id); reflexivity.
Qed.

End LineFacts.

Section LineTheorems.
Import Glm Ovr Gl OffAxis Scene App Recorder Aux Watch LineSpec.
Local Open Scope Z_scope.

(** After any frame, from any state, every line carries the flag of its
    eye: [pressed] is false for the seven lines of the left eye and true
    for the seven of the right eye.  The frame changes nothing else of a
    line that the scene keeps: its vertex array, its buffer and its
    matrix are those it had. *)
Theorem lines_carry_the_flag_of_their_eye (inp : FrameInput) (a : SimApp) (id : lineId) :
  let l := lines (simScene a) id in
  lines (simScene (state_of (frame inp a))) id
  = mkLine (VAO l) (VBO l) (is_right_line id) (Line_toWorld l).
Proof.
  cbv zeta. rewrite frame_state. cbv zeta.
  rewrite !draw_eye_lines, updated_lines. cbn [eye_eqb].
  destruct (is_right_line id); reflexivity.
Qed.


(** The colours a frame draws the lines in.  The composite pass of the
    left eye comes first: it draws the seven lines of the left eye green
    and the seven of the right eye in the colour of the flag they held
    when the frame began.  The pass of the right eye follows: left-eye
    lines green, right-eye lines red.  No other call of the frame sets the
    ambient colour. *)
Theorem frame_line_colours (inp : FrameInput) (a : SimApp) :
  collect ambient_colour (trace_of (frame inp a))
  = map (fun id => flag_colour (is_right_line id && pressed (lines (simScene a) id)))
        all_lines
    ++ map (fun id => flag_colour (is_right_line id)) all_lines.
Proof.
  rewrite frame_trace. cbv zeta.
  rewrite !collect_app, !eye_trace_colours.
  unfold draw_head, draw_tail. cbn [collect ambient_colour app eye_eqb].
  rewrite app_nil_r. f_equal.
  - apply map_ext. intros id. rewrite updated_lines.
    destruct (is_right_line id), (pressed (lines (simScene a) id)); reflexivity.
  - apply map_ext. intros id. rewrite draw_eye_lines. cbn [eye_eqb].
    destruct (is_right_line id); reflexivity.
Qed.


(** The lines an offscreen pass stores.  Whatever the eye, the buttons and
    the pass's matrices, [preRender] stores seven lines, each from a corner
    of the CAVE to the eye position it was given; the corners are, in the
    world, seven of the eight corners of the cube with edge 4 about the
    CAVE's origin: all but (2, 2, 2).  The corner above the right face's
    far edge, which the code computes as pb + (pc - pa), is the corner
    (2, 2, -2) whatever the CAVE's matrix is. *)
Theorem lines_join_seven_corners_to_the_eye (P mv : mat4) (f : Z) (vp : ovrRecti)
    (e : vec3) (s : SimScene) :
  collect line_endpoints (trace_of (preRender P mv f vp e s))
  = map (fun c => (c, e)) (seven_corners (toWorld (cave s))).
Proof.
  rewrite preRender_endpoints.
  unfold line_starts, seven_corners, face_corners.
  rewrite fourth_corner_to_world. reflexivity.
Qed.


(** What an offscreen pass draws the scene with.  [preRender] never uses
    the projection matrix it is passed.  For the left, the right and the
    bottom face, in this order, it draws the skybox and then the cube with
    the off-axis projection of that face as seen from the eye position it
    was given, and with the modelview matrix it was given; a face whose
    guard fails (the face blanked by the X-button challenge) gets neither
    draw. *)
Theorem offscreen_pass_ignores_its_projection (P mv : mat4) (f : Z) (vp : ovrRecti)
    (e : vec3) (s : SimScene) :
  collect scene_draw_args (trace_of (preRender P mv f vp e s))
  = flat_map (face_draws (reroll s) mv e) [face_left; face_right; face_bottom].
Proof.
  rewrite preRender_scene_draws. cbn [flat_map]. rewrite app_nil_r. reflexivity.
Qed.

End LineTheorems.

(* ================================================================== *)
(** * The view matrix of the composite pass                           *)
(* ================================================================== *)

Section ViewFacts.
Import Glm Ovr Gl OffAxis Scene App Recorder Aux Clip.
Local Open Scope R_scope.

(** The determinant [glm::inverse] divides by, for the matrix of a pose. *)
Lemma toGlm_determinant (p : ovrPosef) :
  let q := Orientation p in
  snd (cofactors (toGlm p))
  = 1 - 4 * (1 - (oqx q * oqx q + oqy q * oqy q + oqz q * oqz q + oqw q * oqw q))
          * (oqx q * oqx q + oqy q * oqy q + oqz q * oqz q).
Proof.
  destruct p as [[qx qy qz qw] [px py pz]].
  cbv [toGlm mat4_cast mul mul_vec add4 sub4 mul4 scale4 translate_m mat4_diag mat4_of
       toGlm_vec cofactors fst snd
       Position Orientation col0 col1 col2 col3 v4x v4y v4z v4w
       oqx oqy oqz oqw ovx ovy ovz v3x v3y v3z]. ring.
Qed.

Lemma inverse_own_column (m : mat4) :
  snd (cofactors m) <> 0 -> v4w (col3 m) = 1 ->
  clip (inverse m) (mkVec3 (v4x (col3 m)) (v4y (col3 m)) (v4z (col3 m)))
  = mkVec4 0 0 0 1.
Proof.
  destruct m as [[a0 a1 a2 a3] [b0 b1 b2 b3] [c0 c1 c2 c3] [d0 d1 d2 d3]].
  cbn [col3 v4x v4y v4z v4w]. intros Hd ->. revert Hd.
  cbv [clip inverse cofactors fst snd mul_vec add4 sub4 mul4 scale4
       col0 col1 col2 col3 v4x v4y v4z v4w v3x v3y v3z].
  intros Hd. apply vec4_eq; cbv [v4x v4y v4z v4w]; field;
    intros E; apply Hd; rewrite <- E; ring.
Qed.

Lemma inverse_pose_eye (p : ovrPosef) :
  unit_quat (Orientation p) ->
  clip (inverse (toGlm p)) (toGlm_vec (Position p)) = mkVec4 0 0 0 1.
Proof.
  intros Hq.
  assert (Hd : snd (cofactors (toGlm p)) <> 0).
  { rewrite toGlm_determinant. cbv zeta. unfold unit_quat in Hq. rewrite Hq. lra. }
  pose proof (inverse_own_column (toGlm p) Hd) as H.
  rewrite toGlm_col3 in H. cbn [v4x v4y v4z v4w] in H.
  apply H. reflexivity.
Qed.

Lemma frame_render_views (inp : FrameInput) (a : SimApp) :
  exists PL PR,
    collect render_args (trace_of (frame inp a))
    = [(PL, inverse (toGlm (atLeft (eyePoses inp))),
        toGlm_vec (Position (atLeft (eyePoses inp))));
       (PR, inverse (toGlm (atRight (eyePoses inp))),
        toGlm_vec (Position (atRight (eyePoses inp))))].
Proof.
  rewrite frame_trace. cbv zeta.
  rewrite !collect_app, !eye_trace_render.
  unfold draw_head, draw_tail. cbn [collect render_args app at_eye].
  eexists _, _. reflexivity.
Qed.

End ViewFacts.

Section ViewTheorems.
Import Glm Ovr Gl OffAxis Scene App Recorder Aux Clip.
Local Open Scope R_scope.

(** The composite pass looks out of the eye.  When the orientations the
    tracking runtime reports are unit quaternions, the view matrix each
    call of [SimScene::render] receives in a frame (the inverse
    [renderScene] takes of the head pose) carries the eye position the
    same call receives to the origin of view space. *)
Theorem composite_view_puts_eye_at_origin (inp : FrameInput) (a : SimApp) :
  unit_quat (Orientation (atLeft (eyePoses inp))) ->
  unit_quat (Orientation (atRight (eyePoses inp))) ->
  Forall (fun c => clip (snd (fst c)) (snd c) = mkVec4 0 0 0 1)
         (collect render_args (trace_of (frame inp a))) /\
  Datatypes.length (collect render_args (trace_of (frame inp a))) = 2%nat.
Proof.
  intros HL HR. destruct (frame_render_views inp a) as (PL & PR & ->).
  split; [|reflexivity].
  repeat constructor; cbn [fst snd]; apply inverse_pose_eye; assumption.
Qed.

Lemma ex_unit_quat : unit_quat Examples.ex_quat_id.
Proof. unfold unit_quat, Examples.ex_quat_id. cbn [oqx oqy oqz oqw]. lra. Qed.

Lemma composite_view_witness :
  unit_quat (Orientation (atLeft (eyePoses Examples.ex_f4))) /\
  unit_quat (Orientation (atRight (eyePoses Examples.ex_f4))) /\
  Forall (fun c => clip (snd (fst c)) (snd c) = mkVec4 0 0 0 1)
         (collect render_args (trace_of (frame Examples.ex_f4 Examples.ex_app))) /\
  Datatypes.length (collect render_args (trace_of (frame Examples.ex_f4 Examples.ex_app)))
  = 2%nat.
Proof.
  split; [exact ex_unit_quat|]. split; [exact ex_unit_quat|].
  exact (composite_view_puts_eye_at_origin Examples.ex_f4 Examples.ex_app
           ex_unit_quat ex_unit_quat).
Defined.

End ViewTheorems.

(* ================================================================== *)
(** * The pose the offscreen pass renders with                        *)
(* ================================================================== *)

Section PassFacts.
Import Glm Ovr Gl OffAxis Scene App Recorder Aux Watch Examples.
Local Open Scope Z_scope.

(** What a frame leaves of the members the substituted view reads. *)
Lemma frame_hand_args (inp : FrameInput) (a : SimApp) (eye : ovrEyeType) :
  rightHandTriggerPressed (simScene (state_of (frame inp a)))
  = rightHandTriggerPressed (simScene (updated inp a)) /\
  hand_args (state_of (frame inp a)) eye
  = (inverse (set_col3 (mat4_diag 1) (hand_column (updated inp a))),
     substituted_eyePos (hand_column (updated inp a)) a eye).
Proof.
  set (a0 := updated inp a). set (a' := state_of (frame inp a)).
  destruct (frame_scene inp a) as (Hf & _ & Hc). fold a' a0 in Hf, Hc.
  apply scene_flags_inv' in Hf. destruct Hf as (FB & _ & FT & _).
  apply config_inv in Hc. destruct Hc as (_ & _ & _ & _ & _ & HD).
  destruct (frame_hand inp a) as (_ & HL & HR). cbv zeta in HL, HR. fold a' a0 in HL, HR.
  destruct (updated_config inp a) as (_ & _ & _ & _ & L0). fold a0 in L0.
  assert (Hcol : hand_column a' = hand_column a0).
  { apply hand_column_ext.
    - unfold getTrackingState. exact FB.
    - exact HR.
    - intros Hne. rewrite HL, L0. apply Z.eqb_neq in Hne. rewrite Hne, andb_false_r.
      reflexivity. }
  split; [exact FT|].
  unfold hand_args, substituted_eyePos. rewrite Hcol, HD. reflexivity.
Qed.

(** What a frame hands to [preRender], read off the state it leaves. *)
Lemma frame_pass_args (inp : FrameInput) (a : SimApp) :
  let a' := state_of (frame inp a) in
  let pL := resolved_pose (eyePoses inp) ovrEye_Left (updated inp a) in
  let pR := resolved_pose (eyePoses inp) ovrEye_Right (updated inp a) in
  collect preRender_args (trace_of (frame inp a))
  = if rightHandTriggerPressed (simScene a')
    then [hand_args a' ovrEye_Left; hand_args a' ovrEye_Right]
    else [view_args pL; view_args pR].
Proof.
  cbv zeta. rewrite frame_preRender_args. cbv zeta.
  destruct (frame_hand_args inp a ovrEye_Left) as (-> & ->).
  destruct (frame_hand_args inp a ovrEye_Right) as (_ & ->).
  reflexivity.
Qed.

(** While the mode stays FROZEN, every frame of a run renders its
    offscreen pass with the poses stored when the run began, unless the
    hand is substituted. *)
Lemma frozen_run_pass (inps : list FrameInput) (a : SimApp) :
  initLastEye a = mkPerEye true true ->
  Forall (fun m => m <> 0) (tracking_modes inps a) ->
  Forall (fun fr =>
            collect preRender_args (snd fr)
            = if rightHandTriggerPressed (simScene (fst fr))
              then [hand_args (fst fr) ovrEye_Left; hand_args (fst fr) ovrEye_Right]
              else [view_args (atLeft (lastEye a)); view_args (atRight (lastEye a))])
         (run inps a).
Proof.
  revert a. induction inps as [|inp rest IH]; intros a Hi Hm; cbn [run].
  - constructor.
  - cbn [tracking_modes] in Hm. inversion Hm as [|m ms Hm0 Hrest]; subst.
    destruct (frame_poses inp a) as (_ & Hlast & _ & Hinit & _).
    pose proof (frame_pass_args inp a) as Hargs.
    cbv zeta in Hargs, Hlast.
    rewrite !(resolved_pose_frozen _ _ _ Hm0), !held_pose_updated in Hargs, Hlast.
    rewrite !(held_pose_init _ _ _ Hi) in Hargs, Hlast. cbn [at_eye] in Hargs, Hlast.
    constructor.
    + cbn [fst snd]. exact Hargs.
    + specialize (IH _ Hinit Hrest). rewrite Hlast in IH. exact IH.
Qed.

(** From its first frame on, an eye's orientation in the offscreen pass is
    the one stored then, unless the hand is substituted. *)
Lemma orientation_run_pass (inps : list FrameInput) (a : SimApp) :
  initLastEye a = mkPerEye true true ->
  Forall (fun fr => exists pL pR,
            let qL := mkOvrPosef (Orientation (atLeft (lastEye a))) pL in
            let qR := mkOvrPosef (Orientation (atRight (lastEye a))) pR in
            collect offscreen_args (snd fr) = [pose_args qL; pose_args qR] /\
            renderEye (fst fr) = mkPerEye qL qR /\
            collect preRender_args (snd fr)
            = if rightHandTriggerPressed (simScene (fst fr))
              then [hand_args (fst fr) ovrEye_Left; hand_args (fst fr) ovrEye_Right]
              else [view_args qL; view_args qR])
         (run inps a).
Proof.
  revert a. induction inps as [|inp rest IH]; intros a Hi; cbn [run].
  - constructor.
  - destruct (frame_poses inp a) as (Hargs & Hlast & Hrender & Hinit & _).
    pose proof (frame_pass_args inp a) as Hpass.
    cbv zeta in Hargs, Hlast, Hrender, Hpass.
    set (a0 := updated inp a) in *. set (ep := eyePoses inp) in *.
    pose proof (resolved_pose_orientation ep ovrEye_Left a0) as HoL.
    pose proof (resolved_pose_orientation ep ovrEye_Right a0) as HoR.
    unfold a0, ep in HoL, HoR.
    rewrite held_pose_updated, (held_pose_init _ _ _ Hi) in HoL.
    rewrite held_pose_updated, (held_pose_init _ _ _ Hi) in HoR.
    cbn [at_eye] in HoL, HoR. fold a0 ep in HoL, HoR.
    constructor.
    + cbn [fst snd]. exists (Position (resolved_pose ep ovrEye_Left a0)),
                        (Position (resolved_pose ep ovrEye_Right a0)).
      cbv zeta. rewrite Hargs, Hrender, Hpass, <- HoL, <- HoR.
      destruct (resolved_pose ep ovrEye_Left a0), (resolved_pose ep ovrEye_Right a0).
      repeat split; reflexivity.
    + specialize (IH _ Hinit). rewrite Hlast in IH. cbn [atLeft atRight] in IH.
      rewrite HoL, HoR in IH. exact IH.
Qed.

End PassFacts.

Section PassExamples.
Import Glm Ovr Gl OffAxis Scene App Recorder Aux Watch Examples.
Local Open Scope Z_scope.

(** The first entry of the view matrix of a pose that looks ahead, and of
    one that has turned around. *)
Lemma view_entry_ahead (p : ovrVector3f) :
  first_head_entry [view_args (mkOvrPosef ex_quat_id p); view_args (mkOvrPosef ex_quat_id p)]
  = 1%R.
Proof.
  destruct p as [x y z].
  cbv [first_head_entry view_args inverse cofactors fst snd toGlm mat4_cast mul mul_vec
       add4 sub4 mul4 scale4 translate_m mat4_diag mat4_of toGlm_vec Position Orientation
       ex_quat_id col0 col1 col2 col3 v4x v4y v4z v4w oqx oqy oqz oqw ovx ovy ovz
       v3x v3y v3z].
  field.
Qed.

Lemma view_entry_turned (pL pR : ovrVector3f) :
  first_head_entry [view_args (mkOvrPosef ex_quat_turn pL);
                    view_args (mkOvrPosef ex_quat_turn pR)]
  = (-1)%R.
Proof.
  destruct pL as [x y z].
  cbv [first_head_entry view_args inverse cofactors fst snd toGlm mat4_cast mul mul_vec
       add4 sub4 mul4 scale4 translate_m mat4_diag mat4_of toGlm_vec Position Orientation
       ex_quat_turn col0 col1 col2 col3 v4x v4y v4z v4w oqx oqy oqz oqw ovx ovy ovz
       v3x v3y v3z].
  field.
Qed.

(** A frame with nothing touched leaves the trigger flag down. *)
Lemma idle_no_trigger (hand head : ovrPosef) (a : SimApp) :
  rightHandTriggerPressed (simScene (state_of (frame (ex_frame ex_idle hand head) a)))
  = false.
Proof.
  destruct (frame_hand_args (ex_frame ex_idle hand head) a ovrEye_Left) as (-> & _).
  destruct (frame_summary (ex_frame ex_idle hand head) ex_idle a eq_refl)
    as (_ & Htr & _).
  cbv zeta in Htr. rewrite Htr. apply Rgtb_false.
  cbn [ex_idle HandTrigger atRight]. lra.
Qed.

End PassExamples.

Section PassClaims.
Import Glm Ovr Gl OffAxis Scene App Recorder Aux Watch Examples.
Local Open Scope Z_scope.

(** C3 (amended).  The pose the offscreen pass works with is what
    [preRender] receives.  While the tracking mode is FROZEN, every frame
    hands [offscreenRender], for each eye, the pose that eye held when the
    FROZEN run began (its stored pose, or the first pose observed when the
    eye had not been drawn before), whatever the tracked head poses of
    those frames; and unless the hand is substituted in that frame,
    [preRender] renders with that pose: its view matrix is the inverse of
    the pose's matrix and its eye position is the pose's position.  In a
    LIVE frame the same holds of the current tracked position together
    with the orientation the eye holds -- not the current tracked
    orientation.  In a frame with the hand substituted, in either mode,
    [preRender] receives the substituted view and eye position instead, in
    which no pose of the head enters. *)
Theorem tracking_mode_poses (inp1 : FrameInput) (rest : list FrameInput) (a : SimApp) :
  let ep := eyePoses inp1 in
  let hL := held_pose ep ovrEye_Left a in
  let hR := held_pose ep ovrEye_Right a in
  (Forall (fun m => m <> 0) (tracking_modes (inp1 :: rest) a) ->
   Forall (fun fr =>
             collect offscreen_args (snd fr) = [pose_args hL; pose_args hR] /\
             collect preRender_args (snd fr)
             = if rightHandTriggerPressed (simScene (fst fr))
               then [hand_args (fst fr) ovrEye_Left; hand_args (fst fr) ovrEye_Right]
               else [view_args hL; view_args hR])
          (run (inp1 :: rest) a))
  /\
  (getTrackingState (updated inp1 a) = 0 ->
   let a' := state_of (frame inp1 a) in
   let pL := mkOvrPosef (Orientation hL) (Position (atLeft ep)) in
   let pR := mkOvrPosef (Orientation hR) (Position (atRight ep)) in
   collect offscreen_args (trace_of (frame inp1 a)) = [pose_args pL; pose_args pR] /\
   collect preRender_args (trace_of (frame inp1 a))
   = if rightHandTriggerPressed (simScene a')
     then [hand_args a' ovrEye_Left; hand_args a' ovrEye_Right]
     else [view_args pL; view_args pR]).
Proof.
  cbv zeta. split.
  - intros Hm. cbn [tracking_modes] in Hm. inversion Hm as [|m ms Hm0 Hrest]; subst.
    cbn [run].
    destruct (frame_poses inp1 a) as (Hargs & Hlast & _ & Hinit & _).
    pose proof (frame_pass_args inp1 a) as Hpass.
    cbv zeta in Hargs, Hlast, Hpass.
    rewrite !(resolved_pose_frozen _ _ _ Hm0), !held_pose_updated in Hargs, Hlast, Hpass.
    constructor.
    + cbn [fst snd]. split; [exact Hargs | exact Hpass].
    + pose proof (frozen_run rest _ Hinit Hrest) as H1.
      pose proof (frozen_run_pass rest _ Hinit Hrest) as H2.
      rewrite Hlast in H1, H2. cbn [atLeft atRight] in H1, H2.
      apply Forall_and; assumption.
  - intros Hlive.
    pose proof (frame_pass_args inp1 a) as Hpass. cbv zeta in Hpass.
    rewrite frame_offscreen. cbv zeta.
    rewrite !(resolved_pose_live _ _ _ Hlive), !held_pose_updated in *.
    split; [reflexivity | exact Hpass].
Qed.

Lemma tracking_mode_poses_witness :
  Forall (fun m => m <> 0) (tracking_modes ex_two_heads ex_frozen) /\
  getTrackingState (updated (ex_frame ex_idle (ex_hand 0) ex_head_b) ex_app) = 0 /\
  Forall (fun fr =>
            collect offscreen_args (snd fr) = [pose_args ex_head_a; pose_args ex_head_a] /\
            collect preRender_args (snd fr)
            = if rightHandTriggerPressed (simScene (fst fr))
              then [hand_args (fst fr) ovrEye_Left; hand_args (fst fr) ovrEye_Right]
              else [view_args ex_head_a; view_args ex_head_a])
         (run ex_two_heads ex_frozen) /\
  (let a' := state_of (frame (ex_frame ex_idle (ex_hand 0) ex_head_b) ex_app) in
   collect offscreen_args (trace_of (frame (ex_frame ex_idle (ex_hand 0) ex_head_b) ex_app))
   = [pose_args ex_head_b; pose_args ex_head_b] /\
   collect preRender_args (trace_of (frame (ex_frame ex_idle (ex_hand 0) ex_head_b) ex_app))
   = if rightHandTriggerPressed (simScene a')
     then [hand_args a' ovrEye_Left; hand_args a' ovrEye_Right]
     else [view_args ex_head_b; view_args ex_head_b]).
Proof.
  assert (H1 : Forall (fun m => m <> 0) (tracking_modes ex_two_heads ex_frozen)).
  { unfold ex_two_heads. cbn [tracking_modes].
    destruct (idle_tracking (ex_frame ex_idle (ex_hand 0) ex_head_a) ex_idle ex_frozen
                eq_refl eq_refl eq_refl) as (E1 & E2 & E3).
    destruct (idle_tracking (ex_frame ex_idle (ex_hand 0) ex_head_b) ex_idle _
                eq_refl eq_refl E3) as (E4 & _).
    rewrite E4, E2, E1. repeat constructor; discriminate. }
  assert (H2 : getTrackingState (updated (ex_frame ex_idle (ex_hand 0) ex_head_b) ex_app) = 0).
  { destruct (idle_tracking (ex_frame ex_idle (ex_hand 0) ex_head_b) ex_idle ex_app
                eq_refl eq_refl eq_refl) as (E1 & _).
    rewrite E1. reflexivity. }
  split; [exact H1|]. split; [exact H2|]. split.
  - exact (proj1 (tracking_mode_poses (ex_frame ex_idle (ex_hand 0) ex_head_a)
                    [ex_frame ex_idle (ex_hand 0) ex_head_b] ex_frozen) H1).
  - exact (proj2 (tracking_mode_poses (ex_frame ex_idle (ex_hand 0) ex_head_b) []
                    ex_app) H2).
Defined.

(** C3, as stated, fails in LIVE mode.  Two frames with nothing touched,
    starting from the initial state: the head looks ahead in the first and
    has turned around in the second.  The mode is LIVE and the hand is not
    substituted; the offscreen pass of the second frame still receives the
    orientation of the first frame, and [preRender] renders with it: its
    view matrix is not the inverse of the current tracked pose.  Only the
    position is the current one. *)
Lemma live_pass_keeps_first_orientation :
  let f_a := ex_frame ex_idle (ex_hand 0) ex_head_a in
  let f_b := ex_frame ex_idle (ex_hand 0) ex_head_b in
  let a1 := state_of (frame f_a ex_app) in
  getTrackingState (updated f_b a1) = 0 /\
  collect offscreen_args (trace_of (frame f_b a1))
  = [pose_args (mkOvrPosef ex_quat_id (Position ex_head_b));
     pose_args (mkOvrPosef ex_quat_id (Position ex_head_b))] /\
  collect offscreen_args (trace_of (frame f_b a1))
  <> [pose_args ex_head_b; pose_args ex_head_b] /\
  rightHandTriggerPressed (simScene (state_of (frame f_b a1))) = false /\
  collect preRender_args (trace_of (frame f_b a1))
  = [view_args (mkOvrPosef ex_quat_id (Position ex_head_b));
     view_args (mkOvrPosef ex_quat_id (Position ex_head_b))] /\
  collect preRender_args (trace_of (frame f_b a1))
  <> [view_args ex_head_b; view_args ex_head_b].
Proof.
  cbv zeta.
  set (f_a := ex_frame ex_idle (ex_hand 0) ex_head_a).
  set (f_b := ex_frame ex_idle (ex_hand 0) ex_head_b).
  set (a1 := state_of (frame f_a ex_app)).
  destruct (idle_tracking f_a ex_idle ex_app eq_refl eq_refl eq_refl) as (E1 & E2 & E3).
  fold a1 in E2, E3.
  destruct (idle_tracking f_b ex_idle a1 eq_refl eq_refl E3) as (E4 & _).
  assert (Hlive : getTrackingState (updated f_b a1) = 0).
  { rewrite E4, E2. reflexivity. }
  assert (Hlive0 : getTrackingState (updated f_a ex_app) = 0).
  { rewrite E1. reflexivity. }
  destruct (frame_poses f_a ex_app) as (_ & Hlast & _ & Hinit & _).
  cbv zeta in Hlast. fold a1 in Hlast, Hinit.
  rewrite !(resolved_pose_live _ _ _ Hlive0), !held_pose_updated in Hlast.
  assert (Hargs : collect offscreen_args (trace_of (frame f_b a1))
                  = [pose_args (mkOvrPosef ex_quat_id (Position ex_head_b));
                     pose_args (mkOvrPosef ex_quat_id (Position ex_head_b))]).
  { rewrite frame_offscreen. cbv zeta.
    rewrite !(resolved_pose_live _ _ _ Hlive), !held_pose_updated.
    rewrite !(held_pose_init _ _ _ Hinit), Hlast. reflexivity. }
  assert (Htr : rightHandTriggerPressed (simScene (state_of (frame f_b a1))) = false)
    by apply idle_no_trigger.
  assert (Hpass : collect preRender_args (trace_of (frame f_b a1))
                  = [view_args (mkOvrPosef ex_quat_id (Position ex_head_b));
                     view_args (mkOvrPosef ex_quat_id (Position ex_head_b))]).
  { rewrite frame_pass_args. cbv zeta. rewrite Htr.
    rewrite !(resolved_pose_live _ _ _ Hlive), !held_pose_updated.
    rewrite !(held_pose_init _ _ _ Hinit), Hlast. reflexivity. }
  split; [exact Hlive|]. split; [exact Hargs|]. split; [|split; [exact Htr|split]].
  - rewrite Hargs. intros H. apply (f_equal first_head_entry) in H.
    cbv [first_head_entry pose_args toGlm mat4_cast mul mul_vec add4 scale4 translate_m
         mat4_diag mat4_of toGlm_vec Position Orientation ex_head_b ex_quat_id ex_quat_turn
         col0 col1 col2 col3 v4x v4y v4z v4w oqx oqy oqz oqw ovx ovy ovz v3x v3y v3z] in H.
    lra.
  - exact Hpass.
  - rewrite Hpass. intros H. apply (f_equal first_head_entry) in H.
    unfold ex_head_b in H at 3 4.
    rewrite view_entry_ahead, view_entry_turned in H. lra.
Qed.

(** C10 (amended).  From an eye's first frame on, in LIVE and in FROZEN
    mode alike, the pose handed to [offscreenRender] has the orientation
    observed on that first frame: [renderEye] keeps it, and only its
    position is ever replaced.  In a frame without the hand substituted
    [preRender] renders with that pose.  In a frame with the hand
    substituted [preRender] renders with no orientation at all: its view is
    the inverse of the identity matrix carrying the hand column.  Either
    way no rotation of the head after the first frame reaches the
    offscreen pass. *)
Theorem orientation_fixed_after_first_frame
    (inp1 : FrameInput) (rest : list FrameInput) (a : SimApp) :
  initLastEye a = mkPerEye false false ->
  Forall (fun fr => exists pL pR,
            let qL := mkOvrPosef (Orientation (atLeft (eyePoses inp1))) pL in
            let qR := mkOvrPosef (Orientation (atRight (eyePoses inp1))) pR in
            collect offscreen_args (snd fr) = [pose_args qL; pose_args qR] /\
            renderEye (fst fr) = mkPerEye qL qR /\
            collect preRender_args (snd fr)
            = if rightHandTriggerPressed (simScene (fst fr))
              then [hand_args (fst fr) ovrEye_Left; hand_args (fst fr) ovrEye_Right]
              else [view_args qL; view_args qR])
         (run (inp1 :: rest) a).
Proof.
  intros Hi. cbn [run].
  destruct (frame_poses inp1 a) as (Hargs & Hlast & Hrender & Hinit & _).
  pose proof (frame_pass_args inp1 a) as Hpass.
  cbv zeta in Hargs, Hlast, Hrender, Hpass.
  set (a0 := updated inp1 a) in *. set (ep := eyePoses inp1) in *.
  pose proof (resolved_pose_orientation ep ovrEye_Left a0) as HoL.
  pose proof (resolved_pose_orientation ep ovrEye_Right a0) as HoR.
  unfold a0, ep in HoL, HoR. rewrite held_pose_updated in HoL, HoR.
  unfold held_pose in HoL, HoR. rewrite Hi in HoL, HoR.
  cbn [at_eye atLeft atRight] in HoL, HoR.
  fold a0 ep in HoL, HoR.
  constructor.
  - cbn [fst snd]. exists (Position (resolved_pose ep ovrEye_Left a0)),
                      (Position (resolved_pose ep ovrEye_Right a0)).
    cbv zeta. rewrite Hargs, Hrender, Hpass, <- HoL, <- HoR.
    destruct (resolved_pose ep ovrEye_Left a0), (resolved_pose ep ovrEye_Right a0).
    repeat split; reflexivity.
  - pose proof (orientation_run_pass rest _ Hinit) as H.
    rewrite Hlast in H. cbn [atLeft atRight] in H. rewrite HoL, HoR in H. exact H.
Qed.

Lemma orientation_fixed_witness :
  initLastEye ex_app = mkPerEye false false /\
  Forall (fun fr => exists pL pR,
            let qL := mkOvrPosef ex_quat_id pL in
            let qR := mkOvrPosef ex_quat_id pR in
            collect offscreen_args (snd fr) = [pose_args qL; pose_args qR] /\
            renderEye (fst fr) = mkPerEye qL qR /\
            collect preRender_args (snd fr)
            = if rightHandTriggerPressed (simScene (fst fr))
              then [hand_args (fst fr) ovrEye_Left; hand_args (fst fr) ovrEye_Right]
              else [view_args qL; view_args qR])
         (run ex_two_heads ex_app).
Proof.
  split; [reflexivity|].
  exact (orientation_fixed_after_first_frame
           (ex_frame ex_idle (ex_hand 0) ex_head_a)
           [ex_frame ex_idle (ex_hand 0) ex_head_b] ex_app eq_refl).
Defined.

(** C10, as stated, fails in a frame with the hand substituted.  Two
    frames from the initial state, the head turned around in both: nothing
    is touched in the first, which is the first frame of both eyes, and the
    trigger is squeezed in the second, with the hand at (5, 1, 0).  The
    offscreen pass of the second frame renders with the plain translation
    by minus the hand position: it carries no orientation, so its view is
    not that of any pose with the orientation observed on the first
    frame. *)
Lemma substituted_pass_has_no_orientation :
  let f1 := ex_frame ex_idle (ex_hand 0) ex_head_b in
  let f2 := ex_frame ex_trigger (ex_hand 5) ex_head_b in
  let a1 := state_of (frame f1 ex_app) in
  initLastEye ex_app = mkPerEye false false /\
  Orientation (atLeft (eyePoses f1)) = ex_quat_turn /\
  Orientation (atRight (eyePoses f1)) = ex_quat_turn /\
  rightHandTriggerPressed (simScene (state_of (frame f2 a1))) = true /\
  collect preRender_args (trace_of (frame f2 a1))
  = [(translate (mkVec3 (-5) (-1) 0), mkVec3 (5 + - (3 / 100)) 1 0);
     (translate (mkVec3 (-5) (-1) 0), mkVec3 (5 + 3 / 100) 1 0)] /\
  forall pL pR,
    collect preRender_args (trace_of (frame f2 a1))
    <> [view_args (mkOvrPosef ex_quat_turn pL); view_args (mkOvrPosef ex_quat_turn pR)].
Proof.
  cbv zeta.
  set (f1 := ex_frame ex_idle (ex_hand 0) ex_head_b).
  set (f2 := ex_frame ex_trigger (ex_hand 5) ex_head_b).
  set (a1 := state_of (frame f1 ex_app)).
  destruct (idle_tracking f1 ex_idle ex_app eq_refl eq_refl eq_refl) as (_ & E2 & E3).
  fold a1 in E2, E3.
  destruct (idle_tracking f2 ex_trigger a1 eq_refl eq_refl E3) as (E4 & _).
  assert (Hlive : getTrackingState (updated f2 a1) = 0).
  { rewrite E4, E2. reflexivity. }
  destruct (frame_summary f2 ex_trigger a1 eq_refl) as (_ & Htr & Hh & _).
  cbv zeta in Htr, Hh.
  assert (Ht : rightHandTriggerPressed (simScene (updated f2 a1)) = true).
  { rewrite Htr. apply Rgtb_true. cbn [ex_trigger HandTrigger atRight]. lra. }
  assert (Hcol : hand_column (updated f2 a1) = mkVec4 5 1 0 1).
  { unfold hand_column. rewrite Hlive. cbn [Z.eqb]. rewrite Hh, toGlm_col3. reflexivity. }
  assert (Hoff : defaultHmdToEyeOffset a1 = mkPerEye (- (3 / 100))%R (3 / 100)%R).
  { destruct (frame_scene f1 ex_app) as (_ & _ & Hc). fold a1 in Hc.
    apply config_inv in Hc. destruct Hc as (_ & _ & _ & _ & _ & ->). reflexivity. }
  assert (Hpass : collect preRender_args (trace_of (frame f2 a1))
                  = [(translate (mkVec3 (-5) (-1) 0), mkVec3 (5 + - (3 / 100)) 1 0);
                     (translate (mkVec3 (-5) (-1) 0), mkVec3 (5 + 3 / 100) 1 0)]).
  { rewrite frame_preRender_args. cbv zeta. rewrite Ht, Hcol.
    unfold substituted_eyePos. rewrite Hoff. cbn [at_eye atLeft atRight v4x v4y v4z].
    rewrite set_col3_translate, inverse_translate. cbn [v3x v3y v3z].
    rewrite Ropp_0. reflexivity. }
  split; [reflexivity|]. split; [reflexivity|]. split; [reflexivity|].
  split; [destruct (frame_hand_args f2 a1 ovrEye_Left) as (-> & _); exact Ht|].
  split; [exact Hpass|].
  intros pL pR. rewrite Hpass. intros H. apply (f_equal first_head_entry) in H.
  rewrite view_entry_turned in H.
  cbv [first_head_entry translate translate_m mat4_diag mat4_of col0 v4x] in H. lra.
Qed.

End PassClaims.
